(** * Saphira: collection orchestration and retrieval engine

    A shallow embedding of the JavaScript sources of the repository:

    - [UserInterest]        the interest model (models/userInterest.js)
    - [DuckDuckGoAdapter]   the web-search adapter (sourceAdapters/duckDuckGoAdapter.js)
    - [SearchService]       the result cache (core/searchService.js)
    - [CollectionService]   the orchestrator and the knowledge store
                            (core/collectionService.js)
    - [CollectionRoutes]    the interactive start/stop routes
                            (examples/routes/collection-routes.js)

    Conventions.  A JavaScript string is a [string] (ASCII); a value that may
    be [undefined] is an [option]; an instant is a number of milliseconds
    since the epoch, in [Z]; an [async] function that may reject is a function
    into [Outcome]; what the code asks of the outside world (the network, the
    disk, the clock, [require], [uuidv4]) is a field of a record of oracles
    that every definition takes as an argument. *)

From Stdlib Require Import List String Ascii ZArith QArith Bool Lia Arith.
From Stdlib Require Import Sorting.Sorted Sorting.Permutation DecimalString.
From Stdlib Require Import Floats Uint63.
Import ListNotations.

Local Open Scope string_scope.
Local Open Scope list_scope.
Local Open Scope Z_scope.

(** String concatenation, written [+] in the sources. *)
Infix "+++" := String.append (right associativity, at level 60).

(* ================================================================== *)
(** * JavaScript primitives used by the sources *)
(* ================================================================== *)

Module JS.

(** The result of a call that may throw (or of a promise that may reject):
    errors are [Error] objects, of which only the message is read. *)
Inductive Outcome (A : Type) : Type :=
| Returned (value : A)
| Thrown (message : string).

Arguments Returned {A} value.
Arguments Thrown {A} message.

Definition bind {A B : Type} (c : Outcome A) (k : A -> Outcome B) : Outcome B :=
  match c with
  | Returned a => k a
  | Thrown m => Thrown m
  end.

(** [try { c } catch (e) { h e }] *)
Definition try_catch {A : Type} (c : Outcome A) (h : string -> A) : A :=
  match c with
  | Returned a => a
  | Thrown m => h m
  end.

Definition nl : string := String "010"%char EmptyString.
Definition dquote : string := String "034"%char EmptyString.

(** Truthiness of an optional string: [undefined] and the empty string are
    falsy. *)
Definition truthy (o : option string) : bool :=
  match o with
  | Some (String _ _) => true
  | _ => false
  end.

(** [a || b] where [b] is a string. *)
Definition or_else (a : option string) (b : string) : string :=
  match a with
  | Some (String c s) => String c s
  | _ => b
  end.

(** [a || b] where [b] may itself be undefined. *)
Definition or_opt (a b : option string) : option string :=
  if truthy a then a else b.

(** [s || b] for a string [s] that is always present. *)
Definition str_or (s b : string) : string :=
  match s with
  | EmptyString => b
  | _ => s
  end.

Definition isWhiteSpace (c : ascii) : bool :=
  let n := nat_of_ascii c in
  ((9 <=? n) && (n <=? 13))%nat || (n =? 32)%nat.

Fixpoint blank (s : string) : bool :=
  match s with
  | EmptyString => true
  | String c t => isWhiteSpace c && blank t
  end.

(** [k && k.trim()] as a condition, and [k.trim().length > 0]: the string has
    a character that is not white space. *)
Definition nonBlank (s : string) : bool := negb (blank s).

Definition join (sep : string) (l : list string) : string := String.concat sep l.

Definition lowerChar (c : ascii) : ascii :=
  let n := nat_of_ascii c in
  if ((65 <=? n) && (n <=? 90))%nat then ascii_of_nat (n + 32) else c.

Definition upperChar (c : ascii) : ascii :=
  let n := nat_of_ascii c in
  if ((97 <=? n) && (n <=? 122))%nat then ascii_of_nat (n - 32) else c.

Fixpoint toLowerCase (s : string) : string :=
  match s with
  | EmptyString => EmptyString
  | String c t => String (lowerChar c) (toLowerCase t)
  end.

(** [s.charAt(0).toUpperCase() + s.slice(1)] *)
Definition capitalize (s : string) : string :=
  match s with
  | EmptyString => EmptyString
  | String c t => String (upperChar c) t
  end.

Definition startsWith (p s : string) : bool := String.prefix p s.

Definition endsWith (suf s : string) : bool :=
  let n := String.length s in
  let m := String.length suf in
  (m <=? n)%nat && String.eqb (String.substring (n - m) m s) suf.

Fixpoint includes (sub s : string) : bool :=
  String.prefix sub s ||
  match s with
  | EmptyString => false
  | String _ t => includes sub t
  end.

Fixpoint drop (n : nat) (s : string) : string :=
  match n, s with
  | O, _ => s
  | S k, EmptyString => EmptyString
  | S k, String _ t => drop k t
  end.

(** [s.slice(0, n)] and [s.substring(0, n)] *)
Definition slice0 (n : nat) (s : string) : string := String.substring 0 n s.

(** [s.replace(pat, rep)] with a string pattern: the first occurrence only. *)
Fixpoint replaceFirst (pat rep s : string) : string :=
  if String.prefix pat s then rep +++ drop (String.length pat) s
  else match s with
       | EmptyString => EmptyString
       | String c t => String c (replaceFirst pat rep t)
       end.

(** [s.split(sep)] for a one-character separator. *)
Fixpoint split (sep : ascii) (s : string) : list string :=
  match s with
  | EmptyString => [EmptyString]
  | String c t =>
      if Ascii.eqb c sep then EmptyString :: split sep t
      else match split sep t with
           | [] => [String c EmptyString]
           | w :: ws => String c w :: ws
           end
  end.

(** A number inside a template string. *)
Definition showNat (n : nat) : string := NilZero.string_of_uint (Nat.to_uint n).

(** [l.map((x, index) => f index x)] *)
Fixpoint mapi_from {A B : Type} (i : nat) (f : nat -> A -> B) (l : list A) : list B :=
  match l with
  | [] => []
  | x :: t => f i x :: mapi_from (S i) f t
  end.

Definition mapi {A B : Type} (f : nat -> A -> B) (l : list A) : list B :=
  mapi_from 0 f l.

(** [new Set(l).has(x)] on strings *)
Definition has (l : list string) (x : string) : bool := existsb (String.eqb x) l.

Lemma has_In (l : list string) (x : string) : has l x = true <-> In x l.
Proof.
  unfold has. rewrite existsb_exists. split.
  - intros [y [Hy Heq]]. apply String.eqb_eq in Heq. now subst.
  - intros H. exists x. split; [assumption | apply String.eqb_refl].
Qed.

Lemma mapi_from_length {A B : Type} (f : nat -> A -> B) (l : list A) (i : nat) :
  List.length (mapi_from i f l) = List.length l.
Proof.
  revert i. induction l as [| x t IH]; intros i; simpl; [reflexivity | now rewrite IH].
Qed.

End JS.

Import JS.

Notation "x <- c ;; k" := (JS.bind c (fun x => k))
  (at level 61, c at next level, right associativity).

(* ================================================================== *)
(** * The interest model: models/userInterest.js *)
(* ================================================================== *)

Module UserInterest.

Record t : Type := mk {
  id : string;
  tags : list string;
  weight : Z;
  lastCollectionDate : option Z;   (* a Date, in milliseconds; null = None *)
  collectFrequency : string;
  enabled : bool
}.

Definition msPerHour : Z := 1000 * 60 * 60.

(** [isCollectionDue()], with [now] the instant read by [new Date()].  The
    elapsed hours are a quotient of an integer number of milliseconds by
    3600000; it is taken here in the rationals.  The comparisons with 1, 24
    and 168 come out the same on the doubles of the source: these bounds are
    doubles, rounding is monotone, and a quotient below a bound stays below
    it by more than 2e-7. *)
Definition isCollectionDue (now : Z) (self : t) : bool :=
  match lastCollectionDate self with
  | None => enabled self
  | Some last =>
      if negb (enabled self) then enabled self
      else
        let elapsed := now - last in
        let elapsedHours := (inject_Z elapsed / inject_Z msPerHour)%Q in
        if (collectFrequency self =? "hourly")%string then Qle_bool 1 elapsedHours
        else if (collectFrequency self =? "daily")%string then Qle_bool 24 elapsedHours
        else if (collectFrequency self =? "weekly")%string then Qle_bool 168 elapsedHours
        else false
  end.

(** [h <= elapsed / 3600000] over the rationals is [h * 3600000 <= elapsed]
    over the integers. *)
Lemma hours_reached (h elapsed : Z) :
  Qle_bool (inject_Z h) (inject_Z elapsed / inject_Z msPerHour)%Q = true
  <-> h * msPerHour <= elapsed.
Proof.
  rewrite Qle_bool_iff.
  unfold Qle, Qdiv, Qmult, Qinv, inject_Z, msPerHour; simpl.
  lia.
Qed.

Lemma due_disabled (now : Z) (i : t) :
  enabled i = false -> isCollectionDue now i = false.
Proof.
  intros He. unfold isCollectionDue. rewrite He.
  destruct (lastCollectionDate i); reflexivity.
Qed.

Lemma due_never_collected (now : Z) (i : t) :
  lastCollectionDate i = None -> isCollectionDue now i = enabled i.
Proof.
  intros Hn. unfold isCollectionDue. now rewrite Hn.
Qed.

Lemma due_elapsed (now last h : Z) (i : t) :
  enabled i = true ->
  lastCollectionDate i = Some last ->
  (collectFrequency i = "hourly" /\ h = 1) \/
  (collectFrequency i = "daily" /\ h = 24) \/
  (collectFrequency i = "weekly" /\ h = 168) ->
  (isCollectionDue now i = true <-> h * msPerHour <= now - last).
Proof.
  intros He Hl Hf. unfold isCollectionDue. rewrite Hl, He. simpl negb. cbv iota.
  destruct Hf as [[Hf ->] | [[Hf ->] | [Hf ->]]]; rewrite Hf; simpl String.eqb;
    cbv iota.
  - apply (hours_reached 1).
  - apply (hours_reached 24).
  - apply (hours_reached 168).
Qed.

End UserInterest.

(** C8, as stated, fails at the boundary: a daily interest collected exactly
    24 hours ago is due, although the elapsed time does not exceed 24 hours. *)
Lemma isCollectionDue_at_threshold :
  UserInterest.isCollectionDue 86400000
    (UserInterest.mk "ui_1" ["ai"] 1 (Some 0) "daily" true) = true
  /\ ~ (24 * UserInterest.msPerHour < 86400000 - 0).
Proof.
  split; [reflexivity | unfold UserInterest.msPerHour; lia].
Qed.

(** C8, amended: [isCollectionDue] is false whenever the interest is disabled;
    for an enabled interest it is true when there is no last collection date,
    and otherwise true if and only if the elapsed time has reached the
    threshold of the frequency (at least 1, 24 or 168 hours); a daily interest
    collected 23 hours ago is not due, one collected 25 hours ago is. *)
Theorem isCollectionDue_spec (now : Z) (i : UserInterest.t) :
  (UserInterest.enabled i = false -> UserInterest.isCollectionDue now i = false)
  /\ (UserInterest.enabled i = true -> UserInterest.lastCollectionDate i = None ->
      UserInterest.isCollectionDue now i = true)
  /\ (forall last : Z,
        UserInterest.enabled i = true ->
        UserInterest.lastCollectionDate i = Some last ->
        (UserInterest.collectFrequency i = "hourly" ->
           (UserInterest.isCollectionDue now i = true <-> 1 * 3600000 <= now - last))
        /\ (UserInterest.collectFrequency i = "daily" ->
           (UserInterest.isCollectionDue now i = true <-> 24 * 3600000 <= now - last))
        /\ (UserInterest.collectFrequency i = "weekly" ->
           (UserInterest.isCollectionDue now i = true <-> 168 * 3600000 <= now - last))
        /\ (UserInterest.collectFrequency i = "daily" -> now - last = 23 * 3600000 ->
           UserInterest.isCollectionDue now i = false)
        /\ (UserInterest.collectFrequency i = "daily" -> now - last = 25 * 3600000 ->
           UserInterest.isCollectionDue now i = true)).
Proof.
  split; [apply UserInterest.due_disabled |].
  split.
  { intros He Hn. rewrite UserInterest.due_never_collected; assumption. }
  intros last He Hl.
  assert (Hiff : forall h,
    (UserInterest.collectFrequency i = "hourly" /\ h = 1) \/
    (UserInterest.collectFrequency i = "daily" /\ h = 24) \/
    (UserInterest.collectFrequency i = "weekly" /\ h = 168) ->
    (UserInterest.isCollectionDue now i = true <-> h * 3600000 <= now - last)).
  { intros h Hf. apply (UserInterest.due_elapsed now last h i He Hl Hf). }
  split; [| split; [| split; [| split]]].
  - intros Hf. apply (Hiff 1). left. now split.
  - intros Hf. apply (Hiff 24). right. left. now split.
  - intros Hf. apply (Hiff 168). right. right. now split.
  - intros Hf He23. apply Bool.not_true_is_false. intros Hd.
    apply (Hiff 24) in Hd; [lia | right; left; now split].
  - intros Hf He25. apply (Hiff 24); [right; left; now split | lia].
Qed.

(** The amended statement at a concrete interest: daily, last collected at
    instant 0, read 25 hours later. *)
Lemma isCollectionDue_spec_witness :
  UserInterest.isCollectionDue 90000000
    (UserInterest.mk "ui_1" ["ai"] 1 (Some 0) "daily" true) = true.
Proof.
  pose proof (isCollectionDue_spec 90000000
    (UserInterest.mk "ui_1" ["ai"] 1 (Some 0) "daily" true)) as [_ [_ H]].
  destruct (H 0 eq_refl eq_refl) as (_ & _ & _ & _ & H25).
  apply H25; reflexivity.
Defined.

(* ================================================================== *)
(** * Content items as adapters return them *)
(* ================================================================== *)

(** A raw content item: every field an adapter may or may not set. *)
Module RawItem.

Record t : Type := mk {
  id : option string;
  title : option string;
  summary : option string;
  content : option string;
  tags : option (list string);
  createdAt : option string;
  date : option string;
  sourceName : option string;
  source : option string;
  sourceUrl : option string;
  url : option string
}.

End RawItem.

(** One entry of a search results page. *)
Module SearchResult.

Record t : Type := mk {
  title : string;
  url : string;
  snippet : string
}.

End SearchResult.

(* ================================================================== *)
(** * The web-search adapter: sourceAdapters/duckDuckGoAdapter.js *)
(* ================================================================== *)

Module DuckDuckGoAdapter.

(** ** The outside world, as the adapter sees it *)

(** What [https.get] delivers: an ['error'] event, a ['timeout'] event, or a
    response with its status code and body. *)
Inductive HttpReply : Type :=
| NetworkError (message : string)
| TimedOut
| Response (statusCode : Z) (data : string).

(** The element [.result__title a, .links_main a] of a result element. *)
Record TitleElem : Type := {
  href : option string;          (* getAttribute('href') *)
  textContent : string
}.

(** One element matched by [.result, .results_links], with what the two
    [querySelector] calls find in it. *)
Record ResultElement : Type := {
  titleElem : option TitleElem;
  snippetElem : option string    (* its textContent *)
}.

(** What is read of [new URL(s)]. *)
Record URL : Type := {
  protocol : string;
  hostname : string;
  uddg : option string           (* searchParams.get('uddg') *)
}.

Record AxiosResponse : Type := {
  contentType : option string;   (* headers['content-type'] *)
  data : string
}.

Record PageContent : Type := {
  content : string;
  summary : string
}.

Record Web : Type := {
  https_get : string -> string -> Z -> HttpReply;   (* url, User-Agent, timeout *)
  JSDOM : string -> Outcome (list ResultElement);
  newURL : string -> Outcome URL;
  encodeURIComponent : string -> string;
  decodeURIComponent : string -> Outcome string;
  axios_get : string -> Outcome AxiosResponse;
  (* cheerio: the text of [body] once script, style, nav, footer, header,
     aside and iframe are removed, trimmed, white space collapsed *)
  bodyText : string -> string
}.

(** ** The adapter *)

Record Options : Type := {
  opt_maxResults : option Z;
  opt_timeout : option Z;
  opt_userAgent : option string;
  opt_allowedSources : option (list string)
}.

Record t : Type := {
  name : string;
  maxResults : Z;
  timeout : Z;
  userAgent : string;
  allowedSources : list string
}.

Definition defaultUserAgent : string :=
  "Mozilla/5.0 (Windows NT 10.0; Win64; x64) AppleWebKit/537.36 (KHTML, like Gecko) Chrome/91.0.4472.124 Safari/537.36".

(** [n || d] on numbers: 0 is falsy. *)
Definition num_or (n : option Z) (d : Z) : Z :=
  match n with
  | Some v => if v =? 0 then d else v
  | None => d
  end.

Definition constructor (options : Options) : t := {|
  name := "DuckDuckGo";
  maxResults := num_or (opt_maxResults options) 5;
  timeout := num_or (opt_timeout options) 15000;
  userAgent := or_else (opt_userAgent options) defaultUserAgent;
  allowedSources := match opt_allowedSources options with Some l => l | None => [] end
|}.

Definition setAllowedSources (sources : list string) (self : t) : t := {|
  name := name self;
  maxResults := maxResults self;
  timeout := timeout self;
  userAgent := userAgent self;
  allowedSources := sources
|}.

Definition setMaxResults (n : Z) (self : t) : t := {|
  name := name self;
  maxResults := n;
  timeout := timeout self;
  userAgent := userAgent self;
  allowedSources := allowedSources self
|}.

(** [l.slice(0, e)] *)
Definition sliceTo {A : Type} (e : Z) (l : list A) : list A :=
  if e <? 0 then firstn (Z.to_nat (Z.of_nat (List.length l) + e)) l
  else firstn (Z.to_nat e) l.

Fixpoint trimStart (s : string) : string :=
  match s with
  | EmptyString => EmptyString
  | String c t => if isWhiteSpace c then trimStart t else s
  end.

Fixpoint trimEnd (s : string) : string :=
  match s with
  | EmptyString => EmptyString
  | String c t =>
      match trimEnd t with
      | EmptyString => if isWhiteSpace c then EmptyString else String c EmptyString
      | t' => String c t'
      end
  end.

Definition trim (s : string) : string := trimEnd (trimStart s).

(** ** parseSearchResults *)

Fixpoint takeUntilAmp (s : string) : string :=
  match s with
  | EmptyString => EmptyString
  | String c t => if Ascii.eqb c "&"%char then EmptyString else String c (takeUntilAmp t)
  end.

(** [s.match(/[?&]uddg=([^&]+)/)]: the capture of the leftmost match. *)
Fixpoint match_uddg (s : string) : option string :=
  match s with
  | EmptyString => None
  | String c t =>
      if (Ascii.eqb c "?"%char || Ascii.eqb c "&"%char) && String.prefix "uddg=" t then
        match takeUntilAmp (drop 5 t) with
        | EmptyString => match_uddg t
        | cap => Some cap
        end
      else match_uddg t
  end.

(** The redirect de-wrapping of one [href]; both [try] blocks only log. *)
Definition unwrapRedirect (web : Web) (href : string) : string :=
  if includes "/l/?uddg=" href || includes "&uddg=" href then
    match match_uddg href with
    | Some cap => try_catch (decodeURIComponent web cap) (fun _ => href)
    | None => href
    end
  else if startsWith "/" href then
    let resultUrl := "https://duckduckgo.com" +++ href in
    try_catch
      (parsedDdgUrl <- newURL web resultUrl ;;
       if truthy (uddg parsedDdgUrl)
       then decodeURIComponent web (or_else (uddg parsedDdgUrl) EmptyString)
       else Returned resultUrl)
      (fun _ => resultUrl)
  else href.

Definition isValidUrl (web : Web) (resultUrl : string) : bool :=
  try_catch
    (parsedUrl <- newURL web resultUrl ;;
     Returned (has ["http:"; "https:"] (protocol parsedUrl)))
    (fun _ => false).

(** The body of the loop over result elements: the entry it pushes, if any. *)
Definition parseElement (web : Web) (element : ResultElement) : option SearchResult.t :=
  match titleElem element with
  | None => None
  | Some t =>
      let resultUrl := unwrapRedirect web (or_else (href t) EmptyString) in
      if isValidUrl web resultUrl then
        Some (SearchResult.mk
                (trim (textContent t))
                resultUrl
                (match snippetElem element with
                 | Some s => trim s
                 | None => EmptyString
                 end))
      else None
  end.

Fixpoint parseElements (web : Web) (elements : list ResultElement) : list SearchResult.t :=
  match elements with
  | [] => []
  | e :: rest =>
      match parseElement web e with
      | Some r => r :: parseElements web rest
      | None => parseElements web rest
      end
  end.

Definition parseSearchResults (web : Web) (html : string) : list SearchResult.t :=
  try_catch
    (resultElements <- JSDOM web html ;; Returned (parseElements web resultElements))
    (fun _ => []).

(** ** performSearch *)

Definition showZ (z : Z) : string := NilZero.string_of_int (Z.to_int z).

Definition performSearch (web : Web) (self : t) (query : string)
  : Outcome (list SearchResult.t) :=
  let encodedQuery := encodeURIComponent web query in
  let searchUrl := "https://html.duckduckgo.com/html/?q=" +++ encodedQuery in
  match https_get web searchUrl (userAgent self) (timeout self) with
  | NetworkError m => Thrown m
  | TimedOut => Thrown "Search request timed out"
  | Response statusCode body =>
      if negb (statusCode =? 200)
      then Thrown ("DuckDuckGo search failed with status: " +++ showZ statusCode)
      else Returned (parseSearchResults web body)
  end.

(** ** extractDomain and fetchPage *)

Definition extractDomain (web : Web) (url : string) : option string :=
  match url with
  | EmptyString => None
  | _ => try_catch
           (urlObj <- newURL web url ;;
            Returned (Some (replaceFirst "www." EmptyString (hostname urlObj))))
           (fun _ => None)
  end.

Definition fetchPage (web : Web) (url : string) : Outcome PageContent :=
  match url with
  | EmptyString => Thrown "URL is required"
  | _ =>
      response <- axios_get web url ;;
      let ctype := or_else (contentType response) EmptyString in
      if negb (includes "text/html" ctype)
      then Thrown ("Unsupported content type: " +++ ctype)
      else
        let text := bodyText web (data response) in
        Returned {| content := text;
                    summary := slice0 200 text +++
                               (if (200 <? String.length text)%nat then "..." else EmptyString) |}
  end.

(** ** collectData *)

(** The item pushed when the page was fetched. *)
Definition fetchedItem (searchTerms : list string) (domain : option string)
    (result : SearchResult.t) (pageContent : PageContent) : RawItem.t :=
  RawItem.mk None
    (Some (str_or (SearchResult.title result) "Untitled"))
    (Some (str_or (SearchResult.snippet result) (summary pageContent)))
    (Some (content pageContent))
    (Some (searchTerms ++ ["duckduckgo"]))
    None None
    (Some (or_else domain "Unknown source"))
    None
    (Some (SearchResult.url result))
    None.

(** The item pushed when fetching the page failed with [message]. *)
Definition unfetchedItem (searchTerms : list string) (domain : option string)
    (result : SearchResult.t) (message : string) : RawItem.t :=
  RawItem.mk None
    (Some (str_or (SearchResult.title result) "Untitled"))
    (Some (str_or (SearchResult.snippet result) "Content unavailable"))
    (Some ("Unable to retrieve content: " +++ message))
    (Some (searchTerms ++ ["duckduckgo"; "fetch_error"]))
    None None
    (Some (or_else domain "Unknown source"))
    None
    (Some (SearchResult.url result))
    None.

(** [allowedSources.length === 0 || allowedSources.some(a => domain.includes(a))];
    with sources to check and no domain, [domain.includes] throws. *)
Definition isAllowedDomain (self : t) (domain : option string) : Outcome bool :=
  match allowedSources self with
  | [] => Returned true
  | allowed =>
      match domain with
      | None => Thrown "Cannot read properties of null (reading 'includes')"
      | Some d => Returned (existsb (fun allowedDomain => includes allowedDomain d) allowed)
      end
  end.

(** Whether a result gets as far as the page fetch: it is no duplicate, its
    domain is allowed, and its URL starts with [http]. *)
Definition reachesFetch (web : Web) (self : t) (processedUrls : list string)
    (result : SearchResult.t) : bool :=
  negb (has processedUrls (SearchResult.url result))
  && try_catch (isAllowedDomain self (extractDomain web (SearchResult.url result)))
               (fun _ => false)
  && negb (match SearchResult.url result with EmptyString => true | _ => false end
           || negb (startsWith "http" (SearchResult.url result))).

(** One turn of the loop over the limited results: the state is the list of
    content items and the set of processed URLs. *)
Definition processResult (web : Web) (self : t) (searchTerms : list string)
    (acc : list RawItem.t * list string) (result : SearchResult.t)
  : list RawItem.t * list string :=
  let '(contentItems, processedUrls) := acc in
  let u := SearchResult.url result in
  if has processedUrls u then acc
  else
    let processedUrls := processedUrls ++ [u] in
    let domain := extractDomain web u in
    match isAllowedDomain self domain with
    | Thrown _ => (contentItems, processedUrls)         (* caught, logged *)
    | Returned false => (contentItems, processedUrls)
    | Returned true =>
        if match u with EmptyString => true | _ => false end
           || negb (startsWith "http" u)
        then (contentItems, processedUrls)
        else
          match fetchPage web u with
          | Returned pageContent =>
              (contentItems ++ [fetchedItem searchTerms domain result pageContent],
               processedUrls)
          | Thrown message =>
              (contentItems ++ [unfetchedItem searchTerms domain result message],
               processedUrls)
          end
    end.

Definition collectData (web : Web) (self : t) (searchTerms : option (list string))
  : Outcome (list RawItem.t) :=
  match searchTerms with
  | None | Some [] => Returned []
  | Some terms =>
      Returned
        (try_catch
           (let query := join " " terms in
            searchResults <- performSearch web self query ;;
            match searchResults with
            | [] => Returned []
            | _ =>
                let limitedResults := sliceTo (maxResults self) searchResults in
                Returned (fst (fold_left (processResult web self terms)
                                         limitedResults ([], [])))
            end)
           (fun _ => []))
  end.

End DuckDuckGoAdapter.

(** ** Facts about the web-search adapter *)

Module DuckDuckGoFacts.

Import DuckDuckGoAdapter.

(** The same world with other answers to page fetches. *)
Definition withPages (web : Web) (pages : string -> Outcome AxiosResponse)
    (text : string -> string) : Web := {|
  https_get := https_get web;
  JSDOM := JSDOM web;
  newURL := newURL web;
  encodeURIComponent := encodeURIComponent web;
  decodeURIComponent := decodeURIComponent web;
  axios_get := pages;
  bodyText := text
|}.

(** Two content items that stand for the same search result. *)
Definition sameResult (a b : RawItem.t) : Prop :=
  RawItem.title a = RawItem.title b /\
  RawItem.sourceUrl a = RawItem.sourceUrl b /\
  RawItem.sourceName a = RawItem.sourceName b.

Lemma collectData_returns (web : Web) (self : t) (searchTerms : option (list string)) :
  exists items, collectData web self searchTerms = Returned items.
Proof.
  unfold collectData.
  destruct searchTerms as [[| k ks] |]; eexists; reflexivity.
Qed.

Lemma collectData_search_failure (web : Web) (self : t) (terms : list string)
    (message : string) :
  performSearch web self (join " " terms) = Thrown message ->
  collectData web self (Some terms) = Returned [].
Proof.
  intros H. unfold collectData. destruct terms as [| k ks]; [reflexivity |].
  rewrite H. reflexivity.
Qed.

Lemma collectData_no_results (web : Web) (self : t) (terms : list string) :
  performSearch web self (join " " terms) = Returned [] ->
  collectData web self (Some terms) = Returned [].
Proof.
  intros H. unfold collectData. destruct terms as [| k ks]; [reflexivity |].
  rewrite H. reflexivity.
Qed.

Lemma parse_failure_no_results (web : Web) (html message : string) :
  JSDOM web html = Thrown message -> parseSearchResults web html = [].
Proof.
  intros H. unfold parseSearchResults. rewrite H. reflexivity.
Qed.

Lemma processResult_fetch_failure (web : Web) (self : t) (terms : list string)
    (items : list RawItem.t) (urls : list string) (r : SearchResult.t) (message : string) :
  reachesFetch web self urls r = true ->
  fetchPage web (SearchResult.url r) = Thrown message ->
  processResult web self terms (items, urls) r =
    (items ++ [unfetchedItem terms (extractDomain web (SearchResult.url r)) r message],
     urls ++ [SearchResult.url r]).
Proof.
  unfold reachesFetch, processResult. intros Hr Hf.
  apply andb_prop in Hr as [Hr Hvalid]. apply andb_prop in Hr as [Hdup Hallowed].
  apply negb_true_iff in Hdup. rewrite Hdup.
  destruct (isAllowedDomain self (extractDomain web (SearchResult.url r))) as [[|] | m];
    simpl in Hallowed; try discriminate.
  apply negb_true_iff in Hvalid. rewrite Hvalid, Hf. reflexivity.
Qed.

Lemma processResult_fetch_success (web : Web) (self : t) (terms : list string)
    (items : list RawItem.t) (urls : list string) (r : SearchResult.t) (page : PageContent) :
  reachesFetch web self urls r = true ->
  fetchPage web (SearchResult.url r) = Returned page ->
  processResult web self terms (items, urls) r =
    (items ++ [fetchedItem terms (extractDomain web (SearchResult.url r)) r page],
     urls ++ [SearchResult.url r]).
Proof.
  unfold reachesFetch, processResult. intros Hr Hf.
  apply andb_prop in Hr as [Hr Hvalid]. apply andb_prop in Hr as [Hdup Hallowed].
  apply negb_true_iff in Hdup. rewrite Hdup.
  destruct (isAllowedDomain self (extractDomain web (SearchResult.url r))) as [[|] | m];
    simpl in Hallowed; try discriminate.
  apply negb_true_iff in Hvalid. rewrite Hvalid, Hf. reflexivity.
Qed.

(** A result that does not reach the fetch pushes nothing, whatever the
    pages answer. *)
Lemma processResult_skipped (web : Web) (self : t) (terms : list string)
    (items : list RawItem.t) (urls : list string) (r : SearchResult.t) :
  reachesFetch web self urls r = false ->
  fst (processResult web self terms (items, urls) r) = items.
Proof.
  unfold reachesFetch, processResult. intros Hr.
  destruct (has urls (SearchResult.url r)); [reflexivity |].
  destruct (isAllowedDomain self (extractDomain web (SearchResult.url r))) as [[|] | m];
    try reflexivity.
  simpl in Hr. apply negb_false_iff in Hr. rewrite Hr. reflexivity.
Qed.

(** One turn of the loop keeps two runs in step when the worlds differ only
    in their page fetches. *)
Lemma processResult_in_step (web : Web) (self : t) (terms : list string)
    (pages : string -> Outcome AxiosResponse) (text : string -> string)
    (items1 items2 : list RawItem.t) (urls : list string) (r : SearchResult.t) :
  Forall2 sameResult items1 items2 ->
  Forall2 sameResult
    (fst (processResult web self terms (items1, urls) r))
    (fst (processResult (withPages web pages text) self terms (items2, urls) r))
  /\ snd (processResult web self terms (items1, urls) r)
     = snd (processResult (withPages web pages text) self terms (items2, urls) r).
Proof.
  intros Hsame. unfold processResult.
  change (extractDomain (withPages web pages text) (SearchResult.url r))
    with (extractDomain web (SearchResult.url r)).
  destruct (has urls (SearchResult.url r)); [now split |].
  destruct (isAllowedDomain self (extractDomain web (SearchResult.url r))) as [[|] | m];
    try (now split).
  destruct (match SearchResult.url r with EmptyString => true | _ => false end
            || negb (startsWith "http" (SearchResult.url r))); [now split |].
  destruct (fetchPage web (SearchResult.url r)) as [p1 | m1];
    destruct (fetchPage (withPages web pages text) (SearchResult.url r)) as [p2 | m2];
    simpl; (split; [| reflexivity]);
    (apply Forall2_app; [assumption |]);
    constructor; try constructor; repeat split.
Qed.

Lemma fold_processResult_in_step (web : Web) (self : t) (terms : list string)
    (pages : string -> Outcome AxiosResponse) (text : string -> string)
    (results : list SearchResult.t) :
  forall (items1 items2 : list RawItem.t) (urls : list string),
  Forall2 sameResult items1 items2 ->
  Forall2 sameResult
    (fst (fold_left (processResult web self terms) results (items1, urls)))
    (fst (fold_left (processResult (withPages web pages text) self terms) results
                    (items2, urls))).
Proof.
  induction results as [| r rest IH]; intros items1 items2 urls Hsame; cbn [fold_left].
  - assumption.
  - destruct (processResult_in_step web self terms pages text items1 items2 urls r Hsame)
      as [Hitems Hurls].
    destruct (processResult web self terms (items1, urls) r) as [i1 u1].
    destruct (processResult (withPages web pages text) self terms (items2, urls) r)
      as [i2 u2].
    simpl in Hitems, Hurls. subst u2. apply IH. assumption.
Qed.

Lemma parseElements_withPages (web : Web) (pages : string -> Outcome AxiosResponse)
    (text : string -> string) (elements : list ResultElement) :
  parseElements (withPages web pages text) elements = parseElements web elements.
Proof.
  induction elements as [| e rest IH]; simpl; [reflexivity |].
  change (parseElement (withPages web pages text) e) with (parseElement web e).
  rewrite IH. reflexivity.
Qed.

Lemma performSearch_withPages (web : Web) (pages : string -> Outcome AxiosResponse)
    (text : string -> string) (self : t) (query : string) :
  performSearch (withPages web pages text) self query = performSearch web self query.
Proof.
  unfold performSearch, parseSearchResults. simpl.
  destruct (https_get web _ _ _) as [m | | code body]; try reflexivity.
  destruct (negb (code =? 200)); [reflexivity |].
  destruct (JSDOM web body) as [elements | m]; simpl; [| reflexivity].
  now rewrite parseElements_withPages.
Qed.

Lemma collectData_in_step (web : Web) (self : t) (searchTerms : option (list string))
    (pages : string -> Outcome AxiosResponse) (text : string -> string) :
  exists items1 items2,
    collectData web self searchTerms = Returned items1 /\
    collectData (withPages web pages text) self searchTerms = Returned items2 /\
    Forall2 sameResult items1 items2.
Proof.
  unfold collectData.
  destruct searchTerms as [[| k ks] |];
    try (exists [], []; repeat split; constructor).
  do 2 eexists. split; [reflexivity |]. split; [reflexivity |].
  rewrite performSearch_withPages.
  destruct (performSearch web self (join " " (k :: ks))) as [[| r rs] | m]; simpl;
    try constructor.
  apply fold_processResult_in_step. constructor.
Qed.

(** The results of the loop that get as far as the page fetch, in order;
    [processedUrls] are the URLs met before. *)
Fixpoint reaching (web : Web) (self : t) (processedUrls : list string)
    (results : list SearchResult.t) : list SearchResult.t :=
  match results with
  | [] => []
  | r :: rest =>
      let seen :=
        if has processedUrls (SearchResult.url r) then processedUrls
        else processedUrls ++ [SearchResult.url r] in
      if reachesFetch web self processedUrls r
      then r :: reaching web self seen rest
      else reaching web self seen rest
  end.

(** The item pushed for a result that reaches the fetch: one of the two
    pushes of the loop. *)
Definition itemOf (web : Web) (terms : list string) (r : SearchResult.t) : RawItem.t :=
  match fetchPage web (SearchResult.url r) with
  | Returned pageContent =>
      fetchedItem terms (extractDomain web (SearchResult.url r)) r pageContent
  | Thrown message =>
      unfetchedItem terms (extractDomain web (SearchResult.url r)) r message
  end.

Lemma processResult_spec (web : Web) (self : t) (terms : list string)
    (items : list RawItem.t) (urls : list string) (r : SearchResult.t) :
  processResult web self terms (items, urls) r
  = (if reachesFetch web self urls r then items ++ [itemOf web terms r] else items,
     if has urls (SearchResult.url r) then urls else urls ++ [SearchResult.url r]).
Proof.
  unfold processResult, reachesFetch, itemOf.
  destruct (has urls (SearchResult.url r)); [reflexivity |]. cbn [negb andb].
  destruct (isAllowedDomain self (extractDomain web (SearchResult.url r))) as [[|] | m];
    cbn [try_catch andb]; try reflexivity.
  destruct (match SearchResult.url r with EmptyString => true | _ => false end
            || negb (startsWith "http" (SearchResult.url r))); cbn [negb]; [reflexivity |].
  destruct (fetchPage web (SearchResult.url r)); reflexivity.
Qed.

(** The loop pushes one item for each result that reaches the fetch, in
    order, and nothing else. *)
Lemma fold_processResult_spec (web : Web) (self : t) (terms : list string)
    (results : list SearchResult.t) :
  forall (items : list RawItem.t) (urls : list string),
    fst (fold_left (processResult web self terms) results (items, urls))
    = items ++ map (itemOf web terms) (reaching web self urls results).
Proof.
  induction results as [| r rest IH]; intros items urls; cbn [fold_left reaching].
  - cbn [fst map]. now rewrite app_nil_r.
  - rewrite processResult_spec, IH.
    destruct (reachesFetch web self urls r); [| reflexivity].
    cbn [map]. now rewrite <- app_assoc.
Qed.

(** Which results reach the fetch does not depend on what the pages answer. *)
Lemma reaching_withPages (web : Web) (pages : string -> Outcome AxiosResponse)
    (text : string -> string) (self : t) (results : list SearchResult.t) :
  forall urls,
    reaching (withPages web pages text) self urls results = reaching web self urls results.
Proof.
  induction results as [| r rest IH]; intros urls; cbn [reaching]; [reflexivity |].
  change (reachesFetch (withPages web pages text) self urls r)
    with (reachesFetch web self urls r).
  now rewrite !IH.
Qed.

(** What the content collection returns when the search returns. *)
Lemma collectData_items (web : Web) (self : t) (terms : list string)
    (searchResults : list SearchResult.t) :
  terms <> [] ->
  performSearch web self (join " " terms) = Returned searchResults ->
  collectData web self (Some terms)
  = Returned (map (itemOf web terms)
                (reaching web self [] (sliceTo (maxResults self) searchResults))).
Proof.
  intros Hterms Hsearch. unfold collectData.
  destruct terms as [| k ks]; [congruence |]. rewrite Hsearch. cbn [bind try_catch].
  destruct searchResults as [| r rs].
  - unfold sliceTo. destruct (maxResults self <? 0); now rewrite firstn_nil.
  - cbn [try_catch]. now rewrite fold_processResult_spec.
Qed.

End DuckDuckGoFacts.

(* ================================================================== *)
(** * A small concrete world, to run the definitions on *)
(* ================================================================== *)

Module Sample.

Import DuckDuckGoAdapter.

Fixpoint upToSlash (s : string) : string :=
  match s with
  | EmptyString => EmptyString
  | String c t => if Ascii.eqb c "/"%char then EmptyString else String c (upToSlash t)
  end.

(** Absolute http(s) URLs parse, the rest is refused. *)
Definition newURL (s : string) : Outcome URL :=
  if startsWith "https://" s
  then Returned {| protocol := "https:"; hostname := upToSlash (drop 8 s); uddg := None |}
  else if startsWith "http://" s
  then Returned {| protocol := "http:"; hostname := upToSlash (drop 7 s); uddg := None |}
  else Thrown "Invalid URL".

Definition resultsPage : list ResultElement :=
  [ {| titleElem := Some {| href := Some "https://www.example.org/a"; textContent := " Page A " |};
       snippetElem := Some "about a" |};
    {| titleElem := Some {| href := Some "https://example.org/b"; textContent := "Page B" |};
       snippetElem := None |};
    {| titleElem := Some {| href := Some "ftp://example.org/c"; textContent := "Page C" |};
       snippetElem := None |};
    {| titleElem := None; snippetElem := Some "an advertisement" |} ].

(** Page A is served; every other page fails with a 404. *)
Definition axios_get (u : string) : Outcome AxiosResponse :=
  if (u =? "https://www.example.org/a")%string
  then Returned {| contentType := Some "text/html; charset=utf-8"; data := "All about a." |}
  else Thrown "Request failed with status code 404".

Definition web : Web := {|
  https_get := fun _ _ _ => Response 200 "<html>results</html>";
  JSDOM := fun _ => Returned resultsPage;
  DuckDuckGoAdapter.newURL := newURL;
  encodeURIComponent := fun s => s;
  decodeURIComponent := fun s => Returned s;
  DuckDuckGoAdapter.axios_get := axios_get;
  bodyText := fun s => s
|}.

(** The same world when the search engine refuses the request. *)
Definition blockedWeb : Web := {|
  https_get := fun _ _ _ => Response 403 "Forbidden";
  JSDOM := fun _ => Returned resultsPage;
  DuckDuckGoAdapter.newURL := newURL;
  encodeURIComponent := fun s => s;
  decodeURIComponent := fun s => Returned s;
  DuckDuckGoAdapter.axios_get := axios_get;
  bodyText := fun s => s
|}.

Definition adapter : t :=
  constructor {| opt_maxResults := Some 10; opt_timeout := None;
                 opt_userAgent := None; opt_allowedSources := None |}.

Definition pageB : SearchResult.t :=
  SearchResult.mk "Page B" "https://example.org/b" EmptyString.

End Sample.

(** C9: when the search of the web-search adapter returns, its content
    collection returns one item for each of the (limited) results that gets
    as far as the page fetch, in order, whether the fetch succeeds or not.  A
    result whose page cannot be fetched or extracted is therefore in the
    list returned: with its title, URL and snippet, a body that notes the
    failure, and the extra tag [fetch_error].  The number of items returned
    (with their titles and URLs) is the same whatever the page fetches
    answer. *)
Theorem fetch_failure_keeps_result (web : DuckDuckGoAdapter.Web)
    (self : DuckDuckGoAdapter.t) (terms : list string)
    (searchResults : list SearchResult.t) :
  terms <> [] ->
  DuckDuckGoAdapter.performSearch web self (join " " terms) = Returned searchResults ->
  let reached :=
    DuckDuckGoFacts.reaching web self []
      (DuckDuckGoAdapter.sliceTo (DuckDuckGoAdapter.maxResults self) searchResults) in
  exists items,
    DuckDuckGoAdapter.collectData web self (Some terms) = Returned items
    /\ items = map (DuckDuckGoFacts.itemOf web terms) reached
    /\ (forall (r : SearchResult.t) (message : string),
          In r reached ->
          DuckDuckGoAdapter.fetchPage web (SearchResult.url r) = Thrown message ->
          In (RawItem.mk None
                (Some (str_or (SearchResult.title r) "Untitled"))
                (Some (str_or (SearchResult.snippet r) "Content unavailable"))
                (Some ("Unable to retrieve content: " +++ message))
                (Some (terms ++ ["duckduckgo"; "fetch_error"]))
                None None
                (Some (or_else (DuckDuckGoAdapter.extractDomain web (SearchResult.url r))
                               "Unknown source"))
                None
                (Some (SearchResult.url r))
                None)
             items)
    /\ (forall (pages : string -> Outcome DuckDuckGoAdapter.AxiosResponse)
               (text : string -> string),
          exists items',
            DuckDuckGoAdapter.collectData (DuckDuckGoFacts.withPages web pages text) self
              (Some terms) = Returned items'
            /\ List.length items' = List.length items
            /\ Forall2 DuckDuckGoFacts.sameResult items items').
Proof.
  intros Hterms Hsearch reached.
  exists (map (DuckDuckGoFacts.itemOf web terms) reached).
  split; [now apply DuckDuckGoFacts.collectData_items |].
  split; [reflexivity |]. split.
  - intros r message Hin Hfetch. apply in_map_iff. exists r. split; [| assumption].
    unfold DuckDuckGoFacts.itemOf. rewrite Hfetch. reflexivity.
  - intros pages text.
    destruct (DuckDuckGoFacts.collectData_in_step web self (Some terms) pages text)
      as (items1 & items2 & H1 & H2 & Hsame).
    rewrite (DuckDuckGoFacts.collectData_items web self terms searchResults Hterms Hsearch)
      in H1.
    injection H1 as <-. exists items2.
    split; [exact H2 |]. split; [symmetry; apply (Forall2_length Hsame) | exact Hsame].
Qed.

(** C9 in the sample world: the search finds pages A and B; the fetch of
    page B fails with a 404, and page B is the second of the two items
    returned. *)
Lemma fetch_failure_keeps_result_witness :
  exists items,
    DuckDuckGoAdapter.collectData Sample.web Sample.adapter (Some ["quantum"])
    = Returned items
    /\ List.length items = 2%nat
    /\ In (RawItem.mk None (Some "Page B") (Some "Content unavailable")
             (Some "Unable to retrieve content: Request failed with status code 404")
             (Some ["quantum"; "duckduckgo"; "fetch_error"])
             None None (Some "example.org") None (Some "https://example.org/b") None)
          items.
Proof.
  destruct (fetch_failure_keeps_result Sample.web Sample.adapter ["quantum"]
              [SearchResult.mk "Page A" "https://www.example.org/a" "about a"; Sample.pageB]
              ltac:(discriminate) eq_refl)
    as (items & Hitems & Hmap & Hkept & _).
  exists items. split; [exact Hitems |]. split; [rewrite Hmap; reflexivity |].
  apply (Hkept Sample.pageB "Request failed with status code 404");
    [right; left; reflexivity | reflexivity].
Defined.

(* ================================================================== *)
(** * The result cache: core/searchService.js *)
(* ================================================================== *)

(** An object used as a map from names to values: its own properties, in
    insertion order.  A name that is not an own property is looked up in
    [Object.prototype]: [inherited] lists the names found there. *)
Module Obj.

Definition t (V : Type) : Type := list (string * V).

(** The properties of [Object.prototype].  Each is a function (the object
    itself for [__proto__]): a truthy value with no [query], [timestamp],
    [results] or [collectData] of its own.  What a write through [__proto__]
    changes for other objects is not followed. *)
Definition inherited (k : string) : bool :=
  existsb (String.eqb k)
    ["constructor"; "__defineGetter__"; "__defineSetter__"; "hasOwnProperty";
     "__lookupGetter__"; "__lookupSetter__"; "isPrototypeOf";
     "propertyIsEnumerable"; "toString"; "valueOf"; "__proto__";
     "toLocaleString"].

Fixpoint get {V : Type} (k : string) (o : t V) : option V :=
  match o with
  | [] => None
  | (k', v) :: rest => if (k' =? k)%string then Some v else get k rest
  end.

(** [o[k] = v] *)
Fixpoint set {V : Type} (k : string) (v : V) (o : t V) : t V :=
  match o with
  | [] => [(k, v)]
  | (k', v') :: rest =>
      if (k' =? k)%string then (k, v) :: rest else (k', v') :: set k v rest
  end.

Lemma get_set_same {V : Type} (k : string) (v : V) (o : t V) :
  get k (set k v o) = Some v.
Proof.
  induction o as [| [k' v'] rest IH]; simpl.
  - now rewrite String.eqb_refl.
  - destruct (k' =? k)%string eqn:E; simpl.
    + now rewrite String.eqb_refl.
    + now rewrite E.
Qed.

Lemma get_set_other {V : Type} (k k2 : string) (v : V) (o : t V) :
  k <> k2 -> get k2 (set k v o) = get k2 o.
Proof.
  intros Hne. induction o as [| [k' v'] rest IH]; simpl.
  - destruct (k =? k2)%string eqn:E; [apply String.eqb_eq in E; contradiction | reflexivity].
  - destruct (k' =? k)%string eqn:E; simpl.
    + apply String.eqb_eq in E. subst k'.
      destruct (k =? k2)%string eqn:E2; [apply String.eqb_eq in E2; contradiction | reflexivity].
    + destruct (k' =? k2)%string; [reflexivity | assumption].
Qed.

End Obj.

Module SearchService.

Record CacheSlot : Type := {
  results : list RawItem.t;
  query : string;
  timestamp : option Z     (* an ISO string read back by [new Date(..).getTime()]; null = None *)
}.

Record Options : Type := {
  opt_cacheTtl : option Z;
  opt_defaultMaxResults : option Z
}.

Record t : Type := {
  cacheTtl : Z;            (* seconds *)
  defaultMaxResults : Z;
  adapters : Obj.t DuckDuckGoAdapter.t;
  cache : Obj.t CacheSlot
}.

Definition emptySlot : CacheSlot :=
  {| results := []; query := EmptyString; timestamp := None |}.

Definition constructor (options : Options) : t :=
  let ttl := DuckDuckGoAdapter.num_or (opt_cacheTtl options) 300 in
  let dmax := DuckDuckGoAdapter.num_or (opt_defaultMaxResults options) 10 in
  {| cacheTtl := ttl;
     defaultMaxResults := dmax;
     adapters :=
       [("duckduckgo",
         DuckDuckGoAdapter.constructor
           {| DuckDuckGoAdapter.opt_maxResults := Some dmax;
              DuckDuckGoAdapter.opt_timeout := None;
              DuckDuckGoAdapter.opt_userAgent := None;
              DuckDuckGoAdapter.opt_allowedSources := Some [] |})];
     cache := [("duckduckgo", emptySlot); ("scraped", emptySlot)] |}.

Record SearchOptions : Type := {
  engine : option string;
  useCache : option bool;
  maxResults : option Z
}.

Definition noOptions : SearchOptions :=
  {| engine := None; useCache := None; maxResults := None |}.

Record SearchResponse : Type := {
  res_results : list RawItem.t;
  res_query : string;
  res_engine : string;
  res_timestamp : option Z;
  fromCache : bool
}.

Definition engineOf (options : SearchOptions) : string :=
  or_else (engine options) "duckduckgo".

(** [options.useCache !== false] *)
Definition useCacheOf (options : SearchOptions) : bool :=
  match useCache options with
  | Some false => false
  | _ => true
  end.

(** The test of the cached slot, with [now] the value of [Date.now()]. *)
Definition fresh (now : Z) (self : t) (slot : CacheSlot) (q : string) : bool :=
  (query slot =? q)%string &&
  match timestamp slot with
  | Some ts => now - ts <? cacheTtl self * 1000
  | None => false
  end.

Definition splitTerms (q : string) : list string :=
  filter nonBlank (JS.split " "%char q).

Definition withAdapter (self : t) (e : string) (a : DuckDuckGoAdapter.t) : t :=
  {| cacheTtl := cacheTtl self;
     defaultMaxResults := defaultMaxResults self;
     adapters := Obj.set e a (adapters self);
     cache := cache self |}.

Definition withSlot (self : t) (e : string) (slot : CacheSlot) : t :=
  {| cacheTtl := cacheTtl self;
     defaultMaxResults := defaultMaxResults self;
     adapters := adapters self;
     cache := Obj.set e slot (cache self) |}.

(** The part of [search] after the cache test.  An engine named after a
    property of [Object.prototype] passes the guard on [this.adapters[engine]];
    [maxResults] is then written on that inherited value and the call of
    [collectData], which it does not have, throws a TypeError. *)
Definition refetch (web : DuckDuckGoAdapter.Web) (stamp : Z) (self : t) (q : string)
    (options : SearchOptions) : Outcome SearchResponse * t :=
  let e := engineOf options in
  let maxR := DuckDuckGoAdapter.num_or (maxResults options) (defaultMaxResults self) in
  match Obj.get e (adapters self) with
  | None =>
      if Obj.inherited e
      then (Thrown "this.adapters[engine].collectData is not a function", self)
      else (Thrown ("Search engine " +++ dquote +++ e +++ dquote +++ " not supported"), self)
  | Some adapter =>
      let adapter :=
        DuckDuckGoAdapter.setMaxResults
          (if negb (maxR =? 0) && negb (maxR =? defaultMaxResults self)
           then maxR else defaultMaxResults self)
          adapter in
      let self := withAdapter self e adapter in
      match DuckDuckGoAdapter.collectData web adapter (Some (splitTerms q)) with
      | Thrown m => (Thrown m, self)
      | Returned items =>
          (Returned {| res_results := items; res_query := q; res_engine := e;
                       res_timestamp := Some stamp; fromCache := false |},
           withSlot self e {| results := items; query := q; timestamp := Some stamp |})
      end
  end.

(** [search(query, options)]: [now] is what [Date.now()] reads at the cache
    test, [stamp] what [new Date()] reads when the slot is written. *)
Definition search (web : DuckDuckGoAdapter.Web) (now stamp : Z) (self : t) (q : string)
    (options : SearchOptions) : Outcome SearchResponse * t :=
  let e := engineOf options in
  match Obj.get e (cache self) with
  | Some slot =>
      if useCacheOf options && fresh now self slot q
      then (Returned {| res_results := results slot; res_query := q; res_engine := e;
                        res_timestamp := timestamp slot; fromCache := true |},
            self)
      else refetch web stamp self q options
  | None => refetch web stamp self q options
  end.

(** [clearCache(adapterName)]: a name that is absent or empty clears every
    slot.  For a name found only in [Object.prototype] the test
    [this.cache[adapterName]] succeeds and the assignment creates the slot. *)
Definition clearCache (adapterName : option string) (self : t) : t :=
  match adapterName with
  | Some (String c s) =>
      let a := String c s in
      match Obj.get a (cache self) with
      | Some _ => withSlot self a emptySlot
      | None => if Obj.inherited a then withSlot self a emptySlot else self
      end
  | _ =>
      {| cacheTtl := cacheTtl self;
         defaultMaxResults := defaultMaxResults self;
         adapters := adapters self;
         cache := map (fun kv => (fst kv, emptySlot)) (cache self) |}
  end.

(** Whether a call was answered from the cache. *)
Definition servedFromCache (r : Outcome SearchResponse * t) : bool :=
  match fst r with
  | Returned resp => fromCache resp
  | Thrown _ => false
  end.

Lemma refetch_not_from_cache (web : DuckDuckGoAdapter.Web) (stamp : Z) (self : t)
    (q : string) (options : SearchOptions) :
  servedFromCache (refetch web stamp self q options) = false.
Proof.
  unfold servedFromCache, refetch.
  destruct (Obj.get (engineOf options) (adapters self)) as [a |];
    [| destruct (Obj.inherited (engineOf options)); reflexivity].
  destruct (DuckDuckGoAdapter.collectData web _ _); reflexivity.
Qed.

(** The condition under which the code answers from the cache. *)
Definition hit (now : Z) (self : t) (q : string) (options : SearchOptions) : Prop :=
  useCache options <> Some false /\
  exists slot ts,
    Obj.get (engineOf options) (cache self) = Some slot /\
    query slot = q /\
    timestamp slot = Some ts /\
    now - ts < cacheTtl self * 1000.

Lemma fresh_iff (now : Z) (self : t) (slot : CacheSlot) (q : string) :
  fresh now self slot q = true <->
  query slot = q /\ exists ts, timestamp slot = Some ts /\ now - ts < cacheTtl self * 1000.
Proof.
  unfold fresh. rewrite andb_true_iff, String.eqb_eq.
  destruct (timestamp slot) as [ts |].
  - rewrite Z.ltb_lt. split.
    + intros [Hq Hlt]. split; [assumption | exists ts; now split].
    + intros [Hq [ts' [Hts Hlt]]]. injection Hts as <-. now split.
  - split.
    + intros [_ Hf]. discriminate.
    + intros [_ [ts' [Hts _]]]. discriminate.
Qed.

Lemma useCacheOf_iff (options : SearchOptions) :
  useCacheOf options = true <-> useCache options <> Some false.
Proof.
  unfold useCacheOf. destruct (useCache options) as [[|] |]; split; intros H;
    try reflexivity; try discriminate; try congruence.
Qed.

Lemma served_iff_hit (web : DuckDuckGoAdapter.Web) (now stamp : Z) (self : t)
    (q : string) (options : SearchOptions) :
  servedFromCache (search web now stamp self q options) = true <-> hit now self q options.
Proof.
  unfold search, hit. split.
  - intros Hs. destruct (Obj.get (engineOf options) (cache self)) as [slot |] eqn:Hslot.
    + destruct (useCacheOf options && fresh now self slot q) eqn:Hc.
      * apply andb_prop in Hc as [Hu Hf]. split; [now apply useCacheOf_iff |].
        apply fresh_iff in Hf as [Hq [ts [Hts Hlt]]]. exists slot, ts. now repeat split.
      * rewrite refetch_not_from_cache in Hs. discriminate.
    + rewrite refetch_not_from_cache in Hs. discriminate.
  - intros [Hu [slot [ts [Hslot [Hq [Hts Hlt]]]]]]. rewrite Hslot.
    assert (Hc : useCacheOf options && fresh now self slot q = true).
    { apply andb_true_intro. split; [now apply useCacheOf_iff |].
      apply fresh_iff. split; [assumption | exists ts; now split]. }
    rewrite Hc. reflexivity.
Qed.

Lemma search_hit (web : DuckDuckGoAdapter.Web) (now stamp : Z) (self : t)
    (q : string) (options : SearchOptions) (slot : CacheSlot) :
  hit now self q options ->
  Obj.get (engineOf options) (cache self) = Some slot ->
  search web now stamp self q options =
    (Returned {| res_results := results slot; res_query := q;
                 res_engine := engineOf options;
                 res_timestamp := timestamp slot; fromCache := true |}, self).
Proof.
  intros [Hu [slot' [ts [Hslot' [Hq [Hts Hlt]]]]]] Hslot.
  rewrite Hslot in Hslot'. injection Hslot' as <-.
  unfold search. rewrite Hslot.
  assert (Hc : useCacheOf options && fresh now self slot q = true).
  { apply andb_true_intro. split; [now apply useCacheOf_iff |].
    apply fresh_iff. split; [assumption | exists ts; now split]. }
  rewrite Hc. reflexivity.
Qed.

Lemma search_miss (web : DuckDuckGoAdapter.Web) (now stamp : Z) (self : t)
    (q : string) (options : SearchOptions) :
  ~ hit now self q options ->
  search web now stamp self q options = refetch web stamp self q options.
Proof.
  intros Hmiss. unfold search.
  destruct (Obj.get (engineOf options) (cache self)) as [slot |] eqn:Hslot; [| reflexivity].
  destruct (useCacheOf options && fresh now self slot q) eqn:Hc; [| reflexivity].
  exfalso. apply Hmiss. apply andb_prop in Hc as [Hu Hf].
  split; [now apply useCacheOf_iff |].
  apply fresh_iff in Hf as [Hq [ts [Hts Hlt]]]. exists slot, ts. now repeat split.
Qed.

End SearchService.

(** The cache as the first search of ["x"] at instant 0 leaves it. *)
Definition warmService : SearchService.t :=
  snd (SearchService.search Sample.web 0 0
         (SearchService.constructor
            {| SearchService.opt_cacheTtl := None;
               SearchService.opt_defaultMaxResults := None |})
         "x" SearchService.noOptions).

(** C7, as stated, fails when the caller disables the cache: one second after
    ["x"] was searched the slot holds exactly that query and is well within
    the 300 s of its life, yet [search("x", {useCache: false})] is not served
    from the cache. *)
Lemma cache_bypassed_when_disabled :
  (exists slot,
      Obj.get "duckduckgo" (SearchService.cache warmService) = Some slot /\
      SearchService.query slot = "x" /\
      SearchService.timestamp slot = Some 0 /\
      1000 - 0 < SearchService.cacheTtl warmService * 1000)
  /\ SearchService.servedFromCache
       (SearchService.search Sample.web 1000 1000 warmService "x"
          {| SearchService.engine := None;
             SearchService.useCache := Some false;
             SearchService.maxResults := None |}) = false.
Proof.
  split; [| reflexivity].
  eexists. split; [reflexivity |]. repeat split.
Qed.

(** C7, amended: a search is served from the cache if and only if the call
    does not disable the cache ([useCache] is not [false]), the engine has a
    slot, the slot holds a timestamp, its query is exactly the requested one
    and [now - timestamp < cacheTtl * 1000]; a hit returns the slot's results
    with [fromCache = true] and changes nothing.  On a miss for an engine that
    has an adapter, the adapter's [collectData] is called on the terms of the
    query and the slot of the engine is overwritten with the new results, the
    query and the new timestamp, with [fromCache = false]; on a miss for an
    engine that has no adapter the search throws and changes nothing. *)
Theorem search_cache_spec (web : DuckDuckGoAdapter.Web) (now stamp : Z)
    (self : SearchService.t) (q : string) (options : SearchService.SearchOptions) :
  let e := SearchService.engineOf options in
  let out := SearchService.search web now stamp self q options in
  (SearchService.servedFromCache out = true <-> SearchService.hit now self q options)
  /\ (SearchService.hit now self q options ->
      forall slot, Obj.get e (SearchService.cache self) = Some slot ->
        out = (Returned {| SearchService.res_results := SearchService.results slot;
                           SearchService.res_query := q;
                           SearchService.res_engine := e;
                           SearchService.res_timestamp := SearchService.timestamp slot;
                           SearchService.fromCache := true |}, self))
  /\ (~ SearchService.hit now self q options ->
      forall adapter, Obj.get e (SearchService.adapters self) = Some adapter ->
        exists n items,
          DuckDuckGoAdapter.collectData web (DuckDuckGoAdapter.setMaxResults n adapter)
            (Some (SearchService.splitTerms q)) = Returned items /\
          fst out = Returned {| SearchService.res_results := items;
                                SearchService.res_query := q;
                                SearchService.res_engine := e;
                                SearchService.res_timestamp := Some stamp;
                                SearchService.fromCache := false |} /\
          Obj.get e (SearchService.cache (snd out)) =
            Some {| SearchService.results := items;
                    SearchService.query := q;
                    SearchService.timestamp := Some stamp |})
  /\ (~ SearchService.hit now self q options ->
      Obj.get e (SearchService.adapters self) = None ->
        exists message, out = (Thrown message, self)).
Proof.
  intros e out. subst e out.
  split; [apply SearchService.served_iff_hit |].
  split; [intros Hhit slot Hslot; now apply SearchService.search_hit |].
  split.
  - intros Hmiss adapter Hadapter.
    rewrite (SearchService.search_miss web now stamp self q options Hmiss).
    unfold SearchService.refetch. rewrite Hadapter.
    match goal with
    | |- context [DuckDuckGoAdapter.setMaxResults ?n adapter] => exists n
    end.
    destruct (DuckDuckGoFacts.collectData_returns web
                (DuckDuckGoAdapter.setMaxResults
                   (if negb (DuckDuckGoAdapter.num_or (SearchService.maxResults options)
                                (SearchService.defaultMaxResults self) =? 0)
                       && negb (DuckDuckGoAdapter.num_or (SearchService.maxResults options)
                                  (SearchService.defaultMaxResults self)
                                =? SearchService.defaultMaxResults self)
                    then DuckDuckGoAdapter.num_or (SearchService.maxResults options)
                           (SearchService.defaultMaxResults self)
                    else SearchService.defaultMaxResults self) adapter)
                (Some (SearchService.splitTerms q))) as [items Hitems].
    exists items. rewrite Hitems. cbn [fst snd].
    split; [reflexivity |]. split; [reflexivity |].
    unfold SearchService.withSlot. cbn [SearchService.cache]. apply Obj.get_set_same.
  - intros Hmiss Hnone.
    rewrite (SearchService.search_miss web now stamp self q options Hmiss).
    unfold SearchService.refetch. rewrite Hnone.
    destruct (Obj.inherited (SearchService.engineOf options)); eexists; reflexivity.
Qed.

(** The amended statement on the warm cache: the default call one second
    later is a hit. *)
Lemma search_cache_spec_witness :
  SearchService.servedFromCache
    (SearchService.search Sample.web 1000 1000 warmService "x" SearchService.noOptions)
  = true.
Proof.
  apply (proj1 (search_cache_spec Sample.web 1000 1000 warmService "x"
                  SearchService.noOptions)).
  split; [discriminate |].
  eexists. exists 0. split; [reflexivity |]. repeat split.
Defined.

(* ================================================================== *)
(** * The orchestrator and the knowledge store: core/collectionService.js *)
(* ================================================================== *)

(** An entry of [state.results].  [isError] is only set on error items and
    only read as [item.isError || false]; [searchResults] only exists on the
    aggregate item of the search fallback. *)
Module Item.

Record t : Type := mk {
  id : string;
  title : string;
  summary : string;
  content : string;
  tags : list string;
  createdAt : string;
  date : string;
  sourceName : string;
  source : string;
  sourceUrl : string;
  url : string;
  isError : bool;
  collectionId : string;
  searchResults : list SearchResult.t
}.

End Item.

(** A knowledge book as stored in a partition file or in the merged file. *)
Module Book.

Record t : Type := mk {
  id : string;
  title : string;
  summary : string;
  content : string;
  tags : list string;
  date : option string;
  createdAt : option string;
  source : string;
  sourceUrl : string;
  url : string;
  isError : bool;
  collectionId : string;
  collectionDate : string
}.

End Book.

(** What [require(adapterPath)] gives and what the orchestrator calls on it. *)
Module Adapter.

Record t : Type := {
  fetchContent : option (list string -> Outcome (list RawItem.t));
  collectData : option (list string -> Outcome (list RawItem.t));
  performSearch : option (string -> Outcome (list SearchResult.t))
}.

Record Options : Type := {
  maxResults : Z;
  language : option string;
  sortBy : option string;
  userAgent : option string;
  timeout : option Z;
  apiKey : option string
}.

(** A module exports a class, or some other value (falsy: [None]). *)
Inductive Export : Type :=
| ClassExport (construct : Options -> Outcome t)
| ObjectExport (value : option t).

(** [new AdapterClass(options)] *)
Definition new (what : string) (e : Export) (options : Options) : Outcome t :=
  match e with
  | ClassExport construct => construct options
  | ObjectExport _ => Thrown (what +++ " is not a constructor")
  end.

(** [adapter.method(argument)] for a method that may be missing. *)
Definition call {A B : Type} (what : string) (method : option (A -> Outcome B)) (a : A)
  : Outcome B :=
  match method with
  | Some f => f a
  | None => Thrown (what +++ " is not a function")
  end.

(** The module sourceAdapters/duckDuckGoAdapter.js, over a given web. *)
Definition duckDuckGo (web : DuckDuckGoAdapter.Web) : Export :=
  ClassExport (fun options =>
    let self :=
      DuckDuckGoAdapter.constructor
        {| DuckDuckGoAdapter.opt_maxResults := Some (maxResults options);
           DuckDuckGoAdapter.opt_timeout := timeout options;
           DuckDuckGoAdapter.opt_userAgent := userAgent options;
           DuckDuckGoAdapter.opt_allowedSources := None |} in
    Returned
      {| fetchContent := None;
         collectData := Some (fun keywords =>
                          DuckDuckGoAdapter.collectData web self (Some keywords));
         performSearch := Some (DuckDuckGoAdapter.performSearch web self) |}).

End Adapter.

(* ================================================================== *)
(** * [Array.prototype.sort] *)
(* ================================================================== *)

(** The sort of the engine the sources run on (V8, builtins/array-sort.tq):
    the array is cut into runs, each made at least [minRunLength] long by
    binary insertion, and the runs are merged pairwise, galloping when one
    of them keeps winning.  An array shorter than 64 is one run.  With a
    comparator that is consistent the result is the stable sort; the order
    the engine leaves under a comparator that is not (a date that does not
    parse compares equal to every other) is the one computed here.  The
    array is a list; a run on the stack of pending runs is the list of its
    elements. *)

Module ArraySort.

Section TimSort.

Context {A : Type}.

(** The comparator as the sort calls it: the number the function returns,
    NaN counted as [+0]. *)
Variable cmp : A -> A -> Z.

Definition before (x y : A) : bool := cmp x y <? 0.

(** *** CountAndMakeRun *)

Fixpoint extendRun (isDescending : bool) (previousElement : A) (l : list A)
  : list A * list A :=
  match l with
  | [] => ([], [])
  | currentElement :: rest =>
      let order := before currentElement previousElement in
      if (if isDescending then negb order else order)
      then ([], l)
      else
        let '(run, rest') := extendRun isDescending currentElement rest in
        (currentElement :: run, rest')
  end.

Definition countAndMakeRun (l : list A) : list A * list A :=
  match l with
  | [] => ([], [])
  | [x] => ([x], [])
  | elementHigh :: elementLow :: rest =>
      let isDescending := before elementLow elementHigh in
      let '(run, rest') := extendRun isDescending elementLow rest in
      let run := elementHigh :: elementLow :: run in
      (if isDescending then rev run else run, rest')
  end.

(** *** The searches: GallopLeft, GallopRight and the binary search *)

Fixpoint gallopFar (fuel : nat) (stop : nat -> bool) (maxOfs lastOfs offset : nat)
  : nat * nat :=
  match fuel with
  | O => (lastOfs, offset)
  | S fuel' =>
      if (offset <? maxOfs)%nat
      then if stop offset then (lastOfs, offset)
           else gallopFar fuel' stop maxOfs offset (2 * offset + 1)%nat
      else (lastOfs, offset)
  end.

Fixpoint bisect (fuel : nat) (p : nat -> bool) (lastOfs offset : nat) : nat :=
  match fuel with
  | O => offset
  | S fuel' =>
      if (lastOfs <? offset)%nat
      then
        let m := (lastOfs + (offset - lastOfs) / 2)%nat in
        if p m then bisect fuel' p (m + 1)%nat offset else bisect fuel' p lastOfs m
      else offset
  end.

(** *** BinaryInsertionSort *)

(** The place of [pivot] in a run: [left] goes up past [mid] unless the
    pivot comes before the element there. *)
Definition findPivot (pivot : A) (run : list A) : nat :=
  bisect (List.length run) (fun mid => negb (before pivot (nth mid run pivot)))
    0 (List.length run).

Definition insertPivot (run : list A) (pivot : A) : list A :=
  let left := findPivot pivot run in
  firstn left run ++ pivot :: skipn left run.

Definition binaryInsertionSort (run pending : list A) : list A :=
  fold_left insertPivot pending run.

Definition gallop (p : nat -> bool) (length hint : nat) : nat :=
  if p hint
  then
    let maxOfs := (length - hint)%nat in
    let '(lastOfs, offset) :=
      gallopFar (S length) (fun ofs => negb (p (hint + ofs)%nat)) maxOfs 0 1 in
    let offset := Nat.min offset maxOfs in
    bisect (S length) p (lastOfs + hint + 1)%nat (offset + hint)%nat
  else
    let maxOfs := (hint + 1)%nat in
    let '(lastOfs, offset) :=
      gallopFar (S length) (fun ofs => p (hint - ofs)%nat) maxOfs 0 1 in
    let offset := Nat.min offset maxOfs in
    bisect (S length) p (hint + 1 - offset)%nat (hint - lastOfs)%nat.

Definition gallopLeft (key : A) (array : list A) (hint : nat) : nat :=
  gallop (fun i => before (nth i array key) key) (List.length array) hint.

Definition gallopRight (key : A) (array : list A) (hint : nat) : nat :=
  gallop (fun i => negb (before key (nth i array key))) (List.length array) hint.

(** *** MergeLow and MergeHigh *)

Definition kMinGallopWins : nat := 7.

Inductive Mode : Type :=
| OneAtATime (nofWinsA nofWinsB : nat)
| Galloping (nofWinsA nofWinsB : nat) (firstIteration : bool).

Definition keepsGalloping (nofWinsA nofWinsB : nat) (firstIteration : bool) : bool :=
  (kMinGallopWins <=? nofWinsA)%nat || (kMinGallopWins <=? nofWinsB)%nat || firstIteration.

Fixpoint mergeLowLoop (fuel : nat) (mode : Mode) (minGallop : nat) (out a b : list A)
  : list A * nat :=
  match fuel with
  | O => (out ++ a ++ b, minGallop)
  | S fuel' =>
      match mode with
      | OneAtATime nofWinsA nofWinsB =>
          match a, b with
          | x :: a', y :: b' =>
              if before y x
              then
                match b' with
                | [] => (out ++ y :: a, minGallop)
                | _ =>
                    if (minGallop <=? S nofWinsB)%nat
                    then mergeLowLoop fuel' (Galloping 0 (S nofWinsB) true) (S minGallop)
                           (out ++ [y]) a b'
                    else mergeLowLoop fuel' (OneAtATime 0 (S nofWinsB)) minGallop
                           (out ++ [y]) a b'
                end
              else
                match a' with
                | [_] => (out ++ x :: b ++ a', minGallop)
                | _ =>
                    if (minGallop <=? S nofWinsA)%nat
                    then mergeLowLoop fuel' (Galloping (S nofWinsA) 0 true) (S minGallop)
                           (out ++ [x]) a' b
                    else mergeLowLoop fuel' (OneAtATime (S nofWinsA) 0) minGallop
                           (out ++ [x]) a' b
                end
          | _, _ => (out ++ a ++ b, minGallop)
          end
      | Galloping nofWinsA nofWinsB firstIteration =>
          if keepsGalloping nofWinsA nofWinsB firstIteration
          then
            let minGallop := Nat.max 1 (minGallop - 1) in
            match b with
            | [] => (out ++ a, minGallop)
            | y :: b' =>
                let nofWinsA := gallopRight y a 0 in
                let out := out ++ firstn nofWinsA a in
                let a := skipn nofWinsA a in
                if (0 <? nofWinsA)%nat && (List.length a =? 1)%nat
                then (out ++ b ++ a, minGallop)
                else if (0 <? nofWinsA)%nat && (List.length a =? 0)%nat
                then (out ++ b, minGallop)
                else
                  let out := out ++ [y] in
                  match b', a with
                  | [], _ => (out ++ a, minGallop)
                  | _, [] => (out ++ b', minGallop)
                  | _, x :: a' =>
                      let nofWinsB := gallopLeft x b' 0 in
                      let out := out ++ firstn nofWinsB b' in
                      let b' := skipn nofWinsB b' in
                      if (0 <? nofWinsB)%nat && (List.length b' =? 0)%nat
                      then (out ++ a, minGallop)
                      else
                        let out := out ++ [x] in
                        if (List.length a' =? 1)%nat
                        then (out ++ b' ++ a', minGallop)
                        else mergeLowLoop fuel' (Galloping nofWinsA nofWinsB false) minGallop
                               out a' b'
                  end
            end
          else mergeLowLoop fuel' (OneAtATime 0 0) (S minGallop) out a b
      end
  end.

Definition mergeLow (minGallop : nat) (a b : list A) : list A * nat :=
  match b with
  | [] => (a, minGallop)
  | y :: b' =>
      match b', a with
      | [], _ => (y :: a, minGallop)
      | _, [x] => (y :: b' ++ [x], minGallop)
      | _, _ =>
          mergeLowLoop (2 * (List.length a + List.length b) + 2) (OneAtATime 0 0) minGallop
            [y] a b'
      end
  end.

(** [l] without its last element, and that element. *)
Definition unsnoc (l : list A) : option (list A * A) :=
  match rev l with
  | [] => None
  | x :: r => Some (rev r, x)
  end.

Fixpoint mergeHighLoop (fuel : nat) (mode : Mode) (minGallop : nat) (a b out : list A)
  : list A * nat :=
  match fuel with
  | O => (a ++ b ++ out, minGallop)
  | S fuel' =>
      match mode with
      | OneAtATime nofWinsA nofWinsB =>
          match unsnoc a, unsnoc b with
          | Some (a', x), Some (b', y) =>
              if before y x
              then
                match a' with
                | [] => (b ++ x :: out, minGallop)
                | _ =>
                    if (minGallop <=? S nofWinsA)%nat
                    then mergeHighLoop fuel' (Galloping (S nofWinsA) 0 true) (S minGallop)
                           a' b (x :: out)
                    else mergeHighLoop fuel' (OneAtATime (S nofWinsA) 0) minGallop
                           a' b (x :: out)
                end
              else
                match b' with
                | [_] => (b' ++ a ++ y :: out, minGallop)
                | _ =>
                    if (minGallop <=? S nofWinsB)%nat
                    then mergeHighLoop fuel' (Galloping 0 (S nofWinsB) true) (S minGallop)
                           a b' (y :: out)
                    else mergeHighLoop fuel' (OneAtATime 0 (S nofWinsB)) minGallop
                           a b' (y :: out)
                end
          | _, _ => (a ++ b ++ out, minGallop)
          end
      | Galloping nofWinsA nofWinsB firstIteration =>
          if keepsGalloping nofWinsA nofWinsB firstIteration
          then
            let minGallop := Nat.max 1 (minGallop - 1) in
            match unsnoc b with
            | None => (a ++ out, minGallop)
            | Some (b', y) =>
                let k := gallopRight y a (List.length a - 1) in
                let nofWinsA := (List.length a - k)%nat in
                let out := skipn k a ++ out in
                let a := firstn k a in
                if (0 <? nofWinsA)%nat && (List.length a =? 0)%nat
                then (b ++ out, minGallop)
                else
                  let out := y :: out in
                  if (List.length b' =? 1)%nat
                  then (b' ++ a ++ out, minGallop)
                  else
                    match unsnoc a with
                    | None => (b' ++ out, minGallop)
                    | Some (a', x) =>
                        let k := gallopLeft x b' (List.length b' - 1) in
                        let nofWinsB := (List.length b' - k)%nat in
                        let out := skipn k b' ++ out in
                        let b' := firstn k b' in
                        if (0 <? nofWinsB)%nat && (List.length b' =? 1)%nat
                        then (b' ++ a ++ out, minGallop)
                        else if (0 <? nofWinsB)%nat && (List.length b' =? 0)%nat
                        then (a ++ out, minGallop)
                        else
                          let out := x :: out in
                          match a' with
                          | [] => (b' ++ out, minGallop)
                          | _ => mergeHighLoop fuel' (Galloping nofWinsA nofWinsB false)
                                   minGallop a' b' out
                          end
                    end
            end
          else mergeHighLoop fuel' (OneAtATime 0 0) (S minGallop) a b out
      end
  end.

Definition mergeHigh (minGallop : nat) (a b : list A) : list A * nat :=
  match unsnoc a with
  | None => (b, minGallop)
  | Some (a', x) =>
      match a', b with
      | [], _ => (b ++ [x], minGallop)
      | _, [y] => (y :: a' ++ [x], minGallop)
      | _, _ =>
          mergeHighLoop (2 * (List.length a + List.length b) + 2) (OneAtATime 0 0) minGallop
            a' b [x]
      end
  end.

(** *** MergeAt, on two neighbouring runs *)

Definition mergeAt (minGallop : nat) (a b : list A) : list A * nat :=
  match b with
  | [] => (a, minGallop)
  | keyRight :: _ =>
      let k := gallopRight keyRight a 0 in
      let a' := skipn k a in
      match unsnoc a' with
      | None => (a ++ b, minGallop)
      | Some (_, keyLeft) =>
          let lengthB := gallopLeft keyLeft b (List.length b - 1) in
          let b' := firstn lengthB b in
          match b' with
          | [] => (a ++ b, minGallop)
          | _ =>
              let '(merged, minGallop) :=
                if (List.length a' <=? List.length b')%nat
                then mergeLow minGallop a' b'
                else mergeHigh minGallop a' b' in
              (firstn k a ++ merged ++ skipn lengthB b, minGallop)
          end
      end
  end.

(** *** The stack of pending runs, the last one first *)

Record SortState : Type := {
  pendingRuns : list (list A);
  minGallop : nat
}.

Definition mergeTop (s : SortState) : SortState :=
  match pendingRuns s with
  | r0 :: r1 :: below =>
      let '(merged, g) := mergeAt (minGallop s) r1 r0 in
      {| pendingRuns := merged :: below; minGallop := g |}
  | _ => s
  end.

Definition mergeBelowTop (s : SortState) : SortState :=
  match pendingRuns s with
  | r0 :: r1 :: r2 :: below =>
      let '(merged, g) := mergeAt (minGallop s) r2 r1 in
      {| pendingRuns := r0 :: merged :: below; minGallop := g |}
  | _ => s
  end.

Definition len (r : list A) : nat := List.length r.

(** [!RunInvariantEstablished(n + 1) || !RunInvariantEstablished(n)] with
    [n] the run below the top. *)
Definition invariantBroken (runs : list (list A)) : bool :=
  match runs with
  | r0 :: r1 :: r2 :: below =>
      (len r2 <=? len r1 + len r0)%nat
      || match below with
         | r3 :: _ => (len r3 <=? len r2 + len r1)%nat
         | [] => false
         end
  | _ => false
  end.

Fixpoint mergeCollapse (fuel : nat) (s : SortState) : SortState :=
  match fuel with
  | O => s
  | S fuel' =>
      match pendingRuns s with
      | r0 :: r1 :: below =>
          if invariantBroken (pendingRuns s)
          then
            match below with
            | r2 :: _ =>
                if (len r2 <? len r0)%nat
                then mergeCollapse fuel' (mergeBelowTop s)
                else mergeCollapse fuel' (mergeTop s)
            | [] => mergeCollapse fuel' (mergeTop s)
            end
          else if (len r1 <=? len r0)%nat
          then mergeCollapse fuel' (mergeTop s)
          else s
      | _ => s
      end
  end.

Fixpoint mergeForceCollapse (fuel : nat) (s : SortState) : SortState :=
  match fuel with
  | O => s
  | S fuel' =>
      match pendingRuns s with
      | r0 :: r1 :: below =>
          match below with
          | r2 :: _ =>
              if (len r2 <? len r0)%nat
              then mergeForceCollapse fuel' (mergeBelowTop s)
              else mergeForceCollapse fuel' (mergeTop s)
          | [] => mergeForceCollapse fuel' (mergeTop s)
          end
      | _ => s
      end
  end.

(** *** ArrayTimSortImpl *)

Fixpoint computeMinRunLength (fuel : nat) (n r : nat) : nat :=
  match fuel with
  | O => (n + r)%nat
  | S fuel' =>
      if (64 <=? n)%nat
      then computeMinRunLength fuel' (n / 2)%nat (Nat.max r (n mod 2))
      else (n + r)%nat
  end.

Fixpoint makeRuns (fuel : nat) (minRunLength : nat) (remaining : list A) (s : SortState)
  : SortState :=
  match fuel with
  | O => s
  | S fuel' =>
      match remaining with
      | [] => s
      | _ =>
          let '(run, rest) := countAndMakeRun remaining in
          let forced := (Nat.min minRunLength (List.length remaining) - List.length run)%nat in
          let '(run, rest) :=
            if (List.length run <? minRunLength)%nat
            then (binaryInsertionSort run (firstn forced rest), skipn forced rest)
            else (run, rest) in
          let s := {| pendingRuns := run :: pendingRuns s; minGallop := minGallop s |} in
          makeRuns fuel' minRunLength rest
            (mergeCollapse (List.length (pendingRuns s)) s)
      end
  end.

Definition timSort (l : list A) : list A :=
  if (List.length l <? 2)%nat then l
  else
    let minRunLength := computeMinRunLength (List.length l) (List.length l) 0 in
    let s := makeRuns (List.length l) minRunLength l
               {| pendingRuns := []; minGallop := kMinGallopWins |} in
    let s := mergeForceCollapse (List.length (pendingRuns s)) s in
    List.concat (rev (pendingRuns s)).

End TimSort.

End ArraySort.

(** ** Facts about the sort *)

Module ArraySortFacts.

Import ArraySort.

(** ** Rearrangements *)

Section Pull.

Context {A : Type}.

Lemma pull_here (a r : list A) : Permutation (a ++ r) (a ++ r).
Proof. apply Permutation_refl. Qed.

Lemma pull_there (b r1 a r1' : list A) :
  Permutation r1 (a ++ r1') -> Permutation (b ++ r1) (a ++ b ++ r1').
Proof.
  intros H. eapply perm_trans; [apply Permutation_app_head, H |].
  apply Permutation_app_swap_app.
Qed.

Lemma perm_cancel (a l r r' : list A) :
  Permutation r (a ++ r') -> Permutation l r' -> Permutation (a ++ l) r.
Proof.
  intros Hr Hl. symmetry. eapply perm_trans; [exact Hr |].
  apply Permutation_app_head. now symmetry.
Qed.

Lemma perm_closed (l r : list A) : Permutation (l ++ []) (r ++ []) -> Permutation l r.
Proof. now rewrite !app_nil_r. Qed.

End Pull.

Ltac pull := first [ apply pull_here | apply pull_there; pull ].

Ltac perm_go :=
  lazymatch goal with
  | |- Permutation [] _ => apply perm_nil
  | |- Permutation (?a ++ ?l) ?r => eapply (perm_cancel a l r); [pull | perm_go]
  end.

Ltac uncons :=
  repeat match goal with
         | |- context [?x :: ?l] =>
             lazymatch l with
             | [] => fail
             | _ => change (x :: l) with ([x] ++ l)
             end
         end.

(** Solves [Permutation l r] where both sides are the same pieces appended
    in another order. *)
Ltac perm :=
  apply perm_closed; uncons; rewrite <- ?app_assoc; rewrite ?app_nil_l; perm_go.

Section Rearranged.

Context {A : Type}.
Variable cmp : A -> A -> Z.

Lemma extendRun_app (isDescending : bool) (l : list A) :
  forall previousElement,
    fst (extendRun cmp isDescending previousElement l)
    ++ snd (extendRun cmp isDescending previousElement l) = l.
Proof.
  induction l as [| currentElement rest IH]; intros previousElement; cbn [extendRun];
    [reflexivity |].
  destruct (if isDescending then _ else _); [reflexivity |].
  specialize (IH currentElement).
  destruct (extendRun cmp isDescending currentElement rest) as [run rest'].
  cbn [fst snd] in *. cbn [app]. now rewrite IH.
Qed.

Lemma countAndMakeRun_perm (l : list A) :
  Permutation l (fst (countAndMakeRun cmp l) ++ snd (countAndMakeRun cmp l)).
Proof.
  destruct l as [| elementHigh [| elementLow rest]]; cbn [countAndMakeRun fst snd app];
    try apply Permutation_refl.
  pose proof (extendRun_app (before cmp elementLow elementHigh) rest elementLow) as Happ.
  destruct (extendRun cmp _ elementLow rest) as [run rest']. cbn [fst snd] in *.
  rewrite <- Happ.
  destruct (before cmp elementLow elementHigh); cbn [fst snd].
  - apply (Permutation_app_tail rest' (Permutation_rev (elementHigh :: elementLow :: run))).
  - apply Permutation_refl.
Qed.

Lemma countAndMakeRun_length (l : list A) :
  (List.length (fst (countAndMakeRun cmp l)) + List.length (snd (countAndMakeRun cmp l))
   = List.length l)%nat.
Proof.
  rewrite <- length_app. symmetry. apply Permutation_length, countAndMakeRun_perm.
Qed.

Lemma countAndMakeRun_nonempty (l : list A) :
  l <> [] -> fst (countAndMakeRun cmp l) <> [].
Proof.
  destruct l as [| elementHigh [| elementLow rest]]; cbn [countAndMakeRun];
    [congruence | discriminate |].
  intros _. destruct (extendRun cmp _ elementLow rest) as [run rest'].
  destruct (before cmp elementLow elementHigh); cbn [fst]; [| discriminate].
  intros H. apply (f_equal (@List.length A)) in H. rewrite length_rev in H. discriminate.
Qed.

Lemma insertPivot_perm (run : list A) (pivot : A) :
  Permutation (pivot :: run) (insertPivot cmp run pivot).
Proof.
  unfold insertPivot.
  rewrite <- (firstn_skipn (findPivot cmp pivot run) run) at 1.
  apply Permutation_middle.
Qed.

Lemma binaryInsertionSort_perm (pending : list A) :
  forall run, Permutation (run ++ pending) (binaryInsertionSort cmp run pending).
Proof.
  unfold binaryInsertionSort.
  induction pending as [| pivot rest IH]; intros run; cbn [fold_left].
  - rewrite app_nil_r. apply Permutation_refl.
  - eapply perm_trans; [| apply IH].
    pose proof (Permutation_app_tail rest (insertPivot_perm run pivot)) as H.
    eapply perm_trans; [| exact H]. perm.
Qed.

Lemma binaryInsertionSort_nonempty (pending run : list A) :
  run <> [] -> binaryInsertionSort cmp run pending <> [].
Proof.
  intros Hrun H.
  pose proof (binaryInsertionSort_perm pending run) as Hperm. rewrite H in Hperm.
  apply Permutation_sym, Permutation_nil in Hperm. destruct run; [congruence | discriminate].
Qed.

(** Names the two parts of [a] cut at [k]. *)
Ltac cut_at k a a1 a2 :=
  let n := fresh "k" in
  let H := fresh "Hcut" in
  set (n := k) in *; clearbody n;
  pose proof (firstn_skipn n a) as H;
  set (a1 := firstn n a) in *; set (a2 := skipn n a) in *;
  clearbody a1 a2; subst a.

(** From [_ && (length l =? 0) = true], [l] is empty. *)
Ltac empty_of E :=
  apply andb_prop in E; destruct E as [_ E];
  apply Nat.eqb_eq, length_zero_iff_nil in E; subst.

Lemma mergeLowLoop_perm (fuel : nat) :
  forall mode g out a b,
    Permutation (out ++ a ++ b) (fst (mergeLowLoop cmp fuel mode g out a b)).
Proof.
  induction fuel as [| fuel IH]; intros mode g out a b; cbn [mergeLowLoop];
    [apply Permutation_refl |].
  destruct mode as [nofWinsA nofWinsB | nofWinsA nofWinsB firstIteration].
  - destruct a as [| x a']; [apply Permutation_refl |].
    destruct b as [| y b']; [apply Permutation_refl |].
    destruct (before cmp y x).
    + destruct b' as [| y' b'']; [cbn [fst]; perm |].
      destruct (g <=? S nofWinsB)%nat; (eapply perm_trans; [| apply IH]); perm.
    + destruct a' as [| x' [| x'' a'']]; [| cbn [fst]; perm |];
        destruct (g <=? S nofWinsA)%nat; (eapply perm_trans; [| apply IH]); perm.
  - destruct (keepsGalloping nofWinsA nofWinsB firstIteration);
      [| eapply perm_trans; [| apply IH]; apply Permutation_refl].
    destruct b as [| y b']; [cbn [fst]; rewrite app_nil_r; apply Permutation_refl |].
    cbv zeta.
    cut_at (gallopRight cmp y a 0) a a1 a2.
    destruct ((0 <? k)%nat && (List.length a2 =? 1)%nat); [cbn [fst]; perm |].
    destruct ((0 <? k)%nat && (List.length a2 =? 0)%nat) eqn:E; [empty_of E; cbn [fst]; perm | clear E].
    destruct b' as [| y' b'']; [cbn [fst]; perm |].
    destruct a2 as [| x a']; [cbn [fst]; perm |].
    remember (y' :: b'') as b' eqn:Hb'; clear Hb'.
    cut_at (gallopLeft cmp x b' 0) b' b1 b2.
    destruct ((0 <? k0)%nat && (List.length b2 =? 0)%nat) eqn:E; [empty_of E; cbn [fst]; perm | clear E].
    destruct (List.length a' =? 1)%nat; [cbn [fst]; perm |].
    eapply perm_trans; [| apply IH]. perm.
Qed.

Lemma mergeLow_perm (g : nat) (a b : list A) :
  Permutation (a ++ b) (fst (mergeLow cmp g a b)).
Proof.
  unfold mergeLow.
  destruct b as [| y [| y' b'']]; cbn [fst].
  - rewrite app_nil_r. apply Permutation_refl.
  - perm.
  - destruct a as [| x [| x' a'']]; try (eapply perm_trans; [| apply mergeLowLoop_perm]; perm).
    cbn [fst]. perm.
Qed.

Lemma unsnoc_None (l : list A) : unsnoc l = None -> l = [].
Proof.
  unfold unsnoc. destruct (rev l) eqn:E; [| discriminate].
  intros _. apply (f_equal (@rev A)) in E. now rewrite rev_involutive in E.
Qed.

Lemma unsnoc_Some (l l' : list A) (x : A) : unsnoc l = Some (l', x) -> l = l' ++ [x].
Proof.
  unfold unsnoc. destruct (rev l) as [| z r] eqn:E; [discriminate |].
  intros [= <- <-]. apply (f_equal (@rev A)) in E. now rewrite rev_involutive in E.
Qed.

Lemma unsnoc_app (l : list A) (x : A) : unsnoc (l ++ [x]) = Some (l, x).
Proof.
  unfold unsnoc. rewrite rev_app_distr. cbn [rev app]. now rewrite rev_involutive.
Qed.

(** Splits a list as [unsnoc] does. *)
Ltac snoc l l' x :=
  let E := fresh "E" in
  destruct (unsnoc l) as [[l' x] |] eqn:E;
  [apply unsnoc_Some in E | apply unsnoc_None in E]; subst.

Lemma mergeHighLoop_perm (fuel : nat) :
  forall mode g a b out,
    Permutation (a ++ b ++ out) (fst (mergeHighLoop cmp fuel mode g a b out)).
Proof.
  induction fuel as [| fuel IH]; intros mode g a b out; cbn [mergeHighLoop];
    [apply Permutation_refl |].
  destruct mode as [nofWinsA nofWinsB | nofWinsA nofWinsB firstIteration].
  - snoc a a' x; [| apply Permutation_refl].
    snoc b b' y; [| apply Permutation_refl].
    destruct (before cmp y x).
    + destruct a' as [| x' a'']; [cbn [fst]; perm |].
      destruct (g <=? S nofWinsA)%nat; (eapply perm_trans; [| apply IH]); perm.
    + destruct b' as [| y' [| y'' b'']]; [| cbn [fst]; perm |];
        destruct (g <=? S nofWinsB)%nat; (eapply perm_trans; [| apply IH]); perm.
  - destruct (keepsGalloping nofWinsA nofWinsB firstIteration);
      [| eapply perm_trans; [| apply IH]; apply Permutation_refl].
    snoc b b' y; [| cbn [fst]; apply Permutation_refl].
    cbv zeta.
    set (wins := (List.length a - gallopRight cmp y a (List.length a - 1))%nat).
    clearbody wins.
    cut_at (gallopRight cmp y a (List.length a - 1)) a a1 a2.
    destruct ((0 <? wins)%nat && (List.length a1 =? 0)%nat) eqn:E;
      [empty_of E; cbn [fst]; perm | clear E].
    destruct (List.length b' =? 1)%nat; [cbn [fst]; perm |].
    snoc a1 a' x; [| cbn [fst]; perm].
    set (winsB := (List.length b' - gallopLeft cmp x b' (List.length b' - 1))%nat).
    clearbody winsB.
    cut_at (gallopLeft cmp x b' (List.length b' - 1)) b' b1 b2.
    destruct ((0 <? winsB)%nat && (List.length b1 =? 1)%nat); [cbn [fst]; perm |].
    destruct ((0 <? winsB)%nat && (List.length b1 =? 0)%nat) eqn:E;
      [empty_of E; cbn [fst]; perm | clear E].
    destruct a' as [| x' a'']; [cbn [fst]; perm |].
    eapply perm_trans; [| apply IH]. perm.
Qed.

Lemma mergeHigh_perm (g : nat) (a b : list A) :
  Permutation (a ++ b) (fst (mergeHigh cmp g a b)).
Proof.
  unfold mergeHigh. snoc a a' x; [| apply Permutation_refl].
  destruct a' as [| x' a'']; [cbn [fst]; perm |].
  destruct b as [| y [| y' b'']]; try (eapply perm_trans; [| apply mergeHighLoop_perm]; perm).
  cbn [fst]. perm.
Qed.

Lemma mergeAt_perm (g : nat) (a b : list A) :
  Permutation (a ++ b) (fst (mergeAt cmp g a b)).
Proof.
  unfold mergeAt. destruct b as [| keyRight b0]; [cbn [fst]; now rewrite app_nil_r |].
  remember (keyRight :: b0) as b eqn:Hb.
  set (k := gallopRight cmp keyRight a 0). clearbody k.
  destruct (unsnoc (skipn k a)) as [[a0 keyLeft] |]; [| apply Permutation_refl].
  set (lengthB := gallopLeft cmp keyLeft b (List.length b - 1)). clearbody lengthB.
  destruct (firstn lengthB b) as [| y b'] eqn:Hb'; [apply Permutation_refl |].
  rewrite <- Hb'. clear Hb' Hb.
  assert (Hmerged :
    Permutation (skipn k a ++ firstn lengthB b)
      (fst (if (List.length (skipn k a) <=? List.length (firstn lengthB b))%nat
            then mergeLow cmp g (skipn k a) (firstn lengthB b)
            else mergeHigh cmp g (skipn k a) (firstn lengthB b)))).
  { destruct (_ <=? _)%nat; [apply mergeLow_perm | apply mergeHigh_perm]. }
  destruct (if (_ <=? _)%nat then _ else _) as [merged g']. cbn [fst] in *.
  rewrite <- (firstn_skipn k a) at 1. rewrite <- (firstn_skipn lengthB b) at 1.
  rewrite <- Hmerged. perm.
Qed.

(** The array, from the runs on the stack. *)
Definition contents (s : SortState (A := A)) : list A :=
  List.concat (rev (pendingRuns s)).

Lemma contents_push (run : list A) (runs : list (list A)) (g : nat) :
  contents {| pendingRuns := run :: runs; minGallop := g |}
  = contents {| pendingRuns := runs; minGallop := g |} ++ run.
Proof.
  unfold contents. cbn [pendingRuns rev]. rewrite concat_app. cbn [List.concat].
  now rewrite app_nil_r.
Qed.

Lemma mergeTop_perm (s : SortState) : Permutation (contents s) (contents (mergeTop cmp s)).
Proof.
  unfold mergeTop. destruct s as [[| r0 [| r1 below]] g]; cbn [pendingRuns minGallop];
    try apply Permutation_refl.
  pose proof (mergeAt_perm g r1 r0) as Hmerged.
  destruct (mergeAt cmp g r1 r0) as [merged g']. cbn [fst] in Hmerged.
  rewrite !contents_push. rewrite <- Hmerged. rewrite app_assoc. apply Permutation_refl.
Qed.

Lemma mergeBelowTop_perm (s : SortState) :
  Permutation (contents s) (contents (mergeBelowTop cmp s)).
Proof.
  unfold mergeBelowTop.
  destruct s as [[| r0 [| r1 [| r2 below]]] g]; cbn [pendingRuns minGallop];
    try apply Permutation_refl.
  pose proof (mergeAt_perm g r2 r1) as Hmerged.
  destruct (mergeAt cmp g r2 r1) as [merged g']. cbn [fst] in Hmerged.
  rewrite !contents_push. rewrite <- Hmerged. rewrite !app_assoc. apply Permutation_refl.
Qed.

Lemma mergeCollapse_perm (fuel : nat) :
  forall s, Permutation (contents s) (contents (mergeCollapse cmp fuel s)).
Proof.
  induction fuel as [| fuel IH]; intros s; cbn [mergeCollapse]; [apply Permutation_refl |].
  destruct (pendingRuns s) as [| r0 [| r1 below]]; try apply Permutation_refl.
  destruct (invariantBroken _).
  - destruct below as [| r2 below'].
    + eapply perm_trans; [apply mergeTop_perm | apply IH].
    + destruct (len r2 <? len r0)%nat;
        (eapply perm_trans; [| apply IH]);
        [apply mergeBelowTop_perm | apply mergeTop_perm].
  - destruct (len r1 <=? len r0)%nat; [| apply Permutation_refl].
    eapply perm_trans; [apply mergeTop_perm | apply IH].
Qed.

Lemma mergeForceCollapse_perm (fuel : nat) :
  forall s, Permutation (contents s) (contents (mergeForceCollapse cmp fuel s)).
Proof.
  induction fuel as [| fuel IH]; intros s; cbn [mergeForceCollapse];
    [apply Permutation_refl |].
  destruct (pendingRuns s) as [| r0 [| r1 [| r2 below]]]; try apply Permutation_refl.
  - eapply perm_trans; [apply mergeTop_perm | apply IH].
  - destruct (len r2 <? len r0)%nat;
      (eapply perm_trans; [| apply IH]);
      [apply mergeBelowTop_perm | apply mergeTop_perm].
Qed.

(** One turn of the loop of [ArrayTimSortImpl]: the next run, made as long
    as [minRunLength] asks, and what is left of the array. *)
Definition nextRun (minRunLength : nat) (remaining : list A) : list A * list A :=
  let '(run, rest) := countAndMakeRun cmp remaining in
  let forced := (Nat.min minRunLength (List.length remaining) - List.length run)%nat in
  if (List.length run <? minRunLength)%nat
  then (binaryInsertionSort cmp run (firstn forced rest), skipn forced rest)
  else (run, rest).

Lemma nextRun_perm (minRunLength : nat) (remaining : list A) :
  Permutation remaining
    (fst (nextRun minRunLength remaining) ++ snd (nextRun minRunLength remaining)).
Proof.
  unfold nextRun. pose proof (countAndMakeRun_perm remaining) as Hrun.
  destruct (countAndMakeRun cmp remaining) as [run rest]. cbn [fst snd] in Hrun.
  destruct (List.length run <? minRunLength)%nat; cbn [fst snd]; [| exact Hrun].
  eapply perm_trans; [exact Hrun |].
  set (forced := (_ - _)%nat). clearbody forced.
  rewrite <- (binaryInsertionSort_perm (firstn forced rest) run).
  rewrite <- (firstn_skipn forced rest) at 1. rewrite app_assoc. apply Permutation_refl.
Qed.

Lemma nextRun_nonempty (minRunLength : nat) (remaining : list A) :
  remaining <> [] -> fst (nextRun minRunLength remaining) <> [].
Proof.
  intros Hsome. unfold nextRun. pose proof (countAndMakeRun_nonempty remaining Hsome) as Hrun.
  destruct (countAndMakeRun cmp remaining) as [run rest]. cbn [fst] in Hrun.
  destruct (List.length run <? minRunLength)%nat; cbn [fst]; [| exact Hrun].
  now apply binaryInsertionSort_nonempty.
Qed.

Lemma nextRun_shorter (minRunLength : nat) (remaining : list A) :
  remaining <> [] ->
  (List.length (snd (nextRun minRunLength remaining)) < List.length remaining)%nat.
Proof.
  intros Hsome. pose proof (nextRun_perm minRunLength remaining) as Hperm.
  pose proof (nextRun_nonempty minRunLength remaining Hsome) as Hrun.
  apply Permutation_length in Hperm. rewrite length_app in Hperm.
  destruct (fst (nextRun minRunLength remaining)); [congruence |]. cbn [List.length] in Hperm.
  lia.
Qed.

Lemma makeRuns_step (fuel minRunLength : nat) (remaining : list A) (s : SortState) :
  remaining <> [] ->
  makeRuns cmp (S fuel) minRunLength remaining s
  = makeRuns cmp fuel minRunLength (snd (nextRun minRunLength remaining))
      (mergeCollapse cmp (S (List.length (pendingRuns s)))
         {| pendingRuns := fst (nextRun minRunLength remaining) :: pendingRuns s;
            minGallop := minGallop s |}).
Proof.
  intros Hsome. cbn [makeRuns]. destruct remaining as [| x rest0]; [congruence |].
  unfold nextRun. destruct (countAndMakeRun cmp (x :: rest0)) as [run rest].
  cbv zeta. destruct (List.length run <? minRunLength)%nat; reflexivity.
Qed.

Lemma makeRuns_perm (fuel minRunLength : nat) :
  forall remaining s,
    (List.length remaining <= fuel)%nat ->
    Permutation (contents s ++ remaining)
      (contents (makeRuns cmp fuel minRunLength remaining s)).
Proof.
  induction fuel as [| fuel IH]; intros remaining s Hfuel.
  - destruct remaining; [| cbn in Hfuel; lia]. cbn [makeRuns]. now rewrite app_nil_r.
  - destruct remaining as [| x rest0] eqn:Hrem;
      [cbn [makeRuns]; now rewrite app_nil_r |].
    rewrite <- Hrem in *. assert (Hsome : remaining <> []) by (subst; discriminate).
    clear Hrem. rewrite makeRuns_step by assumption.
    eapply perm_trans; [| apply IH].
    + rewrite <- mergeCollapse_perm. rewrite contents_push. rewrite <- app_assoc.
      apply Permutation_app; [destruct s; apply Permutation_refl | apply nextRun_perm].
    + pose proof (nextRun_shorter minRunLength remaining Hsome). lia.
Qed.

(** The sort rearranges the array, whatever the comparator answers. *)
Lemma timSort_perm (l : list A) : Permutation l (timSort cmp l).
Proof.
  unfold timSort. destruct (List.length l <? 2)%nat; [apply Permutation_refl |].
  cbv zeta. eapply perm_trans; [| apply mergeForceCollapse_perm].
  apply (makeRuns_perm (List.length l) _ l {| pendingRuns := []; minGallop := kMinGallopWins |}).
  apply Nat.le_refl.
Qed.

End Rearranged.


(** ** The searches *)

Section Searches.

Variable p : nat -> bool.
Variable n : nat.

(** Below some index [p] holds, from there on it does not. *)
Definition monotone : Prop :=
  forall i j, (i <= j)%nat -> (j < n)%nat -> p j = true -> p i = true.

Definition partitioned (k : nat) : Prop :=
  (k <= n)%nat
  /\ (forall i, (i < k)%nat -> p i = true)
  /\ (forall i, (k <= i)%nat -> (i < n)%nat -> p i = false).

Hypothesis p_monotone : monotone.

Lemma monotone_false (i j : nat) :
  (i <= j)%nat -> (j < n)%nat -> p i = false -> p j = false.
Proof.
  intros Hij Hj Hi. destruct (p j) eqn:E; [| reflexivity].
  rewrite (p_monotone i j Hij Hj E) in Hi. discriminate.
Qed.

Lemma bisect_spec (fuel : nat) :
  forall lastOfs offset,
    (lastOfs <= offset)%nat -> (offset <= n)%nat -> (offset - lastOfs <= fuel)%nat ->
    (forall i, (i < lastOfs)%nat -> p i = true) ->
    (forall i, (offset <= i)%nat -> (i < n)%nat -> p i = false) ->
    partitioned (bisect fuel p lastOfs offset).
Proof.
  induction fuel as [| fuel IH]; intros lastOfs offset Hle Hn Hfuel Hlow Hhigh;
    cbn [bisect].
  - assert (lastOfs = offset) by lia. subst. now repeat split.
  - destruct (lastOfs <? offset)%nat eqn:E.
    + apply Nat.ltb_lt in E.
      assert (Hm : (lastOfs <= lastOfs + (offset - lastOfs) / 2 < offset)%nat).
      { split; [lia |].
        assert ((offset - lastOfs) / 2 < offset - lastOfs)%nat by (apply Nat.div_lt; lia).
        lia. }
      cbv zeta. set (m := (lastOfs + (offset - lastOfs) / 2)%nat) in *. clearbody m.
      destruct (p m) eqn:Hpm.
      * apply IH; try lia; [| assumption].
        intros i Hi. apply (p_monotone i m); [lia | lia | assumption].
      * apply IH; try lia; [assumption |].
        intros i Hi Hin. apply (monotone_false m i); [lia | lia | assumption].
    + apply Nat.ltb_ge in E. assert (lastOfs = offset) by lia. subst. now repeat split.
Qed.

Lemma gallopFar_spec (stop : nat -> bool) (maxOfs : nat) (fuel : nat) :
  forall lastOfs offset,
    (lastOfs < offset)%nat -> (maxOfs < fuel + offset)%nat ->
    let r := gallopFar fuel stop maxOfs lastOfs offset in
    (fst r < snd r)%nat
    /\ (fst r = lastOfs \/ ((fst r < maxOfs)%nat /\ stop (fst r) = false))
    /\ ((maxOfs <= snd r)%nat \/ ((snd r < maxOfs)%nat /\ stop (snd r) = true)).
Proof.
  induction fuel as [| fuel IH]; intros lastOfs offset Hlt Hfuel; cbn [gallopFar].
  - cbn [fst snd]. split; [assumption |]. split; [now left | left; lia].
  - destruct (offset <? maxOfs)%nat eqn:E.
    + apply Nat.ltb_lt in E. destruct (stop offset) eqn:Hstop.
      * cbn [fst snd]. split; [assumption |]. split; [now left | now right].
      * destruct (IH offset (2 * offset + 1)%nat) as (H1 & H2 & H3); [lia | lia |].
        cbv zeta. split; [assumption |]. split; [| assumption].
        destruct H2 as [-> | H2]; right; [now split | assumption].
    + apply Nat.ltb_ge in E. cbn [fst snd].
      split; [assumption |]. split; [now left | now left].
Qed.

Lemma gallop_spec (hint : nat) : (hint < n)%nat -> partitioned (gallop p n hint).
Proof.
  intros Hhint. unfold gallop. destruct (p hint) eqn:Hp.
  - pose proof (gallopFar_spec (fun ofs => negb (p (hint + ofs)%nat)) (n - hint) (S n) 0 1)
      as Hfar.
    destruct Hfar as (H1 & H2 & H3); [lia | lia |].
    destruct (gallopFar _ _ _ _ _) as [lastOfs offset]. cbn [fst snd] in *.
    assert (Hlast : (lastOfs < n - hint)%nat /\ p (hint + lastOfs)%nat = true).
    { destruct H2 as [-> | [H2 H2']].
      - split; [lia |]. now rewrite Nat.add_0_r.
      - split; [assumption |]. now apply negb_false_iff in H2'. }
    destruct Hlast as [Hlast Hplast].
    apply bisect_spec; try lia.
    + intros i Hi. apply (p_monotone i (hint + lastOfs)%nat); [lia | lia | assumption].
    + intros i Hi Hin. destruct H3 as [H3 | [H3 H3']]; [lia |].
      apply negb_true_iff in H3'.
      apply (monotone_false (hint + offset)%nat i); [lia | lia | assumption].
  - pose proof (gallopFar_spec (fun ofs => p (hint - ofs)%nat) (hint + 1) (S n) 0 1) as Hfar.
    destruct Hfar as (H1 & H2 & H3); [lia | lia |].
    destruct (gallopFar _ _ _ _ _) as [lastOfs offset]. cbn [fst snd] in *.
    assert (Hlast : (lastOfs < hint + 1)%nat /\ p (hint - lastOfs)%nat = false).
    { destruct H2 as [-> | [H2 H2']].
      - split; [lia |]. now rewrite Nat.sub_0_r.
      - split; assumption. }
    destruct Hlast as [Hlast Hplast].
    apply bisect_spec; try lia.
    + intros i Hi. destruct H3 as [H3 | [H3 H3']]; [lia |].
      apply (p_monotone i (hint - offset)%nat); [lia | lia | assumption].
    + intros i Hi Hin.
      apply (monotone_false (hint - lastOfs)%nat i); [lia | lia | assumption].
Qed.

End Searches.

(** ** Order *)

Section Ordered.

Context {A : Type}.
Variable cmp : A -> A -> Z.

(** On the elements that are [good] the comparator is that of a rank. *)
Variable rank : A -> Z.
Variable good : A -> Prop.
Hypothesis before_rank :
  forall x y, good x -> good y -> before cmp x y = (rank x <? rank y).

Definition above (l : list A) (y : A) : Prop := forall x, In x l -> rank x <= rank y.
Definition below (x : A) (l : list A) : Prop := forall y, In y l -> rank x <= rank y.
Definition allLe (l r : list A) : Prop := forall x y, In x l -> In y r -> rank x <= rank y.

Definition ordered (l : list A) : Prop :=
  StronglySorted (fun x y => rank x <= rank y) l /\ Forall good l.

Lemma ordered_nil : ordered [] <-> True.
Proof. split; [trivial |]. intros _. split; constructor. Qed.

Lemma ordered_cons (x : A) (l : list A) :
  ordered (x :: l) <-> good x /\ ordered l /\ below x l.
Proof.
  unfold ordered, below. split.
  - intros [Hs Hg]. inversion Hs as [| ? ? Hs' Hall]; subst.
    inversion Hg as [| ? ? Hx Hg']; subst.
    rewrite Forall_forall in Hall. now repeat split.
  - intros (Hx & [Hs Hg] & Hall). split; constructor; try assumption.
    now rewrite Forall_forall.
Qed.

Lemma ordered_good (l : list A) (x : A) : ordered l -> In x l -> good x.
Proof. intros [_ Hg] Hin. rewrite Forall_forall in Hg. now apply Hg. Qed.

Lemma allLe_app_l (l1 l2 r : list A) : allLe (l1 ++ l2) r <-> allLe l1 r /\ allLe l2 r.
Proof. unfold allLe. setoid_rewrite in_app_iff. firstorder. Qed.

Lemma allLe_app_r (l r1 r2 : list A) : allLe l (r1 ++ r2) <-> allLe l r1 /\ allLe l r2.
Proof. unfold allLe. setoid_rewrite in_app_iff. firstorder. Qed.

Lemma allLe_cons_l (x : A) (l r : list A) : allLe (x :: l) r <-> below x r /\ allLe l r.
Proof. unfold allLe, below. cbn [In]. firstorder. subst. auto. Qed.

Lemma allLe_cons_r (l : list A) (y : A) (r : list A) :
  allLe l (y :: r) <-> above l y /\ allLe l r.
Proof. unfold allLe, above. cbn [In]. firstorder. subst. auto. Qed.

Lemma allLe_nil_l (r : list A) : allLe [] r <-> True.
Proof. unfold allLe. cbn [In]. tauto. Qed.

Lemma allLe_nil_r (l : list A) : allLe l [] <-> True.
Proof. unfold allLe. cbn [In]. firstorder. Qed.

Lemma below_app (x : A) (r1 r2 : list A) : below x (r1 ++ r2) <-> below x r1 /\ below x r2.
Proof. unfold below. setoid_rewrite in_app_iff. firstorder. Qed.

Lemma below_cons (x y : A) (r : list A) : below x (y :: r) <-> rank x <= rank y /\ below x r.
Proof. unfold below. cbn [In]. firstorder. subst. auto. Qed.

Lemma below_nil (x : A) : below x [] <-> True.
Proof. unfold below. cbn [In]. tauto. Qed.

Lemma above_app (l1 l2 : list A) (y : A) : above (l1 ++ l2) y <-> above l1 y /\ above l2 y.
Proof. unfold above. setoid_rewrite in_app_iff. firstorder. Qed.

Lemma above_cons (x : A) (l : list A) (y : A) :
  above (x :: l) y <-> rank x <= rank y /\ above l y.
Proof. unfold above. cbn [In]. firstorder. subst. auto. Qed.

Lemma above_nil (y : A) : above [] y <-> True.
Proof. unfold above. cbn [In]. tauto. Qed.

Lemma ordered_app (l r : list A) :
  ordered (l ++ r) <-> ordered l /\ ordered r /\ allLe l r.
Proof.
  induction l as [| x l IH]; cbn [app].
  - rewrite ordered_nil, allLe_nil_l. tauto.
  - rewrite !ordered_cons, IH, below_app, allLe_cons_l. tauto.
Qed.

Ltac normalize :=
  repeat rewrite ?ordered_app, ?ordered_cons, ?ordered_nil, ?allLe_app_l, ?allLe_app_r,
    ?allLe_cons_l, ?allLe_cons_r, ?allLe_nil_l, ?allLe_nil_r, ?below_app, ?below_cons,
    ?below_nil, ?above_app, ?above_cons, ?above_nil in *;
  repeat match goal with
         | H : _ /\ _ |- _ => destruct H
         end.

Ltac learn pf :=
  let T := type of pf in
  lazymatch goal with
  | _ : T |- _ => fail
  | _ => pose proof pf
  end.

Ltac saturate :=
  repeat match goal with
         | H : forall x, In x ?l -> _, Hx : In ?u ?l |- _ => learn (H u Hx)
         | H : forall x y, In x ?l -> In y ?r -> _, Hx : In ?u ?l, Hy : In ?v ?r |- _ =>
             learn (H u v Hx Hy)
         end.

Ltac atom :=
  first [ assumption | exact I
        | unfold allLe, above, below in *; intros; saturate; lia ].

(** Proves that lists put together from ordered pieces are ordered. *)
Ltac order :=
  normalize;
  repeat match goal with
         | |- _ /\ _ => split
         end;
  atom.

Lemma ordered_nth (a : list A) (d : A) :
  ordered a ->
  forall i j, (i <= j)%nat -> (j < List.length a)%nat ->
              rank (nth i a d) <= rank (nth j a d).
Proof.
  induction a as [| x a IH]; intros Ha i j Hij Hj; [cbn in Hj; lia |].
  normalize. destruct j as [| j]; [assert (i = 0)%nat by lia; subst; cbn; lia |].
  cbn [List.length] in Hj. destruct i as [| i]; cbn [nth].
  - match goal with H : below x a |- _ => apply H end. apply nth_In. lia.
  - apply IH; [assumption | lia | lia].
Qed.

Lemma nth_good (a : list A) (d : A) (i : nat) :
  ordered a -> (i < List.length a)%nat -> good (nth i a d).
Proof. intros Ha Hi. apply (ordered_good a); [assumption |]. now apply nth_In. Qed.

Lemma nth_firstn_below (d : A) (k : nat) :
  forall i (a : list A), (i < k)%nat -> nth i (firstn k a) d = nth i a d.
Proof.
  induction k as [| k IH]; intros i a Hi; [lia |].
  destruct a as [| z a]; [reflexivity |]. destruct i as [| i]; [reflexivity |].
  cbn [firstn nth]. apply IH. lia.
Qed.

Lemma In_firstn_nth (a : list A) (d x : A) (k : nat) :
  In x (firstn k a) -> exists i, (i < k)%nat /\ (i < List.length a)%nat /\ nth i a d = x.
Proof.
  intros Hin. apply (In_nth _ _ d) in Hin as (i & Hi & Hnth).
  rewrite length_firstn in Hi. exists i. repeat split; try lia.
  rewrite <- Hnth. symmetry. apply nth_firstn_below. lia.
Qed.

Lemma In_skipn_nth (a : list A) (d x : A) (k : nat) :
  In x (skipn k a) -> exists i, (k <= i)%nat /\ (i < List.length a)%nat /\ nth i a d = x.
Proof.
  intros Hin. apply (In_nth _ _ d) in Hin as (i & Hi & Hnth).
  rewrite length_skipn in Hi. exists (k + i)%nat. repeat split; try lia.
  rewrite <- Hnth. symmetry. apply nth_skipn.
Qed.

(** What a search with a monotone test cuts a run into. *)
Lemma search_cut (p : nat -> bool) (a : list A) (key : A) (k : nat) :
  partitioned p (List.length a) k ->
  (forall i, (i < List.length a)%nat -> p i = true -> rank (nth i a key) <= rank key) ->
  (forall i, (i < List.length a)%nat -> p i = false -> rank key <= rank (nth i a key)) ->
  above (firstn k a) key /\ below key (skipn k a).
Proof.
  intros (Hk & Hlow & Hhigh) Htrue Hfalse. split.
  - intros x Hx. apply (In_firstn_nth a key) in Hx as (i & Hi & Hlen & <-).
    apply Htrue; [assumption | now apply Hlow].
  - intros x Hx. apply (In_skipn_nth a key) in Hx as (i & Hi & Hlen & <-).
    apply Hfalse; [assumption | now apply Hhigh].
Qed.

Lemma gallopRight_spec (key : A) (a : list A) (hint : nat) :
  ordered a -> good key -> (hint < List.length a)%nat ->
  above (firstn (gallopRight cmp key a hint) a) key
  /\ below key (skipn (gallopRight cmp key a hint) a).
Proof.
  intros Ha Hkey Hhint. unfold gallopRight.
  assert (Hp : forall i, (i < List.length a)%nat ->
                 negb (before cmp key (nth i a key)) = (rank (nth i a key) <=? rank key)).
  { intros i Hi. rewrite before_rank; [| assumption | now apply nth_good].
    destruct (Z.ltb_spec (rank key) (rank (nth i a key)));
      destruct (Z.leb_spec (rank (nth i a key)) (rank key)); cbn; lia || reflexivity. }
  apply (search_cut (fun i => negb (before cmp key (nth i a key)))).
  - apply gallop_spec; [| assumption].
    intros i j Hij Hj. rewrite !Hp by lia. intros H. apply Z.leb_le in H. apply Z.leb_le.
    pose proof (ordered_nth a key Ha i j Hij Hj). lia.
  - intros i Hi. rewrite Hp by assumption. apply Z.leb_le.
  - intros i Hi. rewrite Hp by assumption. intros H. apply Z.leb_gt in H. lia.
Qed.

Lemma gallopLeft_spec (key : A) (a : list A) (hint : nat) :
  ordered a -> good key -> (hint < List.length a)%nat ->
  above (firstn (gallopLeft cmp key a hint) a) key
  /\ below key (skipn (gallopLeft cmp key a hint) a).
Proof.
  intros Ha Hkey Hhint. unfold gallopLeft.
  assert (Hp : forall i, (i < List.length a)%nat ->
                 before cmp (nth i a key) key = (rank (nth i a key) <? rank key)).
  { intros i Hi. apply before_rank; [now apply nth_good | assumption]. }
  apply (search_cut (fun i => before cmp (nth i a key) key)).
  - apply gallop_spec; [| assumption].
    intros i j Hij Hj. rewrite !Hp by lia. intros H. apply Z.ltb_lt in H. apply Z.ltb_lt.
    pose proof (ordered_nth a key Ha i j Hij Hj). lia.
  - intros i Hi. rewrite Hp by assumption. intros H. apply Z.ltb_lt in H. lia.
  - intros i Hi. rewrite Hp by assumption. intros H. apply Z.ltb_ge in H. lia.
Qed.

Lemma findPivot_spec (pivot : A) (run : list A) :
  ordered run -> good pivot ->
  above (firstn (findPivot cmp pivot run) run) pivot
  /\ below pivot (skipn (findPivot cmp pivot run) run).
Proof.
  intros Ha Hkey. unfold findPivot.
  assert (Hp : forall i, (i < List.length run)%nat ->
                 negb (before cmp pivot (nth i run pivot))
                 = (rank (nth i run pivot) <=? rank pivot)).
  { intros i Hi. rewrite before_rank; [| assumption | now apply nth_good].
    destruct (Z.ltb_spec (rank pivot) (rank (nth i run pivot)));
      destruct (Z.leb_spec (rank (nth i run pivot)) (rank pivot)); cbn; lia || reflexivity. }
  apply (search_cut (fun i => negb (before cmp pivot (nth i run pivot)))).
  - apply bisect_spec; try lia.
    intros i j Hij Hj. rewrite !Hp by lia. intros H. apply Z.leb_le in H. apply Z.leb_le.
    pose proof (ordered_nth run pivot Ha i j Hij Hj). lia.
  - intros i Hi. rewrite Hp by assumption. apply Z.leb_le.
  - intros i Hi. rewrite Hp by assumption. intros H. apply Z.leb_gt in H. lia.
Qed.

Lemma insertPivot_ordered (run : list A) (pivot : A) :
  ordered run -> good pivot -> ordered (insertPivot cmp run pivot).
Proof.
  intros Hrun Hpivot. destruct (findPivot_spec pivot run Hrun Hpivot) as [Hlow Hhigh].
  unfold insertPivot. rewrite <- (firstn_skipn (findPivot cmp pivot run) run) in Hrun.
  set (run1 := firstn _ run) in *. set (run2 := skipn _ run) in *. clearbody run1 run2.
  order.
Qed.

Lemma binaryInsertionSort_ordered (pending : list A) :
  forall run, ordered run -> Forall good pending ->
              ordered (binaryInsertionSort cmp run pending).
Proof.
  unfold binaryInsertionSort.
  induction pending as [| pivot rest IH]; intros run Hrun Hgood; cbn [fold_left];
    [assumption |].
  inversion Hgood; subst. apply IH; [| assumption]. now apply insertPivot_ordered.
Qed.

(** *** Runs *)

Lemma extendRun_ascending (l : list A) :
  forall previousElement,
    good previousElement -> Forall good l ->
    ordered (previousElement :: fst (extendRun cmp false previousElement l)).
Proof.
  induction l as [| currentElement rest IH]; intros previousElement Hprev Hgood;
    cbn [extendRun]; [cbn [fst]; order |].
  inversion Hgood as [| ? ? Hcur Hrest]; subst.
  rewrite before_rank by assumption.
  destruct (Z.ltb_spec (rank currentElement) (rank previousElement)) as [Hlt | Hge];
    [cbn [fst]; order |].
  specialize (IH currentElement Hcur Hrest).
  destruct (extendRun cmp false currentElement rest) as [run rest']. cbn [fst] in *.
  order.
Qed.

Lemma extendRun_descending (l : list A) :
  forall previousElement,
    good previousElement -> Forall good l ->
    ordered (rev (previousElement :: fst (extendRun cmp true previousElement l))).
Proof.
  induction l as [| currentElement rest IH]; intros previousElement Hprev Hgood;
    cbn [extendRun]; [cbn [fst rev app]; order |].
  inversion Hgood as [| ? ? Hcur Hrest]; subst.
  rewrite before_rank by assumption.
  destruct (Z.ltb_spec (rank currentElement) (rank previousElement)) as [Hlt | Hge];
    cbn [negb]; [| cbn [fst rev app]; order].
  specialize (IH currentElement Hcur Hrest).
  destruct (extendRun cmp true currentElement rest) as [run rest']. cbn [fst rev] in *.
  order.
Qed.

Lemma countAndMakeRun_ordered (l : list A) :
  Forall good l -> ordered (fst (countAndMakeRun cmp l)).
Proof.
  intros Hgood. destruct l as [| elementHigh [| elementLow rest]]; cbn [countAndMakeRun fst].
  - order.
  - inversion Hgood; subst. order.
  - inversion Hgood as [| ? ? Hhigh Hgood']; subst.
    inversion Hgood' as [| ? ? Hlow Hrest]; subst.
    rewrite before_rank by assumption.
    destruct (Z.ltb_spec (rank elementLow) (rank elementHigh)) as [Hlt | Hge].
    + pose proof (extendRun_descending rest elementLow Hlow Hrest) as Hrun.
      destruct (extendRun cmp true elementLow rest) as [run rest']. cbn [fst rev] in *.
      order.
    + pose proof (extendRun_ascending rest elementLow Hlow Hrest) as Hrun.
      destruct (extendRun cmp false elementLow rest) as [run rest']. cbn [fst] in *.
      order.
Qed.

(** *** Merges *)

(** [b] is not above the last element of [a]. *)
Definition dominated (a b : list A) : Prop :=
  forall z, In z a -> above a z -> above b z.

Lemma dominated_suffix (a pre a' b b' : list A) :
  a = pre ++ a' -> ordered a -> dominated a b -> incl b' b -> dominated a' b'.
Proof.
  intros -> Ha Hdom Hsub z Hz Habove y Hy.
  apply (Hdom z); [apply in_or_app; now right | | now apply Hsub].
  normalize. split; [| assumption].
  intros x Hx. match goal with H : allLe pre a' |- _ => now apply H end.
Qed.

Lemma dominated_single (z : A) (b : list A) : dominated [z] b -> above b z.
Proof.
  intros Hdom. apply Hdom; [now left |]. intros x [<- | []]. lia.
Qed.

Lemma guard_true (k n c : nat) :
  ((0 <? k)%nat && (n =? c)%nat) = true -> (0 < k)%nat /\ n = c.
Proof.
  intros H. apply andb_prop in H as [H1 H2].
  apply Nat.ltb_lt in H1. apply Nat.eqb_eq in H2. now split.
Qed.

Lemma guard_false (k n c : nat) :
  ((0 <? k)%nat && (n =? c)%nat) = false -> k = 0%nat \/ n <> c.
Proof.
  intros H. apply andb_false_iff in H as [H | H].
  - apply Nat.ltb_ge in H. left. lia.
  - apply Nat.eqb_neq in H. now right.
Qed.

Lemma length_one (l : list A) : List.length l = 1%nat -> exists z, l = [z].
Proof.
  destruct l as [| z [| z' l]]; cbn; try discriminate. intros _. now exists z.
Qed.

(** Names the two parts of [a] cut at [k], keeping what the search says of
    them. *)
Ltac cut_keep k a a1 a2 :=
  let n := fresh "k" in
  let H := fresh "Hshort" in
  set (n := k) in *; clearbody n;
  pose proof (length_firstn n a) as H;
  pose proof (firstn_skipn n a) as Hcut;
  set (a1 := firstn n a) in *; set (a2 := skipn n a) in *;
  clearbody a1 a2; subst a.

Definition weight (mode : Mode) : nat :=
  match mode with
  | OneAtATime _ _ => 0
  | Galloping _ _ _ => 1
  end.

Ltac lengths :=
  cbn [List.length weight] in *; rewrite ?length_app in *; cbn [List.length] in *; lia.

Lemma mergeLowLoop_ordered (fuel : nat) :
  forall mode g out a b,
    (2 * (List.length a + List.length b) + weight mode < fuel)%nat ->
    (2 <= List.length a)%nat -> (1 <= List.length b)%nat ->
    ordered (out ++ a) -> ordered (out ++ b) -> dominated a b ->
    ordered (fst (mergeLowLoop cmp fuel mode g out a b)).
Proof.
  induction fuel as [| fuel IH]; intros mode g out a b Hfuel Hlena Hlenb Ha Hb Hdom;
    [lia |].
  cbn [mergeLowLoop].
  destruct mode as [nofWinsA nofWinsB | nofWinsA nofWinsB firstIteration].
  - destruct a as [| x [| x' a'']]; [cbn in Hlena; lia | cbn in Hlena; lia |].
    destruct b as [| y b']; [cbn in Hlenb; lia |].
    assert (Hx : good x) by (apply (ordered_good _ x Ha), in_or_app; right; now left).
    assert (Hy : good y) by (apply (ordered_good _ y Hb), in_or_app; right; now left).
    rewrite before_rank by assumption.
    destruct (Z.ltb_spec (rank y) (rank x)) as [Hlt | Hge].
    + assert (Hdom' : dominated (x :: x' :: a'') b').
      { apply (dominated_suffix (x :: x' :: a'') [] _ (y :: b') b'); try assumption;
          [reflexivity | now apply ordered_app in Ha | now apply incl_tl, incl_refl]. }
      destruct b' as [| y' b'']; [cbn [fst]; order |].
      destruct (g <=? S nofWinsB)%nat; apply IH; try lengths; try assumption; order.
    + assert (Hdom' : dominated (x' :: a'') (y :: b')).
      { apply (dominated_suffix (x :: x' :: a'') [x] _ (y :: b') (y :: b')); try assumption;
          [reflexivity | now apply ordered_app in Ha | apply incl_refl]. }
      destruct a'' as [| x'' a'''].
      * apply dominated_single in Hdom'. cbn [fst]. order.
      * destruct (g <=? S nofWinsA)%nat; apply IH; try lengths; try assumption; order.
  - destruct (keepsGalloping nofWinsA nofWinsB firstIteration);
      [| apply IH; try assumption; cbn [weight] in *; lia].
    destruct b as [| y b']; [cbn in Hlenb; lia |].
    assert (Hy : good y) by (apply (ordered_good _ y Hb), in_or_app; right; now left).
    assert (Hoa : ordered a) by now apply ordered_app in Ha.
    destruct (gallopRight_spec y a 0 Hoa Hy ltac:(lia)) as [Hlow Hhigh].
    cbv zeta.
    cut_keep (gallopRight cmp y a 0) a a1 a2.
    destruct ((0 <? k)%nat && (List.length a2 =? 1)%nat) eqn:E1.
    { apply guard_true in E1 as [_ E1]. apply length_one in E1 as [z ->].
      assert (Hz : above (y :: b') z).
      { apply dominated_single.
        apply (dominated_suffix (a1 ++ [z]) a1 _ (y :: b') (y :: b')); try assumption;
          [reflexivity | apply incl_refl]. }
      cbn [fst]. order. }
    destruct ((0 <? k)%nat && (List.length a2 =? 0)%nat) eqn:E2.
    { apply guard_true in E2 as [_ E2]. apply length_zero_iff_nil in E2. subst a2.
      cbn [fst]. order. }
    apply guard_false in E1. apply guard_false in E2.
    assert (Hlena2 : (2 <= List.length a2)%nat) by lengths.
    destruct b' as [| y' b'']; [cbn [fst]; order |].
    destruct a2 as [| x a']; [cbn in Hlena2; lia |].
    remember (y' :: b'') as b' eqn:Hb'.
    assert (Hlenb' : (1 <= List.length b')%nat) by (subst b'; cbn; lia).
    clear Hb'.
    assert (Hx : good x).
    { apply (ordered_good _ x Ha), in_or_app; right. apply in_or_app; right; now left. }
    assert (Hob' : ordered b') by (normalize; assumption).
    destruct (gallopLeft_spec x b' 0 Hob' Hx ltac:(lia)) as [Hlow' Hhigh'].
    cut_keep (gallopLeft cmp x b' 0) b' b1 b2.
    destruct ((0 <? k0)%nat && (List.length b2 =? 0)%nat) eqn:E3.
    { apply guard_true in E3 as [_ E3]. apply length_zero_iff_nil in E3. subst b2.
      cbn [fst]. order. }
    apply guard_false in E3.
    assert (Hlenb2 : (1 <= List.length b2)%nat) by lengths.
    assert (Hdom' : dominated a' b2).
    { apply (dominated_suffix (a1 ++ x :: a') (a1 ++ [x]) _ (y :: b1 ++ b2) b2);
        try assumption; [now rewrite <- app_assoc | ].
      apply incl_tl, incl_appr, incl_refl. }
    destruct (List.length a' =? 1)%nat eqn:E4.
    { apply Nat.eqb_eq in E4. apply length_one in E4 as [z ->].
      apply dominated_single in Hdom'. cbn [fst]. order. }
    apply Nat.eqb_neq in E4.
    apply IH; try lengths; try assumption; order.
Qed.

(** [a] is not below the first element of [b]. *)
Definition dominating (a b : list A) : Prop :=
  forall z, In z b -> below z b -> below z a.

Lemma dominating_prefix (b b' suf a a' : list A) :
  b = b' ++ suf -> ordered b -> dominating a b -> incl a' a -> dominating a' b'.
Proof.
  intros -> Hb Hdom Hsub z Hz Hbelow x Hx.
  apply (Hdom z); [apply in_or_app; now left | | now apply Hsub].
  normalize. split; [assumption |].
  intros y Hy. match goal with H : allLe b' suf |- _ => now apply H end.
Qed.

Lemma dominating_single (a : list A) (z : A) : dominating a [z] -> below z a.
Proof.
  intros Hdom. apply Hdom; [now left |]. intros x [<- | []]. lia.
Qed.

Lemma mergeLow_ordered (g : nat) (a b : list A) :
  ordered a -> ordered b -> (1 <= List.length a)%nat ->
  dominated a b -> dominating a b ->
  ordered (fst (mergeLow cmp g a b)).
Proof.
  intros Ha Hb Hlena Hdom Hdom'. unfold mergeLow.
  destruct b as [| y b']; [assumption |].
  assert (Hya : below y a).
  { apply Hdom'; [now left |]. order. }
  destruct b' as [| y' b'']; [cbn [fst]; order |].
  destruct a as [| x [| x' a'']]; [cbn in Hlena; lia | |].
  - apply dominated_single in Hdom. cbn [fst]. order.
  - apply mergeLowLoop_ordered; try lengths; try order.
    apply (dominated_suffix (x :: x' :: a'') [] _ (y :: y' :: b'')); try assumption;
      [reflexivity | now apply incl_tl, incl_refl].
Qed.

Ltac snoc l l' x :=
  let E := fresh "E" in
  destruct (unsnoc l) as [[l' x] |] eqn:E;
  [apply unsnoc_Some in E | apply unsnoc_None in E]; subst l.

Lemma mergeHighLoop_ordered (fuel : nat) :
  forall mode g a b out,
    (2 * (List.length a + List.length b) + weight mode < fuel)%nat ->
    (1 <= List.length a)%nat -> (2 <= List.length b)%nat ->
    ordered (a ++ out) -> ordered (b ++ out) -> dominating a b ->
    ordered (fst (mergeHighLoop cmp fuel mode g a b out)).
Proof.
  induction fuel as [| fuel IH]; intros mode g a b out Hfuel Hlena Hlenb Ha Hb Hdom;
    [lia |].
  cbn [mergeHighLoop].
  destruct mode as [nofWinsA nofWinsB | nofWinsA nofWinsB firstIteration].
  - snoc a a' x; [| cbn in Hlena; lia].
    snoc b b' y; [| cbn in Hlenb; lia].
    assert (Hx : good x).
    { apply (ordered_good _ x Ha), in_or_app; left. apply in_or_app; right; now left. }
    assert (Hy : good y).
    { apply (ordered_good _ y Hb), in_or_app; left. apply in_or_app; right; now left. }
    assert (Hob : ordered (b' ++ [y])) by now apply ordered_app in Hb.
    assert (Hoa : ordered (a' ++ [x])) by now apply ordered_app in Ha.
    rewrite before_rank by assumption.
    destruct (Z.ltb_spec (rank y) (rank x)) as [Hlt | Hge].
    + assert (Hdom' : dominating a' (b' ++ [y])).
      { apply (dominating_prefix (b' ++ [y]) _ [] (a' ++ [x])); try assumption;
          [now rewrite app_nil_r | now apply incl_appl, incl_refl]. }
      destruct a' as [| x' a'']; [cbn [fst]; order |].
      destruct (g <=? S nofWinsA)%nat; apply IH; try lengths; try assumption; order.
    + assert (Hdom' : dominating (a' ++ [x]) b').
      { apply (dominating_prefix (b' ++ [y]) _ [y] (a' ++ [x])); try assumption;
          [reflexivity | apply incl_refl]. }
      destruct b' as [| y' [| y'' b'']]; [rewrite length_app in Hlenb; cbn in Hlenb; lia | |].
      * apply dominating_single in Hdom'. cbn [fst]. order.
      * destruct (g <=? S nofWinsB)%nat; apply IH; try lengths; try assumption; order.
  - destruct (keepsGalloping nofWinsA nofWinsB firstIteration);
      [| apply IH; try assumption; cbn [weight] in *; lia].
    snoc b b' y; [| cbn in Hlenb; lia].
    assert (Hy : good y).
    { apply (ordered_good _ y Hb), in_or_app; left. apply in_or_app; right; now left. }
    assert (Hob : ordered (b' ++ [y])) by now apply ordered_app in Hb.
    assert (Hoa : ordered a) by now apply ordered_app in Ha.
    destruct (gallopRight_spec y a (List.length a - 1) Hoa Hy ltac:(lia)) as [Hlow Hhigh].
    cbv zeta.
    cut_keep (gallopRight cmp y a (List.length a - 1)) a a1 a2.
    destruct ((0 <? _)%nat && (List.length a1 =? 0)%nat) eqn:E1.
    { apply guard_true in E1 as [_ E1]. apply length_zero_iff_nil in E1. subst a1.
      cbn [fst]. order. }
    apply guard_false in E1.
    assert (Hlena1 : (1 <= List.length a1)%nat) by lengths.
    assert (Hdom1 : dominating a1 b').
    { apply (dominating_prefix (b' ++ [y]) _ [y] (a1 ++ a2)); try assumption;
        [reflexivity | now apply incl_appl, incl_refl]. }
    destruct (List.length b' =? 1)%nat eqn:E2.
    { apply Nat.eqb_eq in E2. apply length_one in E2 as [z ->].
      apply dominating_single in Hdom1. cbn [fst]. order. }
    apply Nat.eqb_neq in E2.
    snoc a1 a' x; [| cbn in Hlena1; lia].
    assert (Hx : good x).
    { apply (ordered_good _ x Hoa), in_or_app; left. apply in_or_app; right; now left. }
    assert (Hob' : ordered b') by now apply ordered_app in Hob.
    assert (Hlenb' : (2 <= List.length b')%nat) by lengths.
    destruct (gallopLeft_spec x b' (List.length b' - 1) Hob' Hx ltac:(lia)) as [Hlow' Hhigh'].
    cut_keep (gallopLeft cmp x b' (List.length b' - 1)) b' b1 b2.
    assert (Hdom2 : dominating (a' ++ [x]) b1).
    { apply (dominating_prefix (b1 ++ b2) _ b2 (a' ++ [x])); try assumption;
        [reflexivity | apply incl_refl]. }
    destruct ((0 <? _)%nat && (List.length b1 =? 1)%nat) eqn:E3.
    { apply guard_true in E3 as [_ E3]. apply length_one in E3 as [z ->].
      apply dominating_single in Hdom2. cbn [fst]. order. }
    destruct ((0 <? _)%nat && (List.length b1 =? 0)%nat) eqn:E4.
    { apply guard_true in E4 as [_ E4]. apply length_zero_iff_nil in E4. subst b1.
      cbn [fst]. order. }
    apply guard_false in E3. apply guard_false in E4.
    assert (Hlenb1 : (2 <= List.length b1)%nat) by lengths.
    assert (Hdom3 : dominating a' b1).
    { intros z Hz Hbelow u Hu. apply (Hdom2 z Hz Hbelow). apply in_or_app. now left. }
    destruct a' as [| x' a'']; [cbn [fst]; order |].
    apply IH; try lengths; try assumption; order.
Qed.

Lemma dominated_last (a' : list A) (x : A) (b : list A) :
  ordered (a' ++ [x]) -> dominated (a' ++ [x]) b -> above b x.
Proof.
  intros Ha Hdom. apply dominated_single.
  apply (dominated_suffix (a' ++ [x]) a' _ b); try assumption; [reflexivity | apply incl_refl].
Qed.

Lemma mergeHigh_ordered (g : nat) (a b : list A) :
  ordered a -> ordered b -> (1 <= List.length a)%nat -> (1 <= List.length b)%nat ->
  dominated a b -> dominating a b ->
  ordered (fst (mergeHigh cmp g a b)).
Proof.
  intros Ha Hb Hlena Hlenb Hdom Hdom'. unfold mergeHigh.
  snoc a a' x; [| cbn in Hlena; lia].
  pose proof (dominated_last a' x b Ha Hdom) as Hbx.
  destruct a' as [| x' a'']; [cbn [fst]; order |].
  destruct b as [| y [| y' b'']]; [cbn in Hlenb; lia | |].
  - apply dominating_single in Hdom'. cbn [fst]. order.
  - apply mergeHighLoop_ordered; try lengths; try order.
    apply (dominating_prefix (y :: y' :: b'') _ [] ((x' :: a'') ++ [x])); try assumption;
      [now rewrite app_nil_r | now apply incl_appl, incl_refl].
Qed.

Lemma mergeAt_ordered (g : nat) (a b : list A) :
  ordered a -> ordered b -> a <> [] -> b <> [] -> ordered (fst (mergeAt cmp g a b)).
Proof.
  intros Ha Hb Hsomea Hsomeb. unfold mergeAt.
  destruct b as [| keyRight b0]; [congruence |].
  remember (keyRight :: b0) as b eqn:Hbeq.
  assert (Hkey : good keyRight) by (apply (ordered_good b); [assumption | subst b; now left]).
  assert (Hfirst : below keyRight b) by (subst b; order).
  assert (Hlena : (1 <= List.length a)%nat) by (destruct a; [congruence | cbn; lia]).
  assert (Hlenb : (1 <= List.length b)%nat) by (subst b; cbn; lia).
  destruct (gallopRight_spec keyRight a 0 Ha Hkey ltac:(lia)) as [Hlow Hhigh].
  cut_keep (gallopRight cmp keyRight a 0) a a1 a2.
  snoc a2 a0 keyLeft; [| cbn [fst]; rewrite app_nil_r in *; subst b; order].
  assert (Hkey' : good keyLeft).
  { apply (ordered_good _ keyLeft Ha), in_or_app; right. apply in_or_app; right; now left. }
  destruct (gallopLeft_spec keyLeft b (List.length b - 1) Hb Hkey' ltac:(lia))
    as [Hlow' Hhigh'].
  set (lengthB := gallopLeft cmp keyLeft b (List.length b - 1)) in *. clearbody lengthB.
  pose proof (firstn_skipn lengthB b) as Hcutb.
  set (b1 := firstn lengthB b) in *. set (b2 := skipn lengthB b) in *. clearbody b1 b2.
  destruct b1 as [| y b1'] eqn:Hb1; [cbn [fst]; cbn [app] in Hcutb; subst b2; order |].
  rewrite <- Hb1 in *.
  assert (Hy : y = keyRight) by (rewrite Hb1, Hbeq in Hcutb; now injection Hcutb).
  assert (Hin1 : In keyRight b1) by (rewrite Hb1, Hy; now left).
  assert (Hlenb1 : (1 <= List.length b1)%nat) by (rewrite Hb1; cbn; lia).
  clear Hb1 Hy y b1' Hbeq b0. subst b.
  assert (Hoa2 : ordered (a0 ++ [keyLeft])) by now apply ordered_app in Ha.
  assert (Hob1 : ordered b1) by now apply ordered_app in Hb.
  assert (Hdom : dominated (a0 ++ [keyLeft]) b1).
  { intros z Hz Habove y Hy. specialize (Habove keyLeft ltac:(apply in_or_app; right; now left)).
    specialize (Hlow' y Hy). lia. }
  assert (Hdom' : dominating (a0 ++ [keyLeft]) b1).
  { intros z Hz Hbelow x Hx. specialize (Hbelow keyRight Hin1).
    specialize (Hhigh x Hx). lia. }
  assert (Hmerged :
    let r := if (List.length (a0 ++ [keyLeft]) <=? List.length b1)%nat
             then mergeLow cmp g (a0 ++ [keyLeft]) b1
             else mergeHigh cmp g (a0 ++ [keyLeft]) b1 in
    ordered (fst r) /\ Permutation ((a0 ++ [keyLeft]) ++ b1) (fst r)).
  { destruct (_ <=? _)%nat; cbv zeta; split;
      try apply mergeLow_perm; try apply mergeHigh_perm;
      [apply mergeLow_ordered | apply mergeHigh_ordered]; try assumption; lengths. }
  cbv zeta in Hmerged.
  destruct (if (_ <=? _)%nat then _ else _) as [merged g']. cbn [fst] in *.
  destruct Hmerged as [Hom Hperm].
  assert (Hin : forall m, In m merged -> In m (a0 ++ [keyLeft]) \/ In m b1).
  { intros m Hm. apply in_app_or. apply (Permutation_in m (Permutation_sym Hperm) Hm). }
  assert (Hbefore : allLe a1 merged).
  { intros x m Hx Hm. destruct (Hin m Hm) as [H | H].
    - apply ordered_app in Ha as (_ & _ & Hle). now apply Hle.
    - specialize (Hlow x Hx). specialize (Hfirst m ltac:(apply in_or_app; now left)). lia. }
  assert (Hafter : allLe merged b2).
  { intros m y Hm Hy. destruct (Hin m Hm) as [H | H].
    - specialize (Hhigh' y Hy).
      apply ordered_app in Hoa2 as (_ & _ & Hle).
      apply in_app_or in H as [H | [<- | []]]; [| assumption].
      specialize (Hle m keyLeft H ltac:(now left)). lia.
    - apply ordered_app in Hb as (_ & _ & Hle). now apply Hle. }
  order.
Qed.

(** *** The stack *)

Definition runsOk (runs : list (list A)) : Prop :=
  Forall (fun run => ordered run /\ run <> []) runs.

Lemma mergeAt_ok (g : nat) (a b : list A) :
  ordered a /\ a <> [] -> ordered b /\ b <> [] ->
  ordered (fst (mergeAt cmp g a b)) /\ fst (mergeAt cmp g a b) <> [].
Proof.
  intros [Ha Hsomea] [Hb Hsomeb]. split; [now apply mergeAt_ordered |].
  intros Hnil. pose proof (mergeAt_perm cmp g a b) as Hperm. rewrite Hnil in Hperm.
  apply Permutation_sym, Permutation_nil, app_eq_nil in Hperm. tauto.
Qed.

Lemma mergeTop_ok (s : SortState) :
  runsOk (pendingRuns s) -> runsOk (pendingRuns (mergeTop cmp s)).
Proof.
  unfold mergeTop, runsOk. destruct s as [[| r0 [| r1 below]] g0];
    cbn [pendingRuns minGallop]; try tauto.
  rewrite !Forall_cons_iff. intros (H0 & H1 & Hok).
  pose proof (mergeAt_ok g0 r1 r0 H1 H0) as Hmerged.
  destruct (mergeAt cmp g0 r1 r0) as [merged g]. cbn [pendingRuns fst] in *.
  now constructor.
Qed.

Lemma mergeBelowTop_ok (s : SortState) :
  runsOk (pendingRuns s) -> runsOk (pendingRuns (mergeBelowTop cmp s)).
Proof.
  unfold mergeBelowTop, runsOk.
  destruct s as [[| r0 [| r1 [| r2 below]]] g0]; cbn [pendingRuns minGallop]; try tauto.
  rewrite !Forall_cons_iff. intros (H0 & H1 & H2 & Hok).
  pose proof (mergeAt_ok g0 r2 r1 H2 H1) as Hmerged.
  destruct (mergeAt cmp g0 r2 r1) as [merged g]. cbn [pendingRuns fst] in *.
  constructor; [assumption |]. now constructor.
Qed.

Lemma mergeCollapse_ok (fuel : nat) :
  forall s, runsOk (pendingRuns s) -> runsOk (pendingRuns (mergeCollapse cmp fuel s)).
Proof.
  induction fuel as [| fuel IH]; intros s Hok; cbn [mergeCollapse]; [assumption |].
  destruct (pendingRuns s) as [| r0 [| r1 below]] eqn:Hruns; try (now rewrite Hruns).
  rewrite <- Hruns in Hok.
  destruct (invariantBroken _).
  - destruct below as [| r2 below'].
    + now apply IH, mergeTop_ok.
    + destruct (len r2 <? len r0)%nat; apply IH;
        [now apply mergeBelowTop_ok | now apply mergeTop_ok].
  - destruct (len r1 <=? len r0)%nat; [now apply IH, mergeTop_ok | assumption].
Qed.

Lemma mergeForceCollapse_ok (fuel : nat) :
  forall s, runsOk (pendingRuns s) -> runsOk (pendingRuns (mergeForceCollapse cmp fuel s)).
Proof.
  induction fuel as [| fuel IH]; intros s Hok; cbn [mergeForceCollapse]; [assumption |].
  destruct (pendingRuns s) as [| r0 [| r1 [| r2 below]]] eqn:Hruns;
    try (now rewrite Hruns); rewrite <- Hruns in Hok.
  - now apply IH, mergeTop_ok.
  - destruct (len r2 <? len r0)%nat; apply IH;
      [now apply mergeBelowTop_ok | now apply mergeTop_ok].
Qed.

Lemma mergeTop_length (s : SortState) (r0 r1 : list A) (below : list (list A)) :
  pendingRuns s = r0 :: r1 :: below ->
  List.length (pendingRuns (mergeTop cmp s)) = S (List.length below).
Proof.
  intros Hruns. unfold mergeTop. rewrite Hruns.
  now destruct (mergeAt cmp (minGallop s) r1 r0).
Qed.

Lemma mergeBelowTop_length (s : SortState) (r0 r1 r2 : list A) (below : list (list A)) :
  pendingRuns s = r0 :: r1 :: r2 :: below ->
  List.length (pendingRuns (mergeBelowTop cmp s)) = S (S (List.length below)).
Proof.
  intros Hruns. unfold mergeBelowTop. rewrite Hruns.
  now destruct (mergeAt cmp (minGallop s) r2 r1).
Qed.

(** When no run is left to make, the runs are merged into one. *)
Lemma mergeForceCollapse_one (fuel : nat) :
  forall s, (List.length (pendingRuns s) <= S fuel)%nat ->
            (List.length (pendingRuns (mergeForceCollapse cmp fuel s)) <= 1)%nat.
Proof.
  induction fuel as [| fuel IH]; intros s Hlen; cbn [mergeForceCollapse]; [assumption |].
  destruct (pendingRuns s) as [| r0 [| r1 [| r2 below]]] eqn:Hruns;
    try (rewrite Hruns; cbn; lia).
  - apply IH. rewrite (mergeTop_length s r0 r1 [] Hruns). cbn. lia.
  - destruct (len r2 <? len r0)%nat; apply IH.
    + rewrite (mergeBelowTop_length s r0 r1 r2 below Hruns). cbn in *. lia.
    + rewrite (mergeTop_length s r0 r1 (r2 :: below) Hruns). cbn in *. lia.
Qed.

Lemma nextRun_ordered (minRunLength : nat) (remaining : list A) :
  Forall good remaining -> ordered (fst (nextRun cmp minRunLength remaining)).
Proof.
  intros Hgood. unfold nextRun.
  pose proof (countAndMakeRun_ordered remaining Hgood) as Hrun.
  pose proof (countAndMakeRun_perm cmp remaining) as Hperm.
  destruct (countAndMakeRun cmp remaining) as [run rest]. cbn [fst snd] in *.
  destruct (List.length run <? minRunLength)%nat; cbn [fst]; [| assumption].
  apply binaryInsertionSort_ordered; [assumption |].
  apply (Permutation_Forall Hperm) in Hgood. apply Forall_app in Hgood as [_ Hrest].
  rewrite Forall_forall in *. intros x Hx. apply Hrest.
  rewrite <- (firstn_skipn (Nat.min minRunLength (List.length remaining) - List.length run)
                rest).
  apply in_or_app. now left.
Qed.

Lemma nextRun_good (minRunLength : nat) (remaining : list A) :
  Forall good remaining -> Forall good (snd (nextRun cmp minRunLength remaining)).
Proof.
  intros Hgood.
  apply (Permutation_Forall (nextRun_perm cmp minRunLength remaining)) in Hgood.
  now apply Forall_app in Hgood.
Qed.

Lemma makeRuns_ok (fuel minRunLength : nat) :
  forall remaining s,
    Forall good remaining -> runsOk (pendingRuns s) ->
    runsOk (pendingRuns (makeRuns cmp fuel minRunLength remaining s)).
Proof.
  induction fuel as [| fuel IH]; intros remaining s Hgood Hok; [assumption |].
  destruct remaining as [| x rest0] eqn:Hrem; [assumption |].
  rewrite <- Hrem in *. assert (Hsome : remaining <> []) by (subst; discriminate).
  clear Hrem. rewrite makeRuns_step by assumption.
  apply IH; [now apply nextRun_good |].
  apply mergeCollapse_ok. cbn [pendingRuns]. constructor; [| assumption].
  split; [now apply nextRun_ordered | now apply nextRun_nonempty].
Qed.

(** With a comparator that is the one of a rank, the sort leaves no element
    before one of lower rank. *)
Lemma timSort_ordered (l : list A) : Forall good l -> ordered (timSort cmp l).
Proof.
  intros Hgood. unfold timSort. destruct (List.length l <? 2)%nat eqn:E.
  - destruct l as [| x [| x' l']]; [order | inversion Hgood; subst; order |].
    cbn in E. discriminate.
  - cbv zeta.
    set (s := makeRuns cmp _ _ l _).
    assert (Hok : runsOk (pendingRuns s)) by (apply makeRuns_ok; [assumption | constructor]).
    pose proof (mergeForceCollapse_ok (List.length (pendingRuns s)) s Hok) as Hok'.
    pose proof (mergeForceCollapse_one (List.length (pendingRuns s)) s ltac:(lia)) as Hone.
    destruct (pendingRuns (mergeForceCollapse cmp _ s)) as [| run [| run' runs]];
      [cbn; order | | cbn in Hone; lia].
    inversion Hok' as [| ? ? [Hrun _] _]; subst. cbn. now rewrite app_nil_r.
Qed.

End Ordered.

End ArraySortFacts.

Module CollectionService.

(** ** State *)

Record State : Type := {
  running : bool;
  progress : Z;
  currentSource : string;
  itemsCollected : nat;
  startTime : option string;
  processingLevel : string;
  sources : list string;
  keywords : list string;
  maxResults : Z;
  results : list Item.t
}.

Record HistoryEntry : Type := {
  h_id : string;
  h_date : string;
  displayDate : string;
  h_sources : list string;
  itemCount : nat;
  h_processingLevel : string;
  filename : string;
  booksFile : string
}.

Record Config : Type := {
  cfg_sources : list string;
  cfg_keywords : list string;
  cfg_maxResults : Z;
  cfg_processingLevel : string;
  saveToKnowledgeBooks : bool
}.

Record ApiKeys : Type := {
  newsApiKey : option string;
  githubApiKey : option string
}.

Definition noApiKeys : ApiKeys := {| newsApiKey := None; githubApiKey := None |}.

(** ** The file system *)

(** What [JSON.parse] returns: an array of books, or something else. *)
Inductive JSON : Type :=
| JArray (books : list Book.t)
| JOther.

Inductive File : Type :=
| Inaccessible                      (* listed, but [access] and [readFile] reject *)
| Unreadable (message : string)     (* [readFile] rejects *)
| Malformed (message : string)      (* [JSON.parse] throws *)
| Parsed (value : JSON).

(** The data directory: its files in the order [readdir] lists them (a name
    occurs once), and the failures of the directory operations.  The merged
    file is the entry [knowledge-books.json] of this directory, as in the
    default configuration. *)
Record Disk : Type := {
  mkdirError : option string;
  readdirError : option string;
  entries : Obj.t File;
  writeError : string -> option string
}.

(** ** The outside world of a run *)

Record Env : Type := {
  rootDir : string;
  dataDir : string;
  uuidv4 : nat -> string;             (* the n-th value drawn *)
  toISOString : nat -> string;        (* [new Date().toISOString()] at the n-th reading *)
  formatLocal : nat -> string;        (* the same instant, formatted for a file name *)
  Date_getTime : string -> option Z;  (* [new Date(s)]; Invalid Date = None *)
  encodeURIComponent : string -> string;
  existsSync : string -> bool;        (* adapter files *)
  require : nat -> string -> Outcome Adapter.Export;  (* at the i-th source *)
  loadApiKeys : option (Outcome ApiKeys)
}.

(** The service with its surroundings: [clock] counts the values drawn from
    [uuidv4] and the readings of the time. *)
Record t : Type := {
  state : State;
  collectionHistory : list HistoryEntry;
  disk : Disk;
  clock : nat
}.

Definition initialState : State := {|
  running := false; progress := 0; currentSource := EmptyString; itemsCollected := 0;
  startTime := None; processingLevel := "basic"; sources := []; keywords := [];
  maxResults := 10; results := []
|}.

Definition constructor (d : Disk) : t :=
  {| state := initialState; collectionHistory := []; disk := d; clock := 0 |}.

Definition withState (self : t) (s : State) : t :=
  {| state := s; collectionHistory := collectionHistory self;
     disk := disk self; clock := clock self |}.

Definition tick (self : t) : t :=
  {| state := state self; collectionHistory := collectionHistory self;
     disk := disk self; clock := S (clock self) |}.

(** [setState({ results: updated, itemsCollected: updated.length })] with
    [updated = [...state.results, ...more]] *)
Definition pushResults (more : list Item.t) (self : t) : t :=
  let s := state self in
  let updatedResults := results s ++ more in
  withState self
    {| running := running s; progress := progress s; currentSource := currentSource s;
       itemsCollected := List.length updatedResults;
       startTime := startTime s; processingLevel := processingLevel s;
       sources := sources s; keywords := keywords s; maxResults := maxResults s;
       results := updatedResults |}.

(** ** Items *)

(** [keywords.length > 0 ? keywords.filter(k => k && k.trim()) : [fallback]] *)
Definition keywordsToUse (kws : list string) (fallback : string) : list string :=
  match kws with
  | [] => [fallback]
  | _ => filter nonBlank kws
  end.

(** [createErrorItem(source, keywords, errorMessage, collectionId)]: reads
    the time, then draws an id. *)
Definition createErrorItem (env : Env) (source : string) (kws : list string)
    (errorMessage collectionId : string) (self : t) : Item.t * t :=
  let timestamp := toISOString env (clock self) in
  let self := tick self in
  let keywordsStr := join ", " kws in
  let id := uuidv4 env (clock self) in
  let self := tick self in
  (Item.mk id
     ("Error retrieving data from " +++ source)
     ("Could not retrieve information from " +++ source +++ " for keywords: " +++ keywordsStr)
     (errorMessage +++ nl +++ nl +++ "Tried to collect data at: " +++ timestamp +++ nl +++
      "Keywords: " +++ keywordsStr +++ nl +++ nl +++
      "To troubleshoot this issue:" +++ nl +++ "- Check your network connection" +++ nl +++
      "- Verify API credentials if applicable" +++ nl +++ "- Try different keywords" +++ nl +++
      "- Try again later")
     ("error" :: source :: kws)
     timestamp timestamp source source EmptyString EmptyString
     true collectionId [],
   self).

(** Appending one error item to the results. *)
Definition pushError (env : Env) (source : string) (kws : list string)
    (errorMessage collectionId : string) (self : t) : t :=
  let '(errorItem, self) := createErrorItem env source kws errorMessage collectionId self in
  pushResults [errorItem] self.

(** [a || draw()] where drawing advances the clock. *)
Definition or_draw (a : option string) (draw : nat -> string) (self : t) : string * t :=
  if truthy a then (or_else a EmptyString, self)
  else (draw (clock self), tick self).

(** The object built from one adapter result in the main loop. *)
Definition processedItem (env : Env) (source : string) (kwsToUse : list string)
    (collectionId : string) (item : RawItem.t) (self : t) : Item.t * t :=
  let '(id, self) := or_draw (RawItem.id item) (uuidv4 env) self in
  let '(createdAt, self) :=
    or_draw (or_opt (RawItem.createdAt item) (RawItem.date item)) (toISOString env) self in
  let '(date, self) :=
    or_draw (or_opt (RawItem.date item) (RawItem.createdAt item)) (toISOString env) self in
  (Item.mk id
     (or_else (RawItem.title item) ("Information from " +++ source))
     (or_else (RawItem.summary item)
        (if truthy (RawItem.content item)
         then slice0 200 (or_else (RawItem.content item) EmptyString) +++ "..."
         else "No summary available"))
     (or_else (or_opt (RawItem.content item) (RawItem.summary item)) "No content available")
     (match RawItem.tags item with Some l => l | None => kwsToUse ++ [source] end)
     createdAt date
     (or_else (or_opt (RawItem.sourceName item) (RawItem.source item)) source)
     (or_else (or_opt (RawItem.source item) (RawItem.sourceName item)) source)
     (or_else (or_opt (RawItem.sourceUrl item) (RawItem.url item)) EmptyString)
     (or_else (or_opt (RawItem.url item) (RawItem.sourceUrl item)) EmptyString)
     false collectionId [],
   self).

(** The object built from one adapter result in the retry of the fallback. *)
Definition retriedItem (env : Env) (kwsToUse : list string)
    (collectionId : string) (item : RawItem.t) (self : t) : Item.t * t :=
  let generic := "https://duckduckgo.com/?q=" +++ encodeURIComponent env (join " " kwsToUse) in
  let '(id, self) := or_draw (RawItem.id item) (uuidv4 env) self in
  let '(createdAt, self) :=
    or_draw (or_opt (RawItem.createdAt item) (RawItem.date item)) (toISOString env) self in
  let '(date, self) :=
    or_draw (or_opt (RawItem.date item) (RawItem.createdAt item)) (toISOString env) self in
  (Item.mk id
     (or_else (RawItem.title item) "Search results from DuckDuckGo")
     (or_else (RawItem.summary item)
        (if truthy (RawItem.content item)
         then slice0 200 (or_else (RawItem.content item) EmptyString) +++ "..."
         else "No summary available"))
     (or_else (or_opt (RawItem.content item) (RawItem.summary item)) "No content available")
     (match RawItem.tags item with Some l => l | None => kwsToUse ++ ["duckduckgo"] end)
     createdAt date
     (or_else (RawItem.sourceName item) "DuckDuckGo")
     (or_else (RawItem.source item) "duckduckgo")
     (or_else (or_opt (RawItem.sourceUrl item) (RawItem.url item)) generic)
     (or_else (or_opt (RawItem.url item) (RawItem.sourceUrl item)) generic)
     false collectionId [],
   self).

(** [items.map(build)], the clock threaded from one item to the next. *)
Fixpoint mapItems (build : RawItem.t -> t -> Item.t * t) (items : list RawItem.t) (self : t)
  : list Item.t * t :=
  match items with
  | [] => ([], self)
  | item :: rest =>
      let '(x, self) := build item self in
      let '(xs, self) := mapItems build rest self in
      (x :: xs, self)
  end.

(** ** Adapters *)

Definition adaptersDir (env : Env) : string := rootDir env +++ "/src/core/sourceAdapters/".

(** The file the main loop requires for a source. *)
Definition adapterPath (env : Env) (source : string) : string :=
  let capitalized := adaptersDir env +++ capitalize source +++ "Adapter.js" in
  let path1 :=
    if existsSync env capitalized then capitalized
    else adaptersDir env +++ toLowerCase source +++ "Adapter.js" in
  if existsSync env path1 then path1
  else if (toLowerCase source =? "duckduckgo")%string
       then adaptersDir env +++ "duckDuckGoAdapter.js"
       else adaptersDir env +++ source +++ "Adapter.js".

Definition chrome91 : string :=
  "Mozilla/5.0 (Windows NT 10.0; Win64; x64) AppleWebKit/537.36 (KHTML, like Gecko) Chrome/91.0.4472.124 Safari/537.36".

Definition chrome96 : string :=
  "Mozilla/5.0 (Windows NT 10.0; Win64; x64) AppleWebKit/537.36 (KHTML, like Gecko) Chrome/96.0.4664.110 Safari/537.36".

Definition isSource (name source : string) : bool := (toLowerCase source =? name)%string.

(** The options the main loop constructs an adapter with. *)
Definition adapterOptions (config : Config) (apiKeys : ApiKeys) (source : string)
  : Adapter.Options :=
  {| Adapter.maxResults := cfg_maxResults config;
     Adapter.language := if isSource "wikipedia" source then Some "en" else None;
     Adapter.sortBy := if isSource "arxiv" source then Some "relevance" else None;
     Adapter.userAgent := if isSource "duckduckgo" source then Some chrome91 else None;
     Adapter.timeout := if isSource "duckduckgo" source then Some 15000 else None;
     Adapter.apiKey :=
       if isSource "github" source then githubApiKey apiKeys
       else if isSource "newsapi" source then newsApiKey apiKeys
       else None |}.

(** What the inner [try] block of the main loop obtains from the adapter
    before it looks at the results. *)
Inductive Collected : Type :=
| NoAdapter                             (* the module exports a falsy value *)
| Results (items : list RawItem.t).

Definition invokeAdapter (env : Env) (config : Config) (apiKeys : ApiKeys)
    (i : nat) (source : string) : Outcome Collected :=
  AdapterClass <- require env i (adapterPath env source) ;;
  sourceAdapter <-
    match AdapterClass with
    | Adapter.ClassExport construct =>
        a <- construct (adapterOptions config apiKeys source) ;; Returned (Some a)
    | Adapter.ObjectExport value => Returned value
    end ;;
  match sourceAdapter with
  | None => Returned NoAdapter
  | Some adapter =>
      if isSource "newsapi" source && negb (truthy (newsApiKey apiKeys))
      then Thrown "NewsAPI requires an API key. Please add it in the API Keys settings page."
      else
        let kws := keywordsToUse (cfg_keywords config) "general" in
        items <-
          match Adapter.fetchContent adapter with
          | Some fetchContent => fetchContent kws
          | None =>
              match Adapter.collectData adapter with
              | Some collectData => collectData kws
              | None => Returned []
              end
          end ;;
        Returned (Results items)
  end.

(** ** The search fallback *)

Definition linkLine (index : nat) (result : SearchResult.t) : string :=
  showNat (index + 1) +++ ". [" +++ SearchResult.title result +++ "](" +++
  SearchResult.url result +++ ")" +++ nl +++ "   " +++ SearchResult.snippet result.

Definition linksContent (topResults : list SearchResult.t) : string :=
  join (nl +++ nl) (mapi linkLine topResults).

Definition genericQueryUrl (env : Env) (query : string) : string :=
  "https://duckduckgo.com/?q=" +++ encodeURIComponent env query.

(** The single item that lists the links found by the search alone. *)
Definition searchItem (env : Env) (kwsToUse : list string) (query collectionId : string)
    (searchResults : list SearchResult.t) (self : t) : Item.t * t :=
  let topResults := firstn 5 searchResults in
  let id := uuidv4 env (clock self) in
  let self := tick self in
  let createdAt := toISOString env (clock self) in
  let self := tick self in
  let date := toISOString env (clock self) in
  let self := tick self in
  let firstUrl :=
    match topResults with
    | first :: _ => SearchResult.url first
    | [] => genericQueryUrl env query
    end in
  (Item.mk id
     ("DuckDuckGo search results for: " +++ query)
     ("Found " +++ showNat (List.length searchResults) +++ " results for " +++
      dquote +++ query +++ dquote +++ ". Here are the top " +++
      showNat (List.length topResults) +++ " matches:")
     ("# Search results for " +++ dquote +++ query +++ dquote +++ nl +++ nl +++
      linksContent topResults +++ nl +++ nl +++
      "These links were found using DuckDuckGo search. Click on any link to view the actual page.")
     (kwsToUse ++ ["duckduckgo"; "search-results"])
     createdAt date "DuckDuckGo Search" "duckduckgo" firstUrl firstUrl
     false collectionId topResults,
   self).

Definition noResultsMessage : string :=
  "DuckDuckGo search API returned no results. DuckDuckGo may be restricting automated queries.".

(** The third tier: the search alone, inside its own [try]. *)
Definition searchOnly (env : Env) (duckAdapter : Adapter.t) (source : string)
    (kwsToUse : list string) (collectionId : string) (self : t) : t :=
  let query := join " " kwsToUse in
  match Adapter.call "duckAdapter.performSearch" (Adapter.performSearch duckAdapter) query with
  | Returned (r :: rs) =>
      let '(item, self) := searchItem env kwsToUse query collectionId (r :: rs) self in
      pushResults [item] self
  | Returned [] => pushError env source kwsToUse noResultsMessage collectionId self
  | Thrown message =>
      pushError env source kwsToUse ("Error during DuckDuckGo search: " +++ message)
        collectionId self
  end.

(** [handleDuckDuckGoFallback(source, keywords, maxResults, collectionId)],
    called while the i-th source is processed. *)
Definition handleDuckDuckGoFallback (env : Env) (i : nat) (source : string)
    (kws : list string) (maxR : Z) (collectionId : string) (self : t) : t :=
  let kwsToUse := keywordsToUse kws "artificial intelligence" in
  match
    (DuckDuckGoClass <- require env i (adaptersDir env +++ "duckDuckGoAdapter.js") ;;
     duckAdapter <-
       Adapter.new "DuckDuckGoAdapter" DuckDuckGoClass
         {| Adapter.maxResults := maxR; Adapter.language := None; Adapter.sortBy := None;
            Adapter.userAgent := Some chrome96; Adapter.timeout := Some 30000;
            Adapter.apiKey := None |} ;;
     duckResults <-
       Adapter.call "duckAdapter.collectData" (Adapter.collectData duckAdapter) kwsToUse ;;
     Returned (duckAdapter, duckResults))
  with
  | Thrown message =>
      pushError env source kws ("Error connecting to DuckDuckGo: " +++ message)
        collectionId self
  | Returned (duckAdapter, item :: rest) =>
      let '(processedResults, self) :=
        mapItems (retriedItem env kwsToUse collectionId) (item :: rest) self in
      pushResults processedResults self
  | Returned (duckAdapter, []) =>
      searchOnly env duckAdapter source kwsToUse collectionId self
  end.

(** ** The main loop *)

(** The double of a count. *)
Definition double (n : nat) : float := PrimFloat.of_uint63 (Uint63.of_Z (Z.of_nat n)).

(** [Math.floor(x)] for [0 <= x <= bound]. *)
Fixpoint floorUpTo (bound : nat) (x : float) : Z :=
  match bound with
  | O => 0
  | S below => if PrimFloat.leb (double bound) x then Z.of_nat bound else floorUpTo below x
  end.

(** [Math.floor((i / n) * 100)], the division and the product rounded as
    doubles are; in the loop [i < n], so the product is below 100. *)
Definition percent (i n : nat) : Z :=
  floorUpTo 100 (PrimFloat.mul (PrimFloat.div (double i) (double n)) (double 100)).

(** [setState({ currentSource: source, progress: Math.floor((i / n) * 100) })] *)
Definition enterSource (config : Config) (i : nat) (source : string) (self : t) : t :=
  let s := state self in
  withState self
    {| running := running s;
       progress := percent i (List.length (cfg_sources config));
       currentSource := source;
       itemsCollected := itemsCollected s;
       startTime := startTime s; processingLevel := processingLevel s;
       sources := sources s; keywords := keywords s; maxResults := maxResults s;
       results := results s |}.

(** One turn of the loop over [config.sources]. *)
Definition processSource (env : Env) (config : Config) (collectionId : string)
    (apiKeys : ApiKeys) (i : nat) (source : string) (self : t) : t :=
  let self := enterSource config i source self in
  match invokeAdapter env config apiKeys i source with
  | Returned NoAdapter => self
  | Returned (Results (item :: rest)) =>
      let kws := keywordsToUse (cfg_keywords config) "general" in
      let '(processedResults, self) :=
        mapItems (processedItem env source kws collectionId) (item :: rest) self in
      pushResults processedResults self
  | Returned (Results []) =>
      if isSource "duckduckgo" source
      then handleDuckDuckGoFallback env i source (cfg_keywords config)
             (cfg_maxResults config) collectionId self
      else pushError env source (cfg_keywords config)
             ("No results found from " +++ source +++ " for the specified keywords.")
             collectionId self
  | Thrown message =>
      pushError env source (cfg_keywords config)
        ("Error using " +++ source +++ " adapter: " +++ message) collectionId self
  end.

(** [for (let i = from; i < sources.length; i++)] over the sources left. *)
Fixpoint processSources (env : Env) (config : Config) (collectionId : string)
    (apiKeys : ApiKeys) (i : nat) (rest : list string) (self : t) : t :=
  match rest with
  | [] => self
  | source :: rest' =>
      processSources env config collectionId apiKeys (S i) rest'
        (processSource env config collectionId apiKeys i source self)
  end.

(** ** The knowledge store *)

Definition mainName : string := "knowledge-books.json".

(** [file.startsWith('knowledge-books-') && file.endsWith('.json')] *)
Definition isPartitionName (file : string) : bool :=
  startsWith "knowledge-books-" file && endsWith ".json" file.

(** The dated files of the data directory, in listing order. *)
Definition partitions (d : Disk) : list (string * File) :=
  filter (fun entry => isPartitionName (fst entry)) (entries d).

(** [JSON.parse(await fs.readFile(path, 'utf8'))] *)
Definition readJSON (f : File) : Outcome JSON :=
  match f with
  | Inaccessible => Thrown "EACCES: permission denied"
  | Unreadable message => Thrown message
  | Malformed message => Thrown message
  | Parsed value => Returned value
  end.

(** [l.sort(cmp)]; a comparator that returns NaN counts as one that
    returns 0. *)
Definition sort {A : Type} (cmp : A -> A -> Z) (l : list A) : list A :=
  ArraySort.timSort cmp l.

(** [(a, b) => dateB - dateA], NaN when a date is invalid. *)
Definition newestFirst (getTime : Book.t -> option Z) (a b : Book.t) : Z :=
  match getTime a, getTime b with
  | Some dateA, Some dateB => dateB - dateA
  | _, _ => 0
  end.

(** [new Date(a.date)] in [saveCollectionResults] *)
Definition savedTime (env : Env) (a : Book.t) : option Z :=
  match Book.date a with
  | Some d => Date_getTime env d
  | None => None
  end.

(** [new Date(a.date || a.createdAt || 0)] in [loadKnowledgeBooks] *)
Definition loadedTime (env : Env) (a : Book.t) : option Z :=
  let d := or_opt (Book.date a) (Book.createdAt a) in
  if truthy d then Date_getTime env (or_else d EmptyString) else Some 0.

Definition ids (books : list Book.t) : list string := map Book.id books.

(** [books.filter(book => !existingIds.has(book.id))] with
    [existingIds = new Set(all.map(book => book.id))] *)
Definition notIn (all : list Book.t) (books : list Book.t) : list Book.t :=
  filter (fun book => negb (has (ids all) (Book.id book))) books.

(** *** saveCollectionResults *)

(** One turn of the loop over the dated files: [allKnowledgeBooks.push(...booksData)]
    when the file holds an array, a warning otherwise. *)
Definition pushPartition (allKnowledgeBooks : list Book.t) (f : File) : list Book.t :=
  match readJSON f with
  | Returned (JArray booksData) => allKnowledgeBooks ++ booksData
  | _ => allKnowledgeBooks
  end.

(** The books gathered from the disk before the new ones are added. *)
Definition existingBooks (d : Disk) : list Book.t :=
  match readdirError d with
  | Some _ => []
  | None =>
      let allKnowledgeBooks := fold_left pushPartition (map snd (partitions d)) [] in
      match Obj.get mainName (entries d) with
      | Some f =>
          match readJSON f with
          | Returned (JArray mainBooks) =>
              allKnowledgeBooks ++ notIn allKnowledgeBooks mainBooks
          | _ => allKnowledgeBooks
          end
      | None => allKnowledgeBooks
      end
  end.

Definition toBook (collectionId formattedDate : string) (item : Item.t) : Book.t :=
  Book.mk (Item.id item) (Item.title item) (Item.summary item) (Item.content item)
    (Item.tags item)
    (Some (str_or (Item.createdAt item) (Item.date item)))
    None
    (str_or (Item.sourceName item) (Item.source item))
    (str_or (Item.sourceUrl item) (Item.url item))
    (str_or (Item.url item) (Item.sourceUrl item))
    (Item.isError item)
    collectionId formattedDate.

(** [fs.writeFile(path, JSON.stringify(books))]; a new file is listed last. *)
Definition writeFile (name : string) (books : list Book.t) (d : Disk) : Outcome Disk :=
  match writeError d name with
  | Some message => Thrown message
  | None =>
      Returned {| mkdirError := mkdirError d; readdirError := readdirError d;
                  entries := Obj.set name (Parsed (JArray books)) (entries d);
                  writeError := writeError d |}
  end.

Definition withDisk (self : t) (d : Disk) : t :=
  {| state := state self; collectionHistory := collectionHistory self;
     disk := d; clock := clock self |}.

Definition datedName (formattedDate : string) : string :=
  "knowledge-books-" +++ formattedDate +++ ".json".

(** The merged index [saveCollectionResults] writes. *)
Definition mergedIndex (env : Env) (collectionId formattedDate : string) (self : t)
  : list Book.t :=
  sort (newestFirst (savedTime env))
    (existingBooks (disk self)
     ++ map (toBook collectionId formattedDate) (results (state self))).

(** [saveCollectionResults(collectionId)]: whatever fails inside is logged
    and thrown again. *)
Definition saveCollectionResults (env : Env) (collectionId : string) (self : t)
  : Outcome string * t :=
  match mkdirError (disk self) with
  | Some message => (Thrown message, self)
  | None =>
      let formattedDate := formatLocal env (clock self) in
      let now := toISOString env (clock self) in
      let self := tick self in
      let newBooks := map (toBook collectionId formattedDate) (results (state self)) in
      let allKnowledgeBooks := mergedIndex env collectionId formattedDate self in
      let datedBooksFile := dataDir env +++ "/" +++ datedName formattedDate in
      match writeFile (datedName formattedDate) newBooks (disk self) with
      | Thrown message => (Thrown message, self)
      | Returned d1 =>
          match writeFile mainName allKnowledgeBooks d1 with
          | Thrown message => (Thrown message, withDisk self d1)
          | Returned d2 =>
              (Returned datedBooksFile,
               {| state := state self;
                  collectionHistory :=
                    collectionHistory self ++
                    [{| h_id := collectionId; h_date := now; displayDate := formattedDate;
                        h_sources := sources (state self);
                        itemCount := List.length (results (state self));
                        h_processingLevel := processingLevel (state self);
                        filename := datedName formattedDate;
                        booksFile := datedBooksFile |}];
                  disk := d2; clock := clock self |})
          end
      end
  end.

(** *** loadKnowledgeBooks *)

(** One turn of the loop over the dated files: a file that cannot be
    accessed, read or parsed, or that holds no array, is skipped. *)
Definition addPartition (allBooks : list Book.t) (f : File) : list Book.t :=
  match f with
  | Inaccessible => allBooks
  | Unreadable _ => allBooks
  | Malformed _ => allBooks
  | Parsed (JArray booksData) => allBooks ++ notIn allBooks booksData
  | Parsed JOther => allBooks
  end.

Definition loadKnowledgeBooks (env : Env) (d : Disk) : JSON :=
  match readdirError d with
  | Some _ => JArray []
  | None =>
      match partitions d with
      | [] =>
          match Obj.get mainName (entries d) with
          | Some (Parsed value) => value
          | _ => JArray []
          end
      | knowledgeBookFiles =>
          JArray (sort (newestFirst (loadedTime env))
                       (fold_left addPartition (map snd knowledgeBookFiles) []))
      end
  end.

(** ** collectData *)

(** The reset of the state at the start of a run. *)
Definition start (env : Env) (config : Config) (self : t) : t :=
  tick (withState self
    {| running := true; progress := 0; currentSource := "Initializing...";
       itemsCollected := 0;
       startTime := Some (toISOString env (clock self));
       processingLevel := cfg_processingLevel config;
       sources := cfg_sources config; keywords := cfg_keywords config;
       maxResults := cfg_maxResults config; results := [] |}).

(** [setState({ running: false, progress: 100, currentSource: 'Completed' })] *)
Definition complete (self : t) : t :=
  let s := state self in
  withState self
    {| running := false; progress := 100; currentSource := "Completed";
       itemsCollected := itemsCollected s;
       startTime := startTime s; processingLevel := processingLevel s;
       sources := sources s; keywords := keywords s; maxResults := maxResults s;
       results := results s |}.

Definition apiKeysOf (env : Env) : ApiKeys :=
  match loadApiKeys env with
  | Some (Returned keys) => keys
  | _ => noApiKeys
  end.

(** The run up to the end of the loop over the sources, with its id. *)
Definition collectSources (env : Env) (config : Config) (self : t) : string * t :=
  let self := start env config self in
  let collectionId := uuidv4 env (clock self) in
  let self := tick self in
  let self := tick self in            (* collectionDate: read, never used *)
  (collectionId,
   processSources env config collectionId (apiKeysOf env) 0 (cfg_sources config) self).

(** [collectData(config)]: the promise it returns and the service after it. *)
Definition collectData (env : Env) (config : Config) (self : t)
  : Outcome (list Item.t) * t :=
  let '(collectionId, self) := collectSources env config self in
  if saveToKnowledgeBooks config then
    match saveCollectionResults env collectionId self with
    | (Thrown message, self) => (Thrown message, self)
    | (Returned _, self) =>
        let self := complete self in
        (Returned (results (state self)), self)
    end
  else
    let self := complete self in
    (Returned (results (state self)), self).

End CollectionService.

(* ================================================================== *)
(** * A small concrete installation, to run the orchestrator on *)
(* ================================================================== *)

Module Installation.

Import CollectionService.

Definition paper (n : string) : RawItem.t :=
  RawItem.mk None (Some ("Paper " +++ n)) (Some "An abstract") (Some "An abstract")
    (Some ["quantum"]) None None (Some "arXiv") None
    (Some ("https://arxiv.org/abs/" +++ n)) None.

(** An article whose id is derived from its title, as the Wikipedia adapter
    does. *)
Definition article : RawItem.t :=
  RawItem.mk (Some "md5-quantum") (Some "Quantum") (Some "Quantum...") (Some "Quantum mechanics")
    (Some ["quantum"; "encyclopedia"]) (Some "5") (Some "5") (Some "Wikipedia")
    (Some "Wikipedia") (Some "https://en.wikipedia.org/wiki/Quantum") None.

Definition arxiv : Adapter.Export :=
  Adapter.ClassExport (fun _ => Returned
    {| Adapter.fetchContent := Some (fun _ => Returned [paper "1"; paper "2"; paper "3"]);
       Adapter.collectData := None; Adapter.performSearch := None |}).

Definition wikipedia : Adapter.Export :=
  Adapter.ClassExport (fun _ => Returned
    {| Adapter.fetchContent := Some (fun _ => Returned [article]);
       Adapter.collectData := None; Adapter.performSearch := None |}).

(** An adapter that finds nothing, and one whose request fails. *)
Definition github : Adapter.Export :=
  Adapter.ClassExport (fun _ => Returned
    {| Adapter.fetchContent := Some (fun _ => Returned []);
       Adapter.collectData := None; Adapter.performSearch := None |}).

Definition newsapi : Adapter.Export :=
  Adapter.ClassExport (fun _ => Returned
    {| Adapter.fetchContent := Some (fun _ => Thrown "connect ETIMEDOUT");
       Adapter.collectData := None; Adapter.performSearch := None |}).

Definition link (n : string) : SearchResult.t :=
  SearchResult.mk ("Link " +++ n) ("https://example.org/" +++ n) ("about " +++ n).

(** A web-search adapter whose content collection finds nothing while the
    search alone finds [links]. *)
Definition searchOnlyDuck (links : list SearchResult.t) : Adapter.Export :=
  Adapter.ClassExport (fun _ => Returned
    {| Adapter.fetchContent := None;
       Adapter.collectData := Some (fun _ => Returned []);
       Adapter.performSearch := Some (fun _ => Returned links) |}).

Definition decimal (s : string) : option Z :=
  match NilZero.uint_of_string s with
  | Some u => Some (Z.of_nat (Nat.of_uint u))
  | None => None
  end.

(** The installation, given the module at duckDuckGoAdapter.js: values drawn
    from [uuidv4] are numbered, and instants are written in decimal. *)
Definition env (duck : Adapter.Export) : Env := {|
  rootDir := "/app";
  dataDir := "/app/user/data";
  uuidv4 := fun n => "uuid-" +++ showNat n;
  toISOString := fun n => showNat n;
  formatLocal := fun n => "run-" +++ showNat n;
  Date_getTime := decimal;
  encodeURIComponent := fun s => s;
  existsSync := fun path =>
    has ["/app/src/core/sourceAdapters/arxivAdapter.js";
         "/app/src/core/sourceAdapters/WikipediaAdapter.js";
         "/app/src/core/sourceAdapters/githubAdapter.js";
         "/app/src/core/sourceAdapters/newsapiAdapter.js";
         "/app/src/core/sourceAdapters/duckDuckGoAdapter.js"] path;
  require := fun _ path =>
    if (path =? "/app/src/core/sourceAdapters/arxivAdapter.js")%string then Returned arxiv
    else if (path =? "/app/src/core/sourceAdapters/WikipediaAdapter.js")%string
    then Returned wikipedia
    else if (path =? "/app/src/core/sourceAdapters/githubAdapter.js")%string
    then Returned github
    else if (path =? "/app/src/core/sourceAdapters/newsapiAdapter.js")%string
    then Returned newsapi
    else if (path =? "/app/src/core/sourceAdapters/duckDuckGoAdapter.js")%string
    then Returned duck
    else Thrown ("Cannot find module '" +++ path +++ "'");
  loadApiKeys := Some (Returned {| newsApiKey := Some "key"; githubApiKey := None |})
|}.

Definition emptyDisk : Disk := {|
  mkdirError := None; readdirError := None; entries := [];
  writeError := fun _ => None
|}.

(** A disk that is full: every write fails. *)
Definition fullDisk : Disk := {|
  mkdirError := None; readdirError := None; entries := [];
  writeError := fun _ => Some "ENOSPC: no space left on device"
|}.

Definition config (srcs kws : list string) (save : bool) : Config := {|
  cfg_sources := srcs; cfg_keywords := kws; cfg_maxResults := 10;
  cfg_processingLevel := "basic"; saveToKnowledgeBooks := save
|}.

Definition fiveLinks : list SearchResult.t :=
  [link "1"; link "2"; link "3"; link "4"; link "5"].

End Installation.

(* ================================================================== *)
(** * Facts about the orchestrator *)
(* ================================================================== *)

Module CollectionFacts.

Import CollectionService.


Lemma results_pushResults (more : list Item.t) (self : t) :
  results (state (pushResults more self)) = results (state self) ++ more.
Proof. reflexivity. Qed.

Lemma itemsCollected_pushResults (more : list Item.t) (self : t) :
  itemsCollected (state (pushResults more self))
  = List.length (results (state (pushResults more self))).
Proof. reflexivity. Qed.

Lemma running_pushResults (more : list Item.t) (self : t) :
  running (state (pushResults more self)) = running (state self).
Proof. reflexivity. Qed.


Lemma results_createErrorItem (env : Env) (source : string) (kws : list string)
    (message collectionId : string) (self : t) :
  results (state (snd (createErrorItem env source kws message collectionId self)))
  = results (state self).
Proof. reflexivity. Qed.

(** What [pushError] appends. *)
Lemma results_pushError (env : Env) (source : string) (kws : list string)
    (message collectionId : string) (self : t) :
  results (state (pushError env source kws message collectionId self))
  = results (state self)
    ++ [fst (createErrorItem env source kws message collectionId self)].
Proof. reflexivity. Qed.

Lemma itemsCollected_pushError (env : Env) (source : string) (kws : list string)
    (message collectionId : string) (self : t) :
  itemsCollected (state (pushError env source kws message collectionId self))
  = S (List.length (results (state self))).
Proof.
  unfold pushError, createErrorItem, pushResults. cbn [state withState itemsCollected tick results].
  rewrite length_app. simpl. lia.
Qed.




(** A search alone that throws is recorded as one error item of its own. *)
Lemma searchOnly_thrown (env : Env) (duckAdapter : Adapter.t) (source : string)
    (kws : list string) (collectionId : string) (self : t) (message : string) :
  Adapter.call "duckAdapter.performSearch" (Adapter.performSearch duckAdapter)
    (join " " kws) = Thrown message ->
  searchOnly env duckAdapter source kws collectionId self
  = pushError env source kws ("Error during DuckDuckGo search: " +++ message)
      collectionId self.
Proof.
  intros H. unfold searchOnly. now rewrite H.
Qed.

(** So is a retry whose adapter cannot be loaded. *)
Lemma fallback_require_thrown (env : Env) (i : nat) (source : string)
    (kws : list string) (maxR : Z) (collectionId : string) (self : t) (message : string) :
  require env i (adaptersDir env +++ "duckDuckGoAdapter.js") = Thrown message ->
  handleDuckDuckGoFallback env i source kws maxR collectionId self
  = pushError env source kws ("Error connecting to DuckDuckGo: " +++ message)
      collectionId self.
Proof.
  intros H. unfold handleDuckDuckGoFallback. now rewrite H.
Qed.

End CollectionFacts.



(** C3, amended: in the fallback of the web search, when the retry (a fresh
    adapter, its content collection called once more) returns no item, the
    search alone is called.  If it returns at least one entry, exactly one
    record is appended: its body is the formatted list of the first five
    links and its [sourceUrl] is the URL of the first link (the generic query
    URL stands in the code for a list of top links that is empty).  If it
    returns an empty list, exactly one error record is appended instead,
    whose body says that DuckDuckGo may be restricting automated queries.  If
    it throws (the request fails, times out, or is answered with a status
    other than 200), exactly one error record is appended whose body starts
    with "Error during DuckDuckGo search: " and the message thrown. *)
Theorem search_only_tier (env : CollectionService.Env) (i : nat) (source : string)
    (kws : list string) (maxR : Z) (collectionId : string) (self : CollectionService.t)
    (duckClass : Adapter.Export) (duckAdapter : Adapter.t) :
  let kwsToUse := CollectionService.keywordsToUse kws "artificial intelligence" in
  let query := join " " kwsToUse in
  let after :=
    CollectionService.handleDuckDuckGoFallback env i source kws maxR collectionId self in
  CollectionService.require env i (CollectionService.adaptersDir env +++ "duckDuckGoAdapter.js")
    = Returned duckClass ->
  Adapter.new "DuckDuckGoAdapter" duckClass
    {| Adapter.maxResults := maxR; Adapter.language := None; Adapter.sortBy := None;
       Adapter.userAgent := Some CollectionService.chrome96;
       Adapter.timeout := Some 30000; Adapter.apiKey := None |} = Returned duckAdapter ->
  Adapter.call "duckAdapter.collectData" (Adapter.collectData duckAdapter) kwsToUse
    = Returned [] ->
  (forall (first : SearchResult.t) (more : list SearchResult.t),
      Adapter.call "duckAdapter.performSearch" (Adapter.performSearch duckAdapter) query
        = Returned (first :: more) ->
      exists item,
        CollectionService.results (CollectionService.state after)
        = CollectionService.results (CollectionService.state self) ++ [item]
        /\ Item.isError item = false
        /\ Item.content item
           = "# Search results for " +++ dquote +++ query +++ dquote +++ nl +++ nl +++
             join (nl +++ nl)
               (mapi (fun index result =>
                        showNat (index + 1) +++ ". [" +++ SearchResult.title result +++
                        "](" +++ SearchResult.url result +++ ")" +++ nl +++ "   " +++
                        SearchResult.snippet result)
                     (firstn 5 (first :: more))) +++ nl +++ nl +++
             "These links were found using DuckDuckGo search. Click on any link to view the actual page."
        /\ Item.sourceUrl item
           = match firstn 5 (first :: more) with
             | top :: _ => SearchResult.url top
             | [] => "https://duckduckgo.com/?q=" +++ CollectionService.encodeURIComponent env query
             end
        /\ Item.sourceUrl item = SearchResult.url first
        /\ Item.searchResults item = firstn 5 (first :: more))
  /\ (Adapter.call "duckAdapter.performSearch" (Adapter.performSearch duckAdapter) query
        = Returned [] ->
      exists item rest,
        CollectionService.results (CollectionService.state after)
        = CollectionService.results (CollectionService.state self) ++ [item]
        /\ Item.isError item = true
        /\ Item.content item
           = "DuckDuckGo search API returned no results. DuckDuckGo may be restricting automated queries."
             +++ rest)
  /\ (forall message,
      Adapter.call "duckAdapter.performSearch" (Adapter.performSearch duckAdapter) query
        = Thrown message ->
      exists item rest,
        CollectionService.results (CollectionService.state after)
        = CollectionService.results (CollectionService.state self) ++ [item]
        /\ Item.isError item = true
        /\ Item.content item = "Error during DuckDuckGo search: " +++ message +++ rest).
Proof.
  intros kwsToUse query after Hrequire Hnew Hretry.
  assert (Hafter : after = CollectionService.searchOnly env duckAdapter source kwsToUse
                             collectionId self).
  { subst after. unfold CollectionService.handleDuckDuckGoFallback.
    fold kwsToUse. rewrite Hrequire. cbn [JS.bind]. rewrite Hnew. cbn [JS.bind].
    rewrite Hretry. reflexivity. }
  split.
  - intros first more Hsearch. rewrite Hafter.
    unfold CollectionService.searchOnly. fold query. rewrite Hsearch.
    eexists. split; [reflexivity |]. repeat split.
  - split.
    + intros Hsearch. rewrite Hafter.
      unfold CollectionService.searchOnly. fold query. rewrite Hsearch.
      do 2 eexists. split; [rewrite CollectionFacts.results_pushError; reflexivity |].
      split; reflexivity.
    + intros message Hsearch. rewrite Hafter.
      rewrite (CollectionFacts.searchOnly_thrown env duckAdapter source kwsToUse collectionId
                 self message Hsearch).
      do 2 eexists. split; [rewrite CollectionFacts.results_pushError; reflexivity |].
      split; reflexivity.
Qed.

(** C3, as stated, fails when the search alone throws.  The web answers 403
    to every search: the content collection of the retry returns nothing,
    the search alone throws, and the one record appended reports the error
    of the search; it does not say that the source may be restricting
    automated queries. *)
Lemma search_only_thrown_is_another_record :
  let env := Installation.env (Adapter.duckDuckGo Sample.blockedWeb) in
  let self := CollectionService.constructor Installation.emptyDisk in
  let after :=
    CollectionService.handleDuckDuckGoFallback env 0 "duckduckgo" ["quantum"] 10 "uuid-1"
      self in
  map Item.isError (CollectionService.results (CollectionService.state after)) = [true]
  /\ map (fun item =>
            startsWith
              "Error during DuckDuckGo search: DuckDuckGo search failed with status: 403"
              (Item.content item))
         (CollectionService.results (CollectionService.state after)) = [true]
  /\ map (fun item => includes "may be restricting" (Item.content item))
         (CollectionService.results (CollectionService.state after)) = [false].
Proof.
  vm_compute. repeat split.
Qed.

(** C3 at the sample installation, where the search alone finds five links. *)
Lemma search_only_tier_witness :
  let env := Installation.env (Installation.searchOnlyDuck Installation.fiveLinks) in
  let self := CollectionService.constructor Installation.emptyDisk in
  exists item,
    CollectionService.results (CollectionService.state
      (CollectionService.handleDuckDuckGoFallback env 0 "duckduckgo" ["quantum"] 10
         "uuid-1" self)) = [item]
    /\ Item.sourceUrl item = "https://example.org/1"
    /\ List.length (Item.searchResults item) = 5%nat.
Proof.
  intros env self.
  destruct (search_only_tier env 0 "duckduckgo" ["quantum"] 10 "uuid-1" self
              (Installation.searchOnlyDuck Installation.fiveLinks)
              {| Adapter.fetchContent := None;
                 Adapter.collectData := Some (fun _ => Returned []);
                 Adapter.performSearch := Some (fun _ => Returned Installation.fiveLinks) |}
              eq_refl eq_refl eq_refl) as [Hlinks _].
  destruct (Hlinks (Installation.link "1")
              [Installation.link "2"; Installation.link "3"; Installation.link "4";
               Installation.link "5"] eq_refl)
    as (item & Hresults & _ & _ & _ & Hurl & Htop).
  exists item. split; [exact Hresults |]. split; [exact Hurl |].
  rewrite Htop. reflexivity.
Defined.

(** The web-search adapter as the main loop builds it for a run. *)
Definition firstTierAdapter (config : CollectionService.Config) : DuckDuckGoAdapter.t :=
  DuckDuckGoAdapter.constructor
    {| DuckDuckGoAdapter.opt_maxResults := Some (CollectionService.cfg_maxResults config);
       DuckDuckGoAdapter.opt_timeout := Some 15000;
       DuckDuckGoAdapter.opt_userAgent := Some CollectionService.chrome91;
       DuckDuckGoAdapter.opt_allowedSources := None |}.

(** When the content collection of the web-search adapter comes back empty,
    the turn of the source is the fallback cascade. *)
Lemma empty_web_search_enters_fallback (web : DuckDuckGoAdapter.Web)
    (env : CollectionService.Env) (config : CollectionService.Config)
    (collectionId : string) (apiKeys : CollectionService.ApiKeys) (i : nat)
    (source : string) (self : CollectionService.t) :
  CollectionService.isSource "duckduckgo" source = true ->
  CollectionService.require env i (CollectionService.adapterPath env source)
    = Returned (Adapter.duckDuckGo web) ->
  DuckDuckGoAdapter.collectData web (firstTierAdapter config)
    (Some (CollectionService.keywordsToUse (CollectionService.cfg_keywords config) "general"))
    = Returned [] ->
  CollectionService.processSource env config collectionId apiKeys i source self
  = CollectionService.handleDuckDuckGoFallback env i source
      (CollectionService.cfg_keywords config) (CollectionService.cfg_maxResults config)
      collectionId (CollectionService.enterSource config i source self).
Proof.
  intros Hduck Hrequire Hempty.
  assert (Hlower : toLowerCase source = "duckduckgo")
    by (apply String.eqb_eq; exact Hduck).
  unfold CollectionService.processSource, CollectionService.invokeAdapter.
  rewrite Hrequire. unfold Adapter.duckDuckGo. cbn [JS.bind].
  unfold CollectionService.adapterOptions, CollectionService.isSource.
  rewrite Hlower. cbn [String.eqb Ascii.eqb Bool.eqb andb negb].
  cbn [Adapter.fetchContent Adapter.collectData Adapter.maxResults Adapter.timeout
       Adapter.userAgent].
  unfold firstTierAdapter in Hempty. rewrite Hempty. cbn [JS.bind].
  reflexivity.
Qed.

(** C10: the content collection of the web-search adapter never throws: on
    every input it returns a list, and the list is empty when no terms are
    given, when the search request fails and when the results page cannot be
    parsed.  Hence in the main loop a web search that failed is an empty
    result: the turn of the source is the fallback cascade, not the branch of
    thrown errors. *)
Theorem web_search_never_throws (web : DuckDuckGoAdapter.Web)
    (adapter : DuckDuckGoAdapter.t) :
  (forall searchTerms : option (list string),
      exists items, DuckDuckGoAdapter.collectData web adapter searchTerms = Returned items)
  /\ DuckDuckGoAdapter.collectData web adapter None = Returned []
  /\ DuckDuckGoAdapter.collectData web adapter (Some []) = Returned []
  /\ (forall (terms : list string) (message : string),
        DuckDuckGoAdapter.performSearch web adapter (join " " terms) = Thrown message ->
        DuckDuckGoAdapter.collectData web adapter (Some terms) = Returned [])
  /\ (forall (terms : list string) (body message : string),
        DuckDuckGoAdapter.https_get web
          ("https://html.duckduckgo.com/html/?q=" +++
           DuckDuckGoAdapter.encodeURIComponent web (join " " terms))
          (DuckDuckGoAdapter.userAgent adapter) (DuckDuckGoAdapter.timeout adapter)
          = DuckDuckGoAdapter.Response 200 body ->
        DuckDuckGoAdapter.JSDOM web body = Thrown message ->
        DuckDuckGoAdapter.collectData web adapter (Some terms) = Returned [])
  /\ (forall (env : CollectionService.Env) (config : CollectionService.Config)
             (collectionId : string) (apiKeys : CollectionService.ApiKeys) (i : nat)
             (source message : string) (self : CollectionService.t),
        CollectionService.isSource "duckduckgo" source = true ->
        CollectionService.require env i (CollectionService.adapterPath env source)
          = Returned (Adapter.duckDuckGo web) ->
        DuckDuckGoAdapter.performSearch web (firstTierAdapter config)
          (join " " (CollectionService.keywordsToUse
                       (CollectionService.cfg_keywords config) "general"))
          = Thrown message ->
        CollectionService.processSource env config collectionId apiKeys i source self
        = CollectionService.handleDuckDuckGoFallback env i source
            (CollectionService.cfg_keywords config) (CollectionService.cfg_maxResults config)
            collectionId (CollectionService.enterSource config i source self)).
Proof.
  split; [intros terms; apply DuckDuckGoFacts.collectData_returns |].
  split; [reflexivity |]. split; [reflexivity |].
  split; [intros terms message H;
          apply (DuckDuckGoFacts.collectData_search_failure web adapter terms message H) |].
  split.
  - intros terms body message Hget Hdom.
    apply DuckDuckGoFacts.collectData_no_results.
    unfold DuckDuckGoAdapter.performSearch. rewrite Hget. cbn [Z.eqb Pos.eqb negb].
    now rewrite (DuckDuckGoFacts.parse_failure_no_results web body message Hdom).
  - intros env config collectionId apiKeys i source message self Hduck Hrequire Hsearch.
    apply (empty_web_search_enters_fallback web env config collectionId apiKeys i source
             self Hduck Hrequire).
    apply (DuckDuckGoFacts.collectData_search_failure web (firstTierAdapter config) _
             message Hsearch).
Qed.

(** C10 at the sample installation, when the search engine answers 403. *)
Lemma web_search_never_throws_witness :
  let env := Installation.env (Adapter.duckDuckGo Sample.blockedWeb) in
  let config := Installation.config ["duckduckgo"] ["quantum"] false in
  let self := CollectionService.constructor Installation.emptyDisk in
  CollectionService.processSource env config "uuid-1" (CollectionService.apiKeysOf env)
    0 "duckduckgo" self
  = CollectionService.handleDuckDuckGoFallback env 0 "duckduckgo" ["quantum"] 10 "uuid-1"
      (CollectionService.enterSource config 0 "duckduckgo" self).
Proof.
  intros env config self.
  apply (proj2 (proj2 (proj2 (proj2 (proj2
           (web_search_never_throws Sample.blockedWeb Sample.adapter)))))
           env config "uuid-1" (CollectionService.apiKeysOf env) 0%nat "duckduckgo"
           "DuckDuckGo search failed with status: 403" self);
    reflexivity.
Defined.

(** ** The end of a run and the store *)

Module StoreFacts.

Import CollectionService.

(** The books of a merged or dated file, when it holds an array. *)
Definition stored (name : string) (d : Disk) : list Book.t :=
  match Obj.get name (entries d) with
  | Some (Parsed (JArray books)) => books
  | _ => []
  end.

(** The array a dated file contributes, if it can be read and holds one. *)
Definition booksOf (f : File) : list Book.t :=
  match readJSON f with
  | Returned (JArray booksData) => booksData
  | _ => []
  end.

Lemma state_or_draw (a : option string) (draw : nat -> string) (self : t) :
  state (snd (or_draw a draw self)) = state self.
Proof. unfold or_draw. destruct (truthy a); reflexivity. Qed.

(** The three draws of an item (its id and its two dates) only move the
    clock. *)
Ltac three_draws env item self :=
  let x1 := fresh "x" in let s1 := fresh "s" in let E1 := fresh "E" in
  let x2 := fresh "x" in let s2 := fresh "s" in let E2 := fresh "E" in
  let x3 := fresh "x" in let s3 := fresh "s" in let E3 := fresh "E" in
  destruct (or_draw (RawItem.id item) (uuidv4 env) self) as [x1 s1] eqn:E1;
  destruct (or_draw (or_opt (RawItem.createdAt item) (RawItem.date item))
                    (toISOString env) s1) as [x2 s2] eqn:E2;
  destruct (or_draw (or_opt (RawItem.date item) (RawItem.createdAt item))
                    (toISOString env) s2) as [x3 s3] eqn:E3;
  cbn [snd];
  apply (f_equal snd) in E1, E2, E3; cbn [snd] in E1, E2, E3;
  rewrite <- E3, state_or_draw, <- E2, state_or_draw, <- E1, state_or_draw;
  reflexivity.

Lemma state_processedItem (env : Env) (source : string) (kws : list string)
    (collectionId : string) (item : RawItem.t) (self : t) :
  state (snd (processedItem env source kws collectionId item self)) = state self.
Proof. unfold processedItem. three_draws env item self. Qed.

Lemma state_retriedItem (env : Env) (kws : list string)
    (collectionId : string) (item : RawItem.t) (self : t) :
  state (snd (retriedItem env kws collectionId item self)) = state self.
Proof. unfold retriedItem. three_draws env item self. Qed.

Lemma mapItems_spec (build : RawItem.t -> t -> Item.t * t) (items : list RawItem.t) :
  (forall item s, state (snd (build item s)) = state s) ->
  forall self,
    state (snd (mapItems build items self)) = state self
    /\ List.length (fst (mapItems build items self)) = List.length items.
Proof.
  intros Hbuild. induction items as [| item rest IH]; intros self; simpl.
  - split; reflexivity.
  - destruct (build item self) as [x s1] eqn:E1.
    destruct (mapItems build rest s1) as [xs s2] eqn:E2.
    cbn [fst snd]. destruct (IH s1) as [Hs Hl]. rewrite E2 in Hs, Hl. cbn [fst snd] in Hs, Hl.
    split.
    + rewrite Hs. rewrite <- (Hbuild item self), E1. reflexivity.
    + simpl. now rewrite Hl.
Qed.

Lemma running_pushError (env : Env) (source : string) (kws : list string)
    (message collectionId : string) (self : t) :
  running (state (pushError env source kws message collectionId self)) = running (state self).
Proof. reflexivity. Qed.

Lemma running_fallback (env : Env) (i : nat) (source : string) (kws : list string)
    (maxR : Z) (collectionId : string) (self : t) :
  running (state (handleDuckDuckGoFallback env i source kws maxR collectionId self))
  = running (state self).
Proof.
  unfold handleDuckDuckGoFallback.
  destruct (_ <- require env i _ ;; _) as [[duckAdapter [| item rest]] | message].
  - unfold searchOnly.
    destruct (Adapter.call _ _ _) as [[| r rs] | message]; reflexivity.
  - destruct (mapItems _ (item :: rest) self) as [xs s1] eqn:E.
    rewrite CollectionFacts.running_pushResults.
    apply (f_equal snd) in E. cbn [snd] in E. rewrite <- E.
    now rewrite (proj1 (mapItems_spec _ (item :: rest)
                          (state_retriedItem env _ collectionId) self)).
  - reflexivity.
Qed.

Lemma running_processSource (env : Env) (config : Config) (collectionId : string)
    (apiKeys : ApiKeys) (i : nat) (source : string) (self : t) :
  running (state (processSource env config collectionId apiKeys i source self))
  = running (state self).
Proof.
  unfold processSource.
  destruct (invokeAdapter env config apiKeys i source) as [[| [| item rest]] | message].
  - reflexivity.
  - destruct (isSource "duckduckgo" source); [now rewrite running_fallback | reflexivity].
  - destruct (mapItems _ (item :: rest) _) as [xs s1] eqn:E.
    rewrite CollectionFacts.running_pushResults.
    apply (f_equal snd) in E. cbn [snd] in E. rewrite <- E.
    now rewrite (proj1 (mapItems_spec _ (item :: rest)
                          (state_processedItem env source _ collectionId) _)).
  - reflexivity.
Qed.

Lemma running_processSources (env : Env) (config : Config) (collectionId : string)
    (apiKeys : ApiKeys) (rest : list string) :
  forall (i : nat) (self : t),
  running (state (processSources env config collectionId apiKeys i rest self))
  = running (state self).
Proof.
  induction rest as [| source rest IH]; intros i self; simpl; [reflexivity |].
  now rewrite IH, running_processSource.
Qed.

(** A failing save leaves the state of the run as the loop left it. *)
Lemma state_saveCollectionResults (env : Env) (collectionId : string) (self : t) :
  state (snd (saveCollectionResults env collectionId self)) = state self.
Proof.
  unfold saveCollectionResults.
  destruct (mkdirError (disk self)); [reflexivity |].
  destruct (writeFile _ _ _) as [d1 | m]; [| reflexivity].
  destruct (writeFile _ _ d1) as [d2 | m]; reflexivity.
Qed.

(** When the save fails, [collectData] rejects with the error of the save and
    the run is left running, with the results collected so far. *)
Lemma collectData_save_failure (env : Env) (config : Config) (self : t) (message : string) :
  saveToKnowledgeBooks config = true ->
  fst (saveCollectionResults env (fst (collectSources env config self))
         (snd (collectSources env config self))) = Thrown message ->
  fst (collectData env config self) = Thrown message
  /\ running (state (snd (collectData env config self))) = true
  /\ results (state (snd (collectData env config self)))
     = results (state (snd (collectSources env config self))).
Proof.
  intros Hsave Hfail. unfold collectData.
  destruct (collectSources env config self) as [collectionId s1] eqn:E.
  cbn [fst snd] in Hfail. rewrite Hsave.
  pose proof (state_saveCollectionResults env collectionId s1) as Hstate.
  destruct (saveCollectionResults env collectionId s1) as [[file | m] s2].
  - discriminate.
  - cbn [fst snd] in *. injection Hfail as ->. split; [reflexivity |].
    rewrite Hstate. split; [| reflexivity].
    unfold collectSources in E. injection E as _ <-.
    now rewrite running_processSources.
Qed.

(** When nothing is to be saved, or the save succeeds, the run completes. *)
Lemma collectData_completes (env : Env) (config : Config) (self : t) :
  (saveToKnowledgeBooks config = false \/
   exists file, fst (saveCollectionResults env (fst (collectSources env config self))
                       (snd (collectSources env config self))) = Returned file) ->
  exists items,
    fst (collectData env config self) = Returned items
    /\ running (state (snd (collectData env config self))) = false
    /\ progress (state (snd (collectData env config self))) = 100
    /\ currentSource (state (snd (collectData env config self))) = "Completed".
Proof.
  intros H. unfold collectData.
  destruct (collectSources env config self) as [collectionId s1]. cbn [fst snd] in H.
  destruct (saveToKnowledgeBooks config).
  - destruct H as [H | [file H]]; [discriminate |].
    destruct (saveCollectionResults env collectionId s1) as [[f | m] s2];
      [| discriminate].
    eexists. repeat split.
  - eexists. repeat split.
Qed.

(** In [saveCollectionResults] the dated files are concatenated as they are. *)
Lemma fold_pushPartition (files : list File) :
  forall acc, fold_left pushPartition files acc = acc ++ List.concat (map booksOf files).
Proof.
  induction files as [| f rest IH]; intros acc; simpl.
  - now rewrite app_nil_r.
  - rewrite IH. unfold pushPartition, booksOf.
    destruct (readJSON f) as [[books |] | m]; simpl;
      rewrite <- ?app_assoc; reflexivity.
Qed.

Lemma existingBooks_partitions (d : Disk) :
  readdirError d = None ->
  Obj.get mainName (entries d) = None ->
  existingBooks d = List.concat (map booksOf (map snd (partitions d))).
Proof.
  intros Hdir Hmain. unfold existingBooks. rewrite Hdir, Hmain.
  now rewrite fold_pushPartition.
Qed.

End StoreFacts.

(** C1, where the code departs from it: a run over arxiv that is to be saved,
    on a disk where every write fails.  The three items are collected and
    stay in the state, but [collectData] rejects with the error of the write
    and the run is left as the loop left it: still running, progress 0,
    current source arxiv. *)
Lemma write_failure_leaves_run_running :
  let env := Installation.env (Installation.searchOnlyDuck Installation.fiveLinks) in
  let out :=
    CollectionService.collectData env (Installation.config ["arxiv"] ["quantum"] true)
      (CollectionService.constructor Installation.fullDisk) in
  fst out = Thrown "ENOSPC: no space left on device"
  /\ CollectionService.running (CollectionService.state (snd out)) = true
  /\ CollectionService.progress (CollectionService.state (snd out)) = 0
  /\ CollectionService.currentSource (CollectionService.state (snd out)) = "arxiv"
  /\ CollectionService.itemsCollected (CollectionService.state (snd out)) = 3%nat
  /\ List.length (CollectionService.results (CollectionService.state (snd out))) = 3%nat.
Proof.
  vm_compute. repeat split.
Qed.

(** C4, where the code departs from it: two runs over wikipedia, both saved.
    Each collects the article whose id is derived from its title.  The merged
    index written by the second save holds that id twice, once per run, while
    [loadKnowledgeBooks] on the same disk returns it once. *)
Lemma merged_index_keeps_duplicate_ids :
  let env := Installation.env (Installation.searchOnlyDuck Installation.fiveLinks) in
  let config := Installation.config ["wikipedia"] ["quantum"] true in
  let first :=
    snd (CollectionService.collectData env config
           (CollectionService.constructor Installation.emptyDisk)) in
  let second := snd (CollectionService.collectData env config first) in
  map fst (CollectionService.entries (CollectionService.disk second))
    = ["knowledge-books-run-3.json"; "knowledge-books.json"; "knowledge-books-run-7.json"]
  /\ map (fun book => (Book.id book, Book.collectionId book))
         (StoreFacts.stored "knowledge-books.json" (CollectionService.disk second))
     = [("md5-quantum", "uuid-1"); ("md5-quantum", "uuid-5")]
  /\ exists loaded,
       CollectionService.loadKnowledgeBooks env (CollectionService.disk second)
         = CollectionService.JArray loaded
       /\ map (fun book => (Book.id book, Book.collectionId book)) loaded
          = [("md5-quantum", "uuid-1")].
Proof.
  vm_compute. split; [reflexivity |]. split; [reflexivity |].
  eexists. split; reflexivity.
Qed.

(** ** Sorting and merging *)

Module MergeFacts.

Import CollectionService.

Section Sorting.

Variable A : Type.

Lemma sort_perm (cmp : A -> A -> Z) (l : list A) : Permutation l (sort cmp l).
Proof. apply ArraySortFacts.timSort_perm. Qed.

End Sorting.

(** Of each file in turn, the records whose id occurs in no earlier file:
    the first occurrence of an id across files wins. *)
Fixpoint firstWins (seen : list string) (files : list (list Book.t)) : list Book.t :=
  match files with
  | [] => []
  | booksData :: rest =>
      filter (fun book => negb (has seen (Book.id book))) booksData
      ++ firstWins (seen ++ ids booksData) rest
  end.

(** The arrays of the files that can be accessed, read and parsed and that
    hold an array, in the order of the files. *)
Fixpoint arrays (files : list File) : list (list Book.t) :=
  match files with
  | [] => []
  | Parsed (JArray booksData) :: rest => booksData :: arrays rest
  | _ :: rest => arrays rest
  end.

Lemma firstWins_ext (files : list (list Book.t)) :
  forall seen1 seen2,
    (forall x, has seen1 x = has seen2 x) ->
    firstWins seen1 files = firstWins seen2 files.
Proof.
  induction files as [| booksData rest IH]; intros seen1 seen2 Hsame; simpl;
    [reflexivity |].
  f_equal.
  - apply filter_ext. intros book. now rewrite Hsame.
  - apply IH. intros x. unfold has in *. rewrite !existsb_app. now rewrite Hsame.
Qed.

Lemma has_ids_notIn (acc booksData : list Book.t) (x : string) :
  has (ids (acc ++ notIn acc booksData)) x = has (ids acc ++ ids booksData) x.
Proof.
  unfold ids. rewrite map_app. unfold has. rewrite !existsb_app.
  destruct (existsb (String.eqb x) (map Book.id acc)) eqn:Hacc; [reflexivity |].
  simpl. apply eq_true_iff_eq. rewrite !existsb_exists. split.
  - intros [y [Hy Heq]]. exists y. split; [| assumption].
    apply in_map_iff in Hy as [book [<- Hbook]]. apply in_map.
    unfold notIn in Hbook. now apply filter_In in Hbook.
  - intros [y [Hy Heq]]. exists y. split; [| assumption].
    apply in_map_iff in Hy as [book [<- Hbook]]. apply in_map.
    unfold notIn. apply filter_In. split; [assumption |].
    apply String.eqb_eq in Heq. subst x. unfold has, ids. now rewrite Hacc.
Qed.

(** The loop of [loadKnowledgeBooks] over the dated files computes
    [firstWins] over their arrays. *)
Lemma fold_addPartition (files : list File) :
  forall acc,
    fold_left addPartition files acc = acc ++ firstWins (ids acc) (arrays files).
Proof.
  induction files as [| f rest IH]; intros acc; cbn [fold_left arrays].
  - simpl. now rewrite app_nil_r.
  - destruct f as [| m | m | [booksData |]]; cbn [addPartition]; try apply IH.
    rewrite IH. cbn [firstWins]. rewrite <- app_assoc. f_equal. f_equal.
    apply firstWins_ext. apply has_ids_notIn.
Qed.

Definition timeOr0 (env : Env) (a : Book.t) : Z :=
  match loadedTime env a with
  | Some t => t
  | None => 0
  end.

(** With valid dates, the sort of [loadKnowledgeBooks] leaves no book before
    a newer one. *)
Lemma loaded_sorted (env : Env) (books : list Book.t) :
  (forall book, In book books -> loadedTime env book <> None) ->
  StronglySorted
    (fun a b => forall ta tb,
         loadedTime env a = Some ta -> loadedTime env b = Some tb -> tb <= ta)
    (sort (newestFirst (loadedTime env)) books).
Proof.
  intros Hvalid.
  destruct (ArraySortFacts.timSort_ordered (newestFirst (loadedTime env))
              (fun a => - timeOr0 env a) (fun a => loadedTime env a <> None)) with (l := books)
    as [Hsorted _].
  - intros a b Ha Hb. unfold ArraySort.before, newestFirst, timeOr0.
    destruct (loadedTime env a) as [ta |]; [| congruence].
    destruct (loadedTime env b) as [tb |]; [| congruence].
    destruct (Z.ltb_spec (tb - ta) 0); destruct (Z.ltb_spec (- ta) (- tb)); lia || reflexivity.
  - now apply Forall_forall.
  - unfold sort. induction Hsorted as [| a rest Hrest IH Hall]; constructor; [assumption |].
    eapply Forall_impl; [| exact Hall].
    intros b Hab ta tb Ha Hb. unfold timeOr0 in Hab. rewrite Ha, Hb in Hab. lia.
Qed.

End MergeFacts.

(** C6, amended: [loadKnowledgeBooks] visits the dated files in the order of
    the directory listing; a file that cannot be read or parsed, or that
    holds no array, is skipped and the load goes on; of the others, each
    contributes the records whose id occurs in no earlier file (the first
    occurrence across files wins); the result is a rearrangement of that
    merge, and when the date of every merged record parses no book comes
    before a newer one.  The single merged file is read only when the
    directory lists no dated file. *)
Theorem loadKnowledgeBooks_merges (env : CollectionService.Env)
    (d : CollectionService.Disk) :
  CollectionService.readdirError d = None ->
  let files := map snd (CollectionService.partitions d) in
  let merged := MergeFacts.firstWins [] (MergeFacts.arrays files) in
  (CollectionService.partitions d <> [] ->
     exists loaded,
       CollectionService.loadKnowledgeBooks env d = CollectionService.JArray loaded
       /\ Permutation merged loaded
       /\ ((forall book, In book merged -> CollectionService.loadedTime env book <> None) ->
           StronglySorted
             (fun a b => forall ta tb,
                  CollectionService.loadedTime env a = Some ta ->
                  CollectionService.loadedTime env b = Some tb -> tb <= ta)
             loaded))
  /\ (CollectionService.partitions d = [] ->
      CollectionService.loadKnowledgeBooks env d
      = match Obj.get CollectionService.mainName (CollectionService.entries d) with
        | Some (CollectionService.Parsed value) => value
        | _ => CollectionService.JArray []
        end).
Proof.
  intros Hdir files merged. unfold CollectionService.loadKnowledgeBooks. rewrite Hdir.
  split.
  - intros Hsome.
    destruct (CollectionService.partitions d) as [| p ps] eqn:Hp; [contradiction |].
    eexists. split; [reflexivity |].
    rewrite MergeFacts.fold_addPartition. cbn [app CollectionService.ids map].
    subst merged files. split.
    + apply MergeFacts.sort_perm.
    + apply MergeFacts.loaded_sorted.
  - intros Hnone. rewrite Hnone. reflexivity.
Qed.

Module StoreSample.

Import CollectionService.

Definition book (id date : string) : Book.t :=
  Book.mk id ("Title " +++ id) EmptyString EmptyString [] (Some date) None
    "arXiv" EmptyString EmptyString false "run" "run".

(** Two dated files that share the id [x], a dated file that is no JSON, one
    that holds an object, and the merged file of an older version. *)
Definition disk : Disk := {|
  mkdirError := None; readdirError := None;
  entries :=
    [("knowledge-books-1.json", Parsed (JArray [book "x" "1"; book "y" "3"]));
     ("knowledge-books-2.json", Malformed "Unexpected end of JSON input");
     ("knowledge-books.json", Parsed (JArray [book "old" "9"]));
     ("knowledge-books-3.json", Parsed (JArray [book "x" "5"; book "z" "2"]));
     ("knowledge-books-4.json", Parsed JOther);
     ("user-interests.json", Parsed JOther)];
  writeError := fun _ => None
|}.

End StoreSample.

(** C6 on the sample disk: the second [x] is dropped, the corrupt file and
    the object are skipped, the merged file is not read, and the books come
    out newest first. *)
Lemma loadKnowledgeBooks_merges_witness :
  exists loaded,
    CollectionService.loadKnowledgeBooks
      (Installation.env (Installation.searchOnlyDuck [])) StoreSample.disk
      = CollectionService.JArray loaded
    /\ Permutation
         [StoreSample.book "x" "1"; StoreSample.book "y" "3"; StoreSample.book "z" "2"]
         loaded
    /\ map Book.id loaded = ["y"; "z"; "x"].
Proof.
  destruct (loadKnowledgeBooks_merges (Installation.env (Installation.searchOnlyDuck []))
              StoreSample.disk eq_refl) as [Hmerge _].
  destruct Hmerge as (loaded & Hloaded & Hperm & _); [discriminate |].
  exists loaded. split; [exact Hloaded |]. split; [exact Hperm |].
  vm_compute in Hloaded. injection Hloaded as <-. reflexivity.
Defined.

(** C6, as stated, fails when a date does not parse.  A dated file holds
    three books dated 1, "no date" and 2, in that order.  The comparator
    answers NaN for the middle book against either neighbour, the sort takes
    the array for one ascending run and leaves it as it is: the book dated 2
    stays behind the older book dated 1, so the result is not sorted by date
    descending. *)
Lemma loadKnowledgeBooks_unsorted_when_a_date_is_invalid :
  let env := Installation.env (Installation.searchOnlyDuck []) in
  let d :=
    {| CollectionService.mkdirError := None; CollectionService.readdirError := None;
       CollectionService.entries :=
         [("knowledge-books-1.json",
           CollectionService.Parsed
             (CollectionService.JArray
                [StoreSample.book "a" "1"; StoreSample.book "b" "no date";
                 StoreSample.book "c" "2"]))];
       CollectionService.writeError := fun _ => None |} in
  CollectionService.loadKnowledgeBooks env d
  = CollectionService.JArray
      [StoreSample.book "a" "1"; StoreSample.book "b" "no date"; StoreSample.book "c" "2"]
  /\ CollectionService.loadedTime env (StoreSample.book "a" "1") = Some 1
  /\ CollectionService.loadedTime env (StoreSample.book "b" "no date") = None
  /\ CollectionService.loadedTime env (StoreSample.book "c" "2") = Some 2.
Proof.
  vm_compute. repeat split.
Qed.

(** Books dated 1, 2, "no date" and 3, in that order, are sorted by
    [loadKnowledgeBooks]'s comparator into 3, 2, 1, "no date": the first two
    make a descending run that is reversed, the undated book ends that run
    and is inserted where the binary search, comparing it equal to the book
    dated 2, puts it, and the book dated 3 is then inserted at the front. *)
Lemma sort_places_an_undated_book :
  let env := Installation.env (Installation.searchOnlyDuck []) in
  map Book.id
    (CollectionService.sort (CollectionService.newestFirst (CollectionService.loadedTime env))
       [StoreSample.book "a" "1"; StoreSample.book "b" "2";
        StoreSample.book "c" "no date"; StoreSample.book "d" "3"])
  = ["d"; "b"; "a"; "c"].
Proof.
  vm_compute. reflexivity.
Qed.

(* ================================================================== *)
(** * Further properties of the web-search adapter *)
(* ================================================================== *)

Module WebSearchProperties.

Import DuckDuckGoAdapter.

(** What the loop over the limited results maintains: the items have
    pairwise distinct source URLs, each of them a processed URL that starts
    with [http], and each item carries the tag [duckduckgo]. *)
Definition wellFormed (acc : list RawItem.t * list string) : Prop :=
  NoDup (map RawItem.sourceUrl (fst acc))
  /\ Forall (fun item =>
               exists u, RawItem.sourceUrl item = Some u
                         /\ In u (snd acc)
                         /\ startsWith "http" u = true
                         /\ exists tags, RawItem.tags item = Some tags /\ In "duckduckgo" tags)
            (fst acc).

Lemma processResult_length (web : Web) (self : t) (terms : list string)
    (acc : list RawItem.t * list string) (r : SearchResult.t) :
  (List.length (fst (processResult web self terms acc r)) <= S (List.length (fst acc)))%nat.
Proof.
  destruct acc as [items urls]. unfold processResult.
  destruct (has urls (SearchResult.url r)); [simpl; lia |].
  destruct (isAllowedDomain self _) as [[|] | m]; try (simpl; lia).
  destruct (_ || _); [simpl; lia |].
  destruct (fetchPage web _); simpl; rewrite length_app; simpl; lia.
Qed.

Lemma fold_processResult_length (web : Web) (self : t) (terms : list string)
    (results : list SearchResult.t) :
  forall acc,
    (List.length (fst (fold_left (processResult web self terms) results acc))
     <= List.length (fst acc) + List.length results)%nat.
Proof.
  induction results as [| r rest IH]; intros acc; cbn [fold_left]; [simpl; lia |].
  specialize (IH (processResult web self terms acc r)).
  pose proof (processResult_length web self terms acc r). simpl. lia.
Qed.

Lemma sliceTo_length {A : Type} (e : Z) (l : list A) :
  (List.length (sliceTo e l) <= List.length l)%nat
  /\ (0 <= e -> Z.of_nat (List.length (sliceTo e l)) <= e).
Proof.
  unfold sliceTo. destruct (e <? 0) eqn:E.
  - apply Z.ltb_lt in E. split; [rewrite length_firstn; lia | lia].
  - apply Z.ltb_ge in E. split; rewrite length_firstn; lia.
Qed.

Lemma NoDup_snoc {A : Type} (l : list A) (x : A) :
  NoDup l -> ~ In x l -> NoDup (l ++ [x]).
Proof.
  induction l as [| y rest IH]; intros Hnodup Hfresh; simpl.
  - constructor; [intros [] | constructor].
  - inversion Hnodup as [| y' rest' Hy Hrest]; subst. constructor.
    + intros Hin. apply in_app_or in Hin as [Hin | [-> | []]]; [now apply Hy |].
      apply Hfresh. now left.
    + apply IH; [assumption |]. intros Hin. apply Hfresh. now right.
Qed.

Lemma In_app_tag (terms : list string) (more : list string) :
  In "duckduckgo" (terms ++ "duckduckgo" :: more).
Proof. apply in_or_app. right. now left. Qed.

Lemma processResult_wellFormed (web : Web) (self : t) (terms : list string)
    (acc : list RawItem.t * list string) (r : SearchResult.t) :
  wellFormed acc -> wellFormed (processResult web self terms acc r).
Proof.
  destruct acc as [items urls]. intros [Hnodup Hall]. unfold processResult.
  assert (Hgrow : wellFormed (items, urls ++ [SearchResult.url r])).
  { split; [exact Hnodup |]. cbn [fst snd] in *.
    eapply Forall_impl; [| exact Hall].
    intros item (u & Hu & Hin & Hhttp & Htags). exists u.
    repeat split; try assumption. apply in_or_app. now left. }
  destruct (has urls (SearchResult.url r)) eqn:Hseen; [now split |].
  destruct (isAllowedDomain self _) as [[|] | m]; try exact Hgrow.
  destruct (match SearchResult.url r with EmptyString => true | _ => false end
            || negb (startsWith "http" (SearchResult.url r))) eqn:Hvalid;
    [exact Hgrow |].
  apply orb_false_iff in Hvalid as [_ Hhttp]. apply negb_false_iff in Hhttp.
  assert (Hfresh : ~ In (Some (SearchResult.url r)) (map RawItem.sourceUrl items)).
  { intros Hin. apply in_map_iff in Hin as [item [Hsrc Hitem]].
    cbn [fst snd] in Hall. rewrite Forall_forall in Hall.
    destruct (Hall item Hitem) as (u & Hu & Hin & _).
    rewrite Hu in Hsrc. injection Hsrc as ->.
    apply has_In in Hin. rewrite Hin in Hseen. discriminate. }
  destruct Hgrow as [_ Hall'].
  destruct (fetchPage web (SearchResult.url r)) as [page | message];
    (split; cbn [fst snd];
     [ rewrite map_app; cbn [map RawItem.sourceUrl fetchedItem unfetchedItem];
       apply NoDup_snoc; assumption
     | apply Forall_app; split; [exact Hall' |];
       constructor; [| constructor];
       exists (SearchResult.url r);
       split; [reflexivity |];
       split; [apply in_or_app; right; now left |];
       split; [exact Hhttp |];
       eexists; split; [reflexivity | apply In_app_tag] ]).
Qed.

Lemma fold_processResult_wellFormed (web : Web) (self : t) (terms : list string)
    (results : list SearchResult.t) :
  forall acc, wellFormed acc ->
    wellFormed (fold_left (processResult web self terms) results acc).
Proof.
  induction results as [| r rest IH]; intros acc Hacc; cbn [fold_left]; [assumption |].
  apply IH. now apply processResult_wellFormed.
Qed.

Lemma wellFormed_nil : wellFormed ([], []).
Proof. split; constructor. Qed.

(** The shape of what [collectData] returns. *)
Lemma collectData_cases (web : Web) (self : t) (searchTerms : option (list string)) :
  collectData web self searchTerms = Returned []
  \/ exists terms first more,
       searchTerms = Some terms
       /\ performSearch web self (join " " terms) = Returned (first :: more)
       /\ collectData web self searchTerms
          = Returned (fst (fold_left (processResult web self terms)
                                     (sliceTo (maxResults self) (first :: more)) ([], []))).
Proof.
  unfold collectData. destruct searchTerms as [[| k ks] |]; try (now left).
  destruct (performSearch web self (join " " (k :: ks))) as [[| first more] | m] eqn:E;
    try (now left).
  right. exists (k :: ks), first, more. now repeat split.
Qed.

End WebSearchProperties.

(** X1: Whatever the terms, [collectData] of the web-search adapter returns at
    most [maxResults] items (when that limit is not negative) and never more
    items than the search found. *)
Theorem collectData_at_most_maxResults (web : DuckDuckGoAdapter.Web)
    (self : DuckDuckGoAdapter.t) (terms : list string) :
  exists items,
    DuckDuckGoAdapter.collectData web self (Some terms) = Returned items
    /\ (0 <= DuckDuckGoAdapter.maxResults self ->
        Z.of_nat (List.length items) <= DuckDuckGoAdapter.maxResults self)
    /\ (forall results,
          DuckDuckGoAdapter.performSearch web self (join " " terms) = Returned results ->
          (List.length items <= List.length results)%nat).
Proof.
  destruct (WebSearchProperties.collectData_cases web self (Some terms))
    as [Hempty | (terms' & first & more & Hterms & Hsearch & Hitems)].
  - exists []. split; [exact Hempty |]. split; [intros; simpl; lia | intros; simpl; lia].
  - injection Hterms as <-. eexists. split; [exact Hitems |].
    pose proof (WebSearchProperties.fold_processResult_length web self terms
                  (DuckDuckGoAdapter.sliceTo (DuckDuckGoAdapter.maxResults self)
                     (first :: more)) ([], [])) as Hfold.
    destruct (WebSearchProperties.sliceTo_length (DuckDuckGoAdapter.maxResults self)
                (first :: more)) as [Hle Hmax].
    cbn [fst List.length Nat.add] in Hfold. split.
    + intros Hpos. specialize (Hmax Hpos). lia.
    + intros results Hresults. rewrite Hsearch in Hresults. injection Hresults as <-. lia.
Qed.

(** X2: The items [collectData] of the web-search adapter returns have pairwise
    distinct source URLs; each source URL starts with [http] and each item
    carries the tag [duckduckgo]. *)
Theorem collectData_distinct_urls (web : DuckDuckGoAdapter.Web)
    (self : DuckDuckGoAdapter.t) (searchTerms : option (list string)) :
  exists items,
    DuckDuckGoAdapter.collectData web self searchTerms = Returned items
    /\ NoDup (map RawItem.sourceUrl items)
    /\ Forall (fun item =>
                 exists u tags,
                   RawItem.sourceUrl item = Some u
                   /\ startsWith "http" u = true
                   /\ RawItem.tags item = Some tags
                   /\ In "duckduckgo" tags) items.
Proof.
  destruct (WebSearchProperties.collectData_cases web self searchTerms)
    as [Hempty | (terms & first & more & Hterms & Hsearch & Hitems)].
  - exists []. split; [exact Hempty |]. split; constructor.
  - eexists. split; [exact Hitems |].
    destruct (WebSearchProperties.fold_processResult_wellFormed web self terms
                (DuckDuckGoAdapter.sliceTo (DuckDuckGoAdapter.maxResults self)
                   (first :: more)) ([], []) WebSearchProperties.wellFormed_nil)
      as [Hnodup Hall].
    split; [exact Hnodup |].
    eapply Forall_impl; [| exact Hall].
    intros item (u & Hu & _ & Hhttp & tags & Htags & Hin). exists u, tags. now repeat split.
Qed.

Module ParserProperties.

Import DuckDuckGoAdapter.

Lemma isValidUrl_parsed (web : Web) (resultUrl : string) :
  isValidUrl web resultUrl = true ->
  exists parsed,
    newURL web resultUrl = Returned parsed
    /\ (protocol parsed = "http:" \/ protocol parsed = "https:").
Proof.
  unfold isValidUrl. destruct (newURL web resultUrl) as [parsed | m];
    cbn [JS.bind try_catch]; [| discriminate].
  intros H. exists parsed. split; [reflexivity |].
  apply has_In in H. destruct H as [H | [H | []]]; [now left | now right].
Qed.

Lemma parseElement_valid (web : Web) (element : ResultElement) (r : SearchResult.t) :
  parseElement web element = Some r -> isValidUrl web (SearchResult.url r) = true.
Proof.
  unfold parseElement. destruct (titleElem element) as [t |]; [| discriminate].
  destruct (isValidUrl web _) eqn:E; [| discriminate].
  intros H. injection H as <-. exact E.
Qed.

Lemma parseElements_valid (web : Web) (elements : list ResultElement) :
  Forall (fun r => isValidUrl web (SearchResult.url r) = true) (parseElements web elements)
  /\ (List.length (parseElements web elements) <= List.length elements)%nat.
Proof.
  induction elements as [| e rest [IH1 IH2]]; simpl; [split; [constructor | lia] |].
  destruct (parseElement web e) as [r |] eqn:E.
  - split; [constructor; [now apply (parseElement_valid web e) | assumption] | simpl; lia].
  - split; [assumption | lia].
Qed.

(** A string that holds no [&]. *)
Fixpoint noAmp (s : string) : bool :=
  match s with
  | EmptyString => true
  | String c t => negb (Ascii.eqb c "&"%char) && noAmp t
  end.

Lemma takeUntilAmp_target (target suffix : string) :
  noAmp target = true ->
  (suffix = EmptyString \/ exists rest, suffix = "&" +++ rest) ->
  takeUntilAmp (target +++ suffix) = target.
Proof.
  intros Hno Hsuffix. induction target as [| c t IH]; simpl.
  - destruct Hsuffix as [-> | [rest ->]]; reflexivity.
  - simpl in Hno. apply andb_prop in Hno as [Hc Ht].
    apply negb_true_iff in Hc. rewrite Hc. f_equal. now apply IH.
Qed.

End ParserProperties.

(** X3: [parseSearchResults] keeps only entries whose URL [new URL] accepts with
    the protocol [http:] or [https:], and at most one entry per result
    element of the page. *)
Theorem parseSearchResults_valid_urls (web : DuckDuckGoAdapter.Web) (html : string) :
  Forall (fun r =>
            exists parsed,
              DuckDuckGoAdapter.newURL web (SearchResult.url r) = Returned parsed
              /\ (DuckDuckGoAdapter.protocol parsed = "http:"
                  \/ DuckDuckGoAdapter.protocol parsed = "https:"))
         (DuckDuckGoAdapter.parseSearchResults web html)
  /\ (forall elements,
        DuckDuckGoAdapter.JSDOM web html = Returned elements ->
        (List.length (DuckDuckGoAdapter.parseSearchResults web html)
         <= List.length elements)%nat).
Proof.
  unfold DuckDuckGoAdapter.parseSearchResults.
  destruct (DuckDuckGoAdapter.JSDOM web html) as [elements | m]; simpl.
  - destruct (ParserProperties.parseElements_valid web elements) as [Hvalid Hlen]. split.
    + eapply Forall_impl; [| exact Hvalid].
      intros r. apply ParserProperties.isValidUrl_parsed.
    + intros elements' H. injection H as <-. exact Hlen.
  - split; [constructor | intros elements H; discriminate].
Qed.

(** X4: A link wrapped by the search engine, [//duckduckgo.com/l/?uddg=TARGET]
    alone or followed by [&...], is replaced by the decoded TARGET. *)
Theorem unwrapRedirect_uddg (web : DuckDuckGoAdapter.Web)
    (c : ascii) (target suffix decoded : string) :
  ParserProperties.noAmp (String c target) = true ->
  (suffix = EmptyString \/ exists rest, suffix = "&" +++ rest) ->
  DuckDuckGoAdapter.decodeURIComponent web (String c target) = Returned decoded ->
  DuckDuckGoAdapter.unwrapRedirect web
    ("//duckduckgo.com/l/?uddg=" +++ String c target +++ suffix) = decoded.
Proof.
  intros Hno Hsuffix Hdecode. unfold DuckDuckGoAdapter.unwrapRedirect.
  assert (Hmatch : DuckDuckGoAdapter.match_uddg
                     ("//duckduckgo.com/l/?uddg=" +++ String c target +++ suffix)
                   = Some (String c target)).
  { pose proof (ParserProperties.takeUntilAmp_target (String c target) suffix Hno Hsuffix)
      as Htake.
    cbn -[DuckDuckGoAdapter.takeUntilAmp].
    change (String c (target +++ suffix)) with (String c target +++ suffix).
    rewrite Htake. reflexivity. }
  rewrite Hmatch.
  replace (includes "/l/?uddg=" ("//duckduckgo.com/l/?uddg=" +++ String c target +++ suffix))
    with true by reflexivity.
  cbn [orb]. rewrite Hdecode. reflexivity.
Qed.

(** The redirect property at a link of the sample world (whose decoding is
    the identity). *)
Lemma unwrapRedirect_uddg_witness :
  DuckDuckGoAdapter.unwrapRedirect Sample.web
    "//duckduckgo.com/l/?uddg=https://example.org/page&rut=abc"
  = "https://example.org/page".
Proof.
  apply (unwrapRedirect_uddg Sample.web "h"%char "ttps://example.org/page" "&rut=abc"
           "https://example.org/page").
  - reflexivity.
  - right. exists "rut=abc". reflexivity.
  - reflexivity.
Defined.

(* ================================================================== *)
(** * Scraping: [scrapeTopResults] of the adapter and of the search service *)
(* ================================================================== *)

Module Scraping.

Import DuckDuckGoAdapter.

(** A search result with what scraping adds to it; [content] and [summary]
    are [null] (here [None]) when the page could not be fetched. *)
Record Scraped : Type := {
  result : SearchResult.t;
  domain : option string;
  content : option string;
  summary : option string;
  error : option string;
  scrapedAt : option string
}.

(** The callback mapped over the limited results; [finished] is the instant
    at which it finishes. *)
Definition scrapeOne (web : Web) (finished : string) (r : SearchResult.t) : Scraped :=
  match SearchResult.url r with
  | EmptyString =>
      {| result := r; domain := None; content := None; summary := None;
         error := Some "No URL provided"; scrapedAt := None |}
  | u =>
      let dom := extractDomain web u in
      match fetchPage web u with
      | Returned page =>
          {| result := r; domain := dom;
             content := Some (DuckDuckGoAdapter.content page);
             summary := Some (DuckDuckGoAdapter.summary page);
             error := None; scrapedAt := Some finished |}
      | Thrown message =>
          {| result := r; domain := dom; content := None; summary := None;
             error := Some message; scrapedAt := Some finished |}
      end
  end.

Definition hasContent (s : Scraped) : bool :=
  match content s with
  | Some _ => true
  | None => false
  end.

(** [scrapeTopResults(query, numResults)] of the adapter; [clock] gives the
    instant at which the i-th result is finished. *)
Definition scrapeTopResults (web : Web) (clock : nat -> string) (self : t)
    (query : string) (numResults : Z) : Outcome (list Scraped) :=
  match query with
  | EmptyString => Thrown "Query is required"
  | _ =>
      searchResults <- performSearch web self query ;;
      let limitedResults := sliceTo numResults searchResults in
      match limitedResults with
      | [] => Returned []
      | _ =>
          let detailedResults := mapi (fun i => scrapeOne web (clock i)) limitedResults in
          let validResults := filter hasContent detailedResults in
          match validResults with
          | [] => Returned detailedResults
          | _ => Returned validResults
          end
      end
  end.

(** The slot [cache.scraped] of the search service. *)
Record ScrapedSlot : Type := {
  slot_results : list Scraped;
  slot_query : string;
  slot_timestamp : option Z;
  slot_total : option Z
}.

(** The slot as the constructor of the service leaves it. *)
Definition initialSlot : ScrapedSlot :=
  {| slot_results := []; slot_query := EmptyString; slot_timestamp := None;
     slot_total := Some 0 |}.

(** The slot as [clearCache] leaves it. *)
Definition clearedSlot : ScrapedSlot :=
  {| slot_results := []; slot_query := EmptyString; slot_timestamp := None;
     slot_total := None |}.

Record ScrapeOptions : Type := {
  opt_useCache : option bool;
  opt_maxResults : option Z
}.

Record ScrapeResponse : Type := {
  res_results : list Scraped;
  res_query : string;
  res_timestamp : option Z;
  res_fromCache : bool;
  res_totalScraped : option Z
}.

Definition slotFresh (now : Z) (self : SearchService.t) (slot : ScrapedSlot) (q : string)
  : bool :=
  (slot_query slot =? q)%string &&
  match slot_timestamp slot with
  | Some ts => now - ts <? SearchService.cacheTtl self * 1000
  | None => false
  end.

(** [scrapeTopResults(query, options)] of the search service, on the slot
    [cache.scraped].  What the adapter resolves to is an array, which has no
    property [results]: building the new slot reads [scrapingResult.results.length]
    and throws before anything is assigned. *)
Definition serviceScrape (web : Web) (clock : nat -> string) (now : Z)
    (self : SearchService.t) (slot : ScrapedSlot) (q : string) (options : ScrapeOptions)
  : Outcome ScrapeResponse * ScrapedSlot :=
  let useCache := match opt_useCache options with Some false => false | _ => true end in
  let maxR := num_or (opt_maxResults options) 10 in
  if useCache && slotFresh now self slot q
  then (Returned {| res_results := slot_results slot; res_query := q;
                    res_timestamp := slot_timestamp slot; res_fromCache := true;
                    res_totalScraped := slot_total slot |}, slot)
  else
    match Obj.get "duckduckgo" (SearchService.adapters self) with
    | None => (Thrown "Cannot read properties of undefined (reading 'scrapeTopResults')", slot)
    | Some adapter =>
        match scrapeTopResults web clock adapter q maxR with
        | Thrown message => (Thrown message, slot)
        | Returned scrapingResult =>
            (Thrown "Cannot read properties of undefined (reading 'length')", slot)
        end
    end.

Lemma result_mapi_scrapeOne (web : Web) (clock : nat -> string) (l : list SearchResult.t) :
  forall i, map result (mapi_from i (fun k => scrapeOne web (clock k)) l) = l.
Proof.
  induction l as [| r rest IH]; intros i; simpl; [reflexivity |].
  rewrite IH. f_equal. unfold scrapeOne.
  destruct (SearchResult.url r); [reflexivity |].
  destruct (fetchPage web _); reflexivity.
Qed.

Lemma filter_none_all_false {A : Type} (p : A -> bool) (l : list A) :
  filter p l = [] -> Forall (fun x => p x = false) l.
Proof.
  induction l as [| x rest IH]; simpl; [constructor |].
  destruct (p x) eqn:E; [discriminate |]. intros H. constructor; auto.
Qed.

End Scraping.

(** X5: [scrapeTopResults] of the adapter refuses an empty query; what it returns
    holds at most [numResults] entries (when that number is not negative),
    and either every entry has a content, or no page could be fetched and the
    limited results are all returned, in order, without content. *)
Theorem scrapeTopResults_content_or_all (web : DuckDuckGoAdapter.Web)
    (clock : nat -> string) (self : DuckDuckGoAdapter.t) (query : string)
    (numResults : Z) :
  (query = EmptyString ->
   Scraping.scrapeTopResults web clock self query numResults = Thrown "Query is required")
  /\ (forall scraped,
        Scraping.scrapeTopResults web clock self query numResults = Returned scraped ->
        (0 <= numResults -> Z.of_nat (List.length scraped) <= numResults)
        /\ (Forall (fun s => Scraping.content s <> None) scraped
            \/ (Forall (fun s => Scraping.content s = None) scraped
                /\ forall results,
                     DuckDuckGoAdapter.performSearch web self query = Returned results ->
                     map Scraping.result scraped
                     = DuckDuckGoAdapter.sliceTo numResults results))).
Proof.
  split; [intros ->; reflexivity |].
  intros scraped. unfold Scraping.scrapeTopResults.
  destruct query as [| c q]; [discriminate |].
  destruct (DuckDuckGoAdapter.performSearch web self (String c q)) as [results | m];
    cbn [JS.bind]; [| discriminate].
  destruct (WebSearchProperties.sliceTo_length numResults results) as [_ Hmax].
  destruct (DuckDuckGoAdapter.sliceTo numResults results) as [| r rest] eqn:Hslice.
  - intros H. injection H as <-. split; [intros; simpl; lia |].
    right. split; [constructor |]. intros results' H. injection H as <-.
    now rewrite Hslice.
  - set (detailed := mapi (fun i => Scraping.scrapeOne web (clock i)) (r :: rest)).
    assert (Hlen : List.length detailed = List.length (r :: rest))
      by apply mapi_from_length.
    destruct (filter Scraping.hasContent detailed) as [| v vs] eqn:Hvalid.
    + intros H. injection H as <-. split; [intros Hpos; specialize (Hmax Hpos); lia |].
      right. split.
      * apply Scraping.filter_none_all_false in Hvalid.
        eapply Forall_impl; [| exact Hvalid].
        intros s Hs. unfold Scraping.hasContent in Hs.
        destruct (Scraping.content s); [discriminate | reflexivity].
      * intros results' H. injection H as <-. rewrite Hslice.
        apply Scraping.result_mapi_scrapeOne.
    + intros H. injection H as <-. split.
      * intros Hpos. specialize (Hmax Hpos).
        pose proof (filter_length_le Scraping.hasContent detailed) as Hfilter.
        rewrite Hvalid in Hfilter. lia.
      * left. rewrite <- Hvalid. apply Forall_forall. intros s Hs.
        apply filter_In in Hs as [_ Hs]. unfold Scraping.hasContent in Hs.
        destruct (Scraping.content s); [discriminate | discriminate].
Qed.

(** X6: [scrapeTopResults] of the search service never writes the slot
    [cache.scraped] and resolves only from the cache: whenever it is not
    answered from the slot it rejects, even when the adapter has scraped the
    pages.  On the slot as the constructor or [clearCache] leave it, every
    call rejects. *)
Theorem serviceScrape_only_from_cache (web : DuckDuckGoAdapter.Web)
    (clock : nat -> string) (now : Z) (self : SearchService.t)
    (slot : Scraping.ScrapedSlot) (q : string) (options : Scraping.ScrapeOptions) :
  snd (Scraping.serviceScrape web clock now self slot q options) = slot
  /\ (forall response,
        fst (Scraping.serviceScrape web clock now self slot q options) = Returned response ->
        Scraping.res_fromCache response = true
        /\ Scraping.opt_useCache options <> Some false
        /\ Scraping.slot_query slot = q
        /\ exists ts, Scraping.slot_timestamp slot = Some ts
                      /\ now - ts < SearchService.cacheTtl self * 1000)
  /\ (exists message,
        fst (Scraping.serviceScrape web clock now self Scraping.initialSlot q options)
        = Thrown message)
  /\ (exists message,
        fst (Scraping.serviceScrape web clock now self Scraping.clearedSlot q options)
        = Thrown message).
Proof.
  assert (Hmiss : forall s,
    Scraping.slot_timestamp s = None ->
    exists message,
      fst (Scraping.serviceScrape web clock now self s q options) = Thrown message).
  { intros s Hs. unfold Scraping.serviceScrape, Scraping.slotFresh. rewrite Hs.
    rewrite !andb_false_r.
    destruct (Obj.get "duckduckgo" (SearchService.adapters self)) as [a |];
      [| eexists; reflexivity].
    destruct (Scraping.scrapeTopResults web clock a q _); eexists; reflexivity. }
  split; [| split; [| split; apply Hmiss; reflexivity]].
  - unfold Scraping.serviceScrape.
    destruct (_ && Scraping.slotFresh now self slot q); [reflexivity |].
    destruct (Obj.get "duckduckgo" (SearchService.adapters self)) as [a |]; [| reflexivity].
    destruct (Scraping.scrapeTopResults web clock a q _); reflexivity.
  - intros response. unfold Scraping.serviceScrape.
    destruct (match Scraping.opt_useCache options with Some false => false | _ => true end
              && Scraping.slotFresh now self slot q) eqn:Hhit.
    + cbn [fst]. intros H. injection H as <-. cbn [Scraping.res_fromCache].
      apply andb_prop in Hhit as [Huse Hfresh]. unfold Scraping.slotFresh in Hfresh.
      apply andb_prop in Hfresh as [Hq Hts]. apply String.eqb_eq in Hq.
      split; [reflexivity |]. split.
      { intros Hoff. rewrite Hoff in Huse. discriminate. }
      split; [exact Hq |].
      destruct (Scraping.slot_timestamp slot) as [ts |]; [| discriminate].
      exists ts. split; [reflexivity | now apply Z.ltb_lt].
    + destruct (Obj.get "duckduckgo" (SearchService.adapters self)) as [a |];
        [| discriminate].
      destruct (Scraping.scrapeTopResults web clock a q _); discriminate.
Qed.

(* ================================================================== *)
(** * The search service: the other methods and how they compose *)
(* ================================================================== *)

Module CacheProperties.

Import SearchService.

(** [setMaxResults(adapterName, maxResults)].  Under a name found only in
    [Object.prototype] the number is written on the inherited value, and the
    service is as before. *)
Definition setMaxResults (adapterName : string) (n : Z) (self : t) : t :=
  match Obj.get adapterName (adapters self) with
  | Some adapter => withAdapter self adapterName (DuckDuckGoAdapter.setMaxResults n adapter)
  | None => self
  end.

(** [setAllowedSources(adapterName, sources)] *)
Definition setAllowedSources (adapterName : string) (allowed : list string) (self : t) : t :=
  match Obj.get adapterName (adapters self) with
  | Some adapter =>
      withAdapter self adapterName (DuckDuckGoAdapter.setAllowedSources allowed adapter)
  | None => self
  end.

Record ResultDetail : Type := {
  detail_result : RawItem.t;
  detail_query : string;
  detail_index : Z
}.

(** [getResultDetail(adapterName, index)], for an integer index.  A value
    inherited from [Object.prototype] has no [results] and is refused as a
    missing slot is. *)
Definition getResultDetail (self : t) (adapterName : string) (index : Z)
  : Outcome ResultDetail :=
  let notFound := Thrown ("Result not found at index " +++ DuckDuckGoAdapter.showZ index) in
  match Obj.get adapterName (cache self) with
  | None => notFound
  | Some slot =>
      if index <? 0 then notFound
      else match nth_error (results slot) (Z.to_nat index) with
           | Some r => Returned {| detail_result := r; detail_query := query slot;
                                   detail_index := index |}
           | None => notFound
           end
  end.

(** The limit the adapter is given by a search that is not answered from the
    cache. *)
Definition limitOf (self : t) (options : SearchOptions) : Z :=
  let maxR := DuckDuckGoAdapter.num_or (maxResults options) (defaultMaxResults self) in
  if negb (maxR =? 0) && negb (maxR =? defaultMaxResults self)
  then maxR else defaultMaxResults self.

Lemma limitOf_num_or (self : t) (options : SearchOptions) :
  limitOf self options
  = DuckDuckGoAdapter.num_or (maxResults options) (defaultMaxResults self)
  \/ DuckDuckGoAdapter.num_or (maxResults options) (defaultMaxResults self) = 0.
Proof.
  unfold limitOf.
  destruct (DuckDuckGoAdapter.num_or (maxResults options) (defaultMaxResults self) =? 0)
    eqn:E0; [right; now apply Z.eqb_eq |].
  destruct (DuckDuckGoAdapter.num_or (maxResults options) (defaultMaxResults self)
            =? defaultMaxResults self) eqn:Ed; simpl; [| now left].
  apply Z.eqb_eq in Ed. left. now rewrite Ed.
Qed.

(** What a search that is not answered from the cache does, for an engine
    that has an adapter. *)
Lemma refetch_adapter (web : DuckDuckGoAdapter.Web) (stamp : Z) (self : t) (q : string)
    (options : SearchOptions) (adapter : DuckDuckGoAdapter.t) :
  Obj.get (engineOf options) (adapters self) = Some adapter ->
  let configured := DuckDuckGoAdapter.setMaxResults (limitOf self options) adapter in
  exists items,
    DuckDuckGoAdapter.collectData web configured (Some (splitTerms q)) = Returned items
    /\ refetch web stamp self q options
       = (Returned {| res_results := items; res_query := q;
                      res_engine := engineOf options;
                      res_timestamp := Some stamp; fromCache := false |},
          withSlot (withAdapter self (engineOf options) configured) (engineOf options)
            {| results := items; query := q; timestamp := Some stamp |}).
Proof.
  intros Hadapter configured.
  destruct (DuckDuckGoFacts.collectData_returns web configured (Some (splitTerms q)))
    as [items Hitems].
  exists items. split; [exact Hitems |].
  unfold refetch. rewrite Hadapter. fold (limitOf self options). fold configured.
  rewrite Hitems. reflexivity.
Qed.

Lemma get_cleared {V : Type} (v : V) (k : string) (o : Obj.t V) :
  Obj.get k (map (fun kv => (fst kv, v)) o) = None
  \/ Obj.get k (map (fun kv => (fst kv, v)) o) = Some v.
Proof.
  induction o as [| [k' v'] rest IH]; simpl; [now left |].
  destruct (k' =? k)%string; [now right | exact IH].
Qed.

Lemma miss_without_timestamp (web : DuckDuckGoAdapter.Web) (now stamp : Z) (self : t)
    (q : string) (options : SearchOptions) :
  (forall slot, Obj.get (engineOf options) (cache self) = Some slot ->
                timestamp slot = None) ->
  servedFromCache (search web now stamp self q options) = false.
Proof.
  intros Hnone. unfold search.
  destruct (Obj.get (engineOf options) (cache self)) as [slot |] eqn:Hslot;
    [| apply refetch_not_from_cache].
  unfold fresh. rewrite (Hnone slot eq_refl), !andb_false_r.
  apply refetch_not_from_cache.
Qed.

End CacheProperties.

(** X7: A search that had to ask the adapter is answered from the cache when it
    is repeated (same engine, same query, cache not disabled) less than
    [cacheTtl] seconds after the slot was stamped, with the same results and
    no change of the service; repeated later than that it is not answered
    from the cache. *)
Theorem search_again (web : DuckDuckGoAdapter.Web) (now stamp later stamp' : Z)
    (self : SearchService.t) (q : string) (options : SearchService.SearchOptions)
    (adapter : DuckDuckGoAdapter.t) :
  ~ SearchService.hit now self q options ->
  Obj.get (SearchService.engineOf options) (SearchService.adapters self) = Some adapter ->
  SearchService.useCache options <> Some false ->
  let first := SearchService.search web now stamp self q options in
  let second := SearchService.search web later stamp' (snd first) q options in
  (later - stamp < SearchService.cacheTtl self * 1000 ->
     exists response1 response2,
       fst first = Returned response1 /\ fst second = Returned response2
       /\ SearchService.fromCache response1 = false
       /\ SearchService.fromCache response2 = true
       /\ SearchService.res_results response2 = SearchService.res_results response1
       /\ snd second = snd first)
  /\ (SearchService.cacheTtl self * 1000 <= later - stamp ->
      SearchService.servedFromCache second = false).
Proof.
  intros Hmiss Hadapter Huse first second.
  destruct (CacheProperties.refetch_adapter web stamp self q options adapter Hadapter)
    as (items & _ & Hrefetch).
  assert (Hfirst : first = SearchService.refetch web stamp self q options)
    by (apply SearchService.search_miss; exact Hmiss).
  rewrite Hrefetch in Hfirst.
  assert (Hslot : Obj.get (SearchService.engineOf options)
                    (SearchService.cache (snd first))
                  = Some {| SearchService.results := items; SearchService.query := q;
                            SearchService.timestamp := Some stamp |}).
  { rewrite Hfirst. cbn [snd SearchService.withSlot SearchService.cache].
    apply Obj.get_set_same. }
  assert (Httl : SearchService.cacheTtl (snd first) = SearchService.cacheTtl self)
    by (rewrite Hfirst; reflexivity).
  split.
  - intros Hfresh.
    assert (Hhit : SearchService.hit later (snd first) q options).
    { split; [exact Huse |]. eexists. exists stamp. split; [exact Hslot |].
      rewrite Httl. now repeat split. }
    exists {| SearchService.res_results := items; SearchService.res_query := q;
              SearchService.res_engine := SearchService.engineOf options;
              SearchService.res_timestamp := Some stamp;
              SearchService.fromCache := false |}.
    eexists. split; [rewrite Hfirst; reflexivity |].
    subst second.
    rewrite (SearchService.search_hit web later stamp' (snd first) q options _ Hhit Hslot).
    cbn [fst snd]. repeat split.
  - intros Hstale. subst second.
    destruct (SearchService.servedFromCache
                (SearchService.search web later stamp' (snd first) q options)) eqn:E;
      [| reflexivity].
    apply SearchService.served_iff_hit in E.
    destruct E as [_ (slot & ts & Hslot' & _ & Hts & Hlt)].
    rewrite Hslot in Hslot'. injection Hslot' as <-. cbn in Hts. injection Hts as <-.
    rewrite Httl in Hlt. lia.
Qed.

(** On the sample world: a search at instant 0, repeated one second later. *)
Lemma search_again_witness :
  let fresh :=
    SearchService.constructor
      {| SearchService.opt_cacheTtl := None; SearchService.opt_defaultMaxResults := None |} in
  let first := SearchService.search Sample.web 0 0 fresh "x" SearchService.noOptions in
  SearchService.servedFromCache
    (SearchService.search Sample.web 1000 1000 (snd first) "x" SearchService.noOptions)
  = true.
Proof.
  intros fresh first.
  assert (Hmiss : ~ SearchService.hit 0 fresh "x" SearchService.noOptions).
  { intros [_ (slot & ts & Hslot & _ & Hts & _)]. vm_compute in Hslot.
    injection Hslot as <-. discriminate. }
  destruct (search_again Sample.web 0 0 1000 1000 fresh "x" SearchService.noOptions
              _ Hmiss eq_refl ltac:(discriminate)) as [Hwithin _].
  destruct Hwithin as (r1 & r2 & _ & H2 & _ & Hcache & _); [reflexivity |].
  unfold SearchService.servedFromCache. subst first. cbv zeta in H2. rewrite H2.
  exact Hcache.
Defined.

(** X8: After [clearCache()] no search is answered from the cache, whatever the
    engine, the query and the instant; after [clearCache(name)] none is for
    that engine, and the slots of the other engines are as before. *)
Theorem clearCache_forgets (web : DuckDuckGoAdapter.Web) (now stamp : Z)
    (self : SearchService.t) (q : string) (options : SearchService.SearchOptions) :
  SearchService.servedFromCache
    (SearchService.search web now stamp (SearchService.clearCache None self) q options)
  = false
  /\ SearchService.servedFromCache
       (SearchService.search web now stamp
          (SearchService.clearCache (Some (SearchService.engineOf options)) self) q options)
     = false
  /\ (forall other,
        other <> SearchService.engineOf options ->
        Obj.get other (SearchService.cache
          (SearchService.clearCache (Some (SearchService.engineOf options)) self))
        = Obj.get other (SearchService.cache self)).
Proof.
  assert (Hname : exists c s, SearchService.engineOf options = String c s).
  { unfold SearchService.engineOf.
    destruct (SearchService.engine options) as [[| c s] |]; cbn [or_else];
      do 2 eexists; reflexivity. }
  destruct Hname as (c & s & Hname).
  split; [| split].
  - apply CacheProperties.miss_without_timestamp. intros slot.
    unfold SearchService.clearCache. cbn [SearchService.cache].
    destruct (CacheProperties.get_cleared SearchService.emptySlot
                (SearchService.engineOf options) (SearchService.cache self)) as [H | H];
      rewrite H; [discriminate |].
    intros E. injection E as <-. reflexivity.
  - apply CacheProperties.miss_without_timestamp. intros slot.
    unfold SearchService.clearCache. rewrite Hname. cbv zeta. rewrite <- Hname.
    destruct (Obj.get (SearchService.engineOf options) (SearchService.cache self))
      as [old |] eqn:Hold.
    + cbn [SearchService.withSlot SearchService.cache]. rewrite Obj.get_set_same.
      intros E. injection E as <-. reflexivity.
    + destruct (Obj.inherited (SearchService.engineOf options)).
      * cbn [SearchService.withSlot SearchService.cache]. rewrite Obj.get_set_same.
        intros E. injection E as <-. reflexivity.
      * rewrite Hold. discriminate.
  - intros other Hother. unfold SearchService.clearCache.
    rewrite Hname. cbv zeta. rewrite <- Hname.
    assert (Hset : Obj.get other
                     (SearchService.cache
                        (SearchService.withSlot self (SearchService.engineOf options)
                           SearchService.emptySlot))
                   = Obj.get other (SearchService.cache self)).
    { cbn [SearchService.withSlot SearchService.cache].
      apply Obj.get_set_other. congruence. }
    destruct (Obj.get (SearchService.engineOf options) (SearchService.cache self));
      [exact Hset |].
    destruct (Obj.inherited (SearchService.engineOf options)); [exact Hset | reflexivity].
Qed.

(** On a new service, a search for the engine [constructor], a name the
    adapters object inherits, throws the TypeError of the call of
    [collectData]; a search for an engine that is nowhere, [bing], throws
    "not supported".  [clearCache("toString")] creates a slot of that name,
    [clearCache("bing")] creates none. *)
Lemma search_on_an_inherited_name :
  let fresh :=
    SearchService.constructor
      {| SearchService.opt_cacheTtl := None; SearchService.opt_defaultMaxResults := None |} in
  let on name :=
    {| SearchService.engine := Some name; SearchService.useCache := None;
       SearchService.maxResults := None |} in
  SearchService.search Sample.web 0 0 fresh "x" (on "constructor")
  = (Thrown "this.adapters[engine].collectData is not a function", fresh)
  /\ (exists message,
        SearchService.search Sample.web 0 0 fresh "x" (on "bing") = (Thrown message, fresh)
        /\ JS.includes "not supported" message = true)
  /\ map fst (SearchService.cache (SearchService.clearCache (Some "toString") fresh))
     = ["duckduckgo"; "scraped"; "toString"]
  /\ map fst (SearchService.cache (SearchService.clearCache (Some "bing") fresh))
     = ["duckduckgo"; "scraped"].
Proof.
  cbv zeta. split; [vm_compute; reflexivity |]. split; [| split; vm_compute; reflexivity].
  eexists. split; vm_compute; reflexivity.
Qed.

Module LimitProperties.

Import SearchService.

Lemma set_set {V : Type} (k : string) (v v' : V) (o : Obj.t V) :
  Obj.set k v (Obj.set k v' o) = Obj.set k v o.
Proof.
  induction o as [| [k' w] rest IH]; simpl.
  - now rewrite String.eqb_refl.
  - destruct (k' =? k)%string eqn:E; simpl.
    + now rewrite String.eqb_refl.
    + rewrite E. now rewrite IH.
Qed.

Lemma hit_setMaxResults (now : Z) (self : t) (q : string) (options : SearchOptions)
    (name : string) (n : Z) :
  hit now (CacheProperties.setMaxResults name n self) q options <-> hit now self q options.
Proof.
  unfold CacheProperties.setMaxResults.
  destruct (Obj.get name (adapters self)); reflexivity.
Qed.

(** A search not answered from the cache comes out the same, response and
    service, whether or not [setMaxResults] was called for its engine before. *)
Lemma refetch_setMaxResults (web : DuckDuckGoAdapter.Web) (stamp : Z) (self : t)
    (q : string) (options : SearchOptions) (n : Z) :
  refetch web stamp (CacheProperties.setMaxResults (engineOf options) n self) q options
  = refetch web stamp self q options.
Proof.
  unfold CacheProperties.setMaxResults.
  destruct (Obj.get (engineOf options) (adapters self)) as [adapter |] eqn:Hadapter;
    [| reflexivity].
  unfold refetch. cbn [adapters withAdapter defaultMaxResults].
  rewrite Obj.get_set_same, Hadapter.
  change (DuckDuckGoAdapter.setMaxResults ?m (DuckDuckGoAdapter.setMaxResults n adapter))
    with (DuckDuckGoAdapter.setMaxResults m adapter).
  destruct (DuckDuckGoAdapter.collectData web _ _) as [items | m];
    unfold withSlot, withAdapter; cbn [adapters cache cacheTtl defaultMaxResults];
    rewrite set_set; reflexivity.
Qed.

End LimitProperties.

(** X9: The limit given with [setMaxResults] does not reach the next search: the
    search answers the same with or without that call, and when it asks the
    adapter it sets the adapter's limit to the [maxResults] option of the
    call, or to the default of the service, leaving the same service behind. *)
Theorem setMaxResults_overridden_by_search (web : DuckDuckGoAdapter.Web)
    (now stamp : Z) (self : SearchService.t) (q : string)
    (options : SearchService.SearchOptions) (n : Z) :
  let e := SearchService.engineOf options in
  let limited := CacheProperties.setMaxResults e n self in
  fst (SearchService.search web now stamp limited q options)
  = fst (SearchService.search web now stamp self q options)
  /\ (~ SearchService.hit now self q options ->
      SearchService.search web now stamp limited q options
      = SearchService.search web now stamp self q options
      /\ forall adapter,
           Obj.get e (SearchService.adapters self) = Some adapter ->
           Obj.get e (SearchService.adapters
                        (snd (SearchService.search web now stamp limited q options)))
           = Some (DuckDuckGoAdapter.setMaxResults
                     (CacheProperties.limitOf self options) adapter)).
Proof.
  intros e limited.
  assert (Hmiss : ~ SearchService.hit now self q options ->
                  SearchService.search web now stamp limited q options
                  = SearchService.search web now stamp self q options).
  { intros Hmiss.
    rewrite (SearchService.search_miss web now stamp self q options Hmiss).
    rewrite (SearchService.search_miss web now stamp limited q options)
      by (intros H; apply Hmiss;
          exact (proj1 (LimitProperties.hit_setMaxResults now self q options e n) H)).
    apply LimitProperties.refetch_setMaxResults. }
  split.
  - destruct (SearchService.servedFromCache
                (SearchService.search web now stamp self q options)) eqn:E.
    + apply SearchService.served_iff_hit in E.
      assert (E' : SearchService.hit now limited q options)
        by exact (proj2 (LimitProperties.hit_setMaxResults now self q options e n) E).
      destruct E as [Hu (slot & ts & Hslot & Hrest)].
      assert (Hslot' : Obj.get e (SearchService.cache limited) = Some slot).
      { subst limited. unfold CacheProperties.setMaxResults.
        destruct (Obj.get e (SearchService.adapters self)); exact Hslot. }
      rewrite (SearchService.search_hit web now stamp limited q options slot E' Hslot').
      rewrite (SearchService.search_hit web now stamp self q options slot
                 (conj Hu (ex_intro _ slot (ex_intro _ ts (conj Hslot Hrest)))) Hslot).
      reflexivity.
    + rewrite Hmiss; [reflexivity |].
      intros H.
      apply (proj2 (SearchService.served_iff_hit web now stamp self q options)) in H.
      congruence.
  - intros Hno. split; [now apply Hmiss |].
    intros adapter Hadapter. rewrite (Hmiss Hno).
    rewrite (SearchService.search_miss web now stamp self q options Hno).
    destruct (CacheProperties.refetch_adapter web stamp self q options adapter Hadapter)
      as (items & _ & Hrefetch).
    rewrite Hrefetch. cbn [snd SearchService.withSlot SearchService.withAdapter
                           SearchService.adapters].
    apply Obj.get_set_same.
Qed.

(** X10: After a search that asked the adapter, [getResultDetail] for its engine
    returns the item at an index within the results, with the query, and
    throws for an index that is negative or not below their number. *)
Theorem getResultDetail_after_search (web : DuckDuckGoAdapter.Web) (now stamp : Z)
    (self : SearchService.t) (q : string) (options : SearchService.SearchOptions)
    (adapter : DuckDuckGoAdapter.t) (index : Z) :
  ~ SearchService.hit now self q options ->
  Obj.get (SearchService.engineOf options) (SearchService.adapters self) = Some adapter ->
  let out := SearchService.search web now stamp self q options in
  exists response,
    fst out = Returned response
    /\ (0 <= index < Z.of_nat (List.length (SearchService.res_results response)) ->
        exists item,
          nth_error (SearchService.res_results response) (Z.to_nat index) = Some item
          /\ CacheProperties.getResultDetail (snd out) (SearchService.engineOf options) index
             = Returned {| CacheProperties.detail_result := item;
                           CacheProperties.detail_query := q;
                           CacheProperties.detail_index := index |})
    /\ (index < 0 \/ Z.of_nat (List.length (SearchService.res_results response)) <= index ->
        exists message,
          CacheProperties.getResultDetail (snd out) (SearchService.engineOf options) index
          = Thrown message).
Proof.
  intros Hmiss Hadapter out. subst out.
  rewrite (SearchService.search_miss web now stamp self q options Hmiss).
  destruct (CacheProperties.refetch_adapter web stamp self q options adapter Hadapter)
    as (items & _ & Hrefetch).
  rewrite Hrefetch. eexists. split; [reflexivity |].
  cbn [fst snd SearchService.res_results].
  unfold CacheProperties.getResultDetail.
  cbn [SearchService.withSlot SearchService.cache]. rewrite Obj.get_set_same.
  cbn [SearchService.results SearchService.query]. split.
  - intros [Hlo Hhi]. destruct (index <? 0) eqn:E; [apply Z.ltb_lt in E; lia |].
    destruct (nth_error items (Z.to_nat index)) as [item |] eqn:Hnth.
    + exists item. split; reflexivity.
    + apply nth_error_None in Hnth. lia.
  - intros Hout. destruct (index <? 0) eqn:E; [eexists; reflexivity |].
    apply Z.ltb_ge in E. destruct Hout as [Hneg | Hbig]; [lia |].
    destruct (nth_error items (Z.to_nat index)) as [item |] eqn:Hnth;
      [| eexists; reflexivity].
    assert (Hlt : (Z.to_nat index < List.length items)%nat)
      by (apply nth_error_Some; congruence).
    lia.
Qed.

(** On the sample world, whose search for quantum finds two pages: the
    detail at index 1 is page B. *)
Lemma getResultDetail_after_search_witness :
  let fresh :=
    SearchService.constructor
      {| SearchService.opt_cacheTtl := None; SearchService.opt_defaultMaxResults := None |} in
  let out := SearchService.search Sample.web 0 0 fresh "quantum" SearchService.noOptions in
  exists detail,
    CacheProperties.getResultDetail (snd out) "duckduckgo" 1 = Returned detail
    /\ RawItem.title (CacheProperties.detail_result detail) = Some "Page B".
Proof.
  intros fresh out.
  assert (Hmiss : ~ SearchService.hit 0 fresh "quantum" SearchService.noOptions).
  { intros [_ (slot & ts & Hslot & _ & Hts & _)]. vm_compute in Hslot.
    injection Hslot as <-. discriminate. }
  destruct (getResultDetail_after_search Sample.web 0 0 fresh "quantum"
              SearchService.noOptions _ 1 Hmiss eq_refl) as (response & Hfirst & Hin & _).
  vm_compute in Hfirst. injection Hfirst as <-.
  destruct Hin as (item & Hnth & Hdetail); [cbn; lia |].
  vm_compute in Hnth. injection Hnth as <-.
  eexists. split; [exact Hdetail | reflexivity].
Defined.

(* ================================================================== *)
(** * What a run leaves in the results *)
(* ================================================================== *)

Module RunProperties.

Import CollectionService.

Definition tagged (collectionId : string) (items : list Item.t) : Prop :=
  Forall (fun item => Item.collectionId item = collectionId) items.

Definition noErrors (items : list Item.t) : Prop :=
  Forall (fun item => Item.isError item = false) items.

(** What a step of a run does to the results: it appends [added], every
    record of which carries the id of the run, and keeps the counter equal to
    the number of results. *)
Record Appends (collectionId : string) (before after : t) (added : list Item.t)
  : Prop := {
  ap_results : results (state after) = results (state before) ++ added;
  ap_tagged : tagged collectionId added;
  ap_count : itemsCollected (state before) = List.length (results (state before)) ->
             itemsCollected (state after) = List.length (results (state after))
}.

Lemma mapItems_Forall (P : Item.t -> Prop) (build : RawItem.t -> t -> Item.t * t)
    (items : list RawItem.t) :
  (forall item s, P (fst (build item s))) ->
  forall self, Forall P (fst (mapItems build items self)).
Proof.
  intros Hbuild. induction items as [| item rest IH]; intros self; simpl; [constructor |].
  pose proof (Hbuild item self) as Hx.
  destruct (build item self) as [x s1].
  pose proof (IH s1) as Hxs.
  destruct (mapItems build rest s1) as [xs s2].
  constructor; assumption.
Qed.

Lemma processedItem_shape (env : Env) (source : string) (kws : list string)
    (collectionId : string) (item : RawItem.t) (self : t) :
  Item.collectionId (fst (processedItem env source kws collectionId item self)) = collectionId
  /\ Item.isError (fst (processedItem env source kws collectionId item self)) = false.
Proof.
  unfold processedItem, or_draw. repeat destruct (truthy _); split; reflexivity.
Qed.

Lemma retriedItem_shape (env : Env) (kws : list string)
    (collectionId : string) (item : RawItem.t) (self : t) :
  Item.collectionId (fst (retriedItem env kws collectionId item self)) = collectionId
  /\ Item.isError (fst (retriedItem env kws collectionId item self)) = false.
Proof.
  unfold retriedItem, or_draw. repeat destruct (truthy _); split; reflexivity.
Qed.

Lemma pushResults_appends (collectionId : string) (before self : t) (more : list Item.t) :
  results (state self) = results (state before) ->
  tagged collectionId more ->
  Appends collectionId before (pushResults more self) more.
Proof.
  intros Hstate Htagged. split; [| assumption |].
  - rewrite CollectionFacts.results_pushResults. now rewrite Hstate.
  - intros _. apply CollectionFacts.itemsCollected_pushResults.
Qed.

Lemma pushError_appends (env : Env) (source : string) (kws : list string)
    (message collectionId : string) (before self : t) :
  results (state self) = results (state before) ->
  Appends collectionId before (pushError env source kws message collectionId self)
    [fst (createErrorItem env source kws message collectionId self)].
Proof.
  intros Hstate. split.
  - rewrite CollectionFacts.results_pushError. now rewrite Hstate.
  - constructor; [reflexivity | constructor].
  - intros _. rewrite CollectionFacts.itemsCollected_pushError.
    rewrite CollectionFacts.results_pushError, length_app. simpl. lia.
Qed.

(** The fallback always appends at least one record. *)
Lemma fallback_appends (env : Env) (i : nat) (source : string) (kws : list string)
    (maxR : Z) (collectionId : string) (before self : t) :
  results (state self) = results (state before) ->
  exists added,
    Appends collectionId before
      (handleDuckDuckGoFallback env i source kws maxR collectionId self) added
    /\ added <> [].
Proof.
  intros Hstate. unfold handleDuckDuckGoFallback.
  destruct (_ <- require env i _ ;; _) as [[duckAdapter [| item rest]] | message].
  - unfold searchOnly.
    destruct (Adapter.call _ _ _) as [[| r rs] | message].
    + eexists. split; [now apply pushError_appends | discriminate].
    + eexists. split; [apply pushResults_appends | discriminate];
        [exact Hstate | constructor; [reflexivity | constructor]].
    + eexists. split; [now apply pushError_appends | discriminate].
  - pose proof (StoreFacts.mapItems_spec _ (item :: rest)
                  (StoreFacts.state_retriedItem env
                     (keywordsToUse kws "artificial intelligence") collectionId) self)
      as [Hs Hl].
    pose proof (mapItems_Forall (fun x => Item.collectionId x = collectionId) _
                  (item :: rest)
                  (fun r s => proj1 (retriedItem_shape env
                     (keywordsToUse kws "artificial intelligence") collectionId r s)) self)
      as Htagged.
    destruct (mapItems _ (item :: rest) self) as [xs s1]. cbn [fst snd] in Hs, Hl, Htagged.
    exists xs. split.
    + apply pushResults_appends; [now rewrite Hs | exact Htagged].
    + intros ->. discriminate.
  - eexists. split; [now apply pushError_appends | discriminate].
Qed.

(** One turn of the loop: what it appends, and when that is nothing. *)
Lemma processSource_appends (env : Env) (config : Config) (collectionId : string)
    (apiKeys : ApiKeys) (i : nat) (source : string) (self : t) :
  exists added,
    Appends collectionId self
      (processSource env config collectionId apiKeys i source self) added
    /\ (invokeAdapter env config apiKeys i source <> Returned NoAdapter -> added <> [])
    /\ (forall items,
          invokeAdapter env config apiKeys i source = Returned (Results items) ->
          items <> [] ->
          List.length added = List.length items /\ noErrors added).
Proof.
  unfold processSource.
  destruct (invokeAdapter env config apiKeys i source) as [[| [| item rest]] | message].
  - exists []. split; [| split].
    + split; [now rewrite app_nil_r | constructor | intros H; exact H].
    + intros H. now contradiction H.
    + intros items H. discriminate.
  - destruct (isSource "duckduckgo" source).
    + destruct (fallback_appends env i source (cfg_keywords config) (cfg_maxResults config)
                  collectionId self (enterSource config i source self) eq_refl)
        as (added & Happ & Hne).
      exists added. split; [| split].
      * destruct Happ as [H1 H2 H3]. split; [exact H1 | exact H2 | exact H3].
      * intros _. exact Hne.
      * intros items H Hitems. injection H as <-. now contradiction Hitems.
    + eexists. split; [| split].
      * apply pushError_appends. reflexivity.
      * intros _. discriminate.
      * intros items H Hitems. injection H as <-. now contradiction Hitems.
  - set (kws := keywordsToUse (cfg_keywords config) "general").
    pose proof (StoreFacts.mapItems_spec _ (item :: rest)
                  (StoreFacts.state_processedItem env source kws collectionId)
                  (enterSource config i source self)) as [Hs Hl].
    pose proof (mapItems_Forall (fun x => Item.collectionId x = collectionId) _
                  (item :: rest)
                  (fun r s => proj1 (processedItem_shape env source kws collectionId r s))
                  (enterSource config i source self)) as Htagged.
    pose proof (mapItems_Forall (fun x => Item.isError x = false) _
                  (item :: rest)
                  (fun r s => proj2 (processedItem_shape env source kws collectionId r s))
                  (enterSource config i source self)) as Hclean.
    destruct (mapItems _ (item :: rest) _) as [xs s1]. cbn [fst snd] in Hs, Hl, Htagged, Hclean.
    exists xs. split; [| split].
    + apply pushResults_appends; [now rewrite Hs | exact Htagged].
    + intros _ ->. discriminate.
    + intros items H _. injection H as <-. split; [exact Hl | exact Hclean].
  - eexists. split; [| split].
    + apply pushError_appends. reflexivity.
    + intros _. discriminate.
    + intros items H. discriminate.
Qed.

Lemma Appends_trans (collectionId : string) (a b c : t) (added more : list Item.t) :
  Appends collectionId a b added ->
  Appends collectionId b c more ->
  Appends collectionId a c (added ++ more).
Proof.
  intros [R1 T1 C1] [R2 T2 C2]. split.
  - rewrite R2, R1. now rewrite app_assoc.
  - apply Forall_app. split; assumption.
  - intros H. apply C2, C1, H.
Qed.

(** The loop over the sources left: what it appends, and that every source
    leaves a record unless a module exports no adapter. *)
Lemma processSources_appends (env : Env) (config : Config) (collectionId : string)
    (apiKeys : ApiKeys) (rest : list string) :
  forall (i : nat) (self : t),
  exists added,
    Appends collectionId self
      (processSources env config collectionId apiKeys i rest self) added
    /\ ((forall k source, nth_error rest k = Some source ->
           invokeAdapter env config apiKeys (i + k) source <> Returned NoAdapter) ->
        (List.length rest <= List.length added)%nat).
Proof.
  induction rest as [| source rest IH]; intros i self.
  - exists []. split.
    + split; [now rewrite app_nil_r | constructor | intros H; exact H].
    + intros _. apply Nat.le_refl.
  - destruct (processSource_appends env config collectionId apiKeys i source self)
      as (added & Happ & Hne & _).
    destruct (IH (S i) (processSource env config collectionId apiKeys i source self))
      as (more & Hmore & Hall).
    exists (added ++ more). split.
    + exact (Appends_trans _ _ _ _ _ _ Happ Hmore).
    + intros Hadapters. rewrite length_app. cbn [List.length].
      assert (Hfirst : added <> []).
      { apply Hne. specialize (Hadapters 0%nat source eq_refl).
        now rewrite Nat.add_0_r in Hadapters. }
      assert (Hrest : (List.length rest <= List.length more)%nat).
      { apply Hall. intros k s Hk. specialize (Hadapters (S k) s Hk).
        now rewrite Nat.add_succ_r in Hadapters. }
      destruct added; [contradiction | cbn [List.length]; lia].
Qed.

(** The run up to the save: the results are exactly what the loop appended. *)
Lemma collectSources_appends (env : Env) (config : Config) (self : t) :
  let collectionId := fst (collectSources env config self) in
  let s := snd (collectSources env config self) in
  tagged collectionId (results (state s))
  /\ itemsCollected (state s) = List.length (results (state s))
  /\ ((forall k source, nth_error (cfg_sources config) k = Some source ->
         invokeAdapter env config (apiKeysOf env) k source <> Returned NoAdapter) ->
      (List.length (cfg_sources config) <= List.length (results (state s)))%nat).
Proof.
  unfold collectSources. cbn [fst snd].
  destruct (processSources_appends env config
              (uuidv4 env (clock (start env config self))) (apiKeysOf env)
              (cfg_sources config) 0%nat (tick (tick (start env config self))))
    as (added & [R T C] & Hall).
  cbn [state tick start withState results itemsCollected app] in R, C.
  rewrite R. split; [exact T |]. split.
  - rewrite C by reflexivity. now rewrite R.
  - intros Hadapters. apply Hall. exact Hadapters.
Qed.



Lemma state_collectData (env : Env) (config : Config) (self : t) :
  let out := collectData env config self in
  results (state (snd out)) = results (state (snd (collectSources env config self)))
  /\ itemsCollected (state (snd out))
     = itemsCollected (state (snd (collectSources env config self)))
  /\ forall items, fst out = Returned items -> items = results (state (snd out)).
Proof.
  unfold collectData.
  destruct (collectSources env config self) as [collectionId s]. cbn [snd].
  destruct (saveToKnowledgeBooks config).
  - pose proof (StoreFacts.state_saveCollectionResults env collectionId s) as Hstate.
    destruct (saveCollectionResults env collectionId s) as [[file | m] s2];
      cbn [fst snd] in *.
    + unfold complete. cbn [state withState results itemsCollected]. rewrite Hstate.
      repeat split. intros items H. now injection H as <-.
    + rewrite Hstate. repeat split. intros items H. discriminate.
  - cbn [fst snd]. repeat split. intros items H. now injection H as <-.
Qed.

End RunProperties.

(** X11: Whatever the service held before and whatever the adapters and the disk
    do, after [collectData] the results hold only records of this run, each
    carrying the id drawn for it, the counter of collected items is their
    number, and a run that returns returns exactly these results. *)
Theorem collectData_results_of_this_run (env : CollectionService.Env)
    (config : CollectionService.Config) (self : CollectionService.t) :
  let collectionId := fst (CollectionService.collectSources env config self) in
  let out := CollectionService.collectData env config self in
  let found := CollectionService.results (CollectionService.state (snd out)) in
  Forall (fun item => Item.collectionId item = collectionId) found
  /\ CollectionService.itemsCollected (CollectionService.state (snd out))
     = List.length found
  /\ forall items, fst out = Returned items -> items = found.
Proof.
  intros collectionId out found.
  destruct (RunProperties.state_collectData env config self) as (Hr & Hc & Hitems).
  destruct (RunProperties.collectSources_appends env config self) as (Ht & Hn & _).
  subst found out. rewrite Hr, Hc. split; [exact Ht |]. split; [exact Hn |].
  intros items H. rewrite <- Hr. now apply Hitems.
Qed.


(** X13: A source whose adapter returns n items, n at least one, adds exactly n
    records to the end of the results, none of them an error record, each
    carrying the id of the run; the results before it are kept. *)
Theorem successful_source_appends_its_items (env : CollectionService.Env)
    (config : CollectionService.Config) (collectionId : string)
    (apiKeys : CollectionService.ApiKeys) (i : nat) (source : string)
    (self : CollectionService.t) (items : list RawItem.t) :
  CollectionService.invokeAdapter env config apiKeys i source
  = Returned (CollectionService.Results items) ->
  items <> [] ->
  exists added,
    CollectionService.results
      (CollectionService.state
         (CollectionService.processSource env config collectionId apiKeys i source self))
    = CollectionService.results (CollectionService.state self) ++ added
    /\ List.length added = List.length items
    /\ Forall (fun item => Item.isError item = false
                           /\ Item.collectionId item = collectionId) added.
Proof.
  intros Hitems Hsome.
  destruct (RunProperties.processSource_appends env config collectionId apiKeys i source self)
    as (added & [R T _] & _ & Hsuccess).
  destruct (Hsuccess items Hitems Hsome) as [Hl Hclean].
  exists added. split; [exact R |]. split; [exact Hl |].
  apply Forall_forall. intros x Hx. split.
  - exact (proj1 (Forall_forall _ _) Hclean x Hx).
  - exact (proj1 (Forall_forall _ _) T x Hx).
Qed.


(** On the sample installation: the three papers of arxiv. *)
Lemma successful_source_appends_its_items_witness :
  let env := Installation.env (Installation.searchOnlyDuck []) in
  let config := Installation.config ["arxiv"] ["quantum"] false in
  let self := CollectionService.constructor Installation.emptyDisk in
  exists added,
    CollectionService.results
      (CollectionService.state
         (CollectionService.processSource env config "run"
            (CollectionService.apiKeysOf env) 0 "arxiv" self))
    = added
    /\ List.length added = 3%nat
    /\ Forall (fun item => Item.isError item = false /\ Item.collectionId item = "run") added.
Proof.
  intros env config self.
  destruct (successful_source_appends_its_items env config "run"
              (CollectionService.apiKeysOf env) 0%nat "arxiv" self
              [Installation.paper "1"; Installation.paper "2"; Installation.paper "3"]
              eq_refl)
    as (added & Hresults & Hlength & Hall); [discriminate |].
  exists added. split; [exact Hresults |]. split; [exact Hlength | exact Hall].
Defined.

(** The progress shown on entering a source is computed on doubles: at
    the 30th of 50 sources the quotient 29/50 times 100 falls just below 58
    and the progress is 57, where the integer quotient of 2900 by 50 is 58;
    at the second of three sources it is 33, at the fourth of four 75. *)
Lemma progress_is_rounded_as_a_double :
  let config := Installation.config (repeat "arxiv" 50) ["quantum"] false in
  let self := CollectionService.constructor Installation.emptyDisk in
  CollectionService.progress
    (CollectionService.state (CollectionService.enterSource config 29 "arxiv" self)) = 57
  /\ 100 * 29 / 50 = 58
  /\ CollectionService.percent 1 3 = 33
  /\ CollectionService.percent 3 4 = 75.
Proof.
  vm_compute. repeat split.
Qed.

(* ================================================================== *)
(** * What a save writes, and what a load then finds *)
(* ================================================================== *)

Module SaveProperties.

Import CollectionService.

Lemma datedName_not_main (formattedDate : string) : datedName formattedDate <> mainName.
Proof.
  unfold datedName, mainName. cbn [String.append]. intros H. discriminate H.
Qed.

Lemma length_append (a b : string) :
  String.length (a +++ b) = (String.length a + String.length b)%nat.
Proof.
  induction a as [| c a IH]; simpl; [reflexivity | now rewrite IH].
Qed.

Lemma substring_all (b : string) : String.substring 0 (String.length b) b = b.
Proof.
  induction b as [| c b IH]; simpl; [reflexivity | now rewrite IH].
Qed.

Lemma substring_suffix (a b : string) :
  String.substring (String.length a) (String.length b) (a +++ b) = b.
Proof.
  induction a as [| c a IH]; simpl; [apply substring_all | exact IH].
Qed.

Lemma endsWith_append (a b : string) : endsWith b (a +++ b) = true.
Proof.
  unfold endsWith. rewrite length_append.
  replace (String.length a + String.length b - String.length b)%nat
    with (String.length a) by lia.
  rewrite substring_suffix, String.eqb_refl.
  apply andb_true_iff. split; [apply Nat.leb_le; lia | reflexivity].
Qed.

Lemma isPartitionName_dated (formattedDate : string) :
  isPartitionName (datedName formattedDate) = true.
Proof.
  unfold isPartitionName, datedName. apply andb_true_iff. split.
  - unfold startsWith. cbn. now destruct (formattedDate +++ ".json").
  - exact (endsWith_append ("knowledge-books-" +++ formattedDate) ".json").
Qed.

Lemma In_set {V : Type} (k : string) (v : V) (o : Obj.t V) : In (k, v) (Obj.set k v o).
Proof.
  induction o as [| [k' v'] rest IH]; simpl; [now left |].
  destruct (k' =? k)%string; [now left | now right].
Qed.

Lemma In_set_other {V : Type} (k k' : string) (v v' : V) (o : Obj.t V) :
  k' <> k -> In (k', v') o -> In (k', v') (Obj.set k v o).
Proof.
  intros Hne. induction o as [| [k2 v2] rest IH]; simpl; [contradiction |].
  intros [Heq | Hin].
  - injection Heq as -> ->.
    destruct (k' =? k)%string eqn:E; [apply String.eqb_eq in E; contradiction | now left].
  - destruct (k2 =? k)%string; right; [exact Hin | now apply IH].
Qed.

(** The two writes of a save that succeeds. *)
Lemma saveCollectionResults_success (env : Env) (collectionId : string) (self : t) :
  mkdirError (disk self) = None ->
  let formattedDate := formatLocal env (clock self) in
  writeError (disk self) (datedName formattedDate) = None ->
  writeError (disk self) mainName = None ->
  let newBooks := map (toBook collectionId formattedDate) (results (state self)) in
  let merged := mergedIndex env collectionId formattedDate (tick self) in
  saveCollectionResults env collectionId self
  = (Returned (dataDir env +++ "/" +++ datedName formattedDate),
     {| state := state self;
        collectionHistory :=
          collectionHistory self ++
          [{| h_id := collectionId; h_date := toISOString env (clock self);
              displayDate := formattedDate;
              h_sources := sources (state self);
              itemCount := List.length (results (state self));
              h_processingLevel := processingLevel (state self);
              filename := datedName formattedDate;
              booksFile := dataDir env +++ "/" +++ datedName formattedDate |}];
        disk :=
          {| mkdirError := mkdirError (disk self);
             readdirError := readdirError (disk self);
             entries :=
               Obj.set mainName (Parsed (JArray merged))
                 (Obj.set (datedName formattedDate) (Parsed (JArray newBooks))
                    (entries (disk self)));
             writeError := writeError (disk self) |};
        clock := S (clock self) |}).
Proof.
  intros Hmkdir formattedDate Hdated Hmain newBooks merged.
  unfold saveCollectionResults. rewrite Hmkdir.
  unfold writeFile. cbn [tick disk state clock collectionHistory].
  fold formattedDate. rewrite Hdated. cbn [writeError]. rewrite Hmain.
  cbn [mkdirError readdirError entries]. rewrite Hmkdir. reflexivity.
Qed.

(** Every id of a file among those merged is an id of the merge, unless it
    was seen before. *)
Lemma firstWins_covers (files : list (list Book.t)) :
  forall (seen : list string) (booksData : list Book.t) (x : string),
    In booksData files ->
    In x (ids booksData) ->
    In x seen \/ In x (ids (MergeFacts.firstWins seen files)).
Proof.
  induction files as [| first rest IH]; intros seen booksData x Hfile Hx; [contradiction |].
  cbn [MergeFacts.firstWins]. unfold ids. rewrite map_app.
  assert (Hhead : In x (ids first) ->
                  In x seen \/
                  In x (map Book.id
                          (filter (fun book => negb (has seen (Book.id book))) first))).
  { intros H. destruct (has seen x) eqn:Hseen.
    - left. now apply has_In.
    - right. unfold ids in H. apply in_map_iff in H as [book [<- Hbook]].
      apply in_map. apply filter_In. split; [exact Hbook | now rewrite Hseen]. }
  destruct Hfile as [-> | Hrest].
  - destruct (Hhead Hx) as [H | H]; [now left | right; apply in_or_app; now left].
  - destruct (IH (seen ++ ids first) booksData x Hrest Hx) as [H | H].
    + apply in_app_or in H as [H | H]; [now left |].
      destruct (Hhead H) as [H' | H']; [now left | right; apply in_or_app; now left].
    + right. apply in_or_app. now right.
Qed.

Lemma In_arrays (files : list File) (booksData : list Book.t) :
  In (Parsed (JArray booksData)) files -> In booksData (MergeFacts.arrays files).
Proof.
  induction files as [| f rest IH]; [contradiction |].
  intros [-> | H]; cbn [MergeFacts.arrays]; [now left |].
  destruct f as [| m | m | [books |]]; try (now apply IH). right. now apply IH.
Qed.

(** The merge of files whose ids are distinct within each file has distinct
    ids, none of them seen before. *)
Lemma firstWins_NoDup (files : list (list Book.t)) :
  Forall (fun booksData => NoDup (ids booksData)) files ->
  forall seen,
    NoDup (ids (MergeFacts.firstWins seen files))
    /\ forall x, In x (ids (MergeFacts.firstWins seen files)) -> ~ In x seen.
Proof.
  induction 1 as [| first rest Hfirst Hrest IH]; intros seen; cbn [MergeFacts.firstWins].
  - split; [constructor | intros x []].
  - destruct (IH (seen ++ ids first)) as [Hnodup Hfresh].
    assert (Hkept : forall x,
              In x (ids (filter (fun book => negb (has seen (Book.id book))) first)) ->
              In x (ids first) /\ ~ In x seen).
    { intros x Hx. unfold ids in Hx. apply in_map_iff in Hx as [book [<- Hbook]].
      apply filter_In in Hbook as [Hbook Hnew]. split; [now apply in_map |].
      intros Hseen. apply has_In in Hseen. now rewrite Hseen in Hnew. }
    unfold ids. rewrite map_app. split.
    + apply NoDup_app; [| exact Hnodup |].
      * clear -Hfirst. unfold ids in Hfirst.
        induction first as [| book first IH]; cbn [filter map]; [constructor |].
        inversion Hfirst as [| ? ? Hnotin Htail]; subst.
        destruct (negb (has seen (Book.id book))); [| now apply IH].
        cbn [map]. constructor; [| now apply IH].
        intros Hin. apply Hnotin. apply in_map_iff in Hin as [b [Hb Hin]].
        apply filter_In in Hin as [Hin _]. rewrite <- Hb. now apply in_map.
      * intros x Hx Hx'. apply Hkept in Hx as [Hx _].
        apply (Hfresh x Hx'). apply in_or_app. now right.
    + intros x Hx. apply in_app_or in Hx as [Hx | Hx].
      * now apply Hkept in Hx.
      * intros Hseen. apply (Hfresh x Hx). apply in_or_app. now left.
Qed.

Lemma arrays_Forall (P : list Book.t -> Prop) (files : list File) :
  (forall books, In (Parsed (JArray books)) files -> P books) ->
  Forall P (MergeFacts.arrays files).
Proof.
  induction files as [| f rest IH]; intros H; cbn [MergeFacts.arrays]; [constructor |].
  assert (Hrest : Forall P (MergeFacts.arrays rest))
    by (apply IH; intros books Hb; apply H; now right).
  destruct f as [| m | m | [books |]]; try exact Hrest.
  constructor; [apply H; now left | exact Hrest].
Qed.

End SaveProperties.

(** X14: A save that succeeds (the directory can be made and both files written)
    writes the books of this run, in the order of the results, to the dated
    file, and to the merged file a rearrangement of the books found on the
    disk followed by the new ones; it touches no other file, leaves the state
    of the run as it was, and adds to the history one entry with the id of
    the run, the number of results and the name of the dated file. *)
Theorem saveCollectionResults_writes_both_files (env : CollectionService.Env)
    (collectionId : string) (self : CollectionService.t) :
  CollectionService.mkdirError (CollectionService.disk self) = None ->
  let formattedDate := CollectionService.formatLocal env (CollectionService.clock self) in
  let dated := CollectionService.datedName formattedDate in
  CollectionService.writeError (CollectionService.disk self) dated = None ->
  CollectionService.writeError (CollectionService.disk self) CollectionService.mainName
  = None ->
  let out := CollectionService.saveCollectionResults env collectionId self in
  let after := CollectionService.disk (snd out) in
  let newBooks :=
    map (CollectionService.toBook collectionId formattedDate)
      (CollectionService.results (CollectionService.state self)) in
  fst out = Returned (CollectionService.dataDir env +++ "/" +++ dated)
  /\ StoreFacts.stored dated after = newBooks
  /\ Permutation
       (CollectionService.existingBooks (CollectionService.disk self) ++ newBooks)
       (StoreFacts.stored CollectionService.mainName after)
  /\ (forall name, name <> dated -> name <> CollectionService.mainName ->
        Obj.get name (CollectionService.entries after)
        = Obj.get name (CollectionService.entries (CollectionService.disk self)))
  /\ CollectionService.state (snd out) = CollectionService.state self
  /\ exists entry,
       CollectionService.collectionHistory (snd out)
       = CollectionService.collectionHistory self ++ [entry]
       /\ CollectionService.h_id entry = collectionId
       /\ CollectionService.itemCount entry
          = List.length (CollectionService.results (CollectionService.state self))
       /\ CollectionService.filename entry = dated.
Proof.
  intros Hmkdir formattedDate dated Hdated Hmain out after newBooks.
  subst after out.
  rewrite (SaveProperties.saveCollectionResults_success env collectionId self
             Hmkdir Hdated Hmain).
  cbn [fst snd CollectionService.disk CollectionService.state
       CollectionService.collectionHistory].
  split; [reflexivity |]. split; [| split; [| split; [| split]]].
  - unfold StoreFacts.stored. cbn [CollectionService.entries].
    rewrite Obj.get_set_other
      by (intros H; symmetry in H; exact (SaveProperties.datedName_not_main _ H)).
    now rewrite Obj.get_set_same.
  - unfold StoreFacts.stored. cbn [CollectionService.entries].
    rewrite Obj.get_set_same. unfold CollectionService.mergedIndex.
    apply MergeFacts.sort_perm.
  - intros name Hd Hm. cbn [CollectionService.entries].
    rewrite Obj.get_set_other by (intros H; now apply Hm).
    apply Obj.get_set_other. intros H. now apply Hd.
  - reflexivity.
  - eexists. split; [reflexivity |]. repeat split.
Qed.

(** On the sample installation: the three papers collected from arxiv are
    saved on an empty disk. *)
Lemma saveCollectionResults_writes_both_files_witness :
  let env := Installation.env (Installation.searchOnlyDuck []) in
  let config := Installation.config ["arxiv"] ["quantum"] false in
  let collected :=
    snd (CollectionService.collectData env config
           (CollectionService.constructor Installation.emptyDisk)) in
  let out := CollectionService.saveCollectionResults env "run" collected in
  fst out = Returned "/app/user/data/knowledge-books-run-12.json"
  /\ List.length
       (StoreFacts.stored "knowledge-books-run-12.json" (CollectionService.disk (snd out)))
     = 3%nat
  /\ List.length
       (StoreFacts.stored "knowledge-books.json" (CollectionService.disk (snd out)))
     = 3%nat.
Proof.
  intros env config collected out.
  destruct (saveCollectionResults_writes_both_files env "run" collected
              eq_refl eq_refl eq_refl) as (Hfile & Hdated & Hmerged & _).
  split; [exact Hfile |]. split.
  - etransitivity; [exact (f_equal (@List.length Book.t) Hdated) | reflexivity].
  - apply Permutation_length in Hmerged.
    etransitivity; [symmetry; exact Hmerged | reflexivity].
Defined.

(** X15: After a save that succeeds on a directory that can be listed,
    [loadKnowledgeBooks] returns an array in which every result of the run
    is represented: its id is the id of one of the books loaded. *)
Theorem saved_results_are_loaded (env : CollectionService.Env)
    (collectionId : string) (self : CollectionService.t) :
  CollectionService.mkdirError (CollectionService.disk self) = None ->
  CollectionService.readdirError (CollectionService.disk self) = None ->
  let dated :=
    CollectionService.datedName
      (CollectionService.formatLocal env (CollectionService.clock self)) in
  CollectionService.writeError (CollectionService.disk self) dated = None ->
  CollectionService.writeError (CollectionService.disk self) CollectionService.mainName
  = None ->
  let after :=
    CollectionService.disk (snd (CollectionService.saveCollectionResults env collectionId self)) in
  exists loaded,
    CollectionService.loadKnowledgeBooks env after = CollectionService.JArray loaded
    /\ forall item,
         In item (CollectionService.results (CollectionService.state self)) ->
         In (Item.id item) (map Book.id loaded).
Proof.
  intros Hmkdir Hreaddir dated Hdated Hmain after. subst after.
  rewrite (SaveProperties.saveCollectionResults_success env collectionId self
             Hmkdir Hdated Hmain).
  cbn [snd CollectionService.disk].
  set (formattedDate := CollectionService.formatLocal env (CollectionService.clock self)).
  set (newBooks := map (CollectionService.toBook collectionId formattedDate)
                     (CollectionService.results (CollectionService.state self))).
  set (after := {| CollectionService.mkdirError := _ |}).
  assert (Hin : In (dated, CollectionService.Parsed (CollectionService.JArray newBooks))
                  (CollectionService.partitions after)).
  { unfold CollectionService.partitions. apply filter_In. split.
    - subst after. cbn [CollectionService.entries].
      apply SaveProperties.In_set_other; [apply SaveProperties.datedName_not_main |].
      apply SaveProperties.In_set.
    - apply SaveProperties.isPartitionName_dated. }
  unfold CollectionService.loadKnowledgeBooks.
  replace (CollectionService.readdirError after) with (@None string) by (now subst after).
  destruct (CollectionService.partitions after) as [| p ps] eqn:Hp; [contradiction |].
  eexists. split; [reflexivity |].
  intros item Hitem.
  rewrite MergeFacts.fold_addPartition. cbn [app CollectionService.ids map].
  apply (Permutation_in _ (Permutation_map Book.id (MergeFacts.sort_perm _ _ _))).
  destruct (SaveProperties.firstWins_covers
              (MergeFacts.arrays (map snd (p :: ps))) [] newBooks (Item.id item))
    as [[] | H].
  - apply SaveProperties.In_arrays.
    apply (in_map snd) in Hin. exact Hin.
  - subst newBooks. unfold CollectionService.ids. rewrite map_map. cbn [Book.id].
    apply in_map_iff. exists item. split; [reflexivity | exact Hitem].
  - exact H.
Qed.

(** On the sample installation: the three papers collected from arxiv, saved
    on an empty disk, are loaded again. *)
Lemma saved_results_are_loaded_witness :
  let env := Installation.env (Installation.searchOnlyDuck []) in
  let config := Installation.config ["arxiv"] ["quantum"] false in
  let collected :=
    snd (CollectionService.collectData env config
           (CollectionService.constructor Installation.emptyDisk)) in
  let after := CollectionService.disk (snd (CollectionService.saveCollectionResults env "run" collected)) in
  exists loaded,
    CollectionService.loadKnowledgeBooks env after = CollectionService.JArray loaded
    /\ incl (map Item.id (CollectionService.results (CollectionService.state collected)))
            (map Book.id loaded)
    /\ List.length loaded = 3%nat.
Proof.
  intros env config collected after.
  destruct (saved_results_are_loaded env "run" collected eq_refl eq_refl eq_refl eq_refl)
    as (loaded & Hloaded & Hall).
  exists loaded. split; [exact Hloaded |]. split.
  - intros x Hx. apply in_map_iff in Hx as [item [<- Hitem]]. now apply Hall.
  - fold after in Hloaded. vm_compute in Hloaded. injection Hloaded as <-. reflexivity.
Defined.

(** X16: When the dated files that hold an array hold no id twice within one
    file, the array [loadKnowledgeBooks] returns holds no id twice. *)
Theorem loadKnowledgeBooks_distinct_ids (env : CollectionService.Env)
    (d : CollectionService.Disk) :
  CollectionService.readdirError d = None ->
  CollectionService.partitions d <> [] ->
  (forall name books,
     In (name, CollectionService.Parsed (CollectionService.JArray books))
        (CollectionService.partitions d) ->
     NoDup (map Book.id books)) ->
  exists loaded,
    CollectionService.loadKnowledgeBooks env d = CollectionService.JArray loaded
    /\ NoDup (map Book.id loaded).
Proof.
  intros Hreaddir Hsome Hfiles.
  unfold CollectionService.loadKnowledgeBooks. rewrite Hreaddir.
  destruct (CollectionService.partitions d) as [| p ps] eqn:Hp; [contradiction |].
  eexists. split; [reflexivity |].
  rewrite MergeFacts.fold_addPartition. cbn [app CollectionService.ids map].
  apply (Permutation_NoDup (Permutation_map Book.id (MergeFacts.sort_perm _ _ _))).
  apply (SaveProperties.firstWins_NoDup (MergeFacts.arrays (map snd (p :: ps)))).
  apply SaveProperties.arrays_Forall. intros books Hbooks.
  apply in_map_iff in Hbooks as [[name f] [Hf Hin]]. cbn [snd] in Hf. subst f.
  exact (Hfiles name books Hin).
Qed.

(** On the sample disk, where the id x occurs in two files. *)
Lemma loadKnowledgeBooks_distinct_ids_witness :
  exists loaded,
    CollectionService.loadKnowledgeBooks
      (Installation.env (Installation.searchOnlyDuck [])) StoreSample.disk
    = CollectionService.JArray loaded
    /\ NoDup (map Book.id loaded).
Proof.
  apply (loadKnowledgeBooks_distinct_ids
           (Installation.env (Installation.searchOnlyDuck [])) StoreSample.disk eq_refl).
  - discriminate.
  - intros name books Hin. vm_compute in Hin.
    destruct Hin as [H | [H | [H | [H | []]]]]; try discriminate H;
      injection H as _ <-; repeat constructor; cbn; intuition discriminate.
Defined.

(* ================================================================== *)
(** * How a run ends, and what it leaves on the disk *)
(* ================================================================== *)

Module EndProperties.

Import CollectionService.

(** Two services with the same disk and the same history. *)
Definition sameStore (a b : t) : Prop :=
  disk a = disk b /\ collectionHistory a = collectionHistory b.

Lemma sameStore_refl (a : t) : sameStore a a.
Proof. split; reflexivity. Qed.

Lemma sameStore_trans (a b c : t) : sameStore a b -> sameStore b c -> sameStore a c.
Proof. intros [D1 H1] [D2 H2]. split; congruence. Qed.

Lemma store_processedItem (env : Env) (source : string) (kws : list string)
    (collectionId : string) (item : RawItem.t) (self : t) :
  sameStore (snd (processedItem env source kws collectionId item self)) self.
Proof.
  unfold processedItem, or_draw. repeat destruct (truthy _); split; reflexivity.
Qed.

Lemma store_retriedItem (env : Env) (kws : list string)
    (collectionId : string) (item : RawItem.t) (self : t) :
  sameStore (snd (retriedItem env kws collectionId item self)) self.
Proof.
  unfold retriedItem, or_draw. repeat destruct (truthy _); split; reflexivity.
Qed.

Lemma store_mapItems (build : RawItem.t -> t -> Item.t * t) (items : list RawItem.t) :
  (forall item s, sameStore (snd (build item s)) s) ->
  forall self, sameStore (snd (mapItems build items self)) self.
Proof.
  intros Hbuild. induction items as [| item rest IH]; intros self; simpl;
    [apply sameStore_refl |].
  pose proof (Hbuild item self) as H1.
  destruct (build item self) as [x s1].
  pose proof (IH s1) as H2.
  destruct (mapItems build rest s1) as [xs s2].
  cbn [snd] in *. exact (sameStore_trans _ _ _ H2 H1).
Qed.

Lemma store_fallback (env : Env) (i : nat) (source : string) (kws : list string)
    (maxR : Z) (collectionId : string) (self : t) :
  sameStore (handleDuckDuckGoFallback env i source kws maxR collectionId self) self.
Proof.
  unfold handleDuckDuckGoFallback.
  destruct (_ <- require env i _ ;; _) as [[duckAdapter [| item rest]] | message].
  - unfold searchOnly.
    destruct (Adapter.call _ _ _) as [[| r rs] | message]; split; reflexivity.
  - pose proof (store_mapItems _ (item :: rest)
                  (store_retriedItem env (keywordsToUse kws "artificial intelligence")
                     collectionId) self) as H.
    destruct (mapItems _ (item :: rest) self) as [xs s1]. cbn [snd] in H.
    destruct H as [D H]. split; [exact D | exact H].
  - split; reflexivity.
Qed.

Lemma store_processSource (env : Env) (config : Config) (collectionId : string)
    (apiKeys : ApiKeys) (i : nat) (source : string) (self : t) :
  sameStore (processSource env config collectionId apiKeys i source self) self.
Proof.
  unfold processSource.
  destruct (invokeAdapter env config apiKeys i source) as [[| [| item rest]] | message].
  - split; reflexivity.
  - destruct (isSource "duckduckgo" source); [| split; reflexivity].
    apply (sameStore_trans _ (enterSource config i source self));
      [apply store_fallback | split; reflexivity].
  - pose proof (store_mapItems _ (item :: rest)
                  (store_processedItem env source
                     (keywordsToUse (cfg_keywords config) "general") collectionId)
                  (enterSource config i source self)) as H.
    destruct (mapItems _ (item :: rest) _) as [xs s1]. cbn [snd] in H.
    destruct H as [D H]. split; [exact D | exact H].
  - split; reflexivity.
Qed.

Lemma store_processSources (env : Env) (config : Config) (collectionId : string)
    (apiKeys : ApiKeys) (rest : list string) :
  forall (i : nat) (self : t),
    sameStore (processSources env config collectionId apiKeys i rest self) self.
Proof.
  induction rest as [| source rest IH]; intros i self; simpl; [apply sameStore_refl |].
  exact (sameStore_trans _ _ _ (IH _ _) (store_processSource _ _ _ _ _ _ _)).
Qed.

(** The loop over the sources reads and writes no file of the data
    directory and leaves the history alone. *)
Lemma store_collectSources (env : Env) (config : Config) (self : t) :
  sameStore (snd (collectSources env config self)) self.
Proof.
  unfold collectSources. cbn [snd].
  apply (sameStore_trans _ _ _ (store_processSources _ _ _ _ _ _ _)).
  split; reflexivity.
Qed.

(** The directory can be made and the two files of a save written. *)
Definition writable (d : Disk) (dated : string) : bool :=
  match mkdirError d, writeError d dated, writeError d mainName with
  | None, None, None => true
  | _, _, _ => false
  end.

Lemma save_iff_writable (env : Env) (collectionId : string) (self : t) :
  let dated := datedName (formatLocal env (clock self)) in
  (writable (disk self) dated = true ->
   exists file, fst (saveCollectionResults env collectionId self) = Returned file)
  /\ (writable (disk self) dated = false ->
      exists message, fst (saveCollectionResults env collectionId self) = Thrown message).
Proof.
  intros dated. unfold writable, saveCollectionResults, writeFile. subst dated.
  cbn [tick disk].
  destruct (mkdirError (disk self)); [split; [discriminate | eexists; reflexivity] |].
  destruct (writeError (disk self) (datedName (formatLocal env (clock self))));
    [split; [discriminate | eexists; reflexivity] |].
  cbn [writeError].
  destruct (writeError (disk self) mainName);
    split; try discriminate; eexists; reflexivity.
Qed.

End EndProperties.

(** X17: How [collectData] of the service class ends.  When the run is not to be
    saved, or the directory can be made and both files written, it returns
    the results with the state completed (not running, progress 100); when it
    is to be saved and the disk refuses, it rejects and the state stays
    running.  A run that is not to be saved leaves the data directory and the
    history as they were. *)
Theorem collectData_completes_unless_save_fails (env : CollectionService.Env)
    (config : CollectionService.Config) (self : CollectionService.t) :
  let looped := snd (CollectionService.collectSources env config self) in
  let dated :=
    CollectionService.datedName
      (CollectionService.formatLocal env (CollectionService.clock looped)) in
  let canSave := EndProperties.writable (CollectionService.disk self) dated in
  let out := CollectionService.collectData env config self in
  (CollectionService.saveToKnowledgeBooks config = false \/ canSave = true ->
     fst out = Returned (CollectionService.results (CollectionService.state (snd out)))
     /\ CollectionService.running (CollectionService.state (snd out)) = false
     /\ CollectionService.progress (CollectionService.state (snd out)) = 100)
  /\ (CollectionService.saveToKnowledgeBooks config = true -> canSave = false ->
      (exists message, fst out = Thrown message)
      /\ CollectionService.running (CollectionService.state (snd out)) = true)
  /\ (CollectionService.saveToKnowledgeBooks config = false ->
      CollectionService.disk (snd out) = CollectionService.disk self
      /\ CollectionService.collectionHistory (snd out)
         = CollectionService.collectionHistory self).
Proof.
  intros looped dated canSave out.
  destruct (EndProperties.store_collectSources env config self) as [Hdisk Hhistory].
  fold looped in Hdisk, Hhistory.
  pose proof (EndProperties.save_iff_writable env
                (fst (CollectionService.collectSources env config self)) looped)
    as [Hcan Hcannot].
  cbv zeta in Hcan, Hcannot. rewrite Hdisk in Hcan, Hcannot.
  fold dated in Hcan, Hcannot. fold canSave in Hcan, Hcannot.
  split; [| split].
  - intros Hok.
    destruct (StoreFacts.collectData_completes env config self) as (items & Hitems & Hrun & Hp & _).
    { destruct Hok as [Hno | Hyes]; [now left | right]. now apply Hcan. }
    fold out in Hitems, Hrun, Hp.
    destruct (RunProperties.state_collectData env config self) as (_ & _ & Hsame).
    fold out in Hsame. rewrite Hitems. rewrite (Hsame items Hitems).
    split; [reflexivity |]. split; assumption.
  - intros Hsave Hno. destruct (Hcannot Hno) as [message Hm].
    destruct (StoreFacts.collectData_save_failure env config self message Hsave Hm)
      as (Hthrown & Hrun & _).
    split; [exists message; exact Hthrown | exact Hrun].
  - intros Hno. subst out. unfold CollectionService.collectData.
    fold looped in Hdisk, Hhistory.
    destruct (CollectionService.collectSources env config self) as [collectionId s].
    cbn [snd] in looped. subst looped. rewrite Hno. cbn [snd].
    split; [exact Hdisk | exact Hhistory].
Qed.

(* ================================================================== *)
(** * The run of the viewer: simulateCollection *)
(* ================================================================== *)

Module Viewer.

Import CollectionService.

(** The save at the end of [simulateCollection]: the merged list is built as
    in the class but never written; only the dated file is.  Whatever fails
    is logged and the run goes on. *)
Definition saveResults (env : Env) (config : Config) (collectionId : string) (self : t)
  : t :=
  match mkdirError (disk self) with
  | Some _ => self
  | None =>
      let formattedDate := formatLocal env (clock self) in
      let now := toISOString env (clock self) in
      let self := tick self in
      let newBooks := map (toBook collectionId formattedDate) (results (state self)) in
      let allKnowledgeBooks := mergedIndex env collectionId formattedDate self in
      let datedBooksFile := dataDir env +++ "/" +++ datedName formattedDate in
      match writeFile (datedName formattedDate) newBooks (disk self) with
      | Thrown _ => self
      | Returned d1 =>
          {| state := state self;
             collectionHistory :=
               collectionHistory self ++
               [{| h_id := collectionId; h_date := now; displayDate := formattedDate;
                   h_sources := cfg_sources config;
                   itemCount := List.length (results (state self));
                   h_processingLevel := cfg_processingLevel config;
                   filename := datedName formattedDate;
                   booksFile := datedBooksFile |}];
             disk := d1; clock := clock self |}
      end
  end.

(** [simulateCollection(config)]: the reset of the state and the loop over
    the sources are those of [collectData] of the class, with the fallback
    written out in place; the save is not conditional. *)
Definition simulateCollection (env : Env) (config : Config) (self : t) : t :=
  let '(collectionId, self) := collectSources env config self in
  complete (saveResults env config collectionId self).


End Viewer.



(* ================================================================== *)
(** * The interactive routes: examples/routes/collection-routes.js *)
(* ================================================================== *)

Module CollectionRoutes.

Import CollectionService.

(** The form posted to [/collection/start]. *)
Record Body : Type := {
  body_sources : list string;           (* the boxes checked; one box arrives alone *)
  body_keywords : option string;
  body_maxResults : option Z;           (* parseInt(body.maxResults), NaN = None *)
  body_processingLevel : option string;
  body_saveToKnowledgeBooks : option string
}.

Inductive Reply : Type :=
| Redirect (location : string).

(** The configuration built from the form, before the interests are asked
    for. *)
Definition configOf (body : Body) : Config :=
  {| cfg_sources := body_sources body;
     cfg_keywords :=
       match body_keywords body with
       | Some (String c s) => map DuckDuckGoAdapter.trim (JS.split ","%char (String c s))
       | _ => []
       end;
     cfg_maxResults := DuckDuckGoAdapter.num_or (body_maxResults body) 10;
     cfg_processingLevel := or_else (body_processingLevel body) "basic";
     saveToKnowledgeBooks :=
       match body_saveToKnowledgeBooks body with
       | Some v => (v =? "on")%string
       | None => false
       end |}.

(** [config.keywords = [...config.keywords, ...interestKeywords]]; when the
    interests cannot be loaded the keywords of the form stand. *)
Definition withInterests (config : Config) (interests : Outcome (list string)) : Config :=
  {| cfg_sources := cfg_sources config;
     cfg_keywords :=
       try_catch (names <- interests ;; Returned (cfg_keywords config ++ names))
                 (fun _ => cfg_keywords config);
     cfg_maxResults := cfg_maxResults config;
     cfg_processingLevel := cfg_processingLevel config;
     saveToKnowledgeBooks := saveToKnowledgeBooks config |}.

(** A request to start that passed the guard, where its handler stands: at
    [await loadUserInterests()], or inside [simulateCollection], which it
    entered after the redirect and which has reset the shared state and
    drawn the id of the run; or at its end. *)
Inductive Handler : Type :=
| AwaitingInterests (config : Config)
| Collecting (config : Config) (collectionId : string)
| Finished.

(** The process: the shared state with the history and the disk, the
    handlers of the requests to start in the order of their arrival, and the
    replies sent. *)
Record Server : Type := {
  service : CollectionService.t;
  handlers : list Handler;
  replies : list Reply
}.

(** What happens next in the process.  A handler runs until its next
    [await]; between two of them any other handler may run. *)
Inductive Event : Type :=
| PostStart (body : Body)                                  (* a request arrives *)
| InterestsLoaded (k : nat) (interests : Outcome (list string))
                                                           (* handler [k] goes on *)
| CollectionEnds (k : nat)               (* the run of handler [k] goes to its end *)
| PostStop.                                                (* POST /stop *)

Fixpoint replace (k : nat) (h : Handler) (l : list Handler) : list Handler :=
  match l, k with
  | [], _ => []
  | _ :: rest, O => h :: rest
  | x :: rest, S k' => x :: replace k' h rest
  end.

(** [router.post('/stop')] on the shared state. *)
Definition stopped (collectionState : State) : State :=
  if running collectionState
  then {| running := false; progress := progress collectionState;
          currentSource := "Stopped";
          itemsCollected := itemsCollected collectionState;
          startTime := startTime collectionState;
          processingLevel := processingLevel collectionState;
          sources := sources collectionState; keywords := keywords collectionState;
          maxResults := maxResults collectionState; results := results collectionState |}
  else collectionState.

Definition step (env : Env) (w : Server) (e : Event) : Server :=
  match e with
  | PostStart body =>
      (* [if (collectionState.running) return res.redirect('/collection')] *)
      if running (state (service w))
      then {| service := service w; handlers := handlers w;
              replies := replies w ++ [Redirect "/collection"] |}
      else {| service := service w;
              handlers := handlers w ++ [AwaitingInterests (configOf body)];
              replies := replies w |}
  | InterestsLoaded k interests =>
      match nth_error (handlers w) k with
      | Some (AwaitingInterests config) =>
          (* the redirect, then [simulateCollection(config)] up to
             [await loadApiKeys()] *)
          let config := withInterests config interests in
          let self := start env config (service w) in
          let collectionId := uuidv4 env (clock self) in
          let self := tick (tick self) in
          {| service := self;
             handlers := replace k (Collecting config collectionId) (handlers w);
             replies := replies w ++ [Redirect "/collection"] |}
      | _ => w
      end
  | CollectionEnds k =>
      match nth_error (handlers w) k with
      | Some (Collecting config collectionId) =>
          let self :=
            processSources env config collectionId (apiKeysOf env) 0 (cfg_sources config)
              (service w) in
          {| service := complete (Viewer.saveResults env config collectionId self);
             handlers := replace k Finished (handlers w);
             replies := replies w |}
      | _ => w
      end
  | PostStop =>
      {| service := withState (service w) (stopped (state (service w)));
         handlers := handlers w;
         replies := replies w ++ [Redirect "/collection"] |}
  end.

Definition run (env : Env) (events : list Event) (w : Server) : Server :=
  fold_left (step env) events w.

Definition isCollecting (h : Handler) : bool :=
  match h with
  | Collecting _ _ => true
  | _ => false
  end.

(** The runs in progress. *)
Definition collecting (w : Server) : list Handler := filter isCollecting (handlers w).

Definition boot (d : Disk) : Server :=
  {| service := constructor d; handlers := []; replies := [] |}.

(** A request that finds the flag set is answered by the redirect and starts
    nothing. *)
Lemma postStart_rejected (env : Env) (w : Server) (body : Body) :
  running (state (service w)) = true ->
  step env w (PostStart body)
  = {| service := service w; handlers := handlers w;
       replies := replies w ++ [Redirect "/collection"] |}.
Proof.
  intros Hrun. cbn [step]. now rewrite Hrun.
Qed.

(** A request that finds the flag clear leaves it clear until its handler
    goes on: the flag is set inside [simulateCollection] only. *)
Lemma postStart_accepted (env : Env) (w : Server) (body : Body) :
  running (state (service w)) = false ->
  service (step env w (PostStart body)) = service w
  /\ handlers (step env w (PostStart body))
     = handlers w ++ [AwaitingInterests (configOf body)].
Proof.
  intros Hidle. cbn [step]. rewrite Hidle. now split.
Qed.

(** A handler that goes on starts its run whatever the flag says by then. *)
Lemma interestsLoaded_starts (env : Env) (w : Server) (k : nat) (config : Config)
    (interests : Outcome (list string)) :
  nth_error (handlers w) k = Some (AwaitingInterests config) ->
  running (state (service (step env w (InterestsLoaded k interests)))) = true
  /\ exists collectionId,
       handlers (step env w (InterestsLoaded k interests))
       = replace k (Collecting (withInterests config interests) collectionId) (handlers w).
Proof.
  intros Hk. cbn [step]. rewrite Hk. split; [reflexivity |]. eexists. reflexivity.
Qed.

(** One request handled with no other in between is one run of
    [simulateCollection]. *)
Lemma alone (env : Env) (d : Disk) (body : Body) (interests : Outcome (list string)) :
  service (run env [PostStart body; InterestsLoaded 0 interests; CollectionEnds 0] (boot d))
  = Viewer.simulateCollection env (withInterests (configOf body) interests) (constructor d).
Proof.
  reflexivity.
Qed.

End CollectionRoutes.

Module RoutesSample.

Import CollectionRoutes.

Definition form (source keywords : string) : Body :=
  {| body_sources := [source]; body_keywords := Some keywords;
     body_maxResults := None; body_processingLevel := None;
     body_saveToKnowledgeBooks := None |}.

Definition env : CollectionService.Env :=
  Installation.env (Installation.searchOnlyDuck Installation.fiveLinks).

End RoutesSample.

(** C5 fails in the code.  Two requests to start arrive one after the other
    while nothing runs: the second passes the guard as the first did, because
    the flag is set only inside [simulateCollection], which the first handler
    enters after [await loadUserInterests()].  Both handlers go on and both
    runs are in progress at once, the second having reset the state the first
    one writes to; when the first run ends it clears the flag and the state
    reads Completed while the second run is still in progress. *)
Lemma interleaved_starts_both_run :
  let events :=
    [CollectionRoutes.PostStart (RoutesSample.form "arxiv" "quantum");
     CollectionRoutes.PostStart (RoutesSample.form "wikipedia" "physics");
     CollectionRoutes.InterestsLoaded 0 (Returned []);
     CollectionRoutes.InterestsLoaded 1 (Returned [])] in
  let w := CollectionRoutes.run RoutesSample.env events
             (CollectionRoutes.boot Installation.emptyDisk) in
  let later :=
    CollectionRoutes.step RoutesSample.env w (CollectionRoutes.CollectionEnds 0) in
  List.length (CollectionRoutes.collecting w) = 2%nat
  /\ CollectionRoutes.replies w
     = [CollectionRoutes.Redirect "/collection"; CollectionRoutes.Redirect "/collection"]
  /\ CollectionService.running (CollectionService.state (CollectionRoutes.service w)) = true
  /\ CollectionService.sources (CollectionService.state (CollectionRoutes.service w))
     = ["wikipedia"]
  /\ List.length (CollectionRoutes.collecting later) = 1%nat
  /\ CollectionService.running (CollectionService.state (CollectionRoutes.service later))
     = false
  /\ CollectionService.currentSource
       (CollectionService.state (CollectionRoutes.service later)) = "Completed".
Proof.
  vm_compute. repeat split.
Qed.

(** POST /stop clears the flag and stops nothing: the run goes on, and the
    next request to start passes the guard. *)
Lemma stop_lets_a_second_run_start :
  let events :=
    [CollectionRoutes.PostStart (RoutesSample.form "arxiv" "quantum");
     CollectionRoutes.InterestsLoaded 0 (Returned []);
     CollectionRoutes.PostStop;
     CollectionRoutes.PostStart (RoutesSample.form "wikipedia" "physics");
     CollectionRoutes.InterestsLoaded 1 (Returned [])] in
  let w := CollectionRoutes.run RoutesSample.env events
             (CollectionRoutes.boot Installation.emptyDisk) in
  List.length (CollectionRoutes.collecting w) = 2%nat.
Proof.
  vm_compute. reflexivity.
Qed.

(* ================================================================== *)
(** * The interest object and its methods: models/userInterest.js *)
(* ================================================================== *)

Module InterestObject.

(** The whole object.  The fields that [isCollectionDue] reads are those of
    [UserInterest.t]; the dates are instants, in milliseconds. *)
Record t : Type := {
  fields : UserInterest.t;
  userId : string;
  createdAt : Z;
  updatedAt : Z
}.

(** What the methods ask of the outside world: the instant read by the n-th
    reading of the time, and the digits [Math.random()] gives then. *)
Record Env : Type := {
  now : nat -> Z;
  random : nat -> string
}.

(** The argument of the constructor. *)
Record Data : Type := {
  d_id : option string;
  d_userId : option string;
  d_tags : option (list string);
  d_weight : option Z;
  d_createdAt : option Z;
  d_updatedAt : option Z;
  d_lastCollectionDate : option Z;
  d_collectFrequency : option string;
  d_enabled : option bool
}.

(** [_generateId()] *)
Definition _generateId (env : Env) (n : nat) : string :=
  "ui_" +++ DuckDuckGoAdapter.showZ (now env n) +++ "_" +++ random env n.

(** [date || new Date()] *)
Definition date_or_now (env : Env) (date : option Z) (n : nat) : Z * nat :=
  match date with
  | Some d => (d, n)
  | None => (now env n, S n)
  end.

Definition constructor (env : Env) (data : Data) (n : nat) : t * nat :=
  let '(id, n) :=
    if truthy (d_id data) then (or_else (d_id data) EmptyString, n)
    else (_generateId env n, S n) in
  let '(createdAt, n) := date_or_now env (d_createdAt data) n in
  let '(updatedAt, n) := date_or_now env (d_updatedAt data) n in
  ({| fields :=
        UserInterest.mk id
          (match d_tags data with Some l => l | None => [] end)
          (DuckDuckGoAdapter.num_or (d_weight data) 1)
          (d_lastCollectionDate data)
          (or_else (d_collectFrequency data) "daily")
          (match d_enabled data with Some b => b | None => true end);
      userId := or_else (d_userId data) EmptyString;
      createdAt := createdAt;
      updatedAt := updatedAt |},
   n).

Definition tags (self : t) : list string := UserInterest.tags (fields self).

(** The object with other fields and [updatedAt = new Date()]. *)
Definition touched (env : Env) (self : t) (f : UserInterest.t) (n : nat) : t * nat :=
  ({| fields := f; userId := userId self; createdAt := createdAt self;
      updatedAt := now env n |},
   S n).

Definition withTags (f : UserInterest.t) (l : list string) : UserInterest.t :=
  UserInterest.mk (UserInterest.id f) l (UserInterest.weight f)
    (UserInterest.lastCollectionDate f) (UserInterest.collectFrequency f)
    (UserInterest.enabled f).

(** [addTag(tag)] *)
Definition addTag (env : Env) (tag : string) (self : t) (n : nat) : t * nat :=
  if has (tags self) tag then (self, n)
  else touched env self (withTags (fields self) (tags self ++ [tag])) n.

(** [l.splice(l.indexOf(tag), 1)] when the tag occurs. *)
Fixpoint removeFirst (tag : string) (l : list string) : list string :=
  match l with
  | [] => []
  | x :: rest => if (x =? tag)%string then rest else x :: removeFirst tag rest
  end.

(** [removeTag(tag)] *)
Definition removeTag (env : Env) (tag : string) (self : t) (n : nat) : t * nat :=
  if has (tags self) tag
  then touched env self (withTags (fields self) (removeFirst tag (tags self))) n
  else (self, n).

(** [setWeight(weight)] *)
Definition setWeight (env : Env) (weight : Z) (self : t) (n : nat) : t * nat :=
  let f := fields self in
  touched env self
    (UserInterest.mk (UserInterest.id f) (UserInterest.tags f)
       (Z.max 1 (Z.min 10 weight))
       (UserInterest.lastCollectionDate f) (UserInterest.collectFrequency f)
       (UserInterest.enabled f)) n.

Definition validFrequencies : list string := ["hourly"; "daily"; "weekly"].

(** [setCollectFrequency(frequency)] *)
Definition setCollectFrequency (env : Env) (frequency : string) (self : t) (n : nat)
  : Outcome (t * nat) :=
  let f := fields self in
  if has validFrequencies frequency
  then Returned (touched env self
                   (UserInterest.mk (UserInterest.id f) (UserInterest.tags f)
                      (UserInterest.weight f) (UserInterest.lastCollectionDate f)
                      frequency (UserInterest.enabled f)) n)
  else Thrown ("Invalid collection frequency: " +++ frequency +++ ". Must be one of: " +++
               join ", " validFrequencies).

(** [updateCollectionDate()]: two readings of the time. *)
Definition updateCollectionDate (env : Env) (self : t) (n : nat) : t * nat :=
  let f := fields self in
  touched env self
    (UserInterest.mk (UserInterest.id f) (UserInterest.tags f) (UserInterest.weight f)
       (Some (now env n)) (UserInterest.collectFrequency f) (UserInterest.enabled f))
    (S n).

(** [setEnabled(enabled)] *)
Definition setEnabled (env : Env) (enabled : bool) (self : t) (n : nat) : t * nat :=
  let f := fields self in
  touched env self
    (UserInterest.mk (UserInterest.id f) (UserInterest.tags f) (UserInterest.weight f)
       (UserInterest.lastCollectionDate f) (UserInterest.collectFrequency f) enabled) n.

(** [isCollectionDue()]: the time is read only for an enabled interest that
    was collected before. *)
Definition isCollectionDue (env : Env) (self : t) (n : nat) : bool * nat :=
  (UserInterest.isCollectionDue (now env n) (fields self),
   match UserInterest.lastCollectionDate (fields self) with
   | Some _ => if UserInterest.enabled (fields self) then S n else n
   | None => n
   end).

(** What [toJSON()] returns.  A date is written as its ISO string, which is
    kept here as the instant it denotes. *)
Record JSON : Type := {
  j_id : string;
  j_userId : string;
  j_tags : list string;
  j_weight : Z;
  j_createdAt : Z;
  j_updatedAt : Z;
  j_lastCollectionDate : option Z;
  j_collectFrequency : string;
  j_enabled : bool
}.

Definition toJSON (self : t) : JSON :=
  let f := fields self in
  {| j_id := UserInterest.id f; j_userId := userId self;
     j_tags := UserInterest.tags f; j_weight := UserInterest.weight f;
     j_createdAt := createdAt self; j_updatedAt := updatedAt self;
     j_lastCollectionDate := UserInterest.lastCollectionDate f;
     j_collectFrequency := UserInterest.collectFrequency f;
     j_enabled := UserInterest.enabled f |}.

(** [UserInterest.fromJSON(json)], for an object with the fields [toJSON]
    writes. *)
Definition fromJSON (env : Env) (json : JSON) (n : nat) : t * nat :=
  constructor env
    {| d_id := Some (j_id json); d_userId := Some (j_userId json);
       d_tags := Some (j_tags json); d_weight := Some (j_weight json);
       d_createdAt := Some (j_createdAt json); d_updatedAt := Some (j_updatedAt json);
       d_lastCollectionDate := j_lastCollectionDate json;
       d_collectFrequency := Some (j_collectFrequency json);
       d_enabled := Some (j_enabled json) |} n.

(** The interests that the constructor and the methods can produce. *)
Inductive Made (env : Env) : t -> Prop :=
| made_constructor (data : Data) (n : nat) : Made env (fst (constructor env data n))
| made_addTag (x : t) (tag : string) (n : nat) :
    Made env x -> Made env (fst (addTag env tag x n))
| made_removeTag (x : t) (tag : string) (n : nat) :
    Made env x -> Made env (fst (removeTag env tag x n))
| made_setWeight (x : t) (weight : Z) (n : nat) :
    Made env x -> Made env (fst (setWeight env weight x n))
| made_setCollectFrequency (x y : t) (frequency : string) (n m : nat) :
    Made env x -> setCollectFrequency env frequency x n = Returned (y, m) -> Made env y
| made_updateCollectionDate (x : t) (n : nat) :
    Made env x -> Made env (fst (updateCollectionDate env x n))
| made_setEnabled (x : t) (enabled : bool) (n : nat) :
    Made env x -> Made env (fst (setEnabled env enabled x n)).

(** What [fromJSON] takes as it is. *)
Definition kept (x : t) : Prop :=
  UserInterest.id (fields x) <> EmptyString
  /\ UserInterest.weight (fields x) <> 0
  /\ UserInterest.collectFrequency (fields x) <> EmptyString.

Lemma or_else_nonempty (a : option string) (b : string) :
  b <> EmptyString -> or_else a b <> EmptyString.
Proof.
  intros Hb. destruct a as [[| c s] |]; simpl; try exact Hb. discriminate.
Qed.

Lemma num_or_nonzero (a : option Z) (b : Z) : b <> 0 -> DuckDuckGoAdapter.num_or a b <> 0.
Proof.
  intros Hb. unfold DuckDuckGoAdapter.num_or. destruct a as [v |]; [| exact Hb].
  destruct (v =? 0) eqn:E; [exact Hb | now apply Z.eqb_neq].
Qed.

Lemma kept_constructor (env : Env) (data : Data) (n : nat) :
  kept (fst (constructor env data n)).
Proof.
  unfold constructor.
  destruct (d_id data) as [[| c s] |]; cbn [truthy or_else];
    destruct (date_or_now env (d_createdAt data) _) as [created n1];
    destruct (date_or_now env (d_updatedAt data) n1) as [updated n2];
    cbn [fst fields UserInterest.id UserInterest.weight UserInterest.collectFrequency];
    (split; [discriminate |]);
    (split; [apply num_or_nonzero; discriminate | apply or_else_nonempty; discriminate]).
Qed.

Lemma kept_Made (env : Env) (x : t) : Made env x -> kept x.
Proof.
  induction 1 as [data n | x tag n _ IH | x tag n _ IH | x weight n _ IH
                  | x y frequency n m _ IH Hset | x n _ IH | x enabled n _ IH].
  - apply kept_constructor.
  - unfold addTag. destruct (has (tags x) tag); [exact IH |].
    destruct IH as (Hid & Hw & Hf). repeat split; assumption.
  - unfold removeTag. destruct (has (tags x) tag); [| exact IH].
    destruct IH as (Hid & Hw & Hf). repeat split; assumption.
  - destruct IH as (Hid & Hw & Hf). split; [exact Hid |]. split; [| exact Hf].
    cbn [setWeight touched fst fields UserInterest.weight]. lia.
  - unfold setCollectFrequency in Hset.
    destruct (has validFrequencies frequency) eqn:Hvalid; [| discriminate].
    injection Hset as <- _. destruct IH as (Hid & Hw & Hf).
    split; [exact Hid |]. split; [exact Hw |].
    cbn [touched fst fields UserInterest.collectFrequency].
    intros ->. discriminate Hvalid.
  - destruct IH as (Hid & Hw & Hf). repeat split; assumption.
  - destruct IH as (Hid & Hw & Hf). repeat split; assumption.
Qed.

Lemma fromJSON_toJSON_kept (env : Env) (x : t) (n : nat) :
  kept x -> fromJSON env (toJSON x) n = (x, n).
Proof.
  intros (Hid & Hw & Hf).
  destruct x as [[id tgs weight last frequency enabled] user created updated].
  cbn [fields UserInterest.id UserInterest.weight UserInterest.collectFrequency] in *.
  unfold fromJSON, toJSON, constructor.
  cbn [d_id d_userId d_tags d_weight d_createdAt d_updatedAt d_lastCollectionDate
       d_collectFrequency d_enabled j_id j_userId j_tags j_weight j_createdAt j_updatedAt
       j_lastCollectionDate j_collectFrequency j_enabled fields userId createdAt updatedAt
       UserInterest.id UserInterest.tags UserInterest.weight
       UserInterest.lastCollectionDate UserInterest.collectFrequency UserInterest.enabled
       date_or_now].
  destruct id as [| c s]; [contradiction |].
  destruct frequency as [| c' s']; [contradiction |].
  cbn [truthy or_else]. unfold DuckDuckGoAdapter.num_or.
  destruct (weight =? 0) eqn:E; [apply Z.eqb_eq in E; contradiction |].
  destruct user; reflexivity.
Qed.

Lemma count_removeFirst (tag other : string) (l : list string) :
  count_occ string_dec (removeFirst tag l) other
  = if string_dec tag other
    then Nat.pred (count_occ string_dec l other)
    else count_occ string_dec l other.
Proof.
  induction l as [| x rest IH]; cbn [removeFirst count_occ].
  - now destruct (string_dec tag other).
  - destruct (x =? tag)%string eqn:E.
    + apply String.eqb_eq in E. subst x.
      destruct (string_dec tag other); reflexivity.
    + apply String.eqb_neq in E. cbn [count_occ]. rewrite IH.
      destruct (string_dec x other) as [-> | Hx];
        destruct (string_dec tag other) as [<- | Ht]; try reflexivity.
      contradiction.
Qed.

End InterestObject.

(** X20: An interest made by the constructor and changed by its methods comes
    back unchanged from [fromJSON(toJSON())], with no reading of the time;
    and an interest comes back unchanged exactly when its id and its
    frequency are not empty and its weight is not 0 (an empty id is replaced
    by a generated one, an empty frequency by daily, a weight 0 by 1). *)
Theorem fromJSON_toJSON (env : InterestObject.Env) (x : InterestObject.t) (n : nat) :
  (InterestObject.Made env x ->
   InterestObject.fromJSON env (InterestObject.toJSON x) n = (x, n))
  /\ (InterestObject.fromJSON env (InterestObject.toJSON x) n = (x, n)
      <-> InterestObject.kept x).
Proof.
  split.
  - intros Hmade. apply InterestObject.fromJSON_toJSON_kept.
    now apply (InterestObject.kept_Made env).
  - split; [| apply InterestObject.fromJSON_toJSON_kept].
    intros Hback. apply (f_equal fst) in Hback. cbn [fst] in Hback.
    rewrite <- Hback. unfold InterestObject.fromJSON.
    apply InterestObject.kept_constructor.
Qed.

(** X21: [addTag] leaves the tag in the list once more only if it was not there,
    so distinct tags stay distinct; [removeTag] takes out one occurrence of
    the tag, the first, and no other tag: the tag is gone when the tags were
    distinct, and removing a tag just added gives the tags back. *)
Theorem addTag_removeTag (env : InterestObject.Env) (tag : string)
    (x : InterestObject.t) (n : nat) :
  let added := fst (InterestObject.addTag env tag x n) in
  let removed := fst (InterestObject.removeTag env tag x n) in
  In tag (InterestObject.tags added)
  /\ (NoDup (InterestObject.tags x) -> NoDup (InterestObject.tags added))
  /\ (forall other,
        count_occ string_dec (InterestObject.tags removed) other
        = if string_dec tag other
          then Nat.pred (count_occ string_dec (InterestObject.tags x) other)
          else count_occ string_dec (InterestObject.tags x) other)
  /\ (NoDup (InterestObject.tags x) -> ~ In tag (InterestObject.tags removed))
  /\ (~ In tag (InterestObject.tags x) ->
      forall m,
        InterestObject.tags (fst (InterestObject.removeTag env tag added m))
        = InterestObject.tags x).
Proof.
  intros added removed. subst added removed.
  unfold InterestObject.addTag, InterestObject.removeTag.
  destruct (has (InterestObject.tags x) tag) eqn:Hhas.
  - pose proof (proj1 (has_In _ _) Hhas) as Hin.
    cbn [fst InterestObject.touched InterestObject.tags InterestObject.fields
         InterestObject.withTags UserInterest.tags].
    fold (InterestObject.tags x).
    split; [exact Hin |]. split; [intros H; exact H |].
    split; [intros other; apply InterestObject.count_removeFirst |].
    split.
    + intros Hnodup Hstill.
      apply (proj1 (count_occ_In string_dec _ _)) in Hstill.
      rewrite InterestObject.count_removeFirst in Hstill.
      destruct (string_dec tag tag) as [_ | Hne]; [| now contradiction Hne].
      pose proof (proj1 (NoDup_count_occ string_dec _) Hnodup tag). lia.
    + intros Hnot. contradiction.
  - assert (Hnot : ~ In tag (InterestObject.tags x)).
    { intros Hin. apply has_In in Hin. congruence. }
    cbn [fst InterestObject.touched InterestObject.tags InterestObject.fields
         InterestObject.withTags UserInterest.tags].
    fold (InterestObject.tags x).
    split; [apply in_or_app; right; now left |].
    split.
    { intros Hnodup. apply WebSearchProperties.NoDup_snoc; assumption. }
    split.
    { intros other. destruct (string_dec tag other) as [<- | Hne]; [| reflexivity].
      rewrite (proj1 (count_occ_not_In string_dec _ _) Hnot). reflexivity. }
    split; [intros _; exact Hnot |].
    intros _ m.
    assert (Hnow : has (InterestObject.tags x ++ [tag]) tag = true).
    { apply has_In. apply in_or_app. right. now left. }
    unfold InterestObject.tags in Hnow |- *.
    cbn [InterestObject.fields UserInterest.tags] in Hnow |- *. rewrite Hnow.
    cbn [fst InterestObject.touched InterestObject.fields InterestObject.withTags
         UserInterest.tags].
    clear Hnow Hhas. revert Hnot. unfold InterestObject.tags.
    induction (UserInterest.tags (InterestObject.fields x)) as [| y rest IH];
      intros Hnot; cbn [app InterestObject.removeFirst].
    + now rewrite String.eqb_refl.
    + destruct (y =? tag)%string eqn:E.
      * apply String.eqb_eq in E. subst y. exfalso. apply Hnot. now left.
      * f_equal. apply IH. intros H. apply Hnot. now right.
Qed.

(* ================================================================== *)
(** * The collector driven by interests: core/knowledgeCollector.js *)
(* ================================================================== *)

(** The book object of models/knowledgeBook.js, as its constructor makes it. *)
Module KnowledgeBook.

Record t : Type := {
  id : string;
  title : string;
  author : string;
  sourceUrl : string;
  sourceName : string;
  summary : string;
  content : string;
  tags : list string;
  createdAt : Z;
  updatedAt : Z;
  rating : option Z;
  category : string;
  position : Z * Z * Z;
  metadata : Obj.t string
}.

(** The argument the collector gives the constructor: no id, no dates, no
    rating, no position and no metadata. *)
Record Data : Type := {
  d_title : option string;
  d_author : option string;
  d_sourceUrl : option string;
  d_sourceName : option string;
  d_summary : option string;
  d_content : option string;
  d_tags : option (list string);
  d_category : option string
}.

(** [_generateId()] *)
Definition _generateId (env : InterestObject.Env) (n : nat) : string :=
  "kb_" +++ DuckDuckGoAdapter.showZ (InterestObject.now env n) +++ "_" +++
  InterestObject.random env n.

Definition constructor (env : InterestObject.Env) (data : Data) (n : nat) : t * nat :=
  ({| id := _generateId env n;
      title := or_else (d_title data) "Untitled";
      author := or_else (d_author data) "Unknown";
      sourceUrl := or_else (d_sourceUrl data) EmptyString;
      sourceName := or_else (d_sourceName data) EmptyString;
      summary := or_else (d_summary data) EmptyString;
      content := or_else (d_content data) EmptyString;
      tags := match d_tags data with Some l => l | None => [] end;
      createdAt := InterestObject.now env (S n);
      updatedAt := InterestObject.now env (S (S n));
      rating := None;
      category := or_else (d_category data) "general";
      position := (0, 0, 0);
      metadata := [] |},
   S (S (S n))).

End KnowledgeBook.

Module KnowledgeCollector.

(** A content item, as far as the collector reads it. *)
Record Content : Type := {
  title : option string;
  author : option string;
  sourceUrl : option string;
  url : option string;
  summary : option string;
  content : option string;
  tags : option (list string);
  category : option string
}.

(** An adapter, a processor and the storage manager answer by the number of
    calls and readings made so far. *)
Record Adapter : Type := {
  name : option string;
  collectData : option (nat -> list string -> Outcome (list Content));
  fetchContent : option (nat -> list string -> Outcome (list Content))
}.

Definition Processor : Type := nat -> Content -> list string -> Outcome Content.

Definition StorageManager : Type := nat -> KnowledgeBook.t -> Outcome unit.

(** The interests are objects that the collector changes in place: an
    interest is named by its place in the heap, and the array given to
    [collectByInterests] is a list of such names. *)
Definition Ref : Type := nat.
Definition Heap : Type := list InterestObject.t.

Record t : Type := {
  adapters : list Adapter;
  processors : list Processor;
  storageManager : option StorageManager;
  isCollecting : bool;
  collectionQueue : list (list Ref)
}.





(** What a pass has done so far: the interests, the books made, and the
    number of calls and readings. *)
Record World : Type := {
  heap : Heap;
  books : list KnowledgeBook.t;
  count : nat
}.







Inductive Reply : Type :=
| Queued                                  (* a promise, pending *)
| Collected (made : list KnowledgeBook.t).



(** ** Facts *)




Definition dated (env : InterestObject.Env) (n : nat)
    (before after : option InterestObject.t) : Prop :=
  exists x y k,
    before = Some x /\ after = Some y /\ (n <= k)%nat
    /\ UserInterest.lastCollectionDate (InterestObject.fields y)
       = Some (InterestObject.now env k)
    /\ UserInterest.id (InterestObject.fields y) = UserInterest.id (InterestObject.fields x)
    /\ UserInterest.tags (InterestObject.fields y)
       = UserInterest.tags (InterestObject.fields x)
    /\ UserInterest.weight (InterestObject.fields y)
       = UserInterest.weight (InterestObject.fields x)
    /\ UserInterest.collectFrequency (InterestObject.fields y)
       = UserInterest.collectFrequency (InterestObject.fields x)
    /\ UserInterest.enabled (InterestObject.fields y)
       = UserInterest.enabled (InterestObject.fields x).







Lemma due_same_fields (now1 : Z) (x y : UserInterest.t) :
  UserInterest.lastCollectionDate x = UserInterest.lastCollectionDate y ->
  UserInterest.collectFrequency x = UserInterest.collectFrequency y ->
  UserInterest.enabled x = UserInterest.enabled y ->
  UserInterest.isCollectionDue now1 x = UserInterest.isCollectionDue now1 y.
Proof.
  intros Hl Hf He. unfold UserInterest.isCollectionDue. now rewrite Hl, Hf, He.
Qed.







End KnowledgeCollector.


Module CollectorSample.

Import KnowledgeCollector.

(** Readings of the time one second apart. *)
Definition env : InterestObject.Env :=
  {| InterestObject.now := fun k => 1000 * Z.of_nat k;
     InterestObject.random := fun k => "r" +++ showNat k |}.

Definition interest (id : string) (enabled : bool) (last : option Z) : InterestObject.t :=
  {| InterestObject.fields := UserInterest.mk id ["ai"] 1 last "daily" enabled;
     InterestObject.userId := EmptyString;
     InterestObject.createdAt := 0; InterestObject.updatedAt := 0 |}.

(** A disabled interest, one never collected, and one collected at 0. *)
Definition interests : Heap :=
  [interest "a" false None; interest "b" true None; interest "c" true (Some 0)].




End CollectorSample.


(* ================================================================== *)
(** * The tagger of the processing pipeline: processors/tagger.js *)
(* ================================================================== *)

Module Tagger.

Import KnowledgeCollector.

Record t : Type := {
  maxTags : Z
}.

Definition constructor (options_maxTags : option Z) : t :=
  {| maxTags := DuckDuckGoAdapter.num_or options_maxTags 10 |}.

(** [for (const tag of contextTags) if (!tags.includes(tag)) tags.push(tag)] *)
Definition addContext (tags0 contextTags : list string) : list string :=
  fold_left (fun acc tag => if has acc tag then acc else acc ++ [tag]) contextTags tags0.

(** [[...new Set(l)]]: the first occurrence of each string, in order. *)
Fixpoint uniqueFrom (seen l : list string) : list string :=
  match l with
  | [] => []
  | x :: rest =>
      if has seen x then uniqueFrom seen rest else x :: uniqueFrom (seen ++ [x]) rest
  end.

Definition unique (l : list string) : list string := uniqueFrom [] l.

Definition withTags (c : Content) (l : list string) : Content :=
  {| title := title c; author := author c; sourceUrl := sourceUrl c; url := url c;
     summary := summary c; content := content c; tags := Some l;
     category := category c |}.

(** [process(content, contextTags)].  What [_extractTags] answers, by rules
    or by the model, is taken as given: [extractTags]. *)
Definition process (self : t)
    (extractTags : Content -> list string -> Outcome (list string))
    (c : Content) (contextTags : list string) : Content :=
  let tags1 := addContext (match tags c with Some l => l | None => [] end) contextTags in
  match extractTags c tags1 with
  | Thrown _ => c
  | Returned extractedTags =>
      let tags2 := unique (tags1 ++ extractedTags) in
      let tags3 :=
        if maxTags self <? Z.of_nat (List.length tags2)
        then DuckDuckGoAdapter.sliceTo (maxTags self) tags2
        else tags2 in
      withTags c tags3
  end.

Lemma uniqueFrom_NoDup (l : list string) :
  forall seen,
    NoDup (uniqueFrom seen l)
    /\ (forall x, In x (uniqueFrom seen l) -> In x l /\ ~ In x seen)
    /\ (forall x, In x l -> In x seen \/ In x (uniqueFrom seen l)).
Proof.
  induction l as [| y rest IH]; intros seen; cbn [uniqueFrom].
  - split; [constructor |]. split; [intros x [] | intros x []].
  - destruct (has seen y) eqn:Hseen.
    + destruct (IH seen) as (Hnodup & Hsub & Hcover). split; [exact Hnodup |]. split.
      * intros x Hx. destruct (Hsub x Hx) as [Hin Hnew]. split; [now right | exact Hnew].
      * intros x [<- | Hx]; [left; now apply has_In | now apply Hcover].
    + assert (Hfresh : ~ In y seen) by (intros H; apply has_In in H; congruence).
      destruct (IH (seen ++ [y])) as (Hnodup & Hsub & Hcover). split; [| split].
      * constructor; [| exact Hnodup].
        intros Hy. apply Hsub in Hy as [_ Hy]. apply Hy. apply in_or_app. right. now left.
      * intros x [<- | Hx]; [split; [now left | exact Hfresh] |].
        destruct (Hsub x Hx) as [Hin Hnew]. split; [now right |].
        intros H. apply Hnew. apply in_or_app. now left.
      * intros x [<- | Hx]; [right; now left |].
        destruct (Hcover x Hx) as [H | H]; [| right; now right].
        apply in_app_or in H as [H | [<- | []]]; [now left | right; now left].
Qed.

Lemma addContext_spec (contextTags : list string) :
  forall tags0,
    (exists more, addContext tags0 contextTags = tags0 ++ more
                  /\ forall x, In x more -> In x contextTags)
    /\ (forall x, In x contextTags -> In x (addContext tags0 contextTags)).
Proof.
  induction contextTags as [| tag rest IH]; intros tags0; cbn [addContext fold_left].
  - split; [exists []; split; [now rewrite app_nil_r | intros x []] | intros x []].
  - fold (addContext (if has tags0 tag then tags0 else tags0 ++ [tag]) rest).
    destruct (IH (if has tags0 tag then tags0 else tags0 ++ [tag]))
      as ((more & Hmore & Hsub) & Hcover).
    destruct (has tags0 tag) eqn:Hhas.
    + split.
      * exists more. split; [exact Hmore | intros x Hx; right; now apply Hsub].
      * intros x [<- | Hx]; [| now apply Hcover].
        rewrite Hmore. apply in_or_app. left. now apply has_In.
    + split.
      * exists (tag :: more). split.
        { rewrite Hmore. now rewrite <- app_assoc. }
        intros x [<- | Hx]; [now left | right; now apply Hsub].
      * intros x [<- | Hx]; [| now apply Hcover].
        rewrite Hmore. apply in_or_app. left. apply in_or_app. right. now left.
Qed.

Lemma uniqueFrom_app (l : list string) :
  forall seen tail,
    exists others, uniqueFrom seen (l ++ tail) = uniqueFrom seen l ++ others.
Proof.
  induction l as [| y rest IH]; intros seen tail; cbn [app uniqueFrom].
  - eexists. reflexivity.
  - destruct (has seen y); [apply IH |].
    destruct (IH (seen ++ [y]) tail) as [others Hothers].
    exists others. now rewrite Hothers.
Qed.

Lemma In_firstn {A : Type} (k : nat) (l : list A) (x : A) :
  In x (firstn k l) -> In x l.
Proof.
  revert k. induction l as [| y rest IH]; intros [| k]; cbn [firstn];
    try contradiction.
  intros [<- | H]; [now left | right; now apply (IH k)].
Qed.

Lemma NoDup_firstn {A : Type} (k : nat) (l : list A) : NoDup l -> NoDup (firstn k l).
Proof.
  revert k. induction l as [| x rest IH]; intros [| k] Hnodup; cbn [firstn];
    try constructor; inversion Hnodup; subst.
  - intros Hin. apply In_firstn in Hin. contradiction.
  - now apply IH.
Qed.

Lemma In_sliceTo {A : Type} (e : Z) (l : list A) (x : A) :
  In x (DuckDuckGoAdapter.sliceTo e l) -> In x l.
Proof.
  unfold DuckDuckGoAdapter.sliceTo. destruct (e <? 0); apply In_firstn.
Qed.

End Tagger.

(** X23: Whatever tags the extraction proposes, the tags [process] assigns hold
    no tag twice, are no more than [maxTags] when that limit is not
    negative, and come from the tags of the content, the context tags and
    the proposed tags only; when they fit the limit they are the tags of the
    content without repetitions, then the others, and every context tag and
    proposed tag is among them.  The other fields of the content are not
    touched; and when the extraction throws, the content is returned as it
    came. *)
Theorem process_assigns_distinct_tags (self : Tagger.t)
    (extractTags : KnowledgeCollector.Content -> list string -> Outcome (list string))
    (c : KnowledgeCollector.Content) (contextTags : list string) :
  let given := match KnowledgeCollector.tags c with Some l => l | None => [] end in
  let out := Tagger.process self extractTags c contextTags in
  (forall message,
     extractTags c (Tagger.addContext given contextTags) = Thrown message -> out = c)
  /\ (forall extractedTags,
        extractTags c (Tagger.addContext given contextTags) = Returned extractedTags ->
        exists assigned,
          out = Tagger.withTags c assigned
          /\ NoDup assigned
          /\ (0 <= Tagger.maxTags self ->
              Z.of_nat (List.length assigned) <= Tagger.maxTags self)
          /\ (forall x, In x assigned ->
                In x given \/ In x contextTags \/ In x extractedTags)
          /\ (Z.of_nat (List.length
                          (Tagger.unique (Tagger.addContext given contextTags
                                          ++ extractedTags)))
              <= Tagger.maxTags self ->
              (forall x, In x given \/ In x contextTags \/ In x extractedTags ->
                 In x assigned)
              /\ exists others, assigned = Tagger.unique given ++ others)).
Proof.
  intros given out. subst out. unfold Tagger.process. fold given. split.
  - intros message H. now rewrite H.
  - intros extractedTags H. rewrite H.
    set (tags1 := Tagger.addContext given contextTags).
    set (tags2 := Tagger.unique (tags1 ++ extractedTags)).
    destruct (Tagger.uniqueFrom_NoDup (tags1 ++ extractedTags) []) as (Hnodup & Hsub & Hcover).
    fold (Tagger.unique (tags1 ++ extractedTags)) in Hnodup, Hsub, Hcover.
    fold tags2 in Hnodup, Hsub, Hcover.
    destruct (Tagger.addContext_spec contextTags given) as ((more & Hmore & Hfrom) & Hctx).
    fold tags1 in Hmore, Hctx.
    assert (Horigin : forall x, In x tags2 ->
                        In x given \/ In x contextTags \/ In x extractedTags).
    { intros x Hx. apply Hsub in Hx as [Hx _].
      apply in_app_or in Hx as [Hx | Hx]; [| now right; right].
      rewrite Hmore in Hx. apply in_app_or in Hx as [Hx | Hx]; [now left |].
      right. left. now apply Hfrom. }
    eexists. split; [reflexivity |].
    destruct (Tagger.maxTags self <? Z.of_nat (List.length tags2)) eqn:Hcut.
    + apply Z.ltb_lt in Hcut. split; [| split; [| split]].
      * unfold DuckDuckGoAdapter.sliceTo.
        destruct (Tagger.maxTags self <? 0); now apply Tagger.NoDup_firstn.
      * intros Hpos. now apply WebSearchProperties.sliceTo_length.
      * intros x Hx. apply Horigin. now apply Tagger.In_sliceTo in Hx.
      * intros Hfit. lia.
    + apply Z.ltb_ge in Hcut. split; [exact Hnodup |]. split; [intros _; exact Hcut |].
      split; [exact Horigin |]. intros _. split.
      * intros x Hx. destruct (Hcover x) as [[] | Hin]; [| exact Hin].
        apply in_or_app. destruct Hx as [Hx | [Hx | Hx]]; [left | left | now right].
        -- rewrite Hmore. apply in_or_app. now left.
        -- now apply Hctx.
      * subst tags2. rewrite Hmore. unfold Tagger.unique.
        rewrite <- app_assoc. apply Tagger.uniqueFrom_app.
Qed.

(* ================================================================== *)
(** * Deleting a collection: POST /collection/delete/:id *)
(* ================================================================== *)

Module DeleteRoute.

Import CollectionService.

(** The user directory, the parent of the data directory: what
    [readdirSync] lists there and what [unlinkSync] answers for a file of
    it. *)
Record UserDir : Type := {
  readdirSync : Outcome (list string);
  unlinkSync : string -> Outcome unit
}.

(** What the route works on: the shared history, the data directory with
    the merged file, and the files of the user directory unlinked so far. *)
Record World : Type := {
  history : list HistoryEntry;
  data : Disk;
  unlinked : list string
}.

Inductive Reply : Type :=
| Redirect (location : string)
| BadRequest (error : string).

Definition isCollection (collectionId : string) (c : HistoryEntry) : bool :=
  (h_id c =? collectionId)%string.

(** [collectionHistory.splice(collectionHistory.findIndex(...), 1)] when an
    entry is found. *)
Fixpoint spliceFirst (collectionId : string) (h : list HistoryEntry) : list HistoryEntry :=
  match h with
  | [] => []
  | c :: rest => if isCollection collectionId c then rest
                 else c :: spliceFirst collectionId rest
  end.

Definition specificFilename (collectionId : string) (h : list HistoryEntry)
  : option string :=
  match find (isCollection collectionId) h with
  | Some c => if truthy (Some (filename c)) then Some (filename c) else None
  | None => None
  end.

Definition collectionFilesToDelete (collectionId : string) (specific : option string)
    (fileList : list string) : list string :=
  let byId :=
    filter (fun file => includes ("collection-" +++ collectionId) file
                        && endsWith ".json" file) fileList in
  match specific with
  | Some name => if has fileList name then [name] else byId
  | None => byId
  end.

(** The files that [unlinkSync] removes, of those tried one after the other. *)
Definition unlinkAll (u : UserDir) (files : list string) : list string :=
  filter (fun file => match unlinkSync u file with Returned _ => true | Thrown _ => false end)
    files.

Definition otherCollection (collectionId : string) (book : Book.t) : bool :=
  negb (Book.collectionId book =? collectionId)%string.

(** The inner [try] on the merged file: whatever fails is logged. *)
Definition updateKnowledgeBooks (collectionId : string) (d : Disk) : Disk :=
  match Obj.get mainName (entries d) with
  | Some (Parsed (JArray knowledgeBooks)) =>
      let remaining := filter (otherCollection collectionId) knowledgeBooks in
      if (List.length remaining =? List.length knowledgeBooks)%nat then d
      else match writeFile mainName remaining d with
           | Returned d' => d'
           | Thrown _ => d
           end
  | _ => d
  end.

(** [router.post('/delete/:id')] *)
Definition postDelete (u : UserDir) (collectionId : string) (w : World) : Reply * World :=
  match collectionId with
  | EmptyString => (BadRequest "Missing collection ID", w)
  | _ =>
      let specific := specificFilename collectionId (history w) in
      let history1 := spliceFirst collectionId (history w) in
      let fileList := try_catch (readdirSync u) (fun _ => []) in
      let files := collectionFilesToDelete collectionId specific fileList in
      let removed := unlinkAll u files in
      match files, removed with
      | _ :: _, [] =>
          (* "Could not delete any collection files": thrown and caught *)
          (Redirect "/collection",
           {| history := history1; data := data w; unlinked := unlinked w |})
      | _, _ =>
          (Redirect "/collection",
           {| history := history1;
              data := updateKnowledgeBooks collectionId (data w);
              unlinked := unlinked w ++ removed |})
      end
  end.

(** ** Facts *)

Lemma spliceFirst_spec (collectionId : string) (h : list HistoryEntry) :
  (forall c, In c (spliceFirst collectionId h) -> In c h)
  /\ filter (fun c => negb (isCollection collectionId c)) (spliceFirst collectionId h)
     = filter (fun c => negb (isCollection collectionId c)) h
  /\ (NoDup (map h_id h) -> ~ In collectionId (map h_id (spliceFirst collectionId h))).
Proof.
  induction h as [| c rest (Hsub & Hothers & Hgone)]; cbn [spliceFirst].
  - split; [intros c [] |]. split; [reflexivity | intros _ []].
  - destruct (isCollection collectionId c) eqn:Hc; cbn [filter map].
    + rewrite Hc. cbn [negb]. split; [intros x Hx; now right |].
      split; [reflexivity |].
      intros Hnodup. inversion Hnodup as [| ? ? Hfresh _]; subst.
      apply String.eqb_eq in Hc. now rewrite <- Hc.
    + rewrite Hc. cbn [negb]. split; [| split].
      * intros x [<- | Hx]; [now left | right; now apply Hsub].
      * now rewrite Hothers.
      * intros Hnodup. inversion Hnodup as [| ? ? _ Hrest]; subst.
        intros [Heq | Hin]; [| now apply Hgone].
        unfold isCollection in Hc. rewrite Heq, String.eqb_refl in Hc. discriminate.
Qed.

Lemma partitions_set_main (v : File) (o : Obj.t File) :
  filter (fun entry => isPartitionName (fst entry)) (Obj.set mainName v o)
  = filter (fun entry => isPartitionName (fst entry)) o.
Proof.
  induction o as [| [k f] rest IH]; cbn [Obj.set filter fst]; [reflexivity |].
  destruct (k =? mainName)%string eqn:E.
  - apply String.eqb_eq in E. subst k. cbn [filter fst]. reflexivity.
  - cbn [filter fst]. now rewrite IH.
Qed.

(** The update of the merged file leaves every other file, and so the dated
    files, as they are. *)
Lemma updateKnowledgeBooks_frame (collectionId : string) (d : Disk) :
  readdirError (updateKnowledgeBooks collectionId d) = readdirError d
  /\ partitions (updateKnowledgeBooks collectionId d) = partitions d
  /\ forall name, name <> mainName ->
       Obj.get name (entries (updateKnowledgeBooks collectionId d))
       = Obj.get name (entries d).
Proof.
  unfold updateKnowledgeBooks.
  destruct (Obj.get mainName (entries d)) as [[| m | m | [books |]] |];
    try (split; [reflexivity | split; [reflexivity | intros name _; reflexivity]]).
  destruct (_ =? _)%nat;
    try (split; [reflexivity | split; [reflexivity | intros name _; reflexivity]]).
  unfold writeFile. destruct (writeError d mainName);
    try (split; [reflexivity | split; [reflexivity | intros name _; reflexivity]]).
  split; [reflexivity |]. split.
  - unfold partitions. cbn [entries]. apply partitions_set_main.
  - intros name Hname. cbn [entries]. apply Obj.get_set_other. congruence.
Qed.

Lemma loadKnowledgeBooks_partitions (env : Env) (d d' : Disk) :
  readdirError d' = readdirError d ->
  partitions d' = partitions d ->
  partitions d <> [] ->
  loadKnowledgeBooks env d' = loadKnowledgeBooks env d.
Proof.
  intros Hdir Hparts Hsome. unfold loadKnowledgeBooks. rewrite Hdir, Hparts.
  destruct (readdirError d); [reflexivity |].
  destruct (partitions d); [contradiction | reflexivity].
Qed.

Lemma data_postDelete (u : UserDir) (collectionId : string) (w : World) :
  data (snd (postDelete u collectionId w)) = data w
  \/ data (snd (postDelete u collectionId w)) = updateKnowledgeBooks collectionId (data w).
Proof.
  unfold postDelete. destruct collectionId as [| c s]; [now left |].
  destruct (collectionFilesToDelete _ _ _) as [| file files];
    [right; reflexivity |].
  destruct (unlinkAll u (file :: files)); [left | right]; reflexivity.
Qed.

End DeleteRoute.

(** X24: The route that deletes a collection answers every request with a
    non-empty id by a redirect to the collection page, whatever fails.  It
    takes the first entry with that id out of the history, keeping the
    others in order.  It never touches a dated file of the data directory:
    when there is at least one, [loadKnowledgeBooks] returns after the
    deletion exactly what it returned before, the books of the deleted
    collection included. *)
Theorem deleted_collection_is_still_loaded (env : CollectionService.Env)
    (u : DeleteRoute.UserDir) (collectionId : string) (w : DeleteRoute.World) :
  collectionId <> EmptyString ->
  let out := DeleteRoute.postDelete u collectionId w in
  fst out = DeleteRoute.Redirect "/collection"
  /\ (forall c, In c (DeleteRoute.history (snd out)) -> In c (DeleteRoute.history w))
  /\ filter (fun c => negb (DeleteRoute.isCollection collectionId c))
            (DeleteRoute.history (snd out))
     = filter (fun c => negb (DeleteRoute.isCollection collectionId c))
              (DeleteRoute.history w)
  /\ (NoDup (map CollectionService.h_id (DeleteRoute.history w)) ->
      ~ In collectionId (map CollectionService.h_id (DeleteRoute.history (snd out))))
  /\ (forall name, name <> CollectionService.mainName ->
        Obj.get name (CollectionService.entries (DeleteRoute.data (snd out)))
        = Obj.get name (CollectionService.entries (DeleteRoute.data w)))
  /\ (CollectionService.partitions (DeleteRoute.data w) <> [] ->
      CollectionService.loadKnowledgeBooks env (DeleteRoute.data (snd out))
      = CollectionService.loadKnowledgeBooks env (DeleteRoute.data w)).
Proof.
  intros Hid out.
  destruct (DeleteRoute.spliceFirst_spec collectionId (DeleteRoute.history w))
    as (Hsub & Hothers & Hgone).
  destruct (DeleteRoute.updateKnowledgeBooks_frame collectionId (DeleteRoute.data w))
    as (Hdir & Hparts & Hframe).
  assert (Hhistory : DeleteRoute.history (snd out)
                     = DeleteRoute.spliceFirst collectionId (DeleteRoute.history w)).
  { subst out. unfold DeleteRoute.postDelete.
    destruct collectionId as [| c s]; [contradiction |].
    destruct (DeleteRoute.collectionFilesToDelete _ _ _) as [| file files];
      [reflexivity |].
    destruct (DeleteRoute.unlinkAll u (file :: files)); reflexivity. }
  split; [| split; [| split; [| split; [| split]]]].
  - subst out. unfold DeleteRoute.postDelete.
    destruct collectionId as [| c s]; [contradiction |].
    destruct (DeleteRoute.collectionFilesToDelete _ _ _) as [| file files];
      [reflexivity |].
    destruct (DeleteRoute.unlinkAll u (file :: files)); reflexivity.
  - rewrite Hhistory. exact Hsub.
  - rewrite Hhistory. exact Hothers.
  - rewrite Hhistory. exact Hgone.
  - intros name Hname.
    destruct (DeleteRoute.data_postDelete u collectionId w) as [H | H];
      fold out in H; rewrite H; [reflexivity | now apply Hframe].
  - intros Hsome.
    destruct (DeleteRoute.data_postDelete u collectionId w) as [H | H];
      fold out in H; rewrite H; [reflexivity |].
    now apply DeleteRoute.loadKnowledgeBooks_partitions.
Qed.

(** X25: When the files of the collection, if any are found in the user
    directory, can be removed and the merged file holds an array and can be
    written, the merged file afterwards holds the books of the other
    collections, in their order, and none of the deleted one. *)
Theorem delete_purges_merged_file (u : DeleteRoute.UserDir) (collectionId : string)
    (w : DeleteRoute.World) (knowledgeBooks : list Book.t) :
  collectionId <> EmptyString ->
  Obj.get CollectionService.mainName (CollectionService.entries (DeleteRoute.data w))
  = Some (CollectionService.Parsed (CollectionService.JArray knowledgeBooks)) ->
  CollectionService.writeError (DeleteRoute.data w) CollectionService.mainName = None ->
  (forall file,
     In file (DeleteRoute.collectionFilesToDelete collectionId
                (DeleteRoute.specificFilename collectionId (DeleteRoute.history w))
                (try_catch (DeleteRoute.readdirSync u) (fun _ => []))) ->
     DeleteRoute.unlinkSync u file = Returned tt) ->
  let after := DeleteRoute.data (snd (DeleteRoute.postDelete u collectionId w)) in
  StoreFacts.stored CollectionService.mainName after
  = filter (DeleteRoute.otherCollection collectionId) knowledgeBooks
  /\ Forall (fun book => Book.collectionId book <> collectionId)
            (StoreFacts.stored CollectionService.mainName after).
Proof.
  intros Hid Hmain Hwrite Hunlink after.
  assert (Hafter : after
                   = DeleteRoute.updateKnowledgeBooks collectionId (DeleteRoute.data w)).
  { subst after. unfold DeleteRoute.postDelete.
    destruct collectionId as [| c s]; [contradiction |].
    destruct (DeleteRoute.collectionFilesToDelete _ _ _) as [| file files] eqn:Hfiles;
      [reflexivity |].
    unfold DeleteRoute.unlinkAll. cbn [filter].
    rewrite (Hunlink file) by (now left). reflexivity. }
  assert (Hstored : StoreFacts.stored CollectionService.mainName after
                    = filter (DeleteRoute.otherCollection collectionId) knowledgeBooks).
  { rewrite Hafter. unfold DeleteRoute.updateKnowledgeBooks. rewrite Hmain.
    destruct (_ =? _)%nat eqn:Hsame.
    - unfold StoreFacts.stored. rewrite Hmain.
      apply Nat.eqb_eq in Hsame. clear -Hsame.
      induction knowledgeBooks as [| book rest IH]; [reflexivity |].
      cbn [filter] in *. destruct (DeleteRoute.otherCollection collectionId book).
      + f_equal. apply IH. cbn [List.length] in Hsame. lia.
      + pose proof (filter_length_le (DeleteRoute.otherCollection collectionId) rest).
        cbn [List.length] in Hsame. lia.
    - unfold CollectionService.writeFile. rewrite Hwrite.
      unfold StoreFacts.stored. cbn [CollectionService.entries].
      now rewrite Obj.get_set_same. }
  split; [exact Hstored |].
  rewrite Hstored. apply Forall_forall. intros book Hbook.
  apply filter_In in Hbook as [_ Hother].
  unfold DeleteRoute.otherCollection in Hother.
  intros Heq. rewrite Heq, String.eqb_refl in Hother. discriminate.
Qed.

Module DeleteSample.

Definition env : CollectionService.Env := Installation.env (Installation.searchOnlyDuck []).

Definition config : CollectionService.Config :=
  Installation.config ["arxiv"] ["quantum"] true.

(** A user directory that holds no file of a collection. *)
Definition userDir : DeleteRoute.UserDir :=
  {| DeleteRoute.readdirSync := Returned ["api-keys.json"; "data"];
     DeleteRoute.unlinkSync := fun _ => Returned tt |}.

Definition worldOf (service : CollectionService.t) : DeleteRoute.World :=
  {| DeleteRoute.history := CollectionService.collectionHistory service;
     DeleteRoute.data := CollectionService.disk service;
     DeleteRoute.unlinked := [] |}.

End DeleteSample.

(** On the sample installation: a run of the viewer over arxiv is saved and
    then deleted.  Its entry leaves the history, and its three books are
    still loaded. *)
Lemma deleted_collection_is_still_loaded_witness :
  let ran :=
    Viewer.simulateCollection DeleteSample.env DeleteSample.config
      (CollectionService.constructor Installation.emptyDisk) in
  let out :=
    DeleteRoute.postDelete DeleteSample.userDir "uuid-1" (DeleteSample.worldOf ran) in
  map CollectionService.h_id (CollectionService.collectionHistory ran) = ["uuid-1"]
  /\ DeleteRoute.history (snd out) = []
  /\ exists loaded,
       CollectionService.loadKnowledgeBooks DeleteSample.env (DeleteRoute.data (snd out))
       = CollectionService.JArray loaded
       /\ map Book.collectionId loaded = ["uuid-1"; "uuid-1"; "uuid-1"].
Proof.
  intros ran out.
  assert (Hid : "uuid-1" <> EmptyString) by discriminate.
  assert (Hsome : CollectionService.partitions
                    (DeleteRoute.data (DeleteSample.worldOf ran)) <> [])
    by (vm_compute; discriminate).
  pose proof (deleted_collection_is_still_loaded DeleteSample.env DeleteSample.userDir
                "uuid-1" (DeleteSample.worldOf ran) Hid) as H.
  cbv zeta in H. destruct H as (_ & _ & _ & _ & _ & Hload).
  specialize (Hload Hsome).
  split; [vm_compute; reflexivity |]. split; [vm_compute; reflexivity |].
  eexists. split; [exact Hload | vm_compute; reflexivity].
Defined.

(** On the sample installation: a run of the service class over arxiv is
    saved, which writes the merged file, and then deleted: the merged file
    is left empty. *)
Lemma delete_purges_merged_file_witness :
  let ran :=
    snd (CollectionService.collectData DeleteSample.env DeleteSample.config
           (CollectionService.constructor Installation.emptyDisk)) in
  let out :=
    DeleteRoute.postDelete DeleteSample.userDir "uuid-1" (DeleteSample.worldOf ran) in
  List.length (StoreFacts.stored "knowledge-books.json" (CollectionService.disk ran)) = 3%nat
  /\ StoreFacts.stored "knowledge-books.json" (DeleteRoute.data (snd out)) = [].
Proof.
  intros ran out.
  assert (Hid : "uuid-1" <> EmptyString) by discriminate.
  assert (Hmain : Obj.get CollectionService.mainName
                    (CollectionService.entries (DeleteRoute.data (DeleteSample.worldOf ran)))
                  = Some (CollectionService.Parsed
                            (CollectionService.JArray
                               (StoreFacts.stored "knowledge-books.json"
                                  (CollectionService.disk ran)))))
    by (vm_compute; reflexivity).
  assert (Hwrite : CollectionService.writeError (DeleteRoute.data (DeleteSample.worldOf ran))
                     CollectionService.mainName = None)
    by (vm_compute; reflexivity).
  pose proof (delete_purges_merged_file DeleteSample.userDir "uuid-1"
                (DeleteSample.worldOf ran) _ Hid Hmain Hwrite
                (fun file _ => eq_refl)) as H.
  cbv zeta in H. destruct H as [Hstored _].
  split; [vm_compute; reflexivity |].
  etransitivity; [exact Hstored | vm_compute; reflexivity].
Defined.

(* ================================================================== *)
(** * The allow-list of the web-search adapter, and the page summary *)
(* ================================================================== *)

Module AllowListProperties.

Import DuckDuckGoAdapter.

(** An item that the allow-list lets through: its source name is the domain
    of its source URL, and when the list is not empty one of its entries
    occurs in that domain. *)
Definition admitted (web : Web) (self : t) (item : RawItem.t) : Prop :=
  exists u,
    RawItem.sourceUrl item = Some u
    /\ RawItem.sourceName item = Some (or_else (extractDomain web u) "Unknown source")
    /\ (allowedSources self = []
        \/ exists domain allowedDomain,
             extractDomain web u = Some domain
             /\ In allowedDomain (allowedSources self)
             /\ includes allowedDomain domain = true).

Lemma isAllowedDomain_true (self : t) (domain : option string) :
  isAllowedDomain self domain = Returned true ->
  allowedSources self = []
  \/ exists d allowedDomain,
       domain = Some d /\ In allowedDomain (allowedSources self)
       /\ includes allowedDomain d = true.
Proof.
  unfold isAllowedDomain. destruct (allowedSources self) as [| a rest]; [now left |].
  destruct domain as [d |]; [| discriminate].
  intros H. injection H as H. right.
  apply (proj1 (existsb_exists (fun allowedDomain => includes allowedDomain d) (a :: rest)))
    in H.
  destruct H as [allowedDomain [Hin Hsub]].
  exists d, allowedDomain. now repeat split.
Qed.

Lemma processResult_admitted (web : Web) (self : t) (terms : list string)
    (acc : list RawItem.t * list string) (r : SearchResult.t) :
  Forall (admitted web self) (fst acc) ->
  Forall (admitted web self) (fst (processResult web self terms acc r)).
Proof.
  destruct acc as [items urls]. cbn [fst]. intros Hall. unfold processResult.
  destruct (has urls (SearchResult.url r)); [exact Hall |].
  destruct (isAllowedDomain self (extractDomain web (SearchResult.url r)))
    as [[|] | m] eqn:Hallowed; try exact Hall.
  destruct (_ || _); [exact Hall |].
  apply isAllowedDomain_true in Hallowed.
  destruct (fetchPage web (SearchResult.url r)) as [page | message]; cbn [fst];
    (apply Forall_app; split; [exact Hall |]; constructor; [| constructor];
     exists (SearchResult.url r); split; [reflexivity |]; split; [reflexivity |];
     exact Hallowed).
Qed.

Lemma fold_processResult_admitted (web : Web) (self : t) (terms : list string)
    (results : list SearchResult.t) :
  forall acc,
    Forall (admitted web self) (fst acc) ->
    Forall (admitted web self) (fst (fold_left (processResult web self terms) results acc)).
Proof.
  induction results as [| r rest IH]; intros acc Hacc; cbn [fold_left]; [assumption |].
  apply IH. now apply processResult_admitted.
Qed.

Lemma length_substring0 (n : nat) (s : string) :
  String.length (String.substring 0 n s) = Nat.min n (String.length s).
Proof.
  revert n. induction s as [| c s IH]; intros [| n]; simpl; try reflexivity.
  now rewrite IH.
Qed.

Lemma substring0_all (n : nat) (s : string) :
  (String.length s <= n)%nat -> String.substring 0 n s = s.
Proof.
  revert n. induction s as [| c s IH]; intros [| n] H; simpl in *; try reflexivity;
    [lia | rewrite IH; [reflexivity | lia]].
Qed.

End AllowListProperties.

(** X26: After [setAllowedSources], every item [collectData] returns comes from
    an allowed source: the source name of the item is the domain of its
    source URL (the host name without its first www.), and one of the allowed
    entries occurs in that domain as a substring.  With an empty list every
    source is allowed. *)
Theorem collectData_only_allowed_sources (web : DuckDuckGoAdapter.Web)
    (self : DuckDuckGoAdapter.t) (sources : list string)
    (searchTerms : option (list string)) :
  let restricted := DuckDuckGoAdapter.setAllowedSources sources self in
  exists items,
    DuckDuckGoAdapter.collectData web restricted searchTerms = Returned items
    /\ Forall (fun item =>
                 exists u,
                   RawItem.sourceUrl item = Some u
                   /\ RawItem.sourceName item
                      = Some (or_else (DuckDuckGoAdapter.extractDomain web u)
                                "Unknown source")
                   /\ (sources = []
                       \/ exists domain allowedDomain,
                            DuckDuckGoAdapter.extractDomain web u = Some domain
                            /\ In allowedDomain sources
                            /\ includes allowedDomain domain = true)) items.
Proof.
  intros restricted.
  destruct (WebSearchProperties.collectData_cases web restricted searchTerms)
    as [Hempty | (terms & first & more & Hterms & Hsearch & Hitems)].
  - exists []. split; [exact Hempty | constructor].
  - eexists. split; [exact Hitems |].
    apply (AllowListProperties.fold_processResult_admitted web restricted terms
             (DuckDuckGoAdapter.sliceTo (DuckDuckGoAdapter.maxResults restricted)
                (first :: more)) ([], [])).
    constructor.
Qed.

(** X27: [fetchPage] rejects an empty URL without a request, and a response that
    is not HTML; otherwise it returns the text of the page with a summary of
    at most 203 characters: the text itself when it has at most 200
    characters, its first 200 characters followed by three dots when it has
    more. *)
Theorem fetchPage_summary (web : DuckDuckGoAdapter.Web) (url : string) :
  (url = EmptyString -> DuckDuckGoAdapter.fetchPage web url = Thrown "URL is required")
  /\ (forall response,
        url <> EmptyString ->
        DuckDuckGoAdapter.axios_get web url = Returned response ->
        includes "text/html" (or_else (DuckDuckGoAdapter.contentType response) EmptyString)
        = false ->
        exists message, DuckDuckGoAdapter.fetchPage web url = Thrown message)
  /\ (forall page,
        DuckDuckGoAdapter.fetchPage web url = Returned page ->
        let text := DuckDuckGoAdapter.content page in
        (String.length (DuckDuckGoAdapter.summary page) <= 203)%nat
        /\ ((String.length text <= 200)%nat -> DuckDuckGoAdapter.summary page = text)
        /\ ((200 < String.length text)%nat ->
            DuckDuckGoAdapter.summary page = slice0 200 text +++ "..."
            /\ String.length (DuckDuckGoAdapter.summary page) = 203%nat)).
Proof.
  split; [intros ->; reflexivity |]. split.
  - intros response Hurl Hget Hhtml. unfold DuckDuckGoAdapter.fetchPage.
    destruct url as [| c s]; [contradiction |].
    rewrite Hget. cbn [JS.bind]. rewrite Hhtml. eexists. reflexivity.
  - intros page Hpage text. unfold DuckDuckGoAdapter.fetchPage in Hpage.
    destruct url as [| c s]; [discriminate |].
    destruct (DuckDuckGoAdapter.axios_get web (String c s)) as [response | m];
      [| discriminate].
    cbn [JS.bind] in Hpage.
    destruct (negb (includes "text/html" _)); [discriminate |].
    injection Hpage as <-. subst text.
    cbn [DuckDuckGoAdapter.content DuckDuckGoAdapter.summary].
    set (text := DuckDuckGoAdapter.bodyText web (DuckDuckGoAdapter.data response)).
    unfold slice0.
    destruct (200 <? String.length text)%nat eqn:Hlong.
    + apply Nat.ltb_lt in Hlong.
      assert (Hlen : String.length (String.substring 0 200 text +++ "...") = 203%nat).
      { rewrite SaveProperties.length_append, AllowListProperties.length_substring0.
        simpl String.length. lia. }
      split; [lia |]. split; [lia |]. intros _. split; [reflexivity | exact Hlen].
    + apply Nat.ltb_ge in Hlong.
      rewrite (AllowListProperties.substring0_all 200 text Hlong).
      assert (Hsame : text +++ EmptyString = text).
      { clear. induction text as [| c s IH]; simpl; [reflexivity | now rewrite IH]. }
      rewrite Hsame. split; [lia |]. split; [reflexivity | lia].
Qed.

(* ================================================================== *)
(** * Deleting one book: GET /delete/:id of the viewer *)
(* ================================================================== *)

Module DeleteBook.

Import CollectionService.

Inductive Reply : Type :=
| Redirect (location : string)
| ErrorPage (status : Z) (message : string).

Definition isBook (id : string) (book : Book.t) : bool := (Book.id book =? id)%string.

(** [books.splice(books.findIndex(book => book.id === id), 1)] when a book is
    found. *)
Fixpoint spliceBook (id : string) (books : list Book.t) : list Book.t :=
  match books with
  | [] => []
  | book :: rest => if isBook id book then rest else book :: spliceBook id rest
  end.

(** The inner [try] on the dated file of the book: whatever fails is
    logged. *)
Definition updateDated (id collectionDate : string) (d : Disk) : Disk :=
  match collectionDate with
  | EmptyString => d
  | _ =>
      match Obj.get (datedName collectionDate) (entries d) with
      | Some (Parsed (JArray datedBooks)) =>
          match find (isBook id) datedBooks with
          | None => d
          | Some _ =>
              match writeFile (datedName collectionDate) (spliceBook id datedBooks) d with
              | Returned d' => d'
              | Thrown _ => d
              end
          end
      | _ => d
      end
  end.

Definition deleted (title : string) : string :=
  "/?message=Successfully deleted " +++ dquote +++ title +++ dquote.

(** [app.get('/delete/:id')] *)
Definition getDelete (env : Env) (id : string) (d : Disk) : Reply * Disk :=
  match loadKnowledgeBooks env d with
  | JOther => (ErrorPage 500 "Failed to delete knowledge book", d)
  | JArray knowledgeBooks =>
      match find (isBook id) knowledgeBooks with
      | None => (Redirect "/?message=Item not found", d)
      | Some book =>
          match writeFile mainName (spliceBook id knowledgeBooks) d with
          | Thrown _ => (ErrorPage 500 "Failed to delete knowledge book", d)
          | Returned d1 =>
              (Redirect (deleted (Book.title book)),
               updateDated id (Book.collectionDate book) d1)
          end
      end
  end.

(** ** Facts *)

Lemma In_set_inv {V : Type} (k k' : string) (v v' : V) (o : Obj.t V) :
  In (k', v') (Obj.set k v o) -> (k', v') = (k, v) \/ In (k', v') o.
Proof.
  induction o as [| [k2 v2] rest IH]; cbn [Obj.set].
  - intros [H | []]. left. now symmetry.
  - destruct (k2 =? k)%string.
    + intros [H | H]; [left; now symmetry | right; now right].
    + intros [H | H]; [right; now left |].
      destruct (IH H) as [Heq | Hin]; [now left | right; now right].
Qed.

Lemma keys_set {V : Type} (k : string) (v : V) (o : Obj.t V) :
  NoDup (map fst o) -> NoDup (map fst (Obj.set k v o)).
Proof.
  induction o as [| [k2 v2] rest IH]; cbn [Obj.set map fst]; intros Hnodup.
  - constructor; [intros [] | constructor].
  - destruct (k2 =? k)%string eqn:E.
    + apply String.eqb_eq in E. subst k2. exact Hnodup.
    + cbn [map fst]. inversion Hnodup as [| ? ? Hfresh Hrest]; subst.
      constructor; [| now apply IH].
      intros Hin. apply in_map_iff in Hin as [[k3 v3] [Hk Hin]]. cbn [fst] in Hk. subst k3.
      destruct (In_set_inv _ _ _ _ _ Hin) as [Heq | Hold].
      * injection Heq as -> _. rewrite String.eqb_refl in E. discriminate.
      * apply Hfresh. apply in_map_iff. exists (k2, v3). now split.
Qed.

Lemma get_In {V : Type} (k : string) (v : V) (o : Obj.t V) :
  NoDup (map fst o) -> In (k, v) o -> Obj.get k o = Some v.
Proof.
  induction o as [| [k2 v2] rest IH]; cbn [map fst Obj.get]; intros Hnodup Hin;
    [contradiction |].
  inversion Hnodup as [| ? ? Hfresh Hrest]; subst.
  destruct Hin as [Heq | Hin].
  - injection Heq as -> ->. now rewrite String.eqb_refl.
  - destruct (k2 =? k)%string eqn:E; [| now apply IH].
    apply String.eqb_eq in E. subst k2. exfalso. apply Hfresh.
    apply in_map_iff. exists (k, v). now split.
Qed.

Lemma spliceBook_spec (id : string) (books : list Book.t) :
  (forall b, In b (spliceBook id books) -> In b books)
  /\ (forall b, In b books -> Book.id b <> id -> In b (spliceBook id books))
  /\ (NoDup (ids books) -> ~ In id (ids (spliceBook id books))).
Proof.
  induction books as [| book rest (Hsub & Hkeep & Hgone)]; cbn [spliceBook].
  - split; [intros b [] |]. split; [intros b [] | intros _ []].
  - unfold isBook. destruct (Book.id book =? id)%string eqn:E.
    + apply String.eqb_eq in E. split; [intros b Hb; now right |]. split.
      * intros b [<- | Hb] Hne; [contradiction | exact Hb].
      * intros Hnodup. cbn [ids map] in Hnodup.
        inversion Hnodup as [| ? ? Hfresh _]; subst. exact Hfresh.
    + apply String.eqb_neq in E. split; [| split].
      * intros b [<- | Hb]; [now left | right; now apply Hsub].
      * intros b [<- | Hb] Hne; [now left | right; now apply Hkeep].
      * intros Hnodup. cbn [ids map] in Hnodup |- *.
        inversion Hnodup as [| ? ? _ Hrest]; subst.
        intros [Heq | Hin]; [contradiction | now apply Hgone].
Qed.

Lemma firstWins_incl (files : list (list Book.t)) :
  forall seen b,
    In b (MergeFacts.firstWins seen files) -> exists file, In file files /\ In b file.
Proof.
  induction files as [| first rest IH]; intros seen b; cbn [MergeFacts.firstWins];
    [intros [] |].
  intros H. apply in_app_or in H as [H | H].
  - apply filter_In in H as [H _]. exists first. split; [now left | exact H].
  - destruct (IH _ _ H) as (file & Hfile & Hb). exists file. split; [now right | exact Hb].
Qed.

Lemma arrays_inv (files : list File) (books : list Book.t) :
  In books (MergeFacts.arrays files) -> In (Parsed (JArray books)) files.
Proof.
  induction files as [| f rest IH]; cbn [MergeFacts.arrays]; [intros [] |].
  destruct f as [| m | m | [b |]]; try (intros H; right; now apply IH).
  intros [<- | H]; [now left | right; now apply IH].
Qed.

(** What a load finds on a disk with dated files: every book loaded is a
    book of a dated file that holds an array, and every id of such a file is
    the id of a book loaded. *)
Lemma loaded_spec (env : Env) (d : Disk) :
  readdirError d = None ->
  partitions d <> [] ->
  exists loaded,
    loadKnowledgeBooks env d = JArray loaded
    /\ (forall b, In b loaded ->
          exists name books, In (name, Parsed (JArray books)) (partitions d) /\ In b books)
    /\ (forall name books x,
          In (name, Parsed (JArray books)) (partitions d) -> In x (ids books) ->
          In x (ids loaded)).
Proof.
  intros Hdir Hsome. unfold loadKnowledgeBooks. rewrite Hdir.
  destruct (partitions d) as [| p ps] eqn:Hp; [contradiction |].
  eexists. split; [reflexivity |].
  rewrite MergeFacts.fold_addPartition.
  change (ids []) with (@nil string). cbn [app]. split.
  - intros b Hb.
    apply (Permutation_in b (Permutation_sym (MergeFacts.sort_perm _ _ _))) in Hb.
    destruct (firstWins_incl _ _ _ Hb) as (file & Hfile & Hin).
    apply arrays_inv in Hfile. apply in_map_iff in Hfile as [[name f] [Hf Hentry]].
    cbn [snd] in Hf. subst f. exists name, file. split; assumption.
  - intros name books x Hentry Hx.
    apply (Permutation_in _ (Permutation_map Book.id (MergeFacts.sort_perm _ _ _))).
    destruct (SaveProperties.firstWins_covers
                (MergeFacts.arrays (map snd (p :: ps))) [] books x) as [[] | H];
      [| exact Hx | exact H].
    apply SaveProperties.In_arrays. apply (in_map snd) in Hentry. exact Hentry.
Qed.

Lemma partition_entry (d : Disk) (name : string) (f : File) :
  In (name, f) (partitions d) <-> In (name, f) (entries d) /\ isPartitionName name = true.
Proof. unfold partitions. now rewrite filter_In. Qed.

Lemma find_isBook (id : string) (books : list Book.t) (b : Book.t) :
  In b books -> Book.id b = id -> exists found, find (isBook id) books = Some found.
Proof.
  intros Hin Hid. destruct (find (isBook id) books) as [found |] eqn:E;
    [now exists found |].
  pose proof (find_none _ _ E b Hin) as Hno. unfold isBook in Hno.
  rewrite Hid, String.eqb_refl in Hno. discriminate.
Qed.

(** The route rewrites the merged file and at most one dated file; every
    other file stays, and so does the answer of the listing. *)
Lemma getDelete_frame (env : Env) (id : string) (d : Disk) :
  readdirError (snd (getDelete env id d)) = readdirError d
  /\ exists changed,
       forall name f,
         name <> mainName -> name <> changed ->
         In (name, f) (entries d) -> In (name, f) (entries (snd (getDelete env id d))).
Proof.
  unfold getDelete.
  destruct (loadKnowledgeBooks env d) as [knowledgeBooks |];
    [| split; [reflexivity | exists EmptyString; cbn [snd]; intros; assumption]].
  destruct (find (isBook id) knowledgeBooks) as [book |];
    [| split; [reflexivity | exists EmptyString; cbn [snd]; intros; assumption]].
  unfold writeFile, updateDated, writeFile.
  destruct (writeError d mainName);
    [split; [reflexivity | exists EmptyString; cbn [snd]; intros; assumption] |].
  cbn [snd].
  set (d1 := {| mkdirError := mkdirError d |}).
  assert (Hd1 : forall name f, name <> mainName -> In (name, f) (entries d) ->
                               In (name, f) (entries d1)).
  { intros name f Hname Hin. subst d1. cbn [entries].
    now apply SaveProperties.In_set_other. }
  destruct (Book.collectionDate book) as [| c s];
    [split; [reflexivity | exists EmptyString; intros; now apply Hd1] |].
  destruct (Obj.get _ (entries d1)) as [[| m | m | [datedBooks |]] |];
    try (split; [reflexivity | exists EmptyString; intros; now apply Hd1]).
  destruct (find (isBook id) datedBooks);
    [| split; [reflexivity | exists EmptyString; intros; now apply Hd1]].
  destruct (writeError d1 _);
    [split; [reflexivity | exists EmptyString; intros; now apply Hd1] |].
  split; [reflexivity |]. exists (datedName (String c s)).
  intros name f Hmain Hchanged Hin. cbn [entries].
  apply SaveProperties.In_set_other; [exact Hchanged | now apply Hd1].
Qed.

End DeleteBook.

(** X28: A book whose id is held by two dated files comes back: whatever the
    route that deletes a book answers, [loadKnowledgeBooks] afterwards still
    returns a book with that id, because the route takes the id out of one
    dated file at most. *)
Theorem deleted_book_in_two_files_comes_back (env : CollectionService.Env)
    (id : string) (d : CollectionService.Disk)
    (name1 name2 : string) (books1 books2 : list Book.t) :
  CollectionService.readdirError d = None ->
  name1 <> name2 ->
  In (name1, CollectionService.Parsed (CollectionService.JArray books1))
     (CollectionService.partitions d) ->
  In (name2, CollectionService.Parsed (CollectionService.JArray books2))
     (CollectionService.partitions d) ->
  In id (map Book.id books1) ->
  In id (map Book.id books2) ->
  exists loaded,
    CollectionService.loadKnowledgeBooks env (snd (DeleteBook.getDelete env id d))
    = CollectionService.JArray loaded
    /\ In id (map Book.id loaded).
Proof.
  intros Hdir Hnames H1 H2 Hid1 Hid2.
  destruct (DeleteBook.getDelete_frame env id d) as (Hdir' & changed & Hframe).
  set (after := snd (DeleteBook.getDelete env id d)) in *.
  assert (Hstays : exists name books,
             In (name, CollectionService.Parsed (CollectionService.JArray books))
                (CollectionService.partitions after)
             /\ In id (map Book.id books)).
  { apply DeleteBook.partition_entry in H1 as [E1 P1].
    apply DeleteBook.partition_entry in H2 as [E2 P2].
    assert (Hmain : forall name, CollectionService.isPartitionName name = true ->
                                 name <> CollectionService.mainName).
    { intros name Hp ->. discriminate Hp. }
    destruct (string_dec name1 changed) as [Heq | Hne].
    - exists name2, books2. split; [| exact Hid2].
      apply DeleteBook.partition_entry. split; [| exact P2].
      apply Hframe; [now apply Hmain | congruence | exact E2].
    - exists name1, books1. split; [| exact Hid1].
      apply DeleteBook.partition_entry. split; [| exact P1].
      apply Hframe; [now apply Hmain | exact Hne | exact E1]. }
  destruct Hstays as (name & books & Hentry & Hid).
  destruct (DeleteBook.loaded_spec env after) as (loaded & Hloaded & _ & Hcover).
  - now rewrite Hdir'.
  - intros Hnone. rewrite Hnone in Hentry. contradiction.
  - exists loaded. split; [exact Hloaded |]. exact (Hcover name books id Hentry Hid).
Qed.

(** On the disk left by two saved runs over wikipedia, which both hold the
    article whose id is derived from its title: after the deletion of that
    id the article is still loaded. *)
Lemma deleted_book_in_two_files_comes_back_witness :
  let env := Installation.env (Installation.searchOnlyDuck Installation.fiveLinks) in
  let config := Installation.config ["wikipedia"] ["quantum"] true in
  let first :=
    snd (CollectionService.collectData env config
           (CollectionService.constructor Installation.emptyDisk)) in
  let second := snd (CollectionService.collectData env config first) in
  let out := DeleteBook.getDelete env "md5-quantum" (CollectionService.disk second) in
  fst out = DeleteBook.Redirect (DeleteBook.deleted "Quantum")
  /\ exists loaded,
       CollectionService.loadKnowledgeBooks env (snd out) = CollectionService.JArray loaded
       /\ In "md5-quantum" (map Book.id loaded).
Proof.
  intros env config first second out.
  split; [vm_compute; reflexivity |].
  assert (Hnames : "knowledge-books-run-3.json" <> "knowledge-books-run-7.json")
    by discriminate.
  assert (H1 : In ("knowledge-books-run-3.json",
                   CollectionService.Parsed
                     (CollectionService.JArray
                        (StoreFacts.stored "knowledge-books-run-3.json"
                           (CollectionService.disk second))))
                  (CollectionService.partitions (CollectionService.disk second)))
    by (vm_compute; left; reflexivity).
  assert (H2 : In ("knowledge-books-run-7.json",
                   CollectionService.Parsed
                     (CollectionService.JArray
                        (StoreFacts.stored "knowledge-books-run-7.json"
                           (CollectionService.disk second))))
                  (CollectionService.partitions (CollectionService.disk second)))
    by (vm_compute; right; left; reflexivity).
  assert (Hdir : CollectionService.readdirError (CollectionService.disk second) = None)
    by (vm_compute; reflexivity).
  assert (Hid1 : In "md5-quantum"
                   (map Book.id (StoreFacts.stored "knowledge-books-run-3.json"
                                   (CollectionService.disk second))))
    by (vm_compute; left; reflexivity).
  assert (Hid2 : In "md5-quantum"
                   (map Book.id (StoreFacts.stored "knowledge-books-run-7.json"
                                   (CollectionService.disk second))))
    by (vm_compute; left; reflexivity).
  exact (deleted_book_in_two_files_comes_back env "md5-quantum"
           (CollectionService.disk second) _ _ _ _ Hdir Hnames H1 H2 Hid1 Hid2).
Defined.

(** X29: The route that deletes a book does delete it when the id is held by one
    dated file only, once, and that file is the one named after the
    collection date of the book: if the directory lists no name twice and
    the two files can be written, the route answers with the success
    redirect, a book with that id is no longer loaded afterwards, and every
    other id of a dated file still is. *)
Theorem deleted_book_is_gone (env : CollectionService.Env) (id : string)
    (d : CollectionService.Disk) (name0 : string) (books0 : list Book.t) :
  CollectionService.readdirError d = None ->
  NoDup (map fst (CollectionService.entries d)) ->
  In (name0, CollectionService.Parsed (CollectionService.JArray books0))
     (CollectionService.partitions d) ->
  In id (map Book.id books0) ->
  NoDup (map Book.id books0) ->
  (forall name books,
     In (name, CollectionService.Parsed (CollectionService.JArray books))
        (CollectionService.partitions d) ->
     In id (map Book.id books) -> name = name0) ->
  (forall b, In b books0 -> Book.id b = id ->
             name0 = CollectionService.datedName (Book.collectionDate b)
             /\ Book.collectionDate b <> EmptyString) ->
  CollectionService.writeError d CollectionService.mainName = None ->
  CollectionService.writeError d name0 = None ->
  let out := DeleteBook.getDelete env id d in
  (exists title, fst out = DeleteBook.Redirect (DeleteBook.deleted title))
  /\ exists loaded,
       CollectionService.loadKnowledgeBooks env (snd out) = CollectionService.JArray loaded
       /\ ~ In id (map Book.id loaded)
       /\ forall name books x,
            In (name, CollectionService.Parsed (CollectionService.JArray books))
               (CollectionService.partitions d) ->
            In x (map Book.id books) -> x <> id ->
            In x (map Book.id loaded).
Proof.
  intros Hdir Hnames Hfile Hid Honce Honly Hdate Hwmain Hwdated out.
  pose proof (proj1 (DeleteBook.partition_entry d name0 _) Hfile) as [Hentry0 Hpart0].
  assert (Hnotmain : name0 <> CollectionService.mainName).
  { intros ->. discriminate Hpart0. }
  (* the book found by the route is a book of that file *)
  destruct (DeleteBook.loaded_spec env d Hdir) as (loaded & Hloaded & Hfrom & Hcover).
  { intros Hnone. rewrite Hnone in Hfile. contradiction. }
  pose proof (Hcover name0 books0 id Hfile Hid) as Hin.
  apply in_map_iff in Hin as [b [Hb Hbin]].
  destruct (DeleteBook.find_isBook id loaded b Hbin Hb) as [book Hfind].
  destruct (find_some _ _ Hfind) as [Hbook Hisbook].
  unfold DeleteBook.isBook in Hisbook. apply String.eqb_eq in Hisbook.
  assert (Hbook0 : In book books0).
  { destruct (Hfrom book Hbook) as (name & books & Hentry & Hinbooks).
    assert (name = name0).
    { apply (Honly name books Hentry). unfold CollectionService.ids.
      apply in_map_iff. exists book. now split. }
    subst name. apply DeleteBook.partition_entry in Hentry as [Hentry _].
    pose proof (DeleteBook.get_In _ _ _ Hnames Hentry) as G1.
    pose proof (DeleteBook.get_In _ _ _ Hnames Hentry0) as G2.
    rewrite G1 in G2. injection G2 as ->. exact Hinbooks. }
  destruct (Hdate book Hbook0 Hisbook) as [Hname0 Hcd].
  (* the disk the route leaves *)
  set (d1 := {| CollectionService.mkdirError := CollectionService.mkdirError d;
                CollectionService.readdirError := CollectionService.readdirError d;
                CollectionService.entries :=
                  Obj.set CollectionService.mainName
                    (CollectionService.Parsed
                       (CollectionService.JArray (DeleteBook.spliceBook id loaded)))
                    (CollectionService.entries d);
                CollectionService.writeError := CollectionService.writeError d |}).
  set (d2 := {| CollectionService.mkdirError := CollectionService.mkdirError d;
                CollectionService.readdirError := CollectionService.readdirError d;
                CollectionService.entries :=
                  Obj.set name0
                    (CollectionService.Parsed
                       (CollectionService.JArray (DeleteBook.spliceBook id books0)))
                    (CollectionService.entries d1);
                CollectionService.writeError := CollectionService.writeError d |}).
  assert (Hout : out = (DeleteBook.Redirect (DeleteBook.deleted (Book.title book)), d2)).
  { subst out. unfold DeleteBook.getDelete. rewrite Hloaded, Hfind.
    unfold CollectionService.writeFile at 1. rewrite Hwmain. fold d1.
    unfold DeleteBook.updateDated.
    destruct (Book.collectionDate book) as [| c s] eqn:Hc; [contradiction |].
    rewrite <- Hname0.
    assert (Hget : Obj.get name0 (CollectionService.entries d1)
                   = Some (CollectionService.Parsed (CollectionService.JArray books0))).
    { subst d1. cbn [CollectionService.entries].
      rewrite Obj.get_set_other by congruence.
      now apply DeleteBook.get_In. }
    rewrite Hget.
    destruct (DeleteBook.find_isBook id books0 book Hbook0 Hisbook) as [found Hfound].
    rewrite Hfound. unfold CollectionService.writeFile.
    change (CollectionService.writeError d1) with (CollectionService.writeError d).
    rewrite Hwdated. reflexivity. }
  rewrite Hout. cbn [fst snd]. split; [eexists; reflexivity |].
  assert (Hnames2 : NoDup (map fst (CollectionService.entries d2))).
  { subst d2 d1. cbn [CollectionService.entries]. now do 2 apply DeleteBook.keys_set. }
  assert (Hnew : In (name0,
                     CollectionService.Parsed
                       (CollectionService.JArray (DeleteBook.spliceBook id books0)))
                    (CollectionService.partitions d2)).
  { apply DeleteBook.partition_entry. split; [| exact Hpart0].
    subst d2. cbn [CollectionService.entries]. apply SaveProperties.In_set. }
  destruct (DeleteBook.spliceBook_spec id books0) as (_ & Hkeep & Hgone).
  destruct (DeleteBook.loaded_spec env d2) as (loaded2 & Hloaded2 & Hfrom2 & Hcover2).
  { exact Hdir. }
  { intros Hnone. rewrite Hnone in Hnew. contradiction. }
  exists loaded2. split; [exact Hloaded2 |]. split.
  - intros Hstill. apply in_map_iff in Hstill as [b' [Hb' Hin']].
    destruct (Hfrom2 b' Hin') as (nameX & booksX & HentryX & HinX).
    apply DeleteBook.partition_entry in HentryX as [HentryX HpartX].
    assert (HX : booksX = DeleteBook.spliceBook id books0).
    { assert (nameX = name0).
      { pose proof HentryX as Hwhere. subst d2. cbn [CollectionService.entries] in Hwhere.
        apply DeleteBook.In_set_inv in Hwhere as [Heq | Hwhere]; [now injection Heq |].
        subst d1. cbn [CollectionService.entries] in Hwhere.
        apply DeleteBook.In_set_inv in Hwhere as [Heq | Hwhere].
        - injection Heq as -> _. discriminate HpartX.
        - apply (Honly nameX booksX).
          + apply DeleteBook.partition_entry. now split.
          + apply in_map_iff. exists b'. now split. }
      subst nameX.
      pose proof (DeleteBook.get_In _ _ _ Hnames2 HentryX) as G.
      subst d2. cbn [CollectionService.entries] in G.
      rewrite Obj.get_set_same in G. now injection G. }
    subst booksX. apply (Hgone Honce). apply in_map_iff. exists b'. now split.
  - intros name books x Hentry Hx Hne.
    destruct (string_dec name name0) as [-> | Hother].
    + apply DeleteBook.partition_entry in Hentry as [Hentry _].
      pose proof (DeleteBook.get_In _ _ _ Hnames Hentry) as G1.
      pose proof (DeleteBook.get_In _ _ _ Hnames Hentry0) as G2.
      rewrite G1 in G2. injection G2 as ->.
      apply (Hcover2 name0 (DeleteBook.spliceBook id books0) x Hnew).
      apply in_map_iff in Hx as [bx [Hbx Hinx]].
      apply in_map_iff. exists bx. split; [exact Hbx |].
      apply Hkeep; [exact Hinx | congruence].
    + apply (Hcover2 name books x); [| exact Hx].
      apply DeleteBook.partition_entry in Hentry as [Hentry Hpart].
      apply DeleteBook.partition_entry. split; [| exact Hpart].
      subst d2 d1. cbn [CollectionService.entries].
      apply SaveProperties.In_set_other; [exact Hother |].
      apply SaveProperties.In_set_other; [| exact Hentry].
      intros ->. discriminate Hpart.
Qed.

(** On the sample installation: of the three papers of a saved run over
    arxiv, the second is deleted; the other two are still loaded. *)
Lemma deleted_book_is_gone_witness :
  let d :=
    CollectionService.disk
      (snd (CollectionService.collectData DeleteSample.env DeleteSample.config
              (CollectionService.constructor Installation.emptyDisk))) in
  let out := DeleteBook.getDelete DeleteSample.env "uuid-6" d in
  (exists title, fst out = DeleteBook.Redirect (DeleteBook.deleted title))
  /\ exists loaded,
       CollectionService.loadKnowledgeBooks DeleteSample.env (snd out)
       = CollectionService.JArray loaded
       /\ ~ In "uuid-6" (map Book.id loaded)
       /\ In "uuid-3" (map Book.id loaded)
       /\ In "uuid-9" (map Book.id loaded).
Proof.
  intros d out.
  set (books0 := StoreFacts.stored "knowledge-books-run-12.json" d).
  assert (Hdir : CollectionService.readdirError d = None) by (vm_compute; reflexivity).
  assert (Hnames : NoDup (map fst (CollectionService.entries d))).
  { vm_compute. repeat constructor; cbn; intuition discriminate. }
  assert (Hfile : In ("knowledge-books-run-12.json",
                      CollectionService.Parsed (CollectionService.JArray books0))
                     (CollectionService.partitions d))
    by (vm_compute; left; reflexivity).
  assert (Hid : In "uuid-6" (map Book.id books0)) by (vm_compute; right; left; reflexivity).
  assert (Honce : NoDup (map Book.id books0)).
  { vm_compute. repeat constructor; cbn; intuition discriminate. }
  assert (Honly : forall name books,
             In (name, CollectionService.Parsed (CollectionService.JArray books))
                (CollectionService.partitions d) ->
             In "uuid-6" (map Book.id books) -> name = "knowledge-books-run-12.json").
  { intros name books Hin _. vm_compute in Hin. destruct Hin as [Heq | []].
    now injection Heq. }
  assert (Hdate : forall b, In b books0 -> Book.id b = "uuid-6" ->
                            "knowledge-books-run-12.json"
                            = CollectionService.datedName (Book.collectionDate b)
                            /\ Book.collectionDate b <> EmptyString).
  { intros b Hb _. vm_compute in Hb.
    destruct Hb as [<- | [<- | [<- | []]]]; split; (reflexivity || discriminate). }
  pose proof (deleted_book_is_gone DeleteSample.env "uuid-6" d
                "knowledge-books-run-12.json" books0
                Hdir Hnames Hfile Hid Honce Honly Hdate eq_refl eq_refl) as H.
  cbv zeta in H. destruct H as (Hreply & loaded & Hloaded & Hgone & Hkept).
  split; [exact Hreply |]. exists loaded. split; [exact Hloaded |].
  split; [exact Hgone |]. split.
  - apply (Hkept "knowledge-books-run-12.json" books0 "uuid-3" Hfile);
      [vm_compute; left; reflexivity | discriminate].
  - apply (Hkept "knowledge-books-run-12.json" books0 "uuid-9" Hfile);
      [vm_compute; right; right; left; reflexivity | discriminate].
Defined.

(* ================================================================== *)
(** * The search page of the viewer: GET /search of search-routes.js *)
(* ================================================================== *)

Module SearchRoutes.

Import CollectionService.

(** The query string of the request, each parameter given at most once (so
    that it is a string); [maxResults] is what [parseInt] makes of it (NaN is
    [None]). *)
Record Request : Type := {
  q : option string;
  maxResults : option Z;
  saveToKnowledge : option string;
  message : option string
}.

(** What is given to the template. *)
Record Page : Type := {
  page_title : string;
  page_query : string;
  page_results : list RawItem.t;
  page_error : option string;
  page_maxResults : Z;
  page_saveToKnowledge : bool;
  page_message : option string;
  page_fromCache : option bool
}.

(** The cache of the routes, for the detail view; [savedIds] maps the
    position of a result to the id of the book made of it. *)
Record SearchCache : Type := {
  sc_results : list RawItem.t;
  sc_query : string;
  sc_timestamp : option Z;
  savedIds : list (nat * string)
}.

Record World : Type := {
  searchService : SearchService.t;
  searchCache : SearchCache;
  disk : Disk;
  count : nat
}.

Definition isOn (v : option string) : bool :=
  match v with
  | Some s => (s =? "on")%string
  | None => false
  end.

(** One item of [newItems]: an id is drawn, then the time is read.  A field
    the result does not have is the empty string. *)
Definition newItem (env : Env) (query : string) (result : RawItem.t) (n : nat)
  : Book.t * nat :=
  (Book.mk (uuidv4 env n)
     (or_else (RawItem.title result) EmptyString)
     (or_else (RawItem.summary result) EmptyString)
     (or_else (RawItem.content result) EmptyString)
     ("search" :: "duckduckgo" :: SearchService.splitTerms query)
     (Some (toISOString env (S n)))
     None
     "DuckDuckGo"
     (or_else (RawItem.sourceUrl result) EmptyString)
     EmptyString false EmptyString EmptyString,
   S (S n)).

Fixpoint newItems (env : Env) (query : string) (results : list RawItem.t) (n : nat)
  : list Book.t * nat :=
  match results with
  | [] => ([], n)
  | result :: rest =>
      let '(item, n) := newItem env query result n in
      let '(items, n) := newItems env query rest n in
      (item :: items, n)
  end.

Definition dated (collectionDate : string) (item : Book.t) : Book.t :=
  Book.mk (Book.id item) (Book.title item) (Book.summary item) (Book.content item)
    (Book.tags item) (Book.date item) (Book.createdAt item) (Book.source item)
    (Book.sourceUrl item) (Book.url item) (Book.isError item) (Book.collectionId item)
    collectionDate.

(** [saveToKnowledgeBooks(newItems)]: the dated file is written before the
    items are given their collection date.  (A merged file that holds no
    array is taken to hold nothing that can be spread.) *)
Definition saveToKnowledgeBooks (env : Env) (items : list Book.t) (d : Disk) (n : nat)
  : bool * Disk * nat :=
  let knowledgeBooks := loadKnowledgeBooks env d in
  let dateFormat := formatLocal env n in
  match writeFile (datedName dateFormat) items d with
  | Thrown _ => (false, d, S n)
  | Returned d1 =>
      match knowledgeBooks with
      | JOther => (false, d1, S n)
      | JArray existing =>
          match writeFile mainName (map (dated dateFormat) items ++ existing) d1 with
          | Thrown _ => (false, d1, S n)
          | Returned d2 => (true, d2, S n)
          end
      end
  end.

Definition withService (w : World) (s : SearchService.t) : World :=
  {| searchService := s; searchCache := searchCache w; disk := disk w; count := count w |}.

(** [router.get('/')].  The service is called as
    [search('duckduckgo', q, { maxResults: limit })]: its first argument, the
    query, is the name of the engine, and its second, the options, is the
    string typed by the user, which has none of the options. *)
Definition getSearch (web : DuckDuckGoAdapter.Web) (env : Env) (now stamp : Z)
    (req : Request) (w : World) : Page * World :=
  let limit := DuckDuckGoAdapter.num_or (maxResults req) 5 in
  let save := isOn (saveToKnowledge req) in
  if negb (truthy (q req))
  then ({| page_title := "Web Search"; page_query := EmptyString; page_results := [];
           page_error := None; page_maxResults := limit; page_saveToKnowledge := save;
           page_message := or_opt (message req) None; page_fromCache := None |},
        w)
  else
    let query := or_else (q req) EmptyString in
    let service1 := CacheProperties.setMaxResults "duckduckgo" limit (searchService w) in
    match SearchService.search web now stamp service1 "duckduckgo" SearchService.noOptions with
    | (Thrown m, service2) =>
        ({| page_title := "Search Error"; page_query := query; page_results := [];
            page_error := Some ("Search execution error: " +++ m);
            page_maxResults := limit; page_saveToKnowledge := save;
            page_message := None; page_fromCache := None |},
         withService w service2)
    | (Returned searchResults, service2) =>
        let results := SearchService.res_results searchResults in
        let cached :=
          {| sc_results := results; sc_query := query;
             sc_timestamp := SearchService.res_timestamp searchResults;
             savedIds := savedIds (searchCache w) |} in
        let page :=
          {| page_title := "Search: " +++ query; page_query := query;
             page_results := results; page_error := None;
             page_maxResults := limit; page_saveToKnowledge := save;
             page_message := or_opt (message req) None;
             page_fromCache := Some (SearchService.fromCache searchResults) |} in
        match save, results with
        | true, _ :: _ =>
            let '(items, n) := newItems env query results (count w) in
            let '(_, d, n) := saveToKnowledgeBooks env items (disk w) n in
            (page,
             {| searchService := service2;
                searchCache :=
                  {| sc_results := results; sc_query := query;
                     sc_timestamp := SearchService.res_timestamp searchResults;
                     savedIds := mapi (fun i item => (i, Book.id item)) items |};
                disk := d; count := n |})
        | _, _ =>
            (page,
             {| searchService := service2; searchCache := cached;
                disk := disk w; count := count w |})
        end
    end.

(** ** Facts *)

Lemma newItems_undated (env : Env) (query : string) (results : list RawItem.t) :
  forall n item, In item (fst (newItems env query results n)) ->
                 Book.collectionDate item = EmptyString.
Proof.
  induction results as [| result rest IH]; intros n item; cbn [newItems]; [intros [] |].
  unfold newItem.
  pose proof (IH (S (S n)) item) as Hrest.
  destruct (newItems env query rest (S (S n))) as [items n1]. cbn [fst] in *.
  intros [<- | Hin]; [reflexivity | now apply Hrest].
Qed.

(** What the page shows does not depend on the save. *)
Lemma page_getSearch (web : DuckDuckGoAdapter.Web) (env : Env) (now stamp : Z)
    (req : Request) (w : World) (c : ascii) (s : string) :
  q req = Some (String c s) ->
  let out :=
    SearchService.search web now stamp
      (CacheProperties.setMaxResults "duckduckgo" (DuckDuckGoAdapter.num_or (maxResults req) 5)
         (searchService w))
      "duckduckgo" SearchService.noOptions in
  match fst out with
  | Returned searchResults =>
      page_results (fst (getSearch web env now stamp req w))
      = SearchService.res_results searchResults
      /\ page_error (fst (getSearch web env now stamp req w)) = None
  | Thrown m =>
      page_results (fst (getSearch web env now stamp req w)) = []
      /\ page_error (fst (getSearch web env now stamp req w))
         = Some ("Search execution error: " +++ m)
  end.
Proof.
  intros Hq out. subst out. unfold getSearch. rewrite Hq. cbn [truthy negb or_else].
  destruct (SearchService.search web now stamp _ "duckduckgo" SearchService.noOptions)
    as [[searchResults | m] service2]; cbn [fst]; [| split; reflexivity].
  destruct (isOn (saveToKnowledge req)); [| split; reflexivity].
  destruct (SearchService.res_results searchResults) as [| r rest] eqn:Hr;
    [split; reflexivity |].
  destruct (newItems env (String c s) (r :: rest) (count w)) as [items n1].
  destruct (saveToKnowledgeBooks env items (disk w) n1) as [[ok d] n2].
  split; reflexivity.
Qed.

End SearchRoutes.

(** X30: the search page does not search for what the user typed.  For every
    non-empty query and every limit, the results it shows are those of the
    service searching for the word duckduckgo with no options (so with the
    default limit of the service, and from the cache when that word was
    searched less than [cacheTtl] seconds ago); the query only goes into the
    title of the page, and when the service throws, the error page is shown. *)
Theorem search_page_ignores_the_query (web : DuckDuckGoAdapter.Web)
    (env : CollectionService.Env) (now stamp : Z) (req : SearchRoutes.Request)
    (w : SearchRoutes.World) (c : ascii) (s : string) :
  SearchRoutes.q req = Some (String c s) ->
  let page := fst (SearchRoutes.getSearch web env now stamp req w) in
  let asked :=
    fst (SearchService.search web now stamp (SearchRoutes.searchService w)
           "duckduckgo" SearchService.noOptions) in
  SearchRoutes.page_query page = String c s
  /\ match asked with
     | Returned searchResults =>
         SearchRoutes.page_results page = SearchService.res_results searchResults
         /\ SearchRoutes.page_error page = None
     | Thrown m =>
         SearchRoutes.page_results page = []
         /\ SearchRoutes.page_error page = Some ("Search execution error: " +++ m)
     end.
Proof.
  intros Hq page asked. subst page asked. split.
  - unfold SearchRoutes.getSearch. rewrite Hq. cbn [truthy negb or_else].
    destruct (SearchService.search web now stamp _ "duckduckgo" SearchService.noOptions)
      as [[searchResults | m] service2]; [| reflexivity].
    destruct (SearchRoutes.isOn (SearchRoutes.saveToKnowledge req)); [| reflexivity].
    destruct (SearchService.res_results searchResults) as [| r rest]; [reflexivity |].
    destruct (SearchRoutes.newItems env (String c s) (r :: rest) (SearchRoutes.count w))
      as [items n1].
    destruct (SearchRoutes.saveToKnowledgeBooks env items (SearchRoutes.disk w) n1)
      as [[ok d] n2].
    reflexivity.
  - pose proof (SearchRoutes.page_getSearch web env now stamp req w c s Hq) as Hpage.
    cbv zeta in Hpage.
    assert (Hsame :
      fst (SearchService.search web now stamp
             (CacheProperties.setMaxResults "duckduckgo"
                (DuckDuckGoAdapter.num_or (SearchRoutes.maxResults req) 5)
                (SearchRoutes.searchService w))
             "duckduckgo" SearchService.noOptions)
      = fst (SearchService.search web now stamp (SearchRoutes.searchService w)
               "duckduckgo" SearchService.noOptions)).
    { destruct (SearchService.servedFromCache
                  (SearchService.search web now stamp (SearchRoutes.searchService w)
                     "duckduckgo" SearchService.noOptions)) eqn:E.
      - apply SearchService.served_iff_hit in E.
        pose proof (proj2 (LimitProperties.hit_setMaxResults now
                             (SearchRoutes.searchService w) "duckduckgo"
                             SearchService.noOptions "duckduckgo"
                             (DuckDuckGoAdapter.num_or (SearchRoutes.maxResults req) 5)) E)
          as E'.
        destruct E as [Hu (slot & ts & Hslot & Hrest)].
        assert (Hslot' :
          Obj.get (SearchService.engineOf SearchService.noOptions)
            (SearchService.cache
               (CacheProperties.setMaxResults "duckduckgo"
                  (DuckDuckGoAdapter.num_or (SearchRoutes.maxResults req) 5)
                  (SearchRoutes.searchService w)))
          = Some slot).
        { unfold CacheProperties.setMaxResults.
          destruct (Obj.get "duckduckgo"
                      (SearchService.adapters (SearchRoutes.searchService w)));
            exact Hslot. }
        rewrite (SearchService.search_hit web now stamp _ "duckduckgo"
                   SearchService.noOptions slot E' Hslot').
        rewrite (SearchService.search_hit web now stamp _ "duckduckgo"
                   SearchService.noOptions slot
                   (conj Hu (ex_intro _ slot (ex_intro _ ts (conj Hslot Hrest)))) Hslot).
        reflexivity.
      - assert (Hmiss : ~ SearchService.hit now (SearchRoutes.searchService w)
                          "duckduckgo" SearchService.noOptions).
        { intros H.
          apply (proj2 (SearchService.served_iff_hit web now stamp _ _ _)) in H.
          congruence. }
        rewrite (SearchService.search_miss web now stamp _ _ _ Hmiss).
        rewrite SearchService.search_miss.
        + change "duckduckgo" with (SearchService.engineOf SearchService.noOptions) at 1.
          now rewrite LimitProperties.refetch_setMaxResults.
        + intros H. apply Hmiss.
          exact (proj1 (LimitProperties.hit_setMaxResults now _ _ _ _ _) H). }
    rewrite Hsame in Hpage. exact Hpage.
Qed.

(** On the sample world: the user asks for quantum with a limit of one, and
    is shown the two pages found for duckduckgo. *)
Lemma search_page_ignores_the_query_witness :
  let req :=
    {| SearchRoutes.q := Some "quantum"; SearchRoutes.maxResults := Some 1;
       SearchRoutes.saveToKnowledge := None; SearchRoutes.message := None |} in
  let fresh :=
    SearchService.constructor
      {| SearchService.opt_cacheTtl := None; SearchService.opt_defaultMaxResults := None |} in
  let w :=
    {| SearchRoutes.searchService := fresh;
       SearchRoutes.searchCache :=
         {| SearchRoutes.sc_results := []; SearchRoutes.sc_query := EmptyString;
            SearchRoutes.sc_timestamp := None; SearchRoutes.savedIds := [] |};
       SearchRoutes.disk := Installation.emptyDisk; SearchRoutes.count := 0 |} in
  let page := fst (SearchRoutes.getSearch Sample.web DeleteSample.env 0 0 req w) in
  SearchRoutes.page_query page = "quantum"
  /\ SearchRoutes.page_results page
     = match fst (SearchService.search Sample.web 0 0 fresh "duckduckgo"
                    SearchService.noOptions) with
       | Returned searchResults => SearchService.res_results searchResults
       | Thrown _ => []
       end
  /\ List.length (SearchRoutes.page_results page) = 2%nat.
Proof.
  intros req fresh w page.
  pose proof (search_page_ignores_the_query Sample.web DeleteSample.env 0 0 req w
                "q"%char "uantum" eq_refl) as H.
  cbv zeta in H. destruct H as [Hquery Hresults].
  split; [exact Hquery |]. split; [| vm_compute; reflexivity].
  change (SearchRoutes.searchService w) with fresh in Hresults.
  destruct (fst (SearchService.search Sample.web 0 0 fresh "duckduckgo"
                   SearchService.noOptions)) as [searchResults | m];
    destruct Hresults as [Hr _]; exact Hr.
Defined.
